(* ===== verification/_CoqProject ===== *)
-Q . S2P
Prelude.v
GoString.v
GoTime.v
Locks.v
Encoding.v
Crypto.v
Json.v
JsonText.v
TextLemmas.v
TimeText.v
Http.v
Url.v
Form.v
ServeMux.v
UrlParse.v
Rar.v
Matcher.v
Policy.v
PolicyReload.v
StepUp.v
Claims.v
Effects.v
AuditLog.v
Telemetry.v
Cache.v
GoRedis.v
Revocation.v
Dpop.v
Concurrent.v
TokenExchange.v
Pkce.v
Fapi.v
Providers.v
Middleware.v
JwtValidator.v
TokenFactory.v
LocalAS.v
ClaimsMapper.v
Simulator.v
Tenant.v
RateLimit.v
RateLate.v
Admin.v
Guard.v
ConcurrentGuard.v
GuardPool.v
GuardTermination.v
StepUpFlow.v
Proxy.v
Router.v
Server.v
Metrics.v
Monitors.v
