(* ===== verification/Prelude.v ===== *)
(** * common-iam: a verification development

    The program (under [src/]) is an identity and access gateway in Go.  Every
    request passes [Guard.ServeHTTP] ([internal/gateway/guard.go]), which calls
    the other parts in this order:

    - the rate limiter ([internal/gateway/ratelimit.go]);
    - tenant resolution and the provider registry ([pkg/tenant]);
    - the extraction of the bearer token ([pkg/core/token/introspect.go]);
    - DPoP proof validation ([pkg/core/token/dpop.go]), which remembers proofs
      in the token cache;
    - the token cache ([pkg/core/token/cache.go]), and on a miss the tenant's
      provider ([pkg/providers]), which introspects the token; the claims are
      cached and indexed ([pkg/core/token/revocation.go]), so that a revocation
      webhook can evict them;
    - the FAPI 2.0 profile ([pkg/core/fapi]);
    - the policy engine ([pkg/core/policy], with [pkg/core/rar]);
    - step-up authentication ([pkg/core/stepup]): denials carry a challenge and
      a signed cookie with the request; coming back with the cookie replays it;
    - the audit log ([pkg/telemetry/audit.go]) records every decision.

    Around it: the router and the administration API
    ([internal/server/router.go], [internal/admin]), which reloads the policy
    the guard evaluates; the middlewares for four frameworks
    ([pkg/middleware]); local JWT validation ([pkg/core/token/jwtvalidator.go]),
    token exchange ([pkg/core/tokenexchange]) and the claims mapper
    ([pkg/providers/claims_mapper.go]); and a development kit ([pkg/devkit])
    with a token factory, a policy simulator and a local authorization server.

    ** Files

    Foundations: [Prelude] (errors, results, tactics, hint databases);
    [GoString] (strings, UTF-8, package strings, strconv); [GoTime] (64-bit
    integers, durations, instants); [Locks] (methods behind a mutex, access by
    access, and monitors as a class); [Encoding] (base64, hex); [Crypto] (SHA-2
    and HMAC computed in full, NIST curves, signature primitives as a class);
    [Json] (encoding/json: parser, printer, struct decoding) and [JsonText]
    (printed values read back); [TextLemmas]; [TimeText] (RFC 3339); [Http]
    (requests, responses, headers); [Url] (queries and their escapes); [Form]
    (media types, ParseForm); [ServeMux] (patterns, segments, redirects,
    StripPrefix); [UrlParse] (url.Parse and its printer); [Effects] (a state monad with a clock, zooming into a part of
    a state, handlers with early return).

    Components of the gateway, each with its state, operations and theorems:
    [Rar] (rar/types.go), [Matcher] (policy/matcher.go, path.Match included),
    [Policy] (policy/types.go, engine.go, loader.go), [PolicyReload] (the engine
    with reloads between its reads of the configuration), [StepUp]
    (stepup/*.go), [Claims] (token/claims.go, introspect.go), [AuditLog]
    (telemetry/audit.go), [Telemetry] (telemetry/logger.go, tracing.go),
    [Cache] (token/cache.go: the interface as class [Cache], its contract as
    class [CacheLaws], discharged by [MemoryCache] and, over [RedisLaws], by
    [RedisCache]), [GoRedis] (token/goredis/adapter.go, which discharges
    [RedisLaws] from the laws of the library), [Revocation]
    (token/revocation.go and the cached introspector), [Dpop] (token/dpop.go),
    [Concurrent] (the cached introspection, the webhook and the replay check as
    programs of atomic cache operations, and their interleavings), [Pkce]
    (pkce/pkce.go), [Fapi] (fapi/par.go, profile.go), [Providers]
    (providers/provider.go, generic, auth0 and keycloak adapters; the interface
    as class [Provider]), [Tenant] (tenant/*.go), [RateLimit]
    (gateway/ratelimit.go) and [RateLate] (its bound when parallel calls lock
    out of order), [Guard] (gateway/guard.go), [ConcurrentGuard] (the whole
    guard as a program of atomic operations, which alone is [Guard]),
    [GuardPool] (many of them interleaved) and [GuardTermination] (how many
    operations each makes), [Monitors] (the locked objects of the cache, the
    limiter, the registry, the adapters and the key set as monitors, and the
    two objects that race), [StepUpFlow] (the denial and the
    return of a client, across two requests), [Proxy] (gateway/proxy.go: the
    guard with the reverse proxy behind it), [Metrics] (telemetry/metrics.go
    and what the guard records), [Admin] (admin/handler.go, ui.go), [Router]
    (server/router.go: the guard, the administration API and the webhook over a
    shared store of engines), [Server] (server/server.go: the configuration,
    and the life of the HTTP server as a step relation).

    Beside the gateway: [TokenExchange] (tokenexchange/exchange.go),
    [Middleware] (the stdlib, gin, echo and gRPC adapters), [JwtValidator]
    (token/jwtvalidator.go), [TokenFactory] (devkit/tokenfactory/factory.go),
    [ClaimsMapper] (providers/claims_mapper.go), [Simulator]
    (devkit/simulator/policy.go), [LocalAS] (devkit/localas/server.go).

    ** How the code is modelled

    A definition has the name of the function it translates; a method that
    would clash is prefixed with its type ([Registry_Get], [Memory.Get]).
    Structs are records, pointers that may be nil are options, a pair
    [(value, error)] is a [res].  Integers are [Z], with [wrap64] or [clamp64]
    where the code's arithmetic can overflow or saturates.  Strings are byte
    strings.  Stateful code runs in [M S]: a state, and a clock whose n-th
    reading [time.Now] returns at its n-th call, so that time passes between two
    statements.  A cache operation takes the reading it makes.  The guard and
    its parts handle one request at a time there; background goroutines (cache
    and limiter cleaning) are operations that may occur between any two others.
    What parallel requests do to the shared state is the subject of three files
    whose programs, run alone, are proved to be the definitions of the
    sequential files: [Concurrent] for the cache routines, where an operation is
    one call of a cache; [PolicyReload] for the engine, where an operation is
    one unlocked read of the configuration pointer; and [ConcurrentGuard] with
    [GuardPool] for the whole guard, where an operation holds one lock, asks a
    provider, reads the clock or reads that pointer, and the registry, the
    providers and the configuration may be different at each.  That a call on a
    locked object is one operation is proved in [Monitors], from its code as
    single reads and writes under the lock ([Locks]).  The policy engine is
    shared through a pointer by the guard and the administration API: [Router]
    keeps engines in a store, and its theorems cover wirings that share one and
    wirings that do not.

    Parameters, with what is assumed of them as class laws or hypotheses: HTTP
    exchanges, YAML, go-redis ([GoRedisLaws]), Redis and the JSON codec of
    claims ([RedisLaws], [codec_keeps]), golang-jwt (a program that asks for
    keys and for the time, [JwtLibrary]; signing in the development kit), the
    calls of gin, echo and gRPC, promhttp, the embedded page, the signature
    primitives ([Signatures]), the Unicode tables beyond ASCII ([Unicode]), the
    time zone ([LocalTime]), crypto/rand and key generation, OpenTelemetry's
    trace id and the calls of its spans ([OpenTelemetry]), the transport of the
    reverse proxy, the events of the listener and of the connections, how
    url.Parse reads a host in brackets, the order in which Go ranges over a map,
    and the upstream handler.  The rate limiter is parametric in its floating-point type ([GoFloat]):
    binary64 for running it, the rationals for the bound.

    Fuel: the recursions that are not structural (UTF-8 decoding, the JSON
    parser, path.Match, SHA-2 chunks, media types, the base64 loop of the token
    factory) take the length of their input, and each step consumes some of it;
    the round-trip and matching theorems are stated of the fuelled functions, so
    they include that it suffices.  The programs of [Concurrent],
    [PolicyReload], [ConcurrentGuard] and [Locks] need none: they are
    well-founded, and [goroutines_finish] and [requests_end] bound their
    operations.

    ** What is proved

    - [Guard]: what is forwarded was authorised ([forwarded_is_authorized]);
      the decision at an instant is exactly the specification [accepted_at], so
      that acceptable requests are also let through ([guard_decides]); a request
      is rewritten only into an authentic saved one
      ([rewritten_is_saved_request]); the upstream's identity headers are the
      verified ones ([forwarded_headers_trusted]); each refusal is a challenge
      or a 429 ([refusal_is_challenge]); a revocation takes effect at once
      ([revocation_is_effective]).
    - [ConcurrentGuard], [GuardPool]: the interleaved program is the guard
      ([program_is_guard]), and whatever requests, webhook deliveries, cleanups,
      reloads and registrations interleave, what is forwarded was authorised
      while it was handled ([interleaved_guard_authorises]), and what panics read
      a policy configuration and then a lesser one that had replaced it
      ([panic_needs_reload]); [GuardTermination]: every
      request ends, after boundedly many operations ([requests_end]).
    - [Locks], [Monitors]: code that keeps to its lock has no data race, does not
      deadlock, ends, and is linearizable ([MemoryCache_linearizable] and the
      same for the other objects); the schedules on which two objects race.
    - [Proxy]: what is sent upstream behind the guard ([upstream_sees_verified]),
      and the header with which a client can strip the identity the guard set.
    - [Server]: what the source relies on of [net/http] when it shuts down
      ([shutdown_drains]), with the calls of the handler overlapping.
    - [StepUpFlow]: a denied client gets a challenge and a cookie, and coming
      back in time with a stronger token has the saved request forwarded
      ([step_up_completes]).
    - [Router], [Admin]: which handler a request reaches ([router_routes]); the
      policy changes only by an authorised reload
      ([policy_changes_only_by_reload]) and a reload governs the gateway from
      the next request on ([reload_takes_effect]).
    - [Concurrent]: in every interleaving, cached and returned claims are the
      provider's ([interleaved_introspection_genuine]); a revocation is final
      once no introspection of the token is under way
      ([revocation_final_when_quiet]), and the schedules that show why this is
      needed, that a proof can be accepted twice, and that an index can lose a
      token; every goroutine ends ([goroutines_finish]).
    - [Middleware], [JwtValidator], [TokenExchange]: what the adapters let
      through and that they agree; what a locally validated token is known to
      be and that key rotation is followed; what an exchange sends and returns.
    - [PolicyReload]: an evaluation that reloads interrupt allows only by an
      enabled rule that was in force, and panics only if a reload left fewer
      rules or none ([Evaluate_under_reload]); but it can allow what every
      configuration denies, and such a reload does make it panic.
    - [Policy], [Matcher], [Rar]: [Evaluate] allows exactly what the governing
      policy's requirements allow, [max_age] is safe against overflow, stronger
      tokens are allowed more, patterns match what they should.
    - [StepUp]: header and cookie round trips, authenticity of the cookie, the
      life cycle of a flow.
    - [Claims], [Cache], [Revocation]: introspected claims are exactly what the
      answer says ([introspected_claims_exact]); the memory
      cache refines its history; what events evict; what the cached introspector
      keeps; webhooks are authenticated.
    - [Dpop], [Pkce], [Fapi]: exact acceptance conditions, no replay of proofs
      whatever else the validator and its cache are used for in between,
      key binding up to hash collisions, nonce lifetimes, verifier round trips.
    - [Providers], [Tenant], [RateLimit], [AuditLog], [Telemetry], [Metrics]: fail-closed
      discovery, first-success resolution, registry histories, the admission
      bound, also for late readings ([allow_bounded_late]), and isolation of
      clients, delivery of events, the line format of
      the audit file and of the structured log, samples that fit their labels.
    - [TokenFactory], [ClaimsMapper], [Simulator], [LocalAS]: the hand-written
      base64url encoder is the standard one, the published keys are read back by
      the validator, generated claims are mapped back, the dry run agrees with
      the engine, and issued tokens introspect as issued until they expire or
      are revoked.

    ** Not modelled

    Of [net/http]: the bytes of a connection, what the timeouts cut off, and
    handlers that are under way while others read the same state, except as
    [GuardPool] interleaves them; in [Server] a call of the handler is its
    beginning and its answer.  Of the rate limiter: the rounding of binary64 in
    the bound, which is proved over the rationals.  Of the reverse proxy: trailers, 1xx answers
    and what follows a protocol switch.  Of Go's memory model: what a
    program with a data race does beyond the interleavings of its accesses,
    slices of an index entry that parallel appends share, and the preference of
    a waiting writer, which leaves fewer schedules.  The exposition of
    the metrics (promhttp) and the exporters of spans.  Of the development kit:
    what its listener and the shutdown of its server do.  The tests of
    the repository. *)

From stdpp Require Export base tactics decidable list strings gmap.
From Stdlib Require Export ZArith Lia.

#[global] Set Default Proof Using "Type".

(** ** Go errors

    A Go [error] is observed in two ways by the program: its text ([Error()])
    and the identities found along its [%w] chain ([errors.Is]). *)

Record error : Set := Error {
  err_text : string;
  err_is : list string
}.

#[export] Instance error_eq_dec : EqDecision error.
Proof. solve_decision. Defined.

(** [errors.New] bound to a package variable: a sentinel with its identity. *)
Definition sentinel (ident text : string) : error := Error text [ident].

(** [fmt.Errorf] without a [%w] verb. *)
Definition errorf (text : string) : error := Error text [].

(** [fmt.Errorf("prefix: %w", e)]. *)
Definition errorw (prefix : string) (e : error) : error :=
  Error (prefix +:+ ": " +:+ err_text e) (err_is e).

(** [errors.Is(e, target)] for a sentinel [target]. *)
Definition errors_Is (e target : error) : bool :=
  existsb (fun i => bool_decide (i ∈ err_is target)) (err_is e).

(** ** Results: a Go pair [(value, error)] of which exactly one is meaningful *)

Inductive res (A : Type) : Type :=
| Ok (a : A)
| Err (e : error).
Arguments Ok {A} _.
Arguments Err {A} _.

Definition is_ok {A} (r : res A) : bool :=
  match r with Ok _ => true | Err _ => false end.

#[export] Instance res_eq_dec `{EqDecision A} : EqDecision (res A).
Proof. solve_decision. Defined.

Declare Scope go_scope.
Delimit Scope go_scope with go.

(** [let? x := e in k]: return early with the error of [e]. *)
Notation "'let?' x ':=' e 'in' k" :=
  (match e with Ok x => k | Err err => Err err end)
  (at level 10, x pattern, e at level 100, k at level 200) : go_scope.
Open Scope go_scope.

(** An [error] result that carries no value: [None] is Go's [nil]. *)
Abbreviation no_error := (@None error).

(** ** Tactics *)

(** Case analysis on every [if] and [match] scrutinee in sight, keeping the
    equations and closing the contradictory branches. *)
Ltac break_match :=
  match goal with
  | |- context [match ?x with _ => _ end] => destruct x eqn:?
  end.
Ltac break_match_hyp :=
  match goal with
  | H : context [match ?x with _ => _ end] |- _ => destruct x eqn:?
  end.
Ltac crush_match := repeat (break_match; simplify_eq/=; try done).
Ltac crush_match_hyp := repeat (break_match_hyp; simplify_eq/=; try done).

(** [lia] with division and modulo by constants. *)
Ltac zlia := Z.to_euclidean_division_equations; lia.

(** Turn boolean facts into propositions. *)
Ltac b2p :=
  repeat match goal with
  | H : (_ && _) = true |- _ => apply andb_true_iff in H; destruct H
  | H : (_ || _) = false |- _ => apply orb_false_iff in H; destruct H
  | H : negb _ = true |- _ => apply negb_true_iff in H
  | H : negb _ = false |- _ => apply negb_false_iff in H
  | H : bool_decide _ = true |- _ => apply bool_decide_eq_true_1 in H
  | H : bool_decide _ = false |- _ => apply bool_decide_eq_false_1 in H
  | H : (_ =? _)%Z = true |- _ => apply Z.eqb_eq in H
  | H : (_ =? _)%Z = false |- _ => apply Z.eqb_neq in H
  | H : (_ <? _)%Z = true |- _ => apply Z.ltb_lt in H
  | H : (_ <? _)%Z = false |- _ => apply Z.ltb_ge in H
  | H : (_ <=? _)%Z = true |- _ => apply Z.leb_le in H
  | H : (_ <=? _)%Z = false |- _ => apply Z.leb_gt in H
  | H : String.eqb _ _ = true |- _ => apply String.eqb_eq in H
  | H : String.eqb _ _ = false |- _ => apply String.eqb_neq in H
  end.

(** ** Hint databases

    [go_str] collects rewriting facts on strings, [go_res] facts on results. *)
Create Rewrite HintDb go_str.
Create HintDb go_res.

(** ** Generic lemmas *)

Lemma existsb_eqb_elem (l : list string) (x : string) :
  existsb (fun y => String.eqb y x) l = true <-> x ∈ l.
Proof.
  rewrite existsb_exists. split.
  - intros (y & Hin & Heq). apply String.eqb_eq in Heq as ->.
    by apply list_elem_of_In.
  - intros Hin. exists x. split; [by apply list_elem_of_In|].
    by apply String.eqb_eq.
Qed.

Lemma is_ok_Ok {A} (r : res A) : is_ok r = true <-> exists a, r = Ok a.
Proof. destruct r as [a|e]; simpl; split; [by exists a|done|done|by intros [? [=]]]. Qed.
