(* ===== verification/GoString.v ===== *)
(** * Go strings

    A Go [string] is a sequence of bytes: [string], whose characters are the
    256 values of [ascii].  This file has the functions of the packages
    [strings], [unicode/utf8], [strconv] and [fmt] the program calls, and the
    lemmas the components use about them.  The tables of package [unicode]
    beyond ASCII (case folding, printability) are the class [Unicode]. *)

From Stdlib Require Export Ascii String.
From Stdlib Require Import DecimalString DecimalZ.
From S2P Require Import Prelude.
#[global] Arguments String.append !_ _ : simpl nomatch.
Open Scope string_scope.
Open Scope Z_scope.

Abbreviation str_len s := (Z.of_nat (String.length s)).

Definition byte_val (c : ascii) : Z := Z.of_N (N_of_ascii c).
Definition of_byte (z : Z) : ascii := ascii_of_N (Z.to_N (z mod 256)).

(** Byte slices of a string. *)
Fixpoint str_drop (n : nat) (s : string) : string :=
  match n, s with
  | O, _ => s
  | S n', String _ s' => str_drop n' s'
  | S _, EmptyString => EmptyString
  end.

Fixpoint str_take (n : nat) (s : string) : string :=
  match n, s with
  | O, _ => EmptyString
  | S n', String c s' => String c (str_take n' s')
  | S _, EmptyString => EmptyString
  end.

Fixpoint str_bytes (s : string) : list ascii :=
  match s with
  | EmptyString => []
  | String c s' => c :: str_bytes s'
  end.

Fixpoint bytes_str (l : list ascii) : string :=
  match l with
  | [] => EmptyString
  | c :: l' => String c (bytes_str l')
  end.

Definition str_forall (p : ascii -> bool) (s : string) : bool := forallb p (str_bytes s).

(** ** Package [strings] *)

(** [strings.HasPrefix(s, p)]. *)
Fixpoint HasPrefix (s p : string) {struct p} : bool :=
  match p, s with
  | EmptyString, _ => true
  | String a p', String b s' => Ascii.eqb a b && HasPrefix s' p'
  | String _ _, EmptyString => false
  end.

Definition TrimPrefix (s p : string) : string :=
  if HasPrefix s p then str_drop (String.length p) s else s.

(** [strings.CutPrefix(s, p)]. *)
Definition CutPrefix (s p : string) : string * bool :=
  if HasPrefix s p then (str_drop (String.length p) s, true) else (s, false).

Definition HasSuffix (s p : string) : bool :=
  Nat.leb (String.length p) (String.length s) &&
  String.eqb (str_drop (String.length s - String.length p) s) p.

Definition TrimSuffix (s p : string) : string :=
  if HasSuffix s p then str_take (String.length s - String.length p) s else s.

(** [strings.Cut(s, sep)]: the parts around the first occurrence of [sep]. *)
Fixpoint Cut (s sep : string) : option (string * string) :=
  if HasPrefix s sep then Some (EmptyString, str_drop (String.length sep) s)
  else match s with
       | EmptyString => None
       | String c s' =>
           match Cut s' sep with
           | Some (a, b) => Some (String c a, b)
           | None => None
           end
       end.

(** [strings.SplitN(s, sep, 2)] for a non-empty [sep]. *)
Definition SplitN2 (s sep : string) : list string :=
  match Cut s sep with
  | Some (a, b) => [a; b]
  | None => [s]
  end.

Definition Contains (s sub : string) : bool :=
  match Cut s sub with Some _ => true | None => false end.

(** [strings.Split(s, c)] for a one-byte separator. *)
Fixpoint Split (s : string) (sep : ascii) : list string :=
  match s with
  | EmptyString => [EmptyString]
  | String c s' =>
      if Ascii.eqb c sep then EmptyString :: Split s' sep
      else match Split s' sep with
           | h :: t => String c h :: t
           | [] => [String c EmptyString]
           end
  end.

(** [strings.Join(l, sep)]. *)
Fixpoint Join (l : list string) (sep : string) : string :=
  match l with
  | [] => EmptyString
  | [x] => x
  | x :: l' => x +:+ sep +:+ Join l' sep
  end.

(** [strings.TrimLeft] and [strings.TrimRight] for an ASCII cut set. *)
Fixpoint trim_left (p : ascii -> bool) (s : string) : string :=
  match s with
  | EmptyString => EmptyString
  | String c s' => if p c then trim_left p s' else s
  end.

Fixpoint trim_right (p : ascii -> bool) (s : string) : string :=
  match s with
  | EmptyString => EmptyString
  | String c s' =>
      match trim_right p s' with
      | EmptyString => if p c then EmptyString else String c EmptyString
      | t => String c t
      end
  end.

Definition TrimRight (s : string) (cut : ascii) : string := trim_right (Ascii.eqb cut) s.
Definition Trim (s : string) (cut : ascii) : string :=
  trim_right (Ascii.eqb cut) (trim_left (Ascii.eqb cut) s).

(** [strings.LastIndex(s, c)] and [strings.IndexByte(s, c)]; [None] is -1. *)
Fixpoint IndexByte (s : string) (c : ascii) : option nat :=
  match s with
  | EmptyString => None
  | String a s' => if Ascii.eqb a c then Some O else S <$> IndexByte s' c
  end.

Fixpoint LastIndexByte (s : string) (c : ascii) : option nat :=
  match s with
  | EmptyString => None
  | String a s' =>
      match LastIndexByte s' c with
      | Some i => Some (S i)
      | None => if Ascii.eqb a c then Some O else None
      end
  end.

(** [strings.Repeat(s, n)]. *)
Fixpoint Repeat (s : string) (n : nat) : string :=
  match n with O => EmptyString | S n' => s +:+ Repeat s n' end.

(** ** UTF-8 *)

Definition RuneError : Z := 65533.

Definition in_range (lo hi z : Z) : bool := (lo <=? z) && (z <=? hi).

(** [utf8.DecodeRuneInString]: the rune and its width in bytes. *)
Definition decode_rune (s : string) : Z * nat :=
  match s with
  | EmptyString => (RuneError, O)
  | String c0 r0 =>
      let b0 := byte_val c0 in
      if b0 <? 128 then (b0, 1%nat) else
      match r0 with
      | EmptyString => (RuneError, 1%nat)
      | String c1 r1 =>
          let b1 := byte_val c1 in
          if in_range 194 223 b0 then
            if in_range 128 191 b1
            then (Z.lor (Z.shiftl (Z.land b0 31) 6) (Z.land b1 63), 2%nat)
            else (RuneError, 1%nat)
          else
          let lo := if b0 =? 224 then 160 else if b0 =? 240 then 144 else 128 in
          let hi := if b0 =? 237 then 159 else if b0 =? 244 then 143 else 191 in
          if negb (in_range 224 244 b0 && in_range lo hi b1) then (RuneError, 1%nat) else
          match r1 with
          | EmptyString => (RuneError, 1%nat)
          | String c2 r2 =>
              let b2 := byte_val c2 in
              if negb (in_range 128 191 b2) then (RuneError, 1%nat) else
              if b0 <? 240 then
                (Z.lor (Z.shiftl (Z.land b0 15) 12)
                   (Z.lor (Z.shiftl (Z.land b1 63) 6) (Z.land b2 63)), 3%nat)
              else
              match r2 with
              | EmptyString => (RuneError, 1%nat)
              | String c3 _ =>
                  let b3 := byte_val c3 in
                  if negb (in_range 128 191 b3) then (RuneError, 1%nat) else
                  (Z.lor (Z.shiftl (Z.land b0 7) 18)
                     (Z.lor (Z.shiftl (Z.land b1 63) 12)
                        (Z.lor (Z.shiftl (Z.land b2 63) 6) (Z.land b3 63))), 4%nat)
              end
          end
      end
  end.

(** [utf8.AppendRune(nil, r)]. *)
Definition encode_rune (r : Z) : string :=
  let cont z := of_byte (Z.lor 128 (Z.land z 63)) in
  if in_range 0 127 r then String (of_byte r) EmptyString
  else if in_range 128 2047 r then
    String (of_byte (Z.lor 192 (Z.shiftr r 6))) (String (cont r) EmptyString)
  else
  let r := if in_range 55296 57343 r || (r <? 0) || (1114111 <? r) then RuneError else r in
  if r <? 65536 then
    String (of_byte (Z.lor 224 (Z.shiftr r 12)))
      (String (cont (Z.shiftr r 6)) (String (cont r) EmptyString))
  else
    String (of_byte (Z.lor 240 (Z.shiftr r 18)))
      (String (cont (Z.shiftr r 12))
         (String (cont (Z.shiftr r 6)) (String (cont r) EmptyString))).

(** The iteration of [for _, c := range s]: each rune with its bytes.  The
    fuel is the length of the string; every step consumes a byte. *)
Fixpoint runes_fuel (fuel : nat) (s : string) : list (Z * string) :=
  match fuel, s with
  | S f, String _ _ =>
      let '(r, w) := decode_rune s in
      (r, str_take w s) :: runes_fuel f (str_drop w s)
  | _, _ => []
  end.
Definition runes (s : string) : list (Z * string) := runes_fuel (String.length s) s.

(** ** Runes beyond ASCII *)

(** [uni_fold] maps a rune to a representative of its [unicode.SimpleFold]
    orbit, the other fields are [unicode.ToUpper], [unicode.ToLower] and
    [strconv.IsPrint]; they are only consulted for runes from U+0080. *)
Class Unicode := {
  uni_fold : Z -> Z;
  uni_upper : Z -> Z;
  uni_lower : Z -> Z;
  uni_print : Z -> bool
}.

(** The table restricted to the two orbits that meet ASCII (the Kelvin sign
    and the long s), enough to evaluate concrete inputs. *)
Definition unicode_min : Unicode := {|
  uni_fold r := if r =? 8490 then 107 else if r =? 383 then 115 else r;
  uni_upper r := if r =? 383 then 83 else r;
  uni_lower r := if r =? 8490 then 107 else r;
  uni_print _ := true
|}.

Definition is_upper (r : Z) : bool := in_range 65 90 r.
Definition is_lower (r : Z) : bool := in_range 97 122 r.

(** [unicode.IsSpace]. *)
Definition IsSpace (r : Z) : bool :=
  in_range 9 13 r || (r =? 32) || (r =? 133) || (r =? 160) || (r =? 5760) ||
  in_range 8192 8202 r || (r =? 8232) || (r =? 8233) || (r =? 8239) ||
  (r =? 8287) || (r =? 12288).

Definition concat_chunks (l : list (Z * string)) : string :=
  foldr (fun x acc => snd x +:+ acc) EmptyString l.

Fixpoint drop_while {A} (p : A -> bool) (l : list A) : list A :=
  match l with
  | [] => []
  | x :: l' => if p x then drop_while p l' else l
  end.

(** [strings.TrimSpace]. *)
Definition TrimSpace (s : string) : string :=
  concat_chunks
    (rev (drop_while (fun x => IsSpace (fst x))
       (rev (drop_while (fun x => IsSpace (fst x)) (runes s))))).

(** [strings.Fields]. *)
Fixpoint fields_acc (cur : string) (l : list (Z * string)) : list string :=
  match l with
  | [] => if String.eqb cur EmptyString then [] else [cur]
  | (r, b) :: l' =>
      if IsSpace r
      then if String.eqb cur EmptyString then fields_acc EmptyString l'
           else cur :: fields_acc EmptyString l'
      else fields_acc (cur +:+ b) l'
  end.
Definition Fields (s : string) : list string := fields_acc EmptyString (runes s).

Section WithUnicode.
Context {U : Unicode}.

Definition upper_rune (r : Z) : Z :=
  if r <? 128 then if is_lower r then r - 32 else r else uni_upper r.
Definition lower_rune (r : Z) : Z :=
  if r <? 128 then if is_upper r then r + 32 else r else uni_lower r.
Definition fold_rune (r : Z) : Z :=
  if r <? 128 then if is_upper r then r + 32 else r else uni_fold r.

Definition map_runes (f : Z -> Z) (s : string) : string :=
  foldr (fun x acc => encode_rune (f (fst x)) +:+ acc) EmptyString (runes s).

(** [strings.ToUpper], [strings.ToLower], [strings.EqualFold]. *)
Definition ToUpper (s : string) : string := map_runes upper_rune s.
Definition ToLower (s : string) : string := map_runes lower_rune s.

Definition fold_key (s : string) : list Z := map (fun x => fold_rune (fst x)) (runes s).
Definition EqualFold (s t : string) : bool := bool_decide (fold_key s = fold_key t).
End WithUnicode.

(** ** Package [strconv] and the verbs of [fmt] *)

Definition hex_digit (z : Z) : ascii :=
  if z <? 10 then of_byte (48 + z) else of_byte (87 + z).

Fixpoint hex_pad (n : nat) (z : Z) : string :=
  match n with
  | O => EmptyString
  | S n' => String (hex_digit (Z.land (Z.shiftr z (4 * Z.of_nat n')) 15)) (hex_pad n' z)
  end.

Definition dquote : ascii := "034".
Definition backslash : ascii := "\".
Definition str1 (c : ascii) : string := String c EmptyString.

Definition escape1 (c : ascii) : string := String backslash (str1 c).

Section Quote.
Context {U : Unicode}.

Definition is_print (r : Z) : bool := if r <? 128 then in_range 32 126 r else uni_print r.

(** [appendEscapedRune] for a quoting character. *)
Definition escaped_rune (quote r : Z) : string :=
  if (r =? quote) || (r =? 92) then escape1 (of_byte r)
  else if is_print r then encode_rune r
  else if r =? 7 then escape1 "a"
  else if r =? 8 then escape1 "b"
  else if r =? 12 then escape1 "f"
  else if r =? 10 then escape1 "n"
  else if r =? 13 then escape1 "r"
  else if r =? 9 then escape1 "t"
  else if r =? 11 then escape1 "v"
  else if (r <? 32) || (r =? 127) then escape1 "x" +:+ hex_pad 2 r
  else if r <? 65536 then escape1 "u" +:+ hex_pad 4 r
  else escape1 "U" +:+ hex_pad 8 r.

Definition quote_rune (x : Z * string) : string :=
  let '(r, b) := x in
  if (r =? RuneError) && Nat.eqb (String.length b) 1 then
    escape1 "x" +:+ match b with String c _ => hex_pad 2 (byte_val c) | _ => EmptyString end
  else escaped_rune 34 r.

(** The verb [%q] on a rune. *)
Definition QuoteRune (r : Z) : string := "'" +:+ escaped_rune 39 r +:+ "'".

(** The verb [%q] on a string: [strconv.Quote]. *)
Definition Quote (s : string) : string :=
  str1 dquote +:+ foldr (fun x acc => quote_rune x +:+ acc) EmptyString (runes s) +:+ str1 dquote.
End Quote.

(** The verb [%d]. *)
Definition fmt_d (z : Z) : string := NilZero.string_of_int (Z.to_int z).

(** The verb [%v] on a [[]string]. *)
Definition fmt_strings (l : list string) : string := "[" +:+ Join l " " +:+ "]".

(** ** Lemmas: bytes and concatenation *)

Lemma str_app_nil_r s : s +:+ EmptyString = s.
Proof. induction s; simpl; [done|]. by f_equal. Qed.

Lemma str_app_assoc s t u : (s +:+ t) +:+ u = s +:+ t +:+ u.
Proof. induction s; simpl; [done|]. by f_equal. Qed.

Lemma str_app_cons c s t : String c s +:+ t = String c (s +:+ t).
Proof. done. Qed.

Lemma str_bytes_app s t : str_bytes (s +:+ t) = (str_bytes s ++ str_bytes t)%list.
Proof. induction s; simpl; [done|]. by f_equal. Qed.

Lemma bytes_str_bytes s : bytes_str (str_bytes s) = s.
Proof. induction s; simpl; [done|]. by f_equal. Qed.

Lemma str_bytes_str l : str_bytes (bytes_str l) = l.
Proof. induction l; simpl; [done|]. by f_equal. Qed.

Lemma bytes_str_app l k : bytes_str (l ++ k)%list = bytes_str l +:+ bytes_str k.
Proof. induction l; simpl; [done|]. by f_equal. Qed.

Lemma str_bytes_inj s t : str_bytes s = str_bytes t -> s = t.
Proof. intros H. by rewrite <- (bytes_str_bytes s), H, bytes_str_bytes. Qed.

Lemma length_str_bytes s : length (str_bytes s) = String.length s.
Proof. induction s; simpl; [done|]. by f_equal. Qed.

Lemma length_bytes_str l : String.length (bytes_str l) = length l.
Proof. induction l; simpl; [done|]. by f_equal. Qed.

Lemma str_length_app s t :
  String.length (s +:+ t) = (String.length s + String.length t)%nat.
Proof. induction s; simpl; [done|]. by f_equal. Qed.

Lemma str_app_inj_l s t u : s +:+ t = s +:+ u -> t = u.
Proof. induction s; simpl; [done|]. intros H. simplify_eq. by apply IHs. Qed.

Lemma str_drop_app s t : str_drop (String.length s) (s +:+ t) = t.
Proof. by induction s. Qed.

Lemma str_take_app s t : str_take (String.length s) (s +:+ t) = s.
Proof. induction s; simpl; [by destruct t|]. by f_equal. Qed.

Lemma str_take_all s : str_take (String.length s) s = s.
Proof. induction s; simpl; [done|]. by f_equal. Qed.

Lemma str_take_drop n s : str_take n s +:+ str_drop n s = s.
Proof. revert s. induction n; intros [|c s]; simpl; [done..|]. by rewrite IHn. Qed.

#[export] Hint Rewrite str_app_nil_r str_app_assoc str_bytes_app str_length_app
  str_drop_app str_take_app bytes_str_bytes str_bytes_str : go_str.

Lemma str_forall_app p s t : str_forall p (s +:+ t) = str_forall p s && str_forall p t.
Proof. unfold str_forall. by rewrite str_bytes_app, forallb_app. Qed.

Lemma str_forall_spec p s :
  str_forall p s = true <-> forall c, c ∈ str_bytes s -> p c = true.
Proof.
  unfold str_forall. rewrite forallb_forall.
  by setoid_rewrite list_elem_of_In.
Qed.

Lemma str_forall_weaken (p q : ascii -> bool) s :
  (forall c, p c = true -> q c = true) -> str_forall p s = true -> str_forall q s = true.
Proof. rewrite !str_forall_spec. eauto. Qed.

Lemma str_forall_not_elem p s c :
  str_forall p s = true -> p c = false -> c ∉ str_bytes s.
Proof. rewrite str_forall_spec. intros H Hc Hin. rewrite H in Hc; done. Qed.

(** ** Lemmas: prefixes, suffixes and cuts *)

Lemma HasPrefix_spec s p : HasPrefix s p = true <-> exists t, s = p +:+ t.
Proof.
  revert s. induction p as [|a p IH]; intros s; simpl.
  - split; [intros _; by exists s|done].
  - destruct s as [|b s]; [split; [done|by intros [? [=]]]|].
    rewrite andb_true_iff, Ascii.eqb_eq, IH. split.
    + intros [-> [t ->]]. by exists t.
    + intros [t [= -> ->]]. by eauto.
Qed.

Lemma HasPrefix_app p t : HasPrefix (p +:+ t) p = true.
Proof. apply HasPrefix_spec. by exists t. Qed.

Lemma TrimPrefix_app p t : TrimPrefix (p +:+ t) p = t.
Proof. unfold TrimPrefix. by rewrite HasPrefix_app, str_drop_app. Qed.

Lemma HasSuffix_spec s p : HasSuffix s p = true <-> exists t, s = t +:+ p.
Proof.
  unfold HasSuffix. rewrite andb_true_iff, Nat.leb_le, String.eqb_eq. split.
  - intros [_ Hd]. exists (str_take (String.length s - String.length p) s).
    rewrite <- Hd at 2. by rewrite str_take_drop.
  - intros [t ->]. rewrite str_length_app. split; [lia|].
    replace (_ - _)%nat with (String.length t) by lia. apply str_drop_app.
Qed.

Lemma TrimSuffix_app t p : TrimSuffix (t +:+ p) p = t.
Proof.
  unfold TrimSuffix. rewrite (proj2 (HasSuffix_spec _ _)) by eauto.
  rewrite str_length_app. replace (_ - _)%nat with (String.length t) by lia.
  apply str_take_app.
Qed.

Lemma HasPrefix_drop s p :
  HasPrefix s p = true -> s = p +:+ str_drop (String.length p) s.
Proof. rewrite HasPrefix_spec. intros [t ->]. by rewrite str_drop_app. Qed.

Lemma Cut_Some s sep a b : Cut s sep = Some (a, b) -> s = a +:+ sep +:+ b.
Proof.
  revert a b. induction s as [|c s IH]; intros a b; simpl;
    destruct (HasPrefix _ sep) eqn:Hp; try done.
  - intros [= <- <-]. by apply HasPrefix_drop in Hp.
  - intros [= <- <-]. by apply HasPrefix_drop in Hp.
  - destruct (Cut s sep) as [[a' b']|]; [|done]. intros [= <- <-].
    simpl. f_equal. by apply IH.
Qed.

Lemma Cut_byte_first c a b : c ∉ str_bytes a -> Cut (a +:+ String c b) (str1 c) = Some (a, b).
Proof.
  induction a as [|x a IH]; simpl.
  - intros _. by rewrite Ascii.eqb_refl.
  - intros Hn. destruct (Ascii.eqb_spec c x) as [->|Hne]; [set_solver|].
    simpl. rewrite IH by set_solver. done.
Qed.

Lemma Cut_byte_None c s : c ∉ str_bytes s -> Cut s (str1 c) = None.
Proof.
  induction s as [|x s IH]; simpl; [done|].
  intros Hn. destruct (Ascii.eqb_spec c x) as [->|Hne]; [set_solver|].
  simpl. rewrite IH by set_solver. done.
Qed.

(** ** Lemmas: splitting and joining *)

Lemma LastIndexByte_None s c : c ∉ str_bytes s -> LastIndexByte s c = None.
Proof.
  induction s as [|a s IH]; [done|]. cbn [str_bytes LastIndexByte]. rewrite not_elem_of_cons. intros [Hne Hs].
  rewrite IH by done. by destruct (Ascii.eqb_spec a c) as [->|].
Qed.

Lemma IndexByte_None s c : IndexByte s c = None <-> c ∉ str_bytes s.
Proof.
  induction s as [|a s IH]; cbn [IndexByte str_bytes]; [split; [intros _; apply not_elem_of_nil|done]|].
  rewrite not_elem_of_cons, <- IH. destruct (Ascii.eqb_spec a c) as [->|Hne]; [naive_solver|].
  destruct (IndexByte s c); naive_solver.
Qed.

Lemma IndexByte_first a c b : c ∉ str_bytes a -> IndexByte (a +:+ String c b) c = Some (String.length a).
Proof.
  induction a as [|x a IH]; cbn [append IndexByte str_bytes String.length].
  - by rewrite Ascii.eqb_refl.
  - rewrite not_elem_of_cons. intros [Hne Ha]. rewrite IH by done. by destruct (Ascii.eqb_spec x c) as [->|].
Qed.

Lemma Split_not_elem sep s : sep ∉ str_bytes s -> Split s sep = [s].
Proof.
  induction s as [|c s IH]; simpl; [done|]. intros Hn.
  destruct (Ascii.eqb_spec c sep) as [->|_]; [set_solver|].
  by rewrite IH by set_solver.
Qed.

Lemma Split_app sep a b :
  sep ∉ str_bytes a -> Split (a +:+ String sep b) sep = a :: Split b sep.
Proof.
  induction a as [|c a IH]; simpl.
  - intros _. by rewrite Ascii.eqb_refl.
  - intros Hn. destruct (Ascii.eqb_spec c sep) as [->|_]; [set_solver|].
    by rewrite IH by set_solver.
Qed.

Lemma Split_not_nil sep s : Split s sep <> [].
Proof. destruct s; simpl; [done|]. by repeat case_match. Qed.

(** ** Lemmas: trimming *)

Lemma trim_right_last p s c : p c = false -> trim_right p (s +:+ str1 c) = s +:+ str1 c.
Proof.
  intros Hp. induction s as [|x s IH]; simpl; [by rewrite Hp|].
  rewrite IH. by destruct s.
Qed.

Lemma trim_right_all p s : str_forall p s = true -> trim_right p s = EmptyString.
Proof.
  unfold str_forall. induction s as [|x s IH]; simpl; [done|].
  rewrite andb_true_iff. intros [Hx Hs]. by rewrite IH, Hx.
Qed.

Lemma trim_right_app p s t :
  str_forall p t = true -> trim_right p (s +:+ t) = trim_right p s.
Proof.
  intros Ht. induction s as [|x s IH]; simpl; [by apply trim_right_all|].
  by rewrite IH.
Qed.

Lemma trim_right_spec p s :
  exists t, s = trim_right p s +:+ t /\ str_forall p t = true /\
    (trim_right p s = EmptyString \/
     exists u c, trim_right p s = u +:+ str1 c /\ p c = false).
Proof.
  induction s as [|x s (t & Hs & Ht & IH)]; [by exists EmptyString; eauto|].
  simpl. destruct (trim_right p s) as [|y r] eqn:Hr.
  - destruct (p x) eqn:Hpx.
    + exists (String x t). simpl in Hs. subst t. split; [done|].
      split; [|by left]. unfold str_forall in *. simpl. by rewrite Hpx.
    + exists t. split; [by rewrite Hs at 1|]. split; [done|]. right.
      by exists EmptyString, x.
  - exists t. split; [by rewrite Hs at 1|]. split; [done|]. right.
    destruct IH as [[=]|(u & c & Hu & Hc)]. exists (String x u), c.
    by rewrite Hu.
Qed.

Lemma trim_right_idem p s : trim_right p (trim_right p s) = trim_right p s.
Proof.
  destruct (trim_right_spec p s) as (t & _ & _ & [->|(u & c & -> & Hc)]); [done|].
  by apply trim_right_last.
Qed.

(** ** Lemmas: decompositions *)

Lemma str_app_eq_app a b c d :
  a +:+ b = c +:+ d ->
  (exists u, c = a +:+ u /\ b = u +:+ d) \/ (exists u, a = c +:+ u /\ d = u +:+ b).
Proof.
  revert c. induction a as [|x a IH]; intros c H; [left; by exists c|].
  destruct c as [|y c]; [right; by exists (String x a)|]. simpl in H.
  injection H as -> H. destruct (IH _ H) as [(u & -> & ->)|(u & -> & ->)]; eauto.
Qed.

Lemma str_app_cancel_r a b t : a +:+ t = b +:+ t -> a = b.
Proof.
  intros H. destruct (str_app_eq_app _ _ _ _ H) as [(u & -> & Hu)|(u & -> & Hu)];
    apply (f_equal String.length) in Hu; rewrite str_length_app in Hu;
    (destruct u; [by rewrite str_app_nil_r|simpl in Hu; lia]).
Qed.

Lemma Cut_app_not_None a sep b : Cut (a +:+ sep +:+ b) sep <> None.
Proof.
  induction a as [|x a IH]; simpl.
  - destruct (sep +:+ b) eqn:E; simpl; rewrite <- ?E, HasPrefix_app; done.
  - destruct (HasPrefix _ sep); [done|]. by destruct (Cut _ sep) as [[]|].
Qed.

Lemma Contains_app a sep b : Contains (a +:+ sep +:+ b) sep = true.
Proof. unfold Contains. pose proof (Cut_app_not_None a sep b). by destruct (Cut _ sep). Qed.
