(* ===== verification/GoTime.v ===== *)
(** * Go integers, durations and instants

    [int] and [int64] are 64-bit two's complement integers: values of [Z] with
    [wrap64] applied where the code's arithmetic can overflow.  A
    [time.Duration] is an [int64] count of nanoseconds.  A [time.Time] is the
    number of nanoseconds since the Unix epoch on one clock (the wall clock and
    the monotonic reading are not distinguished); the zero [Time] is the first
    instant of year 1. *)

From S2P Require Import Prelude GoString.

(** ** 64-bit integers *)

Definition max_int64 : Z := 2 ^ 63 - 1.
Definition min_int64 : Z := - 2 ^ 63.
Definition wrap64 (z : Z) : Z := (z + 2 ^ 63) mod 2 ^ 64 - 2 ^ 63.
Definition clamp64 (z : Z) : Z := Z.max min_int64 (Z.min max_int64 z).
Definition int64_ok (z : Z) : Prop := min_int64 <= z <= max_int64.

Lemma wrap64_id z : int64_ok z -> wrap64 z = z.
Proof.
  unfold int64_ok, min_int64, max_int64, wrap64. intros H.
  rewrite Z.mod_small; lia.
Qed.

Lemma wrap64_ok z : int64_ok (wrap64 z).
Proof.
  unfold int64_ok, min_int64, max_int64, wrap64.
  pose proof (Z.mod_pos_bound (z + 2 ^ 63) (2 ^ 64) ltac:(lia)). lia.
Qed.

(** Wrapping a non-negative value never makes it larger. *)
Lemma wrap64_le z : 0 <= z -> wrap64 z <= z.
Proof.
  intros Hz. unfold wrap64.
  pose proof (Z.mod_le (z + 2 ^ 63) (2 ^ 64) ltac:(lia) ltac:(lia)). lia.
Qed.

Lemma clamp64_le z b : int64_ok b -> clamp64 z <= b -> z <= b \/ b = max_int64.
Proof. unfold clamp64, int64_ok, min_int64, max_int64. lia. Qed.

(** ** Durations *)

Definition Nanosecond : Z := 1.
Definition Microsecond : Z := 1000.
Definition Millisecond : Z := 1000 * 1000.
Definition Second : Z := 1000 * 1000 * 1000.
Definition Minute : Z := 60 * Second.
Definition Hour : Z := 60 * Minute.

(** [d.Round(m)] *)
Definition Duration_Round (d m : Z) : Z :=
  if m <=? 0 then d else
  let r := Z.rem d m in
  if d <? 0 then
    let r := - r in
    if r + r <? m then d + r
    else let d1 := d - m + r in if d1 <? min_int64 then min_int64 else d1
  else
    if r + r <? m then d - r
    else let d1 := d + m - r in if max_int64 <? d1 then max_int64 else d1.

(** [fmtFrac]: the last [prec] digits of [v] as a fraction without trailing
    zeros, and the digits before them. *)
Fixpoint fmt_frac (prec : nat) (v : Z) (acc : string) (printing : bool) : string * Z :=
  match prec with
  | O => ((if printing then String "." acc else acc), v)
  | S n =>
      let digit := v mod 10 in
      let printing' := printing || negb (digit =? 0) in
      fmt_frac n (v / 10)
        (if printing' then String (of_byte (48 + digit)) acc else acc) printing'
  end.

(** [d.String()] *)
Definition Duration_String (d : Z) : string :=
  let u := Z.abs d in
  let body :=
    if u =? 0 then "0s"
    else if u <? Second then
      let '(prec, unit_) :=
        if u <? Microsecond then (0%nat, "ns")
        else if u <? Millisecond
        then (3%nat, String "194" (String "181" "s"))
        else (6%nat, "ms") in
      let '(frac, v) := fmt_frac prec u EmptyString false in
      fmt_d v +:+ frac +:+ unit_
    else
      let '(frac, v) := fmt_frac 9 u EmptyString false in
      let secs := fmt_d (v mod 60) +:+ frac +:+ "s" in
      let mins := v / 60 in
      if mins =? 0 then secs else
      let hours := mins / 60 in
      (if hours =? 0 then EmptyString else fmt_d hours +:+ "h") +:+
      fmt_d (mins mod 60) +:+ "m" +:+ secs in
  if d <? 0 then "-" +:+ body else body.

(** ** Instants *)

Abbreviation Time := Z (only parsing).
Abbreviation Duration := Z (only parsing).

Definition unix_to_internal : Z := 62135596800.
Definition time_zero : Time := - unix_to_internal * Second.
Definition IsZero (t : Time) : bool := t =? time_zero.

(** [time.Unix(sec, 0)]: the internal second counter is an [int64]. *)
Definition time_Unix (sec : Z) : Time :=
  (wrap64 (sec + unix_to_internal) - unix_to_internal) * Second.

(** [t.Sub(u)] saturates; [time.Since(t)] and [time.Until(t)] use it. *)
Definition time_Sub (t u : Time) : Duration := clamp64 (t - u).
Definition time_Since (now t : Time) : Duration := time_Sub now t.
Definition time_Until (now t : Time) : Duration := time_Sub t now.
Definition time_Before (t u : Time) : bool := t <? u.
Definition time_After (t u : Time) : bool := u <? t.
Definition time_Add (t : Time) (d : Duration) : Time := t + d.

(** [t.UnixNano()] and [t.Unix()] *)
Definition UnixNano (t : Time) : Z := wrap64 t.
Definition time_Unix_sec (t : Time) : Z := t / Second.

Lemma time_Unix_id sec :
  - 2 ^ 62 <= sec <= 2 ^ 62 -> time_Unix sec = sec * Second.
Proof.
  intros H. unfold time_Unix. rewrite wrap64_id; [f_equal; lia|].
  unfold int64_ok, min_int64, max_int64, unix_to_internal. lia.
Qed.

Lemma time_Unix_not_zero sec :
  0 < sec <= max_int64 -> IsZero (time_Unix sec) = false.
Proof.
  unfold IsZero, time_Unix, time_zero, max_int64. intros H. apply Z.eqb_neq.
  enough (wrap64 (sec + unix_to_internal) <> 0) by (unfold Second; lia).
  unfold wrap64, unix_to_internal.
  pose proof (Z.div_mod (sec + 62135596800 + 2 ^ 63) (2 ^ 64) ltac:(lia)) as Hdm.
  pose proof (Z.mod_pos_bound (sec + 62135596800 + 2 ^ 63) (2 ^ 64) ltac:(lia)).
  set (q := _ / _) in *. set (m := _ mod _) in *.
  assert (q = 0 \/ q = 1 \/ q < 0 \/ q > 1) by lia. lia.
Qed.

Lemma time_Since_le now t b :
  int64_ok b -> b < max_int64 -> time_Since now t <= b -> now - t <= b.
Proof.
  intros Hb Hlt H. unfold time_Since, time_Sub in H.
  destruct (clamp64_le _ _ Hb H); lia.
Qed.
