(* ===== verification/Locks.v ===== *)
(** * Locks: shared objects at the grain of memory accesses

    Methods of an object behind a [sync.Mutex] or [sync.RWMutex], as programs
    of single reads and writes of its fields, readings of the clock, and
    locking.  Any number of goroutines run them, interleaved access by access.
    When a method touches the fields only under its lock, and reads the clock
    at most once there, its critical section is atomic: this is what the
    components that treat a call as one operation rely on. *)

From S2P Require Import Prelude GoTime.
Open Scope Z_scope.

(** [RLock] and [Lock]; a [sync.Mutex] has only the second. *)
Inductive mode := Reading | Writing.
#[export] Instance mode_eq_dec : EqDecision mode.
Proof. solve_decision. Defined.

Inductive code (S A : Type) : Type :=
| CRet (a : A)
| CNow (k : Time -> code S A)
| CLock (m : mode) (k : code S A)
| CUnlock (m : mode) (k : code S A)
| CRead {X : Type} (f : S -> X) (k : X -> code S A)
| CWrite (f : S -> S) (k : code S A).
Arguments CRet {S A} _.
Arguments CNow {S A} _.
Arguments CLock {S A} _ _.
Arguments CUnlock {S A} _ _.
Arguments CRead {S A X} _ _.
Arguments CWrite {S A} _ _.

(** ** Goroutines *)

(** The goroutines, by number, that hold the lock. *)
Record rwmutex := MkMutex { mu_writer : option nat; mu_readers : gset nat }.
Definition unlocked : rwmutex := MkMutex None ∅.

Definition can_lock (m : mode) (mu : rwmutex) : Prop :=
  mu_writer mu = None /\ (m = Writing -> mu_readers mu = ∅).
Definition holding (mu : rwmutex) (i : nat) : option mode :=
  if decide (mu_writer mu = Some i) then Some Writing
  else if decide (i ∈ mu_readers mu) then Some Reading else None.
Definition acquire (i : nat) (m : mode) (mu : rwmutex) : rwmutex :=
  match m with Writing => MkMutex (Some i) (mu_readers mu) | Reading => MkMutex (mu_writer mu) ({[i]} ∪ mu_readers mu) end.
Definition release (i : nat) (m : mode) (mu : rwmutex) : rwmutex :=
  match m with Writing => MkMutex None (mu_readers mu) | Reading => MkMutex (mu_writer mu) (mu_readers mu ∖ {[i]}) end.

(** The clock, the lock and the fields. *)
Record shared (S : Type) := Shared { sh_now : Time; sh_mu : rwmutex; sh_st : S }.
Arguments Shared {S} _ _ _.
Arguments sh_now {S} _.
Arguments sh_mu {S} _.
Arguments sh_st {S} _.

Section Semantics.
Context {S A : Type}.
Abbreviation pool := (shared S * list (code S A))%type (only parsing).

(** One access of one goroutine.  The clock never goes back; releasing a lock
    that is not held, which stops the process, is no step. *)
Inductive cstep : pool -> pool -> Prop :=
| step_now now mu s ts i k t :
    ts !! i = Some (CNow k) -> now <= t -> cstep (Shared now mu s, ts) (Shared t mu s, <[i := k t]> ts)
| step_lock now mu s ts i m k :
    ts !! i = Some (CLock m k) -> can_lock m mu ->
    cstep (Shared now mu s, ts) (Shared now (acquire i m mu) s, <[i := k]> ts)
| step_unlock now mu s ts i m k :
    ts !! i = Some (CUnlock m k) -> holding mu i = Some m ->
    cstep (Shared now mu s, ts) (Shared now (release i m mu) s, <[i := k]> ts)
| step_read now mu s ts i X (f : S -> X) k :
    ts !! i = Some (CRead f k) -> cstep (Shared now mu s, ts) (Shared now mu s, <[i := k (f s)]> ts)
| step_write now mu s ts i f k :
    ts !! i = Some (CWrite f k) -> cstep (Shared now mu s, ts) (Shared now mu (f s), <[i := k]> ts).

(** ** The discipline *)

(** [c] touches the fields only under the lock, [h] being the mode it holds it
    in and whether it may still read the clock there. *)
Fixpoint locked (h : option (mode * bool)) (c : code S A) : Prop :=
  match c with
  | CRet _ => h = None
  | CNow k => match h with
              | None => forall t, locked None (k t)
              | Some (m, b) => b = true /\ forall t, locked (Some (m, false)) (k t)
              end
  | CLock m k => h = None /\ locked (Some (m, true)) k
  | CUnlock m k => fst <$> h = Some m /\ locked None k
  | CRead f k => is_Some h /\ forall x, locked h (k x)
  | CWrite f k => fst <$> h = Some Writing /\ locked h k
  end.

(** The rest of a critical section, run at the reading [t] with nothing in
    between: what is left of the program, and the fields. *)
Fixpoint section (t : Time) (c : code S A) (s : S) : code S A * S :=
  match c with
  | CUnlock _ k => (k, s)
  | CNow k => section t (k t) s
  | CRead f k => section t (k (f s)) s
  | CWrite f k => section t k (f s)
  | CRet _ | CLock _ _ => (c, s)
  end.

(** Goroutines whose critical sections are atomic. *)
Inductive astep : Time * S * list (code S A) -> Time * S * list (code S A) -> Prop :=
| astep_now now s ts i k t : ts !! i = Some (CNow k) -> now <= t -> astep (now, s, ts) (t, s, <[i := k t]> ts)
| astep_section now s ts i m k t :
    ts !! i = Some (CLock m k) -> now <= t ->
    astep (now, s, ts) (t, (section t k s).2, <[i := (section t k s).1]> ts).
End Semantics.

(** ** Running a schedule *)

#[export] Instance can_lock_dec m mu : Decision (can_lock m mu).
Proof. unfold can_lock. apply _. Defined.

Section Schedules.
Context {S A : Type}.
Abbreviation pool := (shared S * list (code S A))%type (only parsing).

(** The next access of goroutine [i], readings of the clock being [t] or the
    last one. *)
Definition access (i : nat) (t : Time) (p : pool) : option pool :=
  let '(Shared now mu s, ts) := p in
  match ts !! i with
  | None | Some (CRet _) => None
  | Some (CNow k) => Some (Shared (Z.max now t) mu s, <[i := k (Z.max now t)]> ts)
  | Some (CLock m k) => if decide (can_lock m mu) then Some (Shared now (acquire i m mu) s, <[i := k]> ts) else None
  | Some (CUnlock m k) =>
      if decide (holding mu i = Some m) then Some (Shared now (release i m mu) s, <[i := k]> ts) else None
  | Some (CRead f k) => Some (Shared now mu s, <[i := k (f s)]> ts)
  | Some (CWrite f k) => Some (Shared now mu (f s), <[i := k]> ts)
  end.

Fixpoint run_schedule (l : list (nat * Time)) (p : pool) : option pool :=
  match l with
  | [] => Some p
  | (i, t) :: l' => p' ← access i t p; run_schedule l' p'
  end.

Lemma access_step i t p p' : access i t p = Some p' -> cstep p p'.
Proof.
  destruct p as [[now mu s] ts]. cbn. destruct (ts !! i) as [[a|k|m k|m k|X f k|f k]|] eqn:Hi; try done.
  - intros [= <-]. eapply step_now; [done|lia].
  - destruct (decide _); [|done]. intros [= <-]. by eapply step_lock.
  - destruct (decide _); [|done]. intros [= <-]. by eapply step_unlock.
  - intros [= <-]. by eapply step_read.
  - intros [= <-]. by eapply step_write.
Qed.

Lemma schedule_steps l : forall p p', run_schedule l p = Some p' -> rtc cstep p p'.
Proof.
  induction l as [|[i t] l IH]; intros p p'; cbn; [by intros [= <-]|].
  destruct (access i t p) as [p1|] eqn:H; [|done]. cbn. intros Hs. eapply rtc_l; [by eapply access_step|by apply IH].
Qed.
End Schedules.

(** ** Holding a lock *)

Definition mutex_ok (mu : rwmutex) : Prop := forall i, mu_writer mu = Some i -> mu_readers mu = ∅.

Lemma holding_alone mu i j : mutex_ok mu -> holding mu i = Some Writing -> j <> i -> holding mu j = None.
Proof.
  unfold holding. intros Hok Hi Hne. destruct (decide (mu_writer mu = Some i)) as [E|]; [|by case_decide].
  rewrite (Hok i E). repeat case_decide; [congruence|set_solver|done].
Qed.

Lemma holding_writing mu i : holding mu i = Some Writing <-> mu_writer mu = Some i.
Proof. unfold holding. repeat case_decide; done. Qed.

Lemma can_lock_ok i m mu : can_lock m mu -> mutex_ok (acquire i m mu).
Proof. intros [Hw Hr] j. destruct m; cbn; [congruence|]. intros _. by apply Hr. Qed.

Lemma holding_acquire i m mu : can_lock m mu -> holding (acquire i m mu) i = Some m.
Proof.
  intros [Hw _]. unfold holding. destruct m; cbn; [|by rewrite decide_True].
  rewrite Hw, decide_False by done. rewrite decide_True by set_solver. done.
Qed.

Lemma holding_acquire_other i j m mu : can_lock m mu -> j <> i -> holding (acquire i m mu) j = holding mu j.
Proof. intros [Hw _] Hne. unfold holding. destruct m; cbn; rewrite ?Hw; repeat case_decide; try done; set_solver. Qed.

Lemma release_ok i m mu : mutex_ok mu -> mutex_ok (release i m mu).
Proof. intros Hok j. destruct m; cbn; [|done]. intros Hj. rewrite (Hok j Hj). set_solver. Qed.

Lemma holding_release i m mu : mutex_ok mu -> holding mu i = Some m -> holding (release i m mu) i = None.
Proof.
  intros Hok Hi. unfold holding in *. destruct m; cbn; repeat case_decide; try done; try set_solver.
  pose proof (Hok i ltac:(done)). set_solver.
Qed.

Lemma holding_release_other i j m mu :
  mutex_ok mu -> holding mu i = Some m -> j <> i -> holding (release i m mu) j = holding mu j.
Proof.
  intros Hok Hi Hne. destruct m.
  - unfold holding. cbn. repeat case_decide; try done; set_solver.
  - rewrite (holding_alone mu i j) by done. unfold holding. cbn. rewrite decide_False by done.
    pose proof (Hok i (proj1 (holding_writing mu i) Hi)) as ->. by rewrite decide_False by set_solver.
Qed.

(** ** Critical sections *)

Section Atomicity.
Context {S A : Type}.
Implicit Types (s : S) (c : code S A) (ts : list (code S A)).

Lemma section_frozen m c : forall t t' s, locked (Some (m, false)) c -> section t c s = section t' c s.
Proof.
  induction c as [a|k IH|m' k IH|m' k IH|X f k IH|f k IH]; intros t t' s; cbn [locked section].
  - done.
  - by intros [[=] _].
  - done.
  - done.
  - intros [_ H]. apply IH, H.
  - intros [_ H]. by apply IH.
Qed.

Lemma section_reading b c : forall t s, locked (Some (Reading, b)) c -> (section t c s).2 = s.
Proof.
  revert b. induction c as [a|k IH|m' k IH|m' k IH|X f k IH|f k IH]; intros b t s; cbn [locked section]; try done.
  - intros [_ H]. eapply IH, H.
  - intros [_ H]. eapply IH, H.
  - by intros [[=] _].
Qed.

(** What a goroutine and its atomic counterpart have in common: the same
    program outside of critical sections; inside, the counterpart has either
    still to run the section, or has run it at the reading that was made. *)
Definition thread_ok s s' (h : option mode) c c' : Prop :=
  match h with
  | None => locked None c /\ c' = c
  | Some m =>
      (locked (Some (m, true)) c /\ exists k, c' = CLock m k /\ forall t, section t k s' = section t c s) \/
      (locked (Some (m, false)) c /\ forall t, section t c s = (c', s'))
  end.

Definition simulates (p : shared S * list (code S A)) (a : Time * S * list (code S A)) : Prop :=
  let '(sh, ts) := p in let '(now, s', ts') := a in
  now = sh_now sh /\ mutex_ok (sh_mu sh) /\ (mu_writer (sh_mu sh) = None -> s' = sh_st sh) /\
  (forall i, is_Some (holding (sh_mu sh) i) -> (i < List.length ts)%nat) /\
  forall i c, ts !! i = Some c -> exists c', ts' !! i = Some c' /\ thread_ok (sh_st sh) s' (holding (sh_mu sh) i) c c'.

(** One goroutine changed. *)
Lemma simulates_update now mu s ts s1' ts1' i c0 now2 mu2 s2 c s2' c' :
  simulates (Shared now mu s, ts) (now, s1', ts1') -> ts !! i = Some c0 ->
  mutex_ok mu2 -> (mu_writer mu2 = None -> s2' = s2) ->
  (forall j, j <> i -> holding mu2 j = holding mu j) ->
  (forall j, j <> i -> holding mu j = None \/ s2 = s /\ s2' = s1') ->
  thread_ok s2 s2' (holding mu2 i) c c' ->
  simulates (Shared now2 mu2 s2, <[i := c]> ts) (now2, s2', <[i := c']> ts1').
Proof.
  intros (_ & _ & _ & Hin & Ht) Hi Hmu Hs Hh Ho Hc. cbn [sh_now sh_mu sh_st] in *. cbn.
  split; [done|]. split; [done|]. split; [done|]. apply lookup_lt_Some in Hi as Hlt. split.
  - intros j Hj. rewrite length_insert. destruct (decide (j = i)) as [->|Hne]; [done|].
    rewrite Hh in Hj by done. by apply Hin.
  - intros j d. destruct (decide (j = i)) as [->|Hne].
    + rewrite list_lookup_insert_eq by done. intros [= <-]. exists c'. split; [|done]. apply list_lookup_insert_eq.
      destruct (Ht i c0 Hi) as (? & H & _). by apply lookup_lt_Some in H.
    + rewrite !list_lookup_insert_ne by done. intros Hd. destruct (Ht j d Hd) as (d' & Hd' & Hok). exists d'.
      split; [done|]. rewrite Hh by done. destruct (Ho j Hne) as [Hn|[-> ->]]; [|done].
      rewrite Hn in *. done.
Qed.

Lemma simulates_thread now mu s ts s' ts' i c :
  simulates (Shared now mu s, ts) (now, s', ts') -> ts !! i = Some c ->
  exists c', ts' !! i = Some c' /\ thread_ok s s' (holding mu i) c c'.
Proof. intros (_ & _ & _ & _ & H). apply H. Qed.

(** The other goroutines do not hold the lock, or see no change. *)
Lemma others_out now mu s ts s' ts' i :
  simulates (Shared now mu s, ts) (now, s', ts') -> holding mu i = Some Writing ->
  forall j, j <> i -> holding mu j = None.
Proof. intros (_ & Hmu & _) Hi j Hne. by eapply holding_alone. Qed.

(** The atomic counterpart of a goroutine in its critical section runs it. *)
Lemma linearize now mu s ts s' ts' i c m t :
  simulates (Shared now mu s, ts) (now, s', ts') -> ts !! i = Some c -> now <= t ->
  holding mu i = Some m -> locked (Some (m, true)) c ->
  (exists k, ts' !! i = Some (CLock m k) /\ forall t, section t k s' = section t c s) ->
  exists s'' c'', astep (now, s', ts') (t, s'', <[i := c'']> ts') /\ section t c s = (c'', s'') /\
    forall j, j <> i -> holding mu j = None \/ s'' = s'.
Proof.
  intros Hsim Hi Ht Hm Hl (k & Hk & Hsec). exists (section t k s').2, (section t k s').1.
  split; [by econstructor|]. rewrite Hsec. split; [by destruct (section t c s)|]. intros j Hne. destruct m.
  - right. rewrite (section_reading true) by done. destruct Hsim as (_ & Hmu & Hs & _). cbn in Hmu, Hs. symmetry. apply Hs.
    destruct (mu_writer mu) as [w|] eqn:Hw; [|done]. exfalso. unfold holding in Hm.
    destruct (decide _); [done|]. rewrite (Hmu w Hw) in Hm. case_decide; [set_solver|done].
  - left. by eapply others_out.
Qed.

(** A step the counterpart does not make. *)
Lemma simulates_silent now mu s ts s' ts' i c0 mu2 s2 c c' :
  simulates (Shared now mu s, ts) (now, s', ts') -> ts !! i = Some c0 -> ts' !! i = Some c' ->
  mutex_ok mu2 -> (mu_writer mu2 = None -> s' = s2) ->
  (forall j, j <> i -> holding mu2 j = holding mu j) ->
  (forall j, j <> i -> holding mu j = None \/ s2 = s) ->
  thread_ok s2 s' (holding mu2 i) c c' ->
  simulates (Shared now mu2 s2, <[i := c]> ts) (now, s', ts').
Proof.
  intros Hsim Hi Hi' Hmu Hs Hh Ho Hc. rewrite <- (list_insert_id ts' i c' Hi').
  eapply simulates_update; [exact Hsim|exact Hi|..]; try done.
  intros j Hne. destruct (Ho j Hne) as [H|H]; auto.
Qed.

Lemma simulates_now now mu s ts s' ts' i k t :
  simulates (Shared now mu s, ts) (now, s', ts') -> ts !! i = Some (CNow k) -> now <= t ->
  exists a, astep (now, s', ts') a /\ simulates (Shared t mu s, <[i := k t]> ts) a.
Proof.
  intros Hsim Hi Ht. destruct (simulates_thread _ _ _ _ _ _ _ _ Hsim Hi) as (c' & Hi' & Hc).
  pose proof Hsim as (_ & Hmu & Hs & _). cbn in Hmu, Hs. destruct (holding mu i) as [m|] eqn:Hm; cbn [thread_ok] in Hc.
  - destruct Hc as [[Hl (k0 & -> & Hsec)]|[Hl _]]; [|by destruct Hl].
    destruct (linearize _ _ _ _ _ _ _ _ m t Hsim Hi Ht Hm Hl (ex_intro _ k0 (conj Hi' Hsec))) as (s'' & c'' & Ha & Hrun & Ho).
    cbn [section] in Hrun. destruct Hl as [_ Hl]. exists (t, s'', <[i := c'']> ts'). split; [done|].
    eapply simulates_update; [exact Hsim|exact Hi|done| |done| |].
    + intros Hw. destruct m; [|by rewrite (proj1 (holding_writing mu i) Hm) in Hw].
      pose proof (section_reading false (k t) t s (Hl t)) as H. by rewrite Hrun in H.
    + intros j Hne. destruct (Ho j Hne); auto.
    + rewrite Hm. right. split; [apply Hl|]. intros t0. by rewrite (section_frozen m (k t) t0 t).
  - destruct Hc as [Hl ->]. exists (t, s', <[i := k t]> ts'). split; [by apply astep_now|].
    eapply simulates_update; [exact Hsim|exact Hi|done|done|done|by auto|]. rewrite Hm. split; [apply Hl|done].
Qed.

Lemma simulates_unlock now mu s ts s' ts' i m k :
  simulates (Shared now mu s, ts) (now, s', ts') -> ts !! i = Some (CUnlock m k) -> holding mu i = Some m ->
  exists a, rtc astep (now, s', ts') a /\ simulates (Shared now (release i m mu) s, <[i := k]> ts) a.
Proof.
  intros Hsim Hi Hm. destruct (simulates_thread _ _ _ _ _ _ _ _ Hsim Hi) as (c' & Hi' & Hc).
  pose proof Hsim as (_ & Hmu & _). cbn in Hmu. rewrite Hm in Hc. cbn [thread_ok] in Hc.
  assert (Hr : holding (release i m mu) i = None) by by apply holding_release.
  destruct Hc as [[Hl (k0 & -> & Hsec)]|[Hl Hsec]].
  - destruct (linearize _ _ _ _ _ _ _ _ m now Hsim Hi ltac:(lia) Hm Hl (ex_intro _ k0 (conj Hi' Hsec))) as (s'' & c'' & Ha & [= <- <-] & Ho).
    exists (now, s, <[i := k]> ts'). split; [by apply rtc_once|].
    eapply simulates_update; [exact Hsim|exact Hi|by apply release_ok|done| | |].
    + intros j Hne. by apply holding_release_other.
    + intros j Hne. destruct (Ho j Hne); auto.
    + rewrite Hr. split; [apply Hl|done].
  - pose proof (Hsec now) as [= -> ->]. exists (now, s', ts'). split; [done|].
    eapply simulates_silent; [exact Hsim|exact Hi|exact Hi'|by apply release_ok|done| |by auto|].
    + intros j Hne. by apply holding_release_other.
    + rewrite Hr. split; [apply Hl|done].
Qed.

Lemma simulates_step p p' a : cstep p p' -> simulates p a -> exists a', rtc astep a a' /\ simulates p' a'.
Proof.
  destruct a as [[now0 s'] ts'].
  intros [now mu s ts i k t Hi Ht|now mu s ts i m k Hi Hm|now mu s ts i m k Hi Hm|now mu s ts i X f k Hi|now mu s ts i f k Hi] Hsim;
    assert (now0 = now) as -> by (by destruct Hsim);
    destruct (simulates_thread _ _ _ _ _ _ _ _ Hsim Hi) as (c' & Hi' & Hc); pose proof Hsim as (_ & Hmu & Hs & _); cbn in Hmu, Hs.
  - destruct (simulates_now _ _ _ _ _ _ _ _ t Hsim Hi Ht) as (a & Ha & H). exists a. split; [by apply rtc_once|done].
  - exists (now, s', ts'). split; [done|]. destruct (holding mu i) as [m'|] eqn:Hn.
    { by destruct Hc as [[[[=] _] _]|[[[=] _] _]]. }
    destruct Hc as [[_ Hl] ->]. eapply simulates_silent; [exact Hsim|exact Hi|exact Hi'|by apply can_lock_ok| | |by auto|].
    + intros _. apply Hs, Hm.
    + intros j Hne. by apply holding_acquire_other.
    + rewrite holding_acquire by done. left. split; [done|]. exists k. split; [done|]. intros t. by rewrite (Hs (proj1 Hm)).
  - by apply (simulates_unlock _ _ _ _ _ _ _ m).
  - exists (now, s', ts'). split; [done|]. eapply simulates_silent; [exact Hsim|exact Hi|exact Hi'|done|done|done|by auto|].
    destruct (holding mu i) as [m|]; [|by destruct Hc as [[[? [=]] _] _]].
    destruct Hc as [[[_ Hl] H]|[[_ Hl] H]]; [left|right]; (split; [apply Hl|exact H]).
  - exists (now, s', ts'). split; [done|]. destruct (holding mu i) as [m|] eqn:Hm; [|by destruct Hc as [[[=] _] _]].
    assert (Hw : m = Writing) by (destruct Hc as [[[[=] _] _]|[[[=] _] _]]; done). subst m.
    eapply simulates_silent; [exact Hsim|exact Hi|exact Hi'|done| |done| |].
    + by rewrite (proj1 (holding_writing mu i) Hm).
    + intros j Hne. left. by eapply holding_alone.
    + rewrite Hm. destruct Hc as [[[_ Hl] H]|[[_ Hl] H]]; [left|right]; (split; [exact Hl|exact H]).
Qed.
End Atomicity.

(** ** Pools of disciplined goroutines *)

Section Pools.
Context {S A : Type}.
Implicit Types (s : S) (c : code S A) (ts : list (code S A)) (p : shared S * list (code S A)).

Definition start (now : Time) s ts : shared S * list (code S A) := (Shared now unlocked s, ts).

Definition finished c : bool := match c with CRet _ => true | _ => false end.

(** Whether the next access of a goroutine is one of the fields, and whether it
    is a write; two such accesses race when one is a write. *)
Definition touches c : option bool :=
  match c with CRead _ _ => Some false | CWrite _ _ => Some true | _ => None end.
Definition racing ts : Prop :=
  exists i j ci cj b, i <> j /\ ts !! i = Some ci /\ ts !! j = Some cj /\ touches ci = Some true /\ touches cj = Some b.

Lemma simulates_start now s ts : Forall (locked None) ts -> simulates (start now s ts) (now, s, ts).
Proof.
  intros H. unfold start, unlocked. cbn. split; [done|]. split; [by intros i|]. split; [done|].
  assert (Hn : forall i, holding (MkMutex None ∅) i = None) by (intros i; unfold holding; cbn; repeat case_decide; set_solver).
  split; [intros i [m Hm]; by rewrite Hn in Hm|].
  intros i c Hi. exists c. split; [done|]. rewrite Hn. split; [|done]. by eapply Forall_lookup_1.
Qed.

Lemma simulates_steps p p' a : rtc cstep p p' -> simulates p a -> exists a', rtc astep a a' /\ simulates p' a'.
Proof.
  intros H. revert a. induction H as [p|p p1 p' Hs _ IH]; intros a Ha; [by exists a|].
  destruct (simulates_step _ _ _ Hs Ha) as (a1 & H1 & Ha1). destruct (IH a1 Ha1) as (a' & H2 & Ha'). exists a'.
  split; [by etrans|done].
Qed.

(** The mode in which a goroutine that touches the fields holds the lock. *)
Lemma touches_holding now mu s ts a i c b :
  simulates (Shared now mu s, ts) a -> ts !! i = Some c -> touches c = Some b ->
  exists m, holding mu i = Some m /\ (b = true -> m = Writing).
Proof.
  destruct a as [[now0 s'] ts']. intros (_ & _ & _ & _ & Ht) Hi Hc. destruct (Ht i c Hi) as (c' & _ & Hok). cbn in Hok.
  destruct (holding mu i) as [m|]; [exists m; split; [done|]|].
  - intros ->. destruct c; try discriminate Hc. destruct Hok as [[[[=] _] _]|[[[=] _] _]]; done.
  - destruct c; try discriminate Hc; destruct Hok as [[Hh _] _]; [by destruct Hh|discriminate Hh].
Qed.

(** No data race. *)
Lemma simulates_race_free p a : simulates p a -> ~ racing p.2.
Proof.
  destruct p as [[now mu s] ts]. intros Hsim (i & j & ci & cj & b & Hne & Hi & Hj & Hci & Hcj).
  destruct (touches_holding _ _ _ _ _ _ _ _ Hsim Hi Hci) as (m & Hm & Hw). rewrite (Hw eq_refl) in Hm.
  destruct (touches_holding _ _ _ _ _ _ _ _ Hsim Hj Hcj) as (m' & Hm' & _).
  destruct a as [[now0 s'] ts']. destruct Hsim as (_ & Hmu & _). by rewrite (holding_alone mu i j) in Hm'.
Qed.

(** The goroutine that holds the lock can go on. *)
Lemma holder_steps now mu s ts a i m :
  simulates (Shared now mu s, ts) a -> holding mu i = Some m -> exists p', cstep (Shared now mu s, ts) p'.
Proof.
  destruct a as [[now0 s'] ts']. intros (_ & _ & _ & Hin & Ht) Hm. cbn in Hin, Ht.
  destruct (lookup_lt_is_Some_2 ts i (Hin i ltac:(by eexists))) as [c Hc].
  destruct (Ht i c Hc) as (c' & _ & Hok). rewrite Hm in Hok.
  assert (exists b, locked (Some (m, b)) c) as [b Hl] by (destruct Hok as [[H _]|[H _]]; by eexists).
  destruct c as [x|k|m' k|m' k|X f k|f k]; cbn [locked] in Hl; try discriminate Hl; try (by destruct Hl).
  - eexists. eapply (step_now _ _ _ _ _ _ now); [exact Hc|lia].
  - destruct Hl as [[= <-] _]. eexists. by eapply step_unlock.
  - eexists. by eapply step_read.
  - eexists. by eapply step_write.
Qed.

(** No deadlock: as long as a goroutine has not finished, one can go on. *)
Lemma simulates_progress p a : simulates p a -> forallb finished p.2 = false -> exists p', cstep p p'.
Proof.
  destruct p as [[now mu s] ts]. intros Hsim Hf. cbn in Hf.
  destruct (mu_writer mu) as [w|] eqn:Hw; [by eapply holder_steps, holding_writing|].
  destruct (set_choose_or_empty (mu_readers mu)) as [[i Hi]|Hr].
  { eapply (holder_steps _ _ _ _ _ i Reading); [done|]. unfold holding. by rewrite Hw, decide_False, decide_True. }
  assert (Hcan : forall m, can_lock m mu) by (intros m; split; [done|set_solver]).
  assert (exists i c, ts !! i = Some c /\ finished c = false) as (i & c & Hi & Hc).
  { clear -Hf. induction ts as [|c ts IH]; [done|]. cbn in Hf. destruct (finished c) eqn:E; [|by exists 0%nat, c].
    destruct (IH Hf) as (i & d & Hi & Hd). by exists (Datatypes.S i), d. }
  destruct a as [[now0 s'] ts']. destruct Hsim as (_ & _ & _ & _ & Ht). destruct (Ht i c Hi) as (c' & _ & Hok). cbn in Hok.
  assert (Hn : holding mu i = None) by (unfold holding; rewrite Hw; repeat case_decide; set_solver).
  rewrite Hn in Hok. destruct Hok as [Hl _]. destruct c as [x|k|m k|m k|X f k|f k]; cbn [locked] in Hl; try discriminate Hc.
  - eexists. eapply (step_now _ _ _ _ _ _ now); [exact Hi|lia].
  - eexists. by eapply step_lock.
  - by destruct Hl.
  - by destruct Hl as [[? [=]] _].
  - by destruct Hl.
Qed.

(** Every schedule ends. *)
Definition child c c' : Prop :=
  match c with
  | CRet _ => False
  | CNow k => exists t, c' = k t
  | CLock _ k | CUnlock _ k | CWrite _ k => c' = k
  | CRead _ k => exists x, c' = k x
  end.
Definition sub_pool ts' ts : Prop := exists i c c', ts !! i = Some c /\ child c c' /\ ts' = <[i := c']> ts.

Lemma acc_cons c :
  (forall c', child c c' -> forall ts, Acc sub_pool ts -> Acc sub_pool (c' :: ts)) ->
  forall ts, Acc sub_pool ts -> Acc sub_pool (c :: ts).
Proof.
  intros Hc ts. induction 1 as [ts Hts IHts]. constructor. intros ts' ([|i] & d & d' & Hi & Hd & ->); cbn in Hi |- *.
  - injection Hi as <-. apply Hc; [done|by constructor].
  - apply IHts. by exists i, d, d'.
Qed.

Lemma acc_pool ts : Acc sub_pool ts.
Proof.
  induction ts as [|c ts IH]; [constructor; by intros ts' (i & c & c' & Hi & _)|]. revert ts IH.
  induction c as [a|k IH|m k IH|m k IH|X f k IH|f k IH]; apply acc_cons; intros c' Hc; cbn in Hc;
    [done|destruct Hc as [t ->]|subst c'|subst c'|destruct Hc as [x ->]|subst c']; apply IH.
Qed.

Lemma cstep_sub p p' : cstep p p' -> sub_pool p'.2 p.2.
Proof.
  intros [now mu s ts i k t Hi Ht|now mu s ts i m k Hi Hm|now mu s ts i m k Hi Hm|now mu s ts i X f k Hi|now mu s ts i f k Hi];
    cbn [snd]; eexists i, _, _; (split; [exact Hi|]); split; [|done| |done| |done| |done| |done]; cbn; eauto.
Qed.

Lemma schedules_end p : Acc (fun p' p => cstep p p') p.
Proof.
  destruct p as [sh ts]. revert sh. induction (acc_pool ts) as [ts _ IH]. intros sh. constructor. intros [sh' ts'] H.
  apply IH. by apply cstep_sub in H.
Qed.
End Pools.

(** ** Monitors *)

(** An object whose methods each are one critical section: what calls it may
    rely on ([model], at the reading the method makes) and the code. *)
Class Monitor (O S A : Type) := {
  method : O -> code S A;
  model : O -> Time -> S -> A * S
}.
Class MonitorLaws (O S A : Type) `{!Monitor O S A} := {
  method_locked o : locked None (method o);
  method_section o : exists m k, method o = CLock m k /\
    forall t s, section t k s = (CRet (model o t s).1, (model o t s).2)
}.

Section Linearizable.
#[local] Set Default Proof Using "All".
Context {O S A : Type} `{!Monitor O S A} `{!MonitorLaws O S A}.

(** The calls [os], by number, run one after the other: the history of their
    readings and answers. *)
Inductive serves (os : list O) (now : Time) (s : S) : list (nat * Time * A) -> Time -> S -> Prop :=
| serves_nil : serves os now s [] now s
| serves_snoc h t1 s1 i o t a s2 :
    serves os now s h t1 s1 -> os !! i = Some o -> t1 <= t -> (forall t' a', (i, t', a') ∉ h) ->
    model o t s1 = (a, s2) -> serves os now s (h ++ [(i, t, a)])%list t s2.

(** The history accounts for a state of the pool: for the answers, for the
    calls that have not begun, and for the fields when no one is writing. *)
Definition accounts (os : list O) (p : shared S * list (code S A)) (h : list (nat * Time * A)) (s : S) : Prop :=
  (forall i o, os !! i = Some o ->
    (forall a, p.2 !! i = Some (CRet a) -> exists t, (i, t, a) ∈ h) /\
    (p.2 !! i = Some (method o) -> forall t a, (i, t, a) ∉ h)) /\
  (mu_writer (sh_mu p.1) = None -> sh_st p.1 = s).

(** The atomic pool that makes the history. *)
Definition makes (os : list O) (now : Time) (s : S) (h : list (nat * Time * A)) (x : Time * S * list (code S A)) : Prop :=
  let '(t, s', ts) := x in serves os now s h t s' /\
  forall i c, ts !! i = Some c -> exists o, os !! i = Some o /\
    ((c = method o /\ forall t a, (i, t, a) ∉ h) \/ exists t a, c = CRet a /\ (i, t, a) ∈ h).

Lemma makes_step os now s h x x' : makes os now s h x -> astep x x' -> exists h', makes os now s (h ++ h')%list x'.
Proof.
  intros Hm Hst. revert Hm. destruct Hst as [t s1 ts i k t' Hi Ht|t s1 ts i m k t' Hi Ht]; intros [Hs Hc];
    destruct (Hc i _ Hi) as (o & Ho & [[Ec Hn]|(t0 & a0 & Ec & _)]); destruct (method_section o) as (m' & k' & E & Hsec);
    try rewrite E in Ec; try discriminate Ec.
  injection Ec as <- <-. rewrite Hsec. destruct (model o t' s1) as [a s2] eqn:Hmod. cbn [fst snd].
  exists [(i, t', a)]. split; [by eapply serves_snoc|]. intros j c Hj.
  destruct (decide (j = i)) as [->|Hne].
  - rewrite list_lookup_insert_eq in Hj by (by apply lookup_lt_Some in Hi). injection Hj as <-.
    exists o. split; [done|]. right. exists t', a. split; [done|]. apply elem_of_app. right. by left.
  - rewrite list_lookup_insert_ne in Hj by done. destruct (Hc j c Hj) as (o' & Ho' & H). exists o'. split; [done|].
    destruct H as [[-> Hn']|(t0 & a0 & -> & H)].
    + left. split; [done|]. intros t0 a0 [Hin|[=]%list_elem_of_singleton]%elem_of_app; [by eapply Hn'|done].
    + right. exists t0, a0. split; [done|]. apply elem_of_app. by left.
Qed.

Lemma makes_steps os now s h x x' : rtc astep x x' -> makes os now s h x -> exists h', makes os now s (h ++ h')%list x'.
Proof.
  intros H. revert h. induction H as [x|x x1 x' Hs _ IH]; intros h Hm; [exists []; by rewrite app_nil_r|].
  destruct (makes_step _ _ _ _ _ _ Hm Hs) as [h1 H1]. destruct (IH _ H1) as [h2 H2].
  exists (h1 ++ h2)%list. by rewrite app_assoc.
Qed.

Lemma makes_accounts os now s h x p : List.length p.2 = List.length os -> simulates p x -> makes os now s h x -> accounts os p h x.1.2.
Proof.
  destruct p as [[t mu s1] ts], x as [[t' s'] ts']. intros Hlen (_ & _ & Hs & _ & Ht) [_ Hc]. cbn in *.
  split; [|intros Hw; symmetry; by apply Hs]. intros i o Ho. split.
  - intros a Hi. destruct (Ht i _ Hi) as (c' & Hi' & Hok). destruct (holding mu i) as [m|]; [by destruct Hok as [[[=] _]|[[=] _]]|].
    destruct Hok as [_ ->]. destruct (Hc i _ Hi') as (o' & _ & [[E _]|(t0 & a0 & [= <-] & Hin)]); [|by exists t0].
    destruct (method_section o') as (m' & k' & E' & _). by rewrite E' in E.
  - intros Hi. destruct (Ht i _ Hi) as (c' & Hi' & Hok). destruct (method_section o) as (m' & k' & E & _). rewrite E in Hok.
    destruct (holding mu i) as [m|]; [by destruct Hok as [[[[=] _] _]|[[[=] _] _]]|].
    destruct Hok as [_ ->]. by destruct (Hc i _ Hi') as (o' & _ & [[_ Hn]|(t0 & a0 & Ec & _)]).
Qed.

Lemma cstep_length (p p' : shared S * list (code S A)) : rtc cstep p p' -> List.length p'.2 = List.length p.2.
Proof.
  induction 1 as [p|p p1 p' Hs _ IH]; [done|]. rewrite IH. apply cstep_sub in Hs as (i & c & c' & _ & _ & ->).
  apply length_insert.
Qed.

(** What is true of every monitor: no goroutine touches the fields while
    another one writes them, the calls never block each other for ever, every
    schedule ends, and the calls answer as if run one after the other, each
    between its beginning and its end. *)
Definition linearizable (os : list O) (now : Time) (s : S) : Prop :=
  let p0 := start now s (map method os) in
  (forall p, rtc cstep p0 p ->
     ~ racing p.2 /\ (forallb finished p.2 = false -> exists p', cstep p p') /\ Acc (fun p2 p1 => cstep p1 p2) p) /\
  forall p1 p2, rtc cstep p0 p1 -> rtc cstep p1 p2 ->
    exists h1 t1 s1 h2 t2 s2, serves os now s h1 t1 s1 /\ accounts os p1 h1 s1 /\
      serves os now s (h1 ++ h2)%list t2 s2 /\ accounts os p2 (h1 ++ h2)%list s2.

Lemma monitor_linearizable os now s : linearizable os now s.
Proof.
  assert (H0 : simulates (start now s (map method os)) (now, s, map method os)).
  { apply simulates_start, Forall_fmap, Forall_true. intros o. apply method_locked. }
  split.
  - intros p Hp. destruct (simulates_steps _ _ _ Hp H0) as (x & _ & Hx). split; [by eapply simulates_race_free|].
    split; [by eapply simulates_progress|apply schedules_end].
  - intros p1 p2 Hp1 Hp2. destruct (simulates_steps _ _ _ Hp1 H0) as (x1 & Hr1 & Hx1).
    destruct (simulates_steps _ _ _ Hp2 Hx1) as (x2 & Hr2 & Hx2).
    assert (Hm0 : makes os now s [] (now, s, map method os)).
    { split; [constructor|]. intros i c. rewrite list_lookup_fmap. destruct (os !! i) as [o|] eqn:Ho; [|done].
      intros [= <-]. exists o. split; [done|]. left. split; [done|]. intros t a H. by apply not_elem_of_nil in H. }
    destruct (makes_steps _ _ _ _ _ _ Hr1 Hm0) as [h1 Hm1]. destruct (makes_steps _ _ _ _ _ _ Hr2 Hm1) as [h2 Hm2].
    cbn [app] in *. pose proof (cstep_length _ _ Hp1) as L1. pose proof (cstep_length _ _ Hp2) as L2.
    cbn in L1. rewrite length_map in L1.
    pose proof (makes_accounts _ _ _ _ _ _ L1 Hx1 Hm1) as A1.
    pose proof (makes_accounts _ _ _ _ _ _ (eq_trans L2 L1) Hx2 Hm2) as A2.
    destruct x1 as [[t1 s1] ts1], x2 as [[t2 s2] ts2]. destruct Hm1 as [S1 _], Hm2 as [S2 _].
    by exists h1, t1, s1, h2, t2, s2.
Qed.
End Linearizable.
