(* ===== verification/Encoding.v ===== *)
(** * Encodings: packages [encoding/base64] and [encoding/hex]

    [RawURLEncoding] and [URLEncoding] as the program uses them, and the
    lower-case hex codec, with their round trips. *)

From S2P Require Import Prelude GoString GoTime.

(** ** The base64url alphabet *)

Definition base64URLChars : string :=
  "ABCDEFGHIJKLMNOPQRSTUVWXYZabcdefghijklmnopqrstuvwxyz0123456789-_".

Definition b64_char (i : Z) : ascii := default "000"%char (str_bytes base64URLChars !! Z.to_nat i).

Definition b64_value (c : ascii) : option Z :=
  let b := byte_val c in
  if in_range 65 90 b then Some (b - 65)
  else if in_range 97 122 b then Some (b - 71)
  else if in_range 48 57 b then Some (b + 4)
  else if b =? 45 then Some 62
  else if b =? 95 then Some 63
  else None.

Definition is_b64 (c : ascii) : bool := bool_decide (is_Some (b64_value c)).

(** ** Encoding

    Three bytes [b0 b1 b2] make the four digits of [b0 * 2^16 + b1 * 2^8 + b2]
    in base 64; a final group of one or two bytes makes two or three digits,
    completed by ['='] in the padded variant. *)
Fixpoint b64_encode_bytes (pad : bool) (l : list Z) : list ascii :=
  match l with
  | b0 :: b1 :: b2 :: l' =>
      let v := b0 * 65536 + b1 * 256 + b2 in
      b64_char (v / 262144) :: b64_char (v / 4096 mod 64) ::
      b64_char (v / 64 mod 64) :: b64_char (v mod 64) :: b64_encode_bytes pad l'
  | [b0; b1] =>
      let v := b0 * 256 + b1 in
      [b64_char (v / 1024); b64_char (v / 16 mod 64); b64_char (v mod 16 * 4)] ++
      (if pad then ["="%char] else [])
  | [b0] =>
      [b64_char (b0 / 4); b64_char (b0 mod 4 * 16)] ++
      (if pad then ["="%char; "="%char] else [])
  | [] => []
  end.

(** [enc.EncodeToString(b)] *)
Definition b64_encode (pad : bool) (s : string) : string :=
  bytes_str (b64_encode_bytes pad (map byte_val (str_bytes s))).
Definition RawURLEncode : string -> string := b64_encode false.
Definition URLEncode : string -> string := b64_encode true.

(** ** Decoding

    [\r] and [\n] are skipped everywhere; in the padded variant the padding is
    required and nothing may follow it.  The decoders are not [Strict]: the
    unused low bits of the last digit are ignored. *)
Fixpoint b64_decode_digits (pad : bool) (l : list ascii) : option (list Z) :=
  match l with
  | [] => Some []
  | c0 :: c1 :: c2 :: c3 :: l' =>
      a ← b64_value c0; b ← b64_value c1;
      let first := a * 4 + b / 16 in
      if pad && Ascii.eqb c2 "=" then
        if Ascii.eqb c3 "=" && bool_decide (l' = []) then Some [first] else None
      else
      c ← b64_value c2;
      let second := b mod 16 * 16 + c / 4 in
      if pad && Ascii.eqb c3 "=" then
        if bool_decide (l' = []) then Some [first; second] else None
      else
      d ← b64_value c3;
      rest ← b64_decode_digits pad l';
      Some (first :: second :: (c mod 4 * 64 + d) :: rest)
  | [c0; c1; c2] =>
      if pad then None else
      a ← b64_value c0; b ← b64_value c1; c ← b64_value c2;
      Some [a * 4 + b / 16; b mod 16 * 16 + c / 4]
  | [c0; c1] =>
      if pad then None else
      a ← b64_value c0; b ← b64_value c1;
      Some [a * 4 + b / 16]
  | [_] => None
  end.

Definition not_newline (c : ascii) : bool := negb (Ascii.eqb c "010" || Ascii.eqb c "013").

(** [enc.DecodeString(s)]; [None] is a [CorruptInputError]. *)
Definition b64_decode (pad : bool) (s : string) : option string :=
  l ← b64_decode_digits pad (List.filter not_newline (str_bytes s));
  Some (bytes_str (map of_byte l)).
Definition RawURLDecode : string -> option string := b64_decode false.
Definition URLDecode : string -> option string := b64_decode true.

(** ** Hex *)

Fixpoint hex_encode (s : string) : string :=
  match s with
  | EmptyString => EmptyString
  | String c s' => hex_pad 2 (byte_val c) +:+ hex_encode s'
  end.

Definition hex_value (c : ascii) : option Z :=
  let b := byte_val c in
  if in_range 48 57 b then Some (b - 48)
  else if in_range 97 102 b then Some (b - 87)
  else if in_range 65 70 b then Some (b - 55)
  else None.

(** [hex.DecodeString(s)]; [None] is an error (odd length, bad digit). *)
Fixpoint hex_decode (s : string) : option string :=
  match s with
  | EmptyString => Some EmptyString
  | String _ EmptyString => None
  | String c0 (String c1 s') =>
      a ← hex_value c0; b ← hex_value c1; r ← hex_decode s';
      Some (String (of_byte (a * 16 + b)) r)
  end.

Definition is_hex (c : ascii) : bool := bool_decide (is_Some (hex_value c)).

(** ** Bytes *)

Lemma byte_val_range c : 0 <= byte_val c < 256.
Proof.
  unfold byte_val. pose proof (N_ascii_bounded c). lia.
Qed.

Lemma of_byte_val c : of_byte (byte_val c) = c.
Proof.
  unfold of_byte. rewrite Z.mod_small by apply byte_val_range.
  unfold byte_val. by rewrite N2Z.id, ascii_N_embedding.
Qed.

Lemma byte_val_of_byte z : 0 <= z < 256 -> byte_val (of_byte z) = z.
Proof.
  intros H. unfold byte_val, of_byte. rewrite Z.mod_small by done.
  rewrite N_ascii_embedding by lia. lia.
Qed.

Lemma byte_val_mod z : byte_val (of_byte z) = z mod 256.
Proof.
  assert (of_byte z = of_byte (z mod 256)) as -> by (unfold of_byte; by rewrite Z.mod_mod).
  apply byte_val_of_byte, Z.mod_pos_bound. lia.
Qed.

Lemma byte_val_inj c d : byte_val c = byte_val d -> c = d.
Proof. intros H. by rewrite <- (of_byte_val c), H, of_byte_val. Qed.

(** A boolean fact about every integer of [0..n-1], by evaluation. *)
Lemma forall_below (n : nat) (p : Z -> bool) :
  forallb p (map Z.of_nat (seq 0 n)) = true ->
  forall z, 0 <= z < Z.of_nat n -> p z = true.
Proof.
  rewrite forallb_forall. intros H z Hz. apply H, in_map_iff.
  exists (Z.to_nat z). split; [lia|]. apply in_seq. lia.
Qed.

Lemma b64_value_char i : 0 <= i < 64 -> b64_value (b64_char i) = Some i.
Proof.
  intros H.
  pose proof (forall_below 64
    (fun i => match b64_value (b64_char i) with Some j => j =? i | None => false end)
    ltac:(by vm_compute) i H) as Hb.
  simpl in Hb. destruct (b64_value (b64_char i)); b2p; by subst.
Qed.

Lemma is_b64_char i : 0 <= i < 64 -> is_b64 (b64_char i) = true.
Proof. intros H. unfold is_b64. apply bool_decide_eq_true_2. rewrite b64_value_char; eauto. Qed.

Lemma b64_char_not_pad i : 0 <= i < 64 -> Ascii.eqb (b64_char i) "=" = false.
Proof.
  intros H. apply negb_true_iff.
  apply (forall_below 64 (fun i => negb (Ascii.eqb (b64_char i) "=")));
    [by vm_compute|lia].
Qed.

(** Three-step induction on lists. *)
Lemma list_ind3 {A} (P : list A -> Prop) :
  P [] -> (forall a, P [a]) -> (forall a b, P [a; b]) ->
  (forall a b c l, P l -> P (a :: b :: c :: l)) -> forall l, P l.
Proof.
  intros H0 H1 H2 H3 l.
  enough (P l /\ (forall a, P (a :: l)) /\ (forall a b, P (a :: b :: l))) as [? _] by done.
  induction l as [|x l (IH0 & IH1 & IH2)]; eauto.
Qed.

Definition is_byte (z : Z) : Prop := 0 <= z < 256.

Ltac b64_bounds :=
  unfold is_byte in *;
  repeat (progress (rewrite ?b64_char_not_pad, ?b64_value_char, ?andb_false_r by zlia);
          cbn [mbind option_bind andb]).

Lemma b64_decode_encode_bytes pad l :
  Forall is_byte l -> b64_decode_digits pad (b64_encode_bytes pad l) = Some l.
Proof.
  intros H. induction l as [|a|a b|a b c l IH] using list_ind3; decompose_Forall_hyps.
  - done.
  - destruct pad; simpl; b64_bounds; simpl; do 2 f_equal; zlia.
  - destruct pad; simpl; b64_bounds; simpl; f_equal; f_equal; [zlia|f_equal; zlia|zlia|f_equal; zlia].
  - cbn [b64_encode_bytes b64_decode_digits]. b64_bounds. rewrite IH by done. simpl.
    f_equal. f_equal; [zlia|]. f_equal; [zlia|]. f_equal; zlia.
Qed.

Ltac b64_chars :=
  repeat match goal with
  | |- Forall _ (b64_char _ :: _) =>
      apply Forall_cons_2; [left; apply is_b64_char; zlia|]
  | |- Forall _ ("="%char :: _) => apply Forall_cons_2; [by right|]
  | |- Forall _ [] => constructor
  end.

Lemma b64_encode_bytes_chars pad l :
  Forall is_byte l ->
  Forall (fun c => is_b64 c = true \/ (pad = true /\ c = "="%char)) (b64_encode_bytes pad l).
Proof.
  intros H. unfold is_byte in *.
  induction l as [|a|a b|a b c l IH] using list_ind3; decompose_Forall_hyps.
  - constructor.
  - destruct pad; simpl; b64_chars.
  - destruct pad; simpl; b64_chars.
  - cbn [b64_encode_bytes]. b64_chars. by apply IH.
Qed.

Lemma is_b64_not_newline c : is_b64 c = true \/ c = "="%char -> not_newline c = true.
Proof.
  intros [H| ->]; [|done]. unfold not_newline. apply negb_true_iff, orb_false_iff.
  split; apply Ascii.eqb_neq; intros ->; by vm_compute in H.
Qed.

Lemma map_byte_val_ok l : Forall is_byte (map byte_val l).
Proof. apply Forall_forall. intros z Hz. apply list_elem_of_In, in_map_iff in Hz as (c & <- & _). apply byte_val_range. Qed.

Lemma filter_all {A} (p : A -> bool) l : Forall (fun x => p x = true) l -> List.filter p l = l.
Proof. induction 1 as [|x l Hx _ IH]; simpl; [done|]. by rewrite Hx, IH. Qed.

(** [DecodeString] inverts [EncodeToString], padded or not. *)
Lemma b64_decode_encode pad s : b64_decode pad (b64_encode pad s) = Some s.
Proof.
  unfold b64_decode, b64_encode. rewrite str_bytes_str, filter_all.
  - rewrite b64_decode_encode_bytes by apply map_byte_val_ok. simpl.
    rewrite map_map. f_equal. rewrite <- (bytes_str_bytes s) at 2. f_equal.
    rewrite (map_ext _ id); [apply map_id|]. intros c. apply of_byte_val.
  - eapply Forall_impl; [apply (b64_encode_bytes_chars pad), map_byte_val_ok|].
    intros c [Hc|[_ Hc]]; apply is_b64_not_newline; auto.
Qed.

Lemma b64_encode_chars pad s c :
  c ∈ str_bytes (b64_encode pad s) -> is_b64 c = true \/ (pad = true /\ c = "="%char).
Proof.
  unfold b64_encode. rewrite str_bytes_str. intros Hc.
  pose proof (b64_encode_bytes_chars pad _ (map_byte_val_ok (str_bytes s))) as HF.
  rewrite Forall_forall in HF. by apply HF.
Qed.

(** The dot that separates payload and signature is never a base64 digit. *)
Lemma b64_encode_no_dot pad s : "."%char ∉ str_bytes (b64_encode pad s).
Proof. intros H. apply b64_encode_chars in H as [H|[_ H]]; by vm_compute in H. Qed.

Lemma b64_encode_length_raw s :
  String.length (b64_encode false s) = Nat.div (4 * String.length s + 2) 3.
Proof.
  unfold b64_encode. rewrite length_bytes_str, <- (length_str_bytes s).
  rewrite <- (length_map byte_val (str_bytes s)).
  generalize (map byte_val (str_bytes s)). intros l.
  induction l as [|a|a b|a b c l IH] using list_ind3; try done.
  cbn [b64_encode_bytes Datatypes.length]. rewrite IH.
  replace (4 * S (S (S (List.length l))) + 2)%nat with (4 * List.length l + 2 + 4 * 3)%nat by lia.
  rewrite Nat.div_add by done. lia.
Qed.

(** ** Hex lemmas *)

Lemma hex_value_digit z :
  0 <= z < 16 -> hex_value (hex_digit z) = Some z.
Proof.
  intros H.
  pose proof (forall_below 16
    (fun i => match hex_value (hex_digit i) with Some j => j =? i | None => false end)
    ltac:(by vm_compute) z H) as Hb.
  simpl in Hb. destruct (hex_value (hex_digit z)); b2p; by subst.
Qed.

Lemma hex_pad2 z :
  0 <= z < 256 ->
  hex_pad 2 z = String (hex_digit (z / 16)) (str1 (hex_digit (z mod 16))).
Proof.
  intros H. simpl. rewrite Z.shiftr_0_r.
  rewrite Z.shiftr_div_pow2 by done. change 15 with (Z.ones 4).
  rewrite !Z.land_ones by done. rewrite (Z.mod_small (z / 2 ^ 4)) by zlia. done.
Qed.

Lemma hex_encode_cons c s :
  hex_encode (String c s) =
  String (hex_digit (byte_val c / 16)) (String (hex_digit (byte_val c mod 16)) (hex_encode s)).
Proof. cbn [hex_encode]. by rewrite hex_pad2 by apply byte_val_range. Qed.

(** [hex.DecodeString] inverts [hex.EncodeToString]. *)
Lemma hex_decode_encode s : hex_decode (hex_encode s) = Some s.
Proof.
  induction s as [|c s IH]; [done|]. pose proof (byte_val_range c).
  rewrite hex_encode_cons. cbn [hex_decode].
  rewrite !hex_value_digit, IH by zlia. simpl.
  do 2 f_equal. rewrite <- (of_byte_val c) at 3. f_equal. zlia.
Qed.

Lemma hex_encode_length s : String.length (hex_encode s) = (2 * String.length s)%nat.
Proof. induction s as [|c s IH]; [done|]. rewrite hex_encode_cons. simpl. lia. Qed.

Definition is_lower_hex (c : ascii) : bool :=
  in_range 48 57 (byte_val c) || in_range 97 102 (byte_val c).

Lemma hex_digit_lower z : 0 <= z < 16 -> is_lower_hex (hex_digit z) = true.
Proof. apply (forall_below 16 (fun i => is_lower_hex (hex_digit i))). by vm_compute. Qed.

Lemma hex_encode_chars s : str_forall is_lower_hex (hex_encode s) = true.
Proof.
  induction s as [|c s IH]; [done|]. pose proof (byte_val_range c).
  rewrite hex_encode_cons. unfold str_forall in *. cbn [str_bytes forallb].
  rewrite IH, !hex_digit_lower by zlia. done.
Qed.
