(* ===== verification/Crypto.v ===== *)
(** * Hashes and message authentication: [crypto/sha256], [crypto/sha512],
    [crypto/hmac] and [crypto/subtle]

    The SHA-2 functions are defined in full, so that every digest, signature
    and thumbprint of the program evaluates.  The asymmetric primitives
    ([ecdsa.Verify], [rsa.VerifyPKCS1v15]) are the class [Signatures]. *)

From S2P Require Import Prelude GoString GoTime Encoding.

(** ** SHA-2, generic in the word size *)

Record sha2 := Sha2 {
  sh_bits : Z;             (* bits of a word *)
  sh_k : list Z;           (* round constants *)
  sh_iv : list Z;          (* initial state *)
  sh_rot : list Z;         (* Sigma0, Sigma1 and sigma0, sigma1 amounts *)
  sh_out : nat             (* bytes of output *)
}.

Section Sha2.
Context (h : sha2).

Let w := sh_bits h.
Let block_len : nat := Z.to_nat (2 * w).
Definition word (z : Z) : Z := Z.land z (Z.ones w).
Definition rotr (z n : Z) : Z := Z.lor (Z.shiftr z n) (word (Z.shiftl z (w - n))).
Let rot (i : nat) : Z := nth i (sh_rot h) 0.
Definition big_sigma0 (x : Z) := Z.lxor (rotr x (rot 0)) (Z.lxor (rotr x (rot 1)) (rotr x (rot 2))).
Definition big_sigma1 (x : Z) := Z.lxor (rotr x (rot 3)) (Z.lxor (rotr x (rot 4)) (rotr x (rot 5))).
Definition sigma0 (x : Z) := Z.lxor (rotr x (rot 6)) (Z.lxor (rotr x (rot 7)) (Z.shiftr x (rot 8))).
Definition sigma1 (x : Z) := Z.lxor (rotr x (rot 9)) (Z.lxor (rotr x (rot 10)) (Z.shiftr x (rot 11))).
Definition choose (x y z : Z) := Z.lxor (Z.land x y) (Z.land (Z.lxor x (Z.ones w)) z).
Definition majority (x y z : Z) :=
  Z.lxor (Z.land x y) (Z.lxor (Z.land x z) (Z.land y z)).

(** The big-endian bytes of [z], [n] of them. *)
Fixpoint be_bytes (n : nat) (z : Z) : list Z :=
  match n with
  | O => []
  | S n' => Z.land (Z.shiftr z (8 * Z.of_nat n')) 255 :: be_bytes n' z
  end.

Definition be_word (l : list Z) : Z := fold_left (fun acc b => acc * 256 + b) l 0.

Fixpoint chunks (fuel n : nat) (l : list Z) : list (list Z) :=
  match fuel, l with
  | S f, _ :: _ => firstn n l :: chunks f n (skipn n l)
  | _, _ => []
  end.

(** The message followed by 0x80, zeros and the bit length. *)
Definition sha_pad (l : list Z) : list Z :=
  let n := Z.of_nat (List.length l) in
  let len_bytes := Z.to_nat (w / 4) in
  let zeros := Z.to_nat ((2 * w - 1 - w / 4 - n) mod (2 * w)) in
  l ++ [128] ++ repeat 0 zeros ++ be_bytes len_bytes (8 * n).

(** The message schedule, latest word first. *)
Fixpoint schedule (n : nat) (ws : list Z) : list Z :=
  match n with
  | O => ws
  | S n' =>
      schedule n'
        (word (sigma1 (nth 1 ws 0) + nth 6 ws 0 + sigma0 (nth 14 ws 0) + nth 15 ws 0) :: ws)
  end.

Definition sha_round (st : list Z) (kw : Z * Z) : list Z :=
  match st with
  | [a; b; c; d; e; f; g; hh] =>
      let t1 := hh + big_sigma1 e + choose e f g + fst kw + snd kw in
      let t2 := big_sigma0 a + majority a b c in
      [word (t1 + t2); a; b; c; word (d + t1); e; f; g]
  | _ => st
  end.

Definition sha_block (st : list Z) (block : list Z) : list Z :=
  let wb := Z.to_nat (w / 8) in
  let ws := map be_word (chunks 16 wb block) in
  let sched := rev (schedule (List.length (sh_k h) - 16) (rev ws)) in
  let st' := fold_left sha_round (combine (sh_k h) sched) st in
  zip_with (fun x y => word (x + y)) st st'.

Definition sha_state (l : list Z) : list Z :=
  let p := sha_pad l in
  fold_left sha_block (chunks (List.length p) block_len p) (sh_iv h).

Definition sha_sum (s : string) : string :=
  bytes_str (map of_byte (firstn (sh_out h)
    (flat_map (be_bytes (Z.to_nat (w / 8))) (sha_state (map byte_val (str_bytes s)))))).
End Sha2.

Definition k512 : list Z := [
   0x428a2f98d728ae22; 0x7137449123ef65cd; 0xb5c0fbcfec4d3b2f; 0xe9b5dba58189dbbc;
   0x3956c25bf348b538; 0x59f111f1b605d019; 0x923f82a4af194f9b; 0xab1c5ed5da6d8118;
   0xd807aa98a3030242; 0x12835b0145706fbe; 0x243185be4ee4b28c; 0x550c7dc3d5ffb4e2;
   0x72be5d74f27b896f; 0x80deb1fe3b1696b1; 0x9bdc06a725c71235; 0xc19bf174cf692694;
   0xe49b69c19ef14ad2; 0xefbe4786384f25e3; 0xfc19dc68b8cd5b5; 0x240ca1cc77ac9c65;
   0x2de92c6f592b0275; 0x4a7484aa6ea6e483; 0x5cb0a9dcbd41fbd4; 0x76f988da831153b5;
   0x983e5152ee66dfab; 0xa831c66d2db43210; 0xb00327c898fb213f; 0xbf597fc7beef0ee4;
   0xc6e00bf33da88fc2; 0xd5a79147930aa725; 0x6ca6351e003826f; 0x142929670a0e6e70;
   0x27b70a8546d22ffc; 0x2e1b21385c26c926; 0x4d2c6dfc5ac42aed; 0x53380d139d95b3df;
   0x650a73548baf63de; 0x766a0abb3c77b2a8; 0x81c2c92e47edaee6; 0x92722c851482353b;
   0xa2bfe8a14cf10364; 0xa81a664bbc423001; 0xc24b8b70d0f89791; 0xc76c51a30654be30;
   0xd192e819d6ef5218; 0xd69906245565a910; 0xf40e35855771202a; 0x106aa07032bbd1b8;
   0x19a4c116b8d2d0c8; 0x1e376c085141ab53; 0x2748774cdf8eeb99; 0x34b0bcb5e19b48a8;
   0x391c0cb3c5c95a63; 0x4ed8aa4ae3418acb; 0x5b9cca4f7763e373; 0x682e6ff3d6b2b8a3;
   0x748f82ee5defb2fc; 0x78a5636f43172f60; 0x84c87814a1f0ab72; 0x8cc702081a6439ec;
   0x90befffa23631e28; 0xa4506cebde82bde9; 0xbef9a3f7b2c67915; 0xc67178f2e372532b;
   0xca273eceea26619c; 0xd186b8c721c0c207; 0xeada7dd6cde0eb1e; 0xf57d4f7fee6ed178;
   0x6f067aa72176fba; 0xa637dc5a2c898a6; 0x113f9804bef90dae; 0x1b710b35131c471b;
   0x28db77f523047d84; 0x32caab7b40c72493; 0x3c9ebe0a15c9bebc; 0x431d67c49c100d4c;
   0x4cc5d4becb3e42b6; 0x597f299cfc657e2a; 0x5fcb6fab3ad6faec; 0x6c44198c4a475817].

(** The constants of the 32-bit functions are the high halves of these. *)
Definition k256 : list Z := Eval vm_compute in map (fun k => Z.shiftr k 32) (firstn 64 k512).

Definition SHA256 : sha2 := Sha2 32 k256 [
   0x6a09e667; 0xbb67ae85; 0x3c6ef372; 0xa54ff53a; 0x510e527f; 0x9b05688c; 0x1f83d9ab; 0x5be0cd19]
  [2; 13; 22; 6; 11; 25; 7; 18; 3; 17; 19; 10] 32.

Definition SHA384 : sha2 := Sha2 64 k512 [
   0xcbbb9d5dc1059ed8; 0x629a292a367cd507; 0x9159015a3070dd17; 0x152fecd8f70e5939;
   0x67332667ffc00b31; 0x8eb44a8768581511; 0xdb0c2e0d64f98fa7; 0x47b5481dbefa4fa4]
  [28; 34; 39; 14; 18; 41; 1; 8; 7; 19; 61; 6] 48.

Definition SHA512 : sha2 := Sha2 64 k512 [
   0x6a09e667f3bcc908; 0xbb67ae8584caa73b; 0x3c6ef372fe94f82b; 0xa54ff53a5f1d36f1;
   0x510e527fade682d1; 0x9b05688c2b3e6c1f; 0x1f83d9abfb41bd6b; 0x5be0cd19137e2179]
  [28; 34; 39; 14; 18; 41; 1; 8; 7; 19; 61; 6] 64.

(** [sha256.Sum256] *)
Definition sha256 (s : string) : string := sha_sum SHA256 s.

(** ** HMAC-SHA256 *)

Definition xor_byte (m : Z) (c : ascii) : ascii := of_byte (Z.lxor (byte_val c) m).

Definition hmac_key (key : string) : list ascii :=
  let k := if Nat.ltb 64 (String.length key) then sha256 key else key in
  str_bytes k ++ repeat (of_byte 0) (64 - String.length k).

(** [hmac.New(sha256.New, key)], [Write(msg)], [Sum(nil)]. *)
Definition hmac_sha256 (key msg : string) : string :=
  let k := hmac_key key in
  let ipad := bytes_str (map (xor_byte 54) k) in
  let opad := bytes_str (map (xor_byte 92) k) in
  sha256 (opad +:+ sha256 (ipad +:+ msg)).

(** [hmac.Equal] and [subtle.ConstantTimeCompare(a, b) == 1]. *)
Definition hmac_Equal (a b : string) : bool := String.eqb a b.

(** ** Test vectors (FIPS 180-4, RFC 4231) *)

Example sha256_abc :
  hex_encode (sha256 "abc") =
  "ba7816bf8f01cfea414140de5dae2223b00361a396177a9cb410ff61f20015ad".
Proof. vm_compute. reflexivity. Qed.

Example sha512_abc :
  hex_encode (sha_sum SHA512 "abc") =
  "ddaf35a193617abacc417349ae20413112e6fa4e89a97ea20a9eeee64b55d39a2192992a274fc1a836ba3c23a3feebbd454d4423643ce80e2a9ac94fa54ca49f".
Proof. vm_compute. reflexivity. Qed.

Example sha384_abc :
  hex_encode (sha_sum SHA384 "abc") =
  "cb00753f45a35e8bb5a03d699ac65007272c32ab0eded1631a8b605a43ff5bed8086072ba1e7cc2358baeca134c825a7".
Proof. vm_compute. reflexivity. Qed.

Example hmac_sha256_rfc4231_2 :
  hex_encode (hmac_sha256 "Jefe" "what do ya want for nothing?") =
  "5bdcc146bf60754e6a042426089575c75a003f089d2739839dec58b964ec3843".
Proof. vm_compute. reflexivity. Qed.


(** ** Digest lengths *)

Lemma sha_round_length h st kw : List.length (sha_round h st kw) = List.length st.
Proof. unfold sha_round. by repeat case_match. Qed.

Lemma fold_left_length {A B} (f : list A -> B -> list A) :
  (forall st b, List.length (f st b) = List.length st) ->
  forall l st, List.length (fold_left f l st) = List.length st.
Proof. intros Hf l. induction l as [|b l IH]; intros st; simpl; [done|]. by rewrite IH, Hf. Qed.

Lemma sha_block_length h st b : List.length (sha_block h st b) = List.length st.
Proof.
  unfold sha_block. rewrite length_zip_with, fold_left_length by apply sha_round_length. lia.
Qed.

Lemma be_bytes_length n z : List.length (be_bytes n z) = n.
Proof. induction n; simpl; [done|]. by f_equal. Qed.

Lemma flat_map_length_const {A B} (f : A -> list B) n l :
  (forall x, List.length (f x) = n) -> List.length (flat_map f l) = (List.length l * n)%nat.
Proof. intros Hf. induction l as [|x l IH]; simpl; [done|]. by rewrite length_app, Hf, IH. Qed.

Lemma sha256_length s : String.length (sha256 s) = 32%nat.
Proof.
  unfold sha256, sha_sum. rewrite length_bytes_str, length_map, length_firstn.
  rewrite (flat_map_length_const _ 4) by (intros; apply be_bytes_length).
  unfold sha_state. rewrite fold_left_length by apply sha_block_length. done.
Qed.

Lemma hmac_sha256_length k m : String.length (hmac_sha256 k m) = 32%nat.
Proof. apply sha256_length. Qed.

Lemma hmac_Equal_spec a b : hmac_Equal a b = true <-> a = b.
Proof. apply String.eqb_eq. Qed.

(** ** Asymmetric signatures *)

Inductive curve := P256 | P384 | P521.

#[export] Instance curve_eq_dec : EqDecision curve.
Proof. solve_decision. Defined.

Definition curve_BitSize (c : curve) : Z :=
  match c with P256 => 256 | P384 => 384 | P521 => 521 end.

Definition curve_Name (c : curve) : string :=
  match c with P256 => "P-256" | P384 => "P-384" | P521 => "P-521" end.

Definition curve_P (c : curve) : Z :=
  match c with
  | P256 => 2 ^ 256 - 2 ^ 224 + 2 ^ 192 + 2 ^ 96 - 1
  | P384 => 2 ^ 384 - 2 ^ 128 - 2 ^ 96 + 2 ^ 32 - 1
  | P521 => 2 ^ 521 - 1
  end.

Definition curve_B (c : curve) : Z :=
  match c with
  | P256 => 0x5ac635d8aa3a93e7b3ebbd55769886bc651d06b0cc53b0f63bce3c3e27d2604b
  | P384 => 0xb3312fa7e23ee7e4988e056be3f82d19181d9c6efe8141120314088f5013875ac656398d8a2ed19d2a85c8edd3ec2aef
  | P521 => 0x051953eb9618e1c9a1f929a21a0b68540eea2da725b99b315f3b8b489918ef109e156193951ec7e937b1652c0bd3bb1bf073573df883d2c34f1ef451fd46b503f00
  end.

(** [curve.IsOnCurve(x, y)]: affine coordinates below the field prime with
    [y^2 = x^3 - 3x + b]. *)
Definition IsOnCurve (c : curve) (x y : Z) : bool :=
  let p := curve_P c in
  (0 <=? x) && (x <? p) && (0 <=? y) && (y <? p) &&
  ((y * y) mod p =? (x * x * x - 3 * x + curve_B c) mod p).

(** [new(big.Int).SetBytes(b)] *)
Definition SetBytes (s : string) : Z := be_word (map byte_val (str_bytes s)).

(** [ecdsa.Verify(pub, digest, r, s)] and
    [rsa.VerifyPKCS1v15(pub, hash, digest, sig) == nil]. *)
Class Signatures := {
  ecdsa_Verify : curve -> Z -> Z -> string -> Z -> Z -> bool;
  rsa_Verify : Z -> Z -> sha2 -> string -> string -> bool
}.
