(* ===== verification/Json.v ===== *)
(** * JSON: package [encoding/json]

    The text syntax (a parser producing a tree that keeps, for every element
    and member, its raw bytes: a [json.RawMessage]), the string encoder, and
    the type-directed decoders [Unmarshal] applies to strings, booleans,
    integers, string slices and structs. *)

From Stdlib Require Import DecimalString DecimalZ DecimalPos DecimalFacts.
From S2P Require Import Prelude GoString GoTime Encoding.

Inductive json : Set :=
| JNull
| JBool (b : bool)
| JNum (lit : string)
| JStr (s : string)
| JArr (l : list (string * json))
| JObj (l : list (string * (string * json))).

(** ** Lexical elements *)

Definition is_ws (c : ascii) : bool :=
  let b := byte_val c in (b =? 32) || (b =? 9) || (b =? 10) || (b =? 13).
Definition skip_ws : string -> string := trim_left is_ws.

Definition is_digit (c : ascii) : bool := in_range 48 57 (byte_val c).

Fixpoint span (p : ascii -> bool) (s : string) : string * string :=
  match s with
  | EmptyString => (EmptyString, EmptyString)
  | String c s' =>
      if p c then let '(a, b) := span p s' in (String c a, b) else (EmptyString, s)
  end.

(** Four hexadecimal digits. *)
Definition getu4 (s : string) : option (Z * string) :=
  match s with
  | String a (String b (String c (String d r))) =>
      a ← hex_value a; b ← hex_value b; c ← hex_value c; d ← hex_value d;
      Some (((a * 16 + b) * 16 + c) * 16 + d, r)
  | _ => None
  end.

(** [utf16.DecodeRune]; [None] is the replacement character. *)
Definition utf16_decode (r1 r2 : Z) : option Z :=
  if in_range 55296 56319 r1 && in_range 56320 57343 r2
  then Some ((r1 - 55296) * 1024 + (r2 - 56320) + 65536) else None.

Definition simple_escape (c : ascii) : option ascii :=
  if bool_decide (c ∈ [dquote; backslash; "/"%char]) then Some c
  else if Ascii.eqb c "b" then Some "008"%char
  else if Ascii.eqb c "f" then Some "012"%char
  else if Ascii.eqb c "n" then Some "010"%char
  else if Ascii.eqb c "r" then Some "013"%char
  else if Ascii.eqb c "t" then Some "009"%char
  else None.

(** The text after an opening quote: the value, and what follows the closing
    quote.  Invalid UTF-8 and lone surrogates become U+FFFD. *)
Fixpoint parse_str (fuel : nat) (s : string) : option (string * string) :=
  match fuel, s with
  | S f, String c s' =>
      let emit (t : string) (rest : string) :=
        '(v, r) ← parse_str f rest; Some (t +:+ v, r) in
      if Ascii.eqb c dquote then Some (EmptyString, s')
      else if Ascii.eqb c backslash then
        match s' with
        | EmptyString => None
        | String e s2 =>
            if Ascii.eqb e "u" then
              '(rr, r) ← getu4 s2;
              if in_range 55296 57343 rr then
                match CutPrefix r "\u" with
                | (r2, true) =>
                    match getu4 r2 with
                    | Some (rr1, r3) =>
                        match utf16_decode rr rr1 with
                        | Some d => emit (encode_rune d) r3
                        | None => emit (encode_rune RuneError) r
                        end
                    | None => None
                    end
                | (_, false) => emit (encode_rune RuneError) r
                end
              else emit (encode_rune rr) r
            else
              e' ← simple_escape e; emit (str1 e') s2
        end
      else if byte_val c <? 32 then None
      else let '(r, w) := decode_rune s in emit (encode_rune r) (str_drop w s)
  | _, _ => None
  end.

(** A number literal by the JSON grammar. *)
Definition scan_digits1 (s : string) : option (string * string) :=
  match span is_digit s with
  | (EmptyString, _) => None
  | p => Some p
  end.

Definition scan_number (s : string) : option (string * string) :=
  let '(sign, s1) := match s with String "-" r => ("-", r) | _ => (EmptyString, s) end in
  '(ip, s2) ← match s1 with
              | String "0" r => Some ("0", r)
              | _ => scan_digits1 s1
              end;
  '(fp, s3) ← match s2 with
              | String "." r => '(d, r') ← scan_digits1 r; Some ("." +:+ d, r')
              | _ => Some (EmptyString, s2)
              end;
  '(ep, s4) ← match s3 with
              | String c r =>
                  if Ascii.eqb c "e" || Ascii.eqb c "E" then
                    let '(sg, r1) := match r with
                                     | String "+" r1 => ("+", r1)
                                     | String "-" r1 => ("-", r1)
                                     | _ => (EmptyString, r)
                                     end in
                    '(d, r2) ← scan_digits1 r1; Some (String c (sg +:+ d), r2)
                  else Some (EmptyString, s3)
              | _ => Some (EmptyString, s3)
              end;
  Some (sign +:+ ip +:+ fp +:+ ep, s4).

(** ** The parser *)

(** The bytes of [s] before its suffix [rest]. *)
Definition raw_before (s rest : string) : string :=
  str_take (String.length s - String.length rest) s.

Definition keyword (s kw : string) (v : json) : option (json * string) :=
  if HasPrefix s kw then Some (v, str_drop (String.length kw) s) else None.

(** [parse_value], [parse_elems] and [parse_members] start at the first byte of
    a value, of an array element and of a member. *)
Fixpoint parse_value (fuel : nat) (s : string) : option (json * string) :=
  match fuel with
  | O => None
  | S f =>
      match s with
      | EmptyString => None
      | String c s' =>
          if Ascii.eqb c "{" then
            let s1 := skip_ws s' in
            match s1 with
            | String "}" r => Some (JObj [], r)
            | _ => '(l, r) ← parse_members f s1; Some (JObj l, r)
            end
          else if Ascii.eqb c "[" then
            let s1 := skip_ws s' in
            match s1 with
            | String "]" r => Some (JArr [], r)
            | _ => '(l, r) ← parse_elems f s1; Some (JArr l, r)
            end
          else if Ascii.eqb c dquote then
            '(v, r) ← parse_str f s'; Some (JStr v, r)
          else if Ascii.eqb c "t" then keyword s "true" (JBool true)
          else if Ascii.eqb c "f" then keyword s "false" (JBool false)
          else if Ascii.eqb c "n" then keyword s "null" JNull
          else '(lit, r) ← scan_number s; Some (JNum lit, r)
      end
  end
with parse_elems (fuel : nat) (s : string) : option (list (string * json) * string) :=
  match fuel with
  | O => None
  | S f =>
      '(v, r) ← parse_value f s;
      let raw := raw_before s r in
      match skip_ws r with
      | String "," r' =>
          '(l, r'') ← parse_elems f (skip_ws r'); Some ((raw, v) :: l, r'')
      | String "]" r' => Some ([(raw, v)], r')
      | _ => None
      end
  end
with parse_members (fuel : nat) (s : string)
    : option (list (string * (string * json)) * string) :=
  match fuel with
  | O => None
  | S f =>
      match s with
      | String q s' =>
          if negb (Ascii.eqb q dquote) then None else
          '(k, r) ← parse_str f s';
          match skip_ws r with
          | String ":" r1 =>
              let s1 := skip_ws r1 in
              '(v, r2) ← parse_value f s1;
              let raw := raw_before s1 r2 in
              match skip_ws r2 with
              | String "," r3 =>
                  '(l, r4) ← parse_members f (skip_ws r3); Some ((k, (raw, v)) :: l, r4)
              | String "}" r3 => Some ([(k, (raw, v))], r3)
              | _ => None
              end
          | _ => None
          end
      | EmptyString => None
      end
  end.

(** Enough fuel: two calls never pass without consuming a byte. *)
Definition json_fuel (s : string) : nat := 2 * String.length s + 4.

(** [json.NewDecoder(r).Decode]: the first value of the stream. *)
Definition json_Decode (s : string) : option json :=
  fst <$> parse_value (json_fuel s) (skip_ws s).

(** [json.Unmarshal]: one value, and only white space after it. *)
Definition json_Unmarshal (s : string) : option json :=
  '(v, r) ← parse_value (json_fuel s) (skip_ws s);
  if String.eqb (skip_ws r) EmptyString then Some v else None.

(** ** Type-directed decoding

    Each decoder takes the destination's current value, which a JSON [null]
    leaves unchanged, and returns [None] on an [UnmarshalTypeError]. *)

Definition dec_string (old : string) (j : json) : option string :=
  match j with JStr s => Some s | JNull => Some old | _ => None end.

Definition dec_bool (old : bool) (j : json) : option bool :=
  match j with JBool b => Some b | JNull => Some old | _ => None end.

(** [strconv.ParseInt(lit, 10, 64)] on a JSON number literal. *)
Definition parse_int (lit : string) : option Z :=
  z ← Z.of_int <$> NilZero.int_of_string lit;
  if (min_int64 <=? z) && (z <=? max_int64) then Some z else None.

Definition dec_int64 (old : Z) (j : json) : option Z :=
  match j with JNum lit => parse_int lit | JNull => Some old | _ => None end.

(** Into a [[]string]: elements past the old length start from "". *)
Fixpoint dec_string_elems (old : list string) (l : list (string * json)) : option (list string) :=
  match l with
  | [] => Some []
  | (_, j) :: l' =>
      s ← dec_string (default EmptyString (head old)) j;
      r ← dec_string_elems (tail old) l';
      Some (s :: r)
  end.

Definition dec_strings (old : list string) (j : json) : option (list string) :=
  match j with
  | JArr l => dec_string_elems old l
  | JNull => Some []
  | _ => None
  end.

Section Struct.
Context {U : Unicode}.

(** The field a member name selects: an exact match, else a case fold. *)
Definition match_field (names : list string) (k : string) : option string :=
  if bool_decide (k ∈ names) then Some k else List.find (fun n => EqualFold n k) names.

(** Decode the members in order into [acc]; unknown members are skipped. *)
Fixpoint dec_members {A} (names : list string)
    (set : string -> string -> json -> A -> option A)
    (l : list (string * (string * json))) (acc : A) : option A :=
  match l with
  | [] => Some acc
  | (k, (raw, j)) :: l' =>
      acc' ← match match_field names k with
             | Some n => set n raw j acc
             | None => Some acc
             end;
      dec_members names set l' acc'
  end.

Definition dec_struct {A} (names : list string)
    (set : string -> string -> json -> A -> option A) (acc : A) (j : json) : option A :=
  match j with
  | JObj l => dec_members names set l acc
  | JNull => Some acc
  | _ => None
  end.
End Struct.

(** ** Encoding *)

Definition quote_char (c : ascii) : string :=
  let b := byte_val c in
  if (b =? 34) || (b =? 92) then escape1 c
  else if b =? 8 then escape1 "b"
  else if b =? 12 then escape1 "f"
  else if b =? 10 then escape1 "n"
  else if b =? 13 then escape1 "r"
  else if b =? 9 then escape1 "t"
  else if (b <? 32) || (b =? 60) || (b =? 62) || (b =? 38)
  then escape1 "u" +:+ hex_pad 4 b
  else str1 c.

Definition quote_json_rune (x : Z * string) : string :=
  let '(r, b) := x in
  if (r =? RuneError) && Nat.eqb (String.length b) 1 then escape1 "u" +:+ "fffd"
  else if (r =? 8232) || (r =? 8233) then escape1 "u" +:+ hex_pad 4 r
  else match b with
       | String c EmptyString => quote_char c
       | _ => b
       end.

(** [json.Marshal] of a string. *)
Definition json_quote (s : string) : string :=
  str1 dquote +:+ foldr (fun x acc => quote_json_rune x +:+ acc) EmptyString (runes s) +:+
  str1 dquote.

(** [json.Marshal] of a struct or map, from its already encoded members. *)
Fixpoint json_members (l : list (string * string)) : string :=
  match l with
  | [] => EmptyString
  | [(k, v)] => json_quote k +:+ ":" +:+ v
  | (k, v) :: l' => json_quote k +:+ ":" +:+ v +:+ "," +:+ json_members l'
  end.
Definition json_object (l : list (string * string)) : string :=
  "{" +:+ json_members l +:+ "}".

Definition json_strings (l : list string) : string := "[" +:+ Join (map json_quote l) "," +:+ "]".
Definition json_bool (b : bool) : string := if b then "true" else "false".

(** ** Round trips *)

Definition is_ascii_char (c : ascii) : bool := byte_val c <? 128.
Definition is_ascii (s : string) : bool := str_forall is_ascii_char s.

Lemma is_ascii_cons c s : is_ascii (String c s) = true <-> byte_val c < 128 /\ is_ascii s = true.
Proof.
  unfold is_ascii, str_forall, is_ascii_char. simpl.
  by rewrite andb_true_iff, Z.ltb_lt.
Qed.

Lemma decode_rune_ascii c s : byte_val c < 128 -> decode_rune (String c s) = (byte_val c, 1%nat).
Proof. intros H. simpl. by rewrite (proj2 (Z.ltb_lt _ _) H). Qed.

Lemma runes_ascii s :
  is_ascii s = true -> runes s = map (fun c => (byte_val c, str1 c)) (str_bytes s).
Proof.
  unfold runes. induction s as [|c s IH]; [done|].
  rewrite is_ascii_cons. intros [Hc Hs].
  change (runes_fuel _ (String c s)) with
    (let '(r, w) := decode_rune (String c s) in
     (r, str_take w (String c s)) :: runes_fuel (String.length s) (str_drop w (String c s))).
  rewrite decode_rune_ascii by done. simpl. by rewrite IH.
Qed.

Lemma parse_str_plain c f s :
  32 <= byte_val c < 128 -> c <> dquote -> c <> backslash ->
  parse_str (S f) (String c s) = '(v, r) ← parse_str f s; Some (String c v, r).
Proof.
  intros Hb Hq Hs. cbn [parse_str].
  rewrite (proj2 (Ascii.eqb_neq _ _) Hq), (proj2 (Ascii.eqb_neq _ _) Hs).
  rewrite (proj2 (Z.ltb_ge _ _)) by lia.
  rewrite decode_rune_ascii by lia. cbn [str_drop].
  unfold encode_rune. unfold in_range at 1.
  rewrite (proj2 (Z.leb_le 0 _)), (proj2 (Z.leb_le _ 127)) by lia.
  by rewrite of_byte_val.
Qed.

Lemma parse_str_escape e e' f s :
  simple_escape e = Some e' -> e <> "u"%char ->
  parse_str (S f) (escape1 e +:+ s) = '(v, r) ← parse_str f s; Some (String e' v, r).
Proof.
  intros He Hu. unfold escape1, str1. cbn [String.append parse_str].
  change (Ascii.eqb backslash dquote) with false.
  rewrite Ascii.eqb_refl, (proj2 (Ascii.eqb_neq _ _) Hu), He. done.
Qed.

Lemma parse_str_u00 c f s :
  byte_val c < 128 ->
  parse_str (S f) ((escape1 "u" +:+ hex_pad 4 (byte_val c)) +:+ s) =
  '(v, r) ← parse_str f s; Some (String c v, r).
Proof.
  intros Hc. destruct c as [[] [] [] [] [] [] [] []]; try (vm_compute in Hc; done);
    match goal with |- context [hex_pad 4 ?x] =>
      let q := eval vm_compute in (hex_pad 4 x) in change (hex_pad 4 x) with q end;
    done.
Qed.

Lemma quote_char_cases c :
  (quote_char c = str1 c /\ 32 <= byte_val c /\ c <> dquote /\ c <> backslash) \/
  (exists e, quote_char c = escape1 e /\ simple_escape e = Some c /\ e <> "u"%char) \/
  quote_char c = escape1 "u" +:+ hex_pad 4 (byte_val c).
Proof.
  assert (Hex : forall z d, byte_val c = z -> byte_val d = z -> c = d).
  { intros z d H1 H2. apply byte_val_inj. congruence. }
  unfold quote_char.
  destruct (_ || _) eqn:H0.
  { right; left. exists c. split; [done|]. apply orb_true_iff in H0 as [H0|H0]; b2p;
      [rewrite (Hex 34 dquote H0 eq_refl)|rewrite (Hex 92 backslash H0 eq_refl)]; done. }
  apply orb_false_iff in H0 as [Hq Hs]. b2p.
  destruct (_ =? 8) eqn:?; [right; left; exists "b"%char; b2p; by rewrite (Hex 8 "008"%char)|].
  destruct (_ =? 12) eqn:?; [right; left; exists "f"%char; b2p; by rewrite (Hex 12 "012"%char)|].
  destruct (_ =? 10) eqn:?; [right; left; exists "n"%char; b2p; by rewrite (Hex 10 "010"%char)|].
  destruct (_ =? 13) eqn:?; [right; left; exists "r"%char; b2p; by rewrite (Hex 13 "013"%char)|].
  destruct (_ =? 9) eqn:?; [right; left; exists "t"%char; b2p; by rewrite (Hex 9 "009"%char)|].
  destruct ((_ <? 32) || _ || _ || _) eqn:Hc; [by right; right|].
  left. b2p. split; [done|]. split; [done|]. split; intros ->; done.
Qed.

(** One encoded ASCII character is parsed back, whatever follows. *)
Lemma parse_str_quote_char c f s :
  byte_val c < 128 ->
  parse_str (S f) (quote_char c +:+ s) = '(v, r) ← parse_str f s; Some (String c v, r).
Proof.
  intros Hc. destruct (quote_char_cases c) as [(-> & Hb & Hq & Hs)|[(e & -> & He & Hu)| ->]].
  - apply parse_str_plain; done || lia.
  - by apply parse_str_escape.
  - by apply parse_str_u00.
Qed.

Definition json_escape (s : string) : string :=
  foldr (fun x acc => quote_json_rune x +:+ acc) EmptyString (runes s).

Lemma json_escape_ascii s :
  is_ascii s = true ->
  json_escape s = foldr (fun c acc => quote_char c +:+ acc) EmptyString (str_bytes s).
Proof.
  intros Hs. unfold json_escape. rewrite runes_ascii by done.
  induction s as [|c s IH]; [done|]. apply is_ascii_cons in Hs as [Hc Hs].
  cbn [str_bytes map foldr]. rewrite IH by done. f_equal.
  unfold quote_json_rune. pose proof (byte_val_range c).
  by rewrite !(proj2 (Z.eqb_neq _ _)) by (unfold RuneError; lia).
Qed.

(** Parsing inverts [json.Marshal] on ASCII strings. *)
Lemma parse_str_json_escape s rest f :
  is_ascii s = true -> (String.length s < f)%nat ->
  parse_str f (json_escape s +:+ String dquote rest) = Some (s, rest).
Proof.
  intros Hs. rewrite json_escape_ascii by done. revert f.
  induction s as [|c s IH]; intros [|f] Hf; simpl in Hf; try lia; [done|].
  apply is_ascii_cons in Hs as [Hc Hs]. cbn [str_bytes foldr].
  rewrite str_app_assoc, parse_str_quote_char by done.
  by rewrite IH by (done || lia).
Qed.

Lemma parse_int_fmt_d z : int64_ok z -> parse_int (fmt_d z) = Some z.
Proof.
  intros [Hlo Hhi]. unfold parse_int, fmt_d.
  rewrite NilZero.isi;
    [|destruct z; simpl; try done; intros [= H]; by apply DecimalPos.Unsigned.to_uint_nonnil in H..].
  simpl. rewrite DecimalZ.of_to.
  by rewrite (proj2 (Z.leb_le _ _) Hlo), (proj2 (Z.leb_le _ _) Hhi).
Qed.

(** ** Round trip of encoded objects *)

(** What follows a value in an object or an array. *)
Definition is_end (c : ascii) : Prop := c = ","%char \/ c = "}"%char \/ c = "]"%char.

(** [t] is read as the value [v] in front of such an end. *)
Definition reads (t : string) (v : json) : Prop :=
  (forall f c rest, (String.length t < f)%nat -> is_end c ->
   parse_value f (t +:+ String c rest) = Some (v, String c rest)) /\
  match t with String c _ => is_ws c = false | EmptyString => False end.

Lemma skip_ws_id c s : is_ws c = false -> skip_ws (String c s) = String c s.
Proof. intros H. unfold skip_ws. cbn [trim_left]. by rewrite H. Qed.

Lemma reads_skip_ws t v rest : reads t v -> skip_ws (t +:+ rest) = t +:+ rest.
Proof. intros [_ H]. destruct t; [done|]. by apply skip_ws_id. Qed.

Lemma raw_before_app t rest : raw_before (t +:+ rest) rest = t.
Proof.
  unfold raw_before. rewrite str_length_app, Nat.add_sub. apply str_take_app.
Qed.

Lemma json_quote_eq s : json_quote s = String dquote (json_escape s +:+ str1 dquote).
Proof. done. Qed.

Lemma quote_char_length c : (1 <= String.length (quote_char c))%nat.
Proof.
  destruct (quote_char_cases c) as [(-> & _)|[(e & -> & _)| ->]]; simpl; try lia.
Qed.

Lemma json_escape_length s : is_ascii s = true -> (String.length s <= String.length (json_escape s))%nat.
Proof.
  intros Hs. rewrite json_escape_ascii by done. clear Hs.
  induction s as [|c s IH]; simpl; [lia|]. rewrite str_length_app.
  pose proof (quote_char_length c). lia.
Qed.

Lemma reads_quote s : is_ascii s = true -> reads (json_quote s) (JStr s).
Proof.
  intros Hs. rewrite json_quote_eq. split; [|done]. intros [|f] c rest Hf _; [lia|].
  pose proof (json_escape_length s Hs). cbn [String.length] in Hf.
  rewrite str_length_app in Hf. simpl in Hf.
  rewrite str_app_cons, str_app_assoc. cbn [parse_value].
  change (Ascii.eqb dquote "{") with false. change (Ascii.eqb dquote "[") with false.
  rewrite Ascii.eqb_refl. unfold str1. cbn [String.append].
  rewrite parse_str_json_escape by (done || lia). done.
Qed.

(** Decimal numerals. *)
Definition no_lead_zero (s : string) : Prop :=
  match s with String c _ => is_digit c = true /\ c <> "0"%char | EmptyString => False end.

Lemma string_of_uint_digits u : str_forall is_digit (NilEmpty.string_of_uint u) = true.
Proof. induction u; done || (unfold str_forall in *; simpl; by rewrite IHu). Qed.

Lemma pos_numeral p : exists s, fmt_d (Zpos p) = s /\ fmt_d (Zneg p) = "-" +:+ s /\
  str_forall is_digit s = true /\ no_lead_zero s.
Proof.
  unfold fmt_d, Z.to_int, NilZero.string_of_int.
  pose proof (DecimalPos.Unsigned.to_uint_nonzero p) as Hz.
  pose proof (DecimalPos.Unsigned.to_uint_nonnil p) as Hn.
  assert (Hnorm : Decimal.unorm (Pos.to_uint p) = Pos.to_uint p).
  { pose proof (DecimalPos.Unsigned.to_of (Pos.to_uint p)) as H.
    rewrite DecimalPos.Unsigned.of_to in H. simpl in H. by symmetry. }
  exists (NilEmpty.string_of_uint (Pos.to_uint p)).
  assert (NilZero.string_of_uint (Pos.to_uint p) = NilEmpty.string_of_uint (Pos.to_uint p)) as ->
    by (by destruct (Pos.to_uint p)).
  split; [done|]. split; [done|]. split; [apply string_of_uint_digits|].
  destruct (Pos.to_uint p) eqn:E; try done.
  exfalso. unfold Decimal.unorm in Hnorm. 
  destruct (Decimal.nzhead (Decimal.D0 u)) eqn:E'; try done; try (by injection Hnorm as <-).
  pose proof (DecimalFacts.nzhead_nonzero (Decimal.D0 u) u0). congruence.
Qed.

Lemma is_digit_not c d : is_digit c = true -> is_digit d = false -> Ascii.eqb c d = false.
Proof. intros Hc Hd. apply Ascii.eqb_neq. intros ->. congruence. Qed.

Lemma span_app p s t :
  str_forall p s = true -> match t with String c _ => p c = false | _ => True end ->
  span p (s +:+ t) = (s, t).
Proof.
  intros Hs Ht. induction s as [|c s IH].
  - destruct t as [|c t]; [done|]. simpl. by rewrite Ht.
  - unfold str_forall in Hs. cbn [str_bytes forallb] in Hs. apply andb_true_iff in Hs as [Hc Hs].
    rewrite str_app_cons. cbn [span]. rewrite Hc, IH by done. done.
Qed.

(** Rewrite the first step of a chain of binds. *)
Ltac bind_first H :=
  match type of H with _ = ?r =>
    match goal with |- mbind _ ?m = _ => replace m with r by (symmetry; exact H) end
  end.

(** An unsigned numeral without a leading zero, after an optional sign. *)
Lemma scan_unsigned s c rest :
  str_forall is_digit s = true -> no_lead_zero s -> is_end c ->
  scan_number (s +:+ String c rest) = Some (s, String c rest) /\
  scan_number ("-" +:+ s +:+ String c rest) = Some ("-" +:+ s, String c rest).
Proof.
  intros Hd Hn Hc. destruct s as [|x s]; [done|]. destruct Hn as [Hx Hx0].
  assert (Hspan : scan_digits1 (String x s +:+ String c rest) = Some (String x s, String c rest)).
  { unfold scan_digits1. rewrite span_app; [done|done|]. by destruct Hc as [-> | [-> | ->]]. }
  assert (Hgo : (match (String x s +:+ String c rest) with
              | String "0" r => Some ("0", r)
              | _ => scan_digits1 (String x s +:+ String c rest)
              end) = Some (String x s, String c rest)).
  { rewrite Hspan. rewrite str_app_cons. destruct x as [[] [] [] [] [] [] [] []]; done. }
  assert (Hsign : (match (String x s +:+ String c rest) with
              | String "-" r => ("-", r) | _ => (EmptyString, String x s +:+ String c rest)
              end) = (EmptyString, String x s +:+ String c rest)).
  { rewrite str_app_cons. destruct x as [[] [] [] [] [] [] [] []]; done. }
  split; unfold scan_number.
  - rewrite Hsign. cbv beta iota. bind_first Hgo. cbn [mbind option_bind].
    destruct Hc as [-> | [-> | ->]]; cbn; by rewrite str_app_nil_r.
  - cbn [String.append]. bind_first Hgo. cbn [mbind option_bind].
    destruct Hc as [-> | [-> | ->]]; cbn; by rewrite str_app_nil_r.
Qed.

Lemma parse_value_number f x s :
  is_digit x = true \/ x = "-"%char ->
  parse_value (S f) (String x s) = '(lit, r) ← scan_number (String x s); Some (JNum lit, r).
Proof.
  intros Hx. cbn [parse_value].
  assert (H : forall d, is_digit d = false -> d <> "-"%char -> Ascii.eqb x d = false).
  { intros d Hd Hm. destruct Hx as [Hx| ->]; [by apply is_digit_not|].
    apply Ascii.eqb_neq. congruence. }
  by rewrite !H by done.
Qed.

Lemma reads_fmt_d z : reads (fmt_d z) (JNum (fmt_d z)).
Proof.
  destruct z as [|p|p].
  - split; [|done]. intros [|f] c rest Hf Hc; [simpl in Hf; lia|].
    change (fmt_d 0) with "0". cbn [String.append]. rewrite parse_value_number by (by left).
    by destruct Hc as [-> | [-> | ->]].
  - destruct (pos_numeral p) as (s & -> & _ & Hd & Hn). split.
    + intros [|f] c rest Hf Hc; [lia|]. destruct (scan_unsigned s c rest Hd Hn Hc) as [Hs _].
      destruct s as [|x s]; [done|]. rewrite str_app_cons in *. destruct Hn as [Hx _].
      rewrite parse_value_number by (by left). by rewrite Hs.
    + destruct s as [|x s]; [done|]. destruct Hn as [Hx _]. unfold is_ws.
      unfold is_digit, in_range in Hx. b2p. 
      rewrite !(proj2 (Z.eqb_neq _ _)) by lia. done.
  - destruct (pos_numeral p) as (s & _ & -> & Hd & Hn). split; [|done].
    intros [|f] c rest Hf Hc; [lia|]. destruct (scan_unsigned s c rest Hd Hn Hc) as [_ Hs].
    rewrite str_app_assoc. cbn [String.append] in *. rewrite parse_value_number by (by right).
    by rewrite Hs.
Qed.

(** Members: keys in ASCII, every value read back. *)
Lemma parse_members_spec l rest f :
  l <> [] ->
  Forall (fun m => is_ascii m.1 = true /\ exists v, reads m.2.1 v /\ v = m.2.2) l ->
  (String.length (json_members (map (fun m => (m.1, m.2.1)) l)) < f)%nat ->
  parse_members f (json_members (map (fun m => (m.1, m.2.1)) l) +:+ "}" +:+ rest) = Some (l, rest).
Proof.
  intros Hne Hl. revert f. induction l as [|[k [t v]] l IH]; [done|]. intros [|f] Hf; [lia|].
  apply Forall_cons_1 in Hl as [[Hk (v' & Hr & ->)] Hl]. cbn [fst snd] in *.
  pose proof (json_escape_length k Hk) as Hke.
  assert (Hstep : forall c tl, c = ","%char \/ c = "}"%char -> (String.length t < f)%nat ->
    (String.length (json_escape k) < f)%nat ->
    parse_members (S f) ((json_quote k +:+ ":" +:+ t) +:+ String c tl) =
    (if Ascii.eqb c "," then
       '(l, r4) ← parse_members f (skip_ws tl); Some ((k, (t, v)) :: l, r4)
     else Some ([(k, (t, v))], tl))).
  { intros c tl Hc Ht Hkl. rewrite json_quote_eq, !str_app_cons, !str_app_assoc.
    cbn [parse_members]. rewrite Ascii.eqb_refl. cbn [negb]. unfold str1. cbn [String.append].
    rewrite parse_str_json_escape by (done || lia). cbn [mbind option_bind].
    rewrite skip_ws_id by done. rewrite (reads_skip_ws t v) by done.
    destruct Hr as [Hr _]. rewrite Hr by (done || (unfold is_end; tauto)). cbn [mbind option_bind].
    rewrite raw_before_app. rewrite skip_ws_id by (by destruct Hc as [-> | ->]).
    by destruct Hc as [-> | ->]. }
  destruct l as [|m l].
  - cbn [map json_members] in *. rewrite !str_length_app in Hf. rewrite json_quote_eq in Hf.
    cbn [String.length] in Hf. rewrite str_length_app in Hf. simpl in Hf.
    change ("}" +:+ rest) with (String "}" rest).
    rewrite Hstep by first [lia | by right]. done.
  - set (ms := json_members (map (fun m => (m.1, m.2.1)) (m :: l))) in *.
    assert (Hms : json_members (map (fun m => (m.1, m.2.1)) ((k, (t, v)) :: m :: l)) =
      json_quote k +:+ ":" +:+ t +:+ "," +:+ ms) by (by destruct m as [? [? ?]]).
    rewrite Hms in *. rewrite !str_length_app in Hf. rewrite json_quote_eq in Hf.
    cbn [String.length] in Hf. rewrite str_length_app in Hf. simpl in Hf.
    rewrite !str_app_assoc. change ("," +:+ ms +:+ "}" +:+ rest) with (String "," (ms +:+ "}" +:+ rest)).
    rewrite <- (str_app_assoc ":"), <- str_app_assoc, (Hstep ","%char _) by first [lia | by left].
    rewrite Ascii.eqb_refl.
    assert (Hsk : skip_ws (ms +:+ "}" +:+ rest) = ms +:+ "}" +:+ rest).
    { subst ms. destruct m as [k' [t' v']]. cbn [map json_members fst snd].
      rewrite json_quote_eq. by destruct (map _ l). }
    rewrite Hsk, IH by (done || lia). done.
Qed.

(** [json.Unmarshal] of a marshalled object gives its members back. *)
Lemma json_Unmarshal_object l :
  l <> [] ->
  Forall (fun m => is_ascii m.1 = true /\ exists v, reads m.2.1 v /\ v = m.2.2) l ->
  json_Unmarshal (json_object (map (fun m => (m.1, m.2.1)) l)) = Some (JObj l).
Proof.
  intros Hne Hl. unfold json_Unmarshal, json_object, json_fuel.
  set (ms := json_members _) in *. cbn [String.append].
  rewrite skip_ws_id by done. cbn [String.length]. rewrite str_length_app. cbn [String.length].
  replace (2 * S (String.length ms + 1) + 4)%nat with (S (2 * String.length ms + 7)) by lia.
  cbn [parse_value]. change (Ascii.eqb "{" "{") with true. cbv iota.
  assert (Hms : exists r, ms = String dquote r).
  { subst ms. destruct l as [|[k [t v]] l]; [done|]. cbn [map json_members fst snd].
    rewrite json_quote_eq. destruct (map _ l); eexists; reflexivity. }
  assert (skip_ws (ms +:+ "}") = ms +:+ "}") as Hsk by (by destruct Hms as [r ->]).
  rewrite Hsk.
  pose proof (parse_members_spec l EmptyString (2 * String.length ms + 7) Hne Hl ltac:(subst ms; lia)) as Hp.
  fold ms in Hp. change ("}" +:+ "") with "}" in Hp. rewrite Hp.
  destruct Hms as [r Hr]. rewrite Hr. done.
Qed.

(** Text that [json.Marshal] copies unchanged between the quotes. *)
Definition is_plain (c : ascii) : bool :=
  let b := byte_val c in
  (32 <=? b) && (b <? 128) && negb (existsb (Z.eqb b) [34; 92; 60; 62; 38]).

Lemma is_plain_ascii s : str_forall is_plain s = true -> is_ascii s = true.
Proof.
  unfold is_ascii. rewrite !str_forall_spec. intros H c Hc. specialize (H c Hc).
  unfold is_plain, is_ascii_char in *. b2p. lia.
Qed.

Lemma json_escape_plain s : str_forall is_plain s = true -> json_escape s = s.
Proof.
  intros Hs. rewrite json_escape_ascii by (by apply is_plain_ascii).
  induction s as [|c s IH]; [done|]. unfold str_forall in *. cbn [str_bytes forallb foldr] in *.
  apply andb_true_iff in Hs as [Hc Hs]. rewrite IH by done.
  unfold is_plain in Hc. cbn [existsb] in Hc. rewrite orb_false_r in Hc.
  apply andb_true_iff in Hc as [Hc Hn]. apply negb_true_iff in Hn. b2p.
  destruct (quote_char_cases c) as [(-> & _)|[(e & He & Hse & _)|He]]; [done|..].
  - unfold quote_char in He. rewrite !(proj2 (Z.eqb_neq _ _)) in He by lia.
    rewrite (proj2 (Z.ltb_ge _ _)) in He by lia. simpl in He. by injection He.
  - unfold quote_char. rewrite !(proj2 (Z.eqb_neq _ _)) by lia.
    by rewrite (proj2 (Z.ltb_ge _ _)) by lia.
Qed.

Lemma json_quote_plain s :
  str_forall is_plain s = true -> json_quote s = str1 dquote +:+ s +:+ str1 dquote.
Proof. intros Hs. rewrite json_quote_eq, json_escape_plain by done. done. Qed.

(** A member whose name is written as declared. *)
Lemma match_field_exact `{U : Unicode} names k : k ∈ names -> match_field names k = Some k.
Proof. intros H. unfold match_field. by rewrite bool_decide_eq_true_2. Qed.
