(* ===== verification/JsonText.v ===== *)
(** * Reading back what [json.Marshal] writes

    Objects, arrays, strings, booleans and integers, nested to any depth: the
    parser returns the tree of a marshalled text.  A map is marshalled with
    its keys sorted ([json_map]). *)

From stdpp Require Import sorting.
From S2P Require Import Prelude GoString GoTime Encoding Json.

(** [t] is read as [v] whatever follows it. *)
Definition whole (t : string) (v : json) : Prop :=
  (forall f rest, (String.length t < f)%nat -> parse_value f (t +:+ rest) = Some (v, rest)) /\
  match t with String c _ => is_ws c = false | EmptyString => False end.

Lemma whole_reads t v : whole t v -> reads t v.
Proof. intros [H Hc]. split; [|done]. intros f c rest Hf _. by apply H. Qed.

Lemma json_Decode_whole t v rest : whole t v -> json_Decode (t +:+ rest) = Some v.
Proof.
  intros Hw. unfold json_Decode. rewrite (reads_skip_ws t v) by (by apply whole_reads).
  destruct Hw as [H _]. rewrite H; [done|]. unfold json_fuel. rewrite str_length_app. lia.
Qed.

Lemma json_Unmarshal_whole t v ws :
  whole t v -> str_forall is_ws ws = true -> json_Unmarshal (t +:+ ws) = Some v.
Proof.
  intros Hw Hws. unfold json_Unmarshal. rewrite (reads_skip_ws t v) by (by apply whole_reads).
  destruct Hw as [H _]. rewrite H; [|unfold json_fuel; rewrite str_length_app; lia]. cbn [mbind option_bind].
  replace (skip_ws ws) with EmptyString; [done|]. unfold skip_ws. revert Hws. unfold str_forall.
  induction ws as [|c ws IH]; [done|]. cbn [str_bytes forallb trim_left].
  intros [Hc Hw]%andb_true_iff. rewrite Hc. by apply IH.
Qed.

(** ** Values *)

Lemma whole_quote s : is_ascii s = true -> whole (json_quote s) (JStr s).
Proof.
  intros Hs. rewrite json_quote_eq. split; [|done]. intros [|f] rest Hf; [lia|].
  pose proof (json_escape_length s Hs). cbn [String.length] in Hf. rewrite str_length_app in Hf. simpl in Hf.
  rewrite str_app_cons, str_app_assoc. cbn [parse_value].
  change (Ascii.eqb dquote "{") with false. change (Ascii.eqb dquote "[") with false.
  rewrite Ascii.eqb_refl. unfold str1. cbn [String.append].
  rewrite parse_str_json_escape by (done || lia). done.
Qed.

Lemma whole_bool b : whole (json_bool b) (JBool b).
Proof. split; [|by destruct b]. intros [|f] rest Hf; [lia|]. by destruct b. Qed.

Lemma json_members_head l : l <> [] -> exists r, json_members l = String dquote r.
Proof.
  destruct l as [|[k v] [|m l]]; [done|..]; intros _; cbn [json_members]; rewrite json_quote_eq; by eexists.
Qed.

(** A marshalled object: every member is in ASCII and its value reads back. *)
Definition member_ok (m : string * (string * json)) : Prop := is_ascii m.1 = true /\ reads m.2.1 m.2.2.

Lemma whole_object l :
  Forall member_ok l -> whole (json_object (map (fun m => (m.1, m.2.1)) l)) (JObj l).
Proof.
  intros Hl. split; [|done]. intros [|f] rest Hf; [lia|]. unfold json_object in *.
  destruct (decide (l = [])) as [->|Hne]; [done|].
  set (ms := json_members (map _ l)) in *. cbn [String.append parse_value].
  change (Ascii.eqb "{" "{") with true. cbv iota.
  destruct (json_members_head (map (fun m => (m.1, m.2.1)) l)) as [r Hr]; [by destruct l|].
  fold ms in Hr. cbn [String.append String.length] in Hf. rewrite str_length_app in Hf.
  rewrite str_app_assoc.
  assert (Hsk : skip_ws (ms +:+ "}" +:+ rest) = ms +:+ "}" +:+ rest) by (by rewrite Hr).
  rewrite Hsk. subst ms. rewrite parse_members_spec; [|done| |simpl in Hf; lia].
  - rewrite Hr. done.
  - eapply Forall_impl; [exact Hl|]. intros m [Ha Hm]. split; [done|]. by eexists.
Qed.

(** [json.Marshal] of a slice, from its encoded elements. *)
Definition json_list (l : list string) : string := "[" +:+ Join l "," +:+ "]".

Lemma json_strings_list l : json_strings l = json_list (map json_quote l).
Proof. done. Qed.

Lemma parse_elems_spec l rest f :
  l <> [] -> Forall (fun e => reads e.1 e.2) l ->
  (String.length (Join (map fst l) ",") + 1 < f)%nat ->
  parse_elems f (Join (map fst l) "," +:+ "]" +:+ rest) = Some (l, rest).
Proof.
  intros Hne Hl. revert f. induction l as [|[t v] l IH]; [done|]. intros [|f] Hf; [lia|].
  apply Forall_cons_1 in Hl as [Ht Hl]. cbn [fst snd] in Ht.
  assert (Hstep : forall c tl, is_end c -> (String.length t < f)%nat ->
    parse_value f (t +:+ String c tl) = Some (v, String c tl)) by (intros c tl Hc Hlen; by apply Ht).
  destruct l as [|e l].
  - cbn [map Join fst] in *. change ("]" +:+ rest) with (String "]" rest). cbn [parse_elems].
    rewrite Hstep by (unfold is_end; tauto || lia). cbn [mbind option_bind].
    rewrite raw_before_app, skip_ws_id by done. done.
  - set (es := Join (map fst (e :: l)) ",") in *.
    change (Join (map fst ((t, v) :: e :: l)) ",") with (t +:+ "," +:+ es) in *.
    rewrite !str_length_app in Hf. simpl in Hf. rewrite !str_app_assoc.
    change ("," +:+ es +:+ "]" +:+ rest) with (String "," (es +:+ "]" +:+ rest)).
    cbn [parse_elems]. rewrite Hstep by (unfold is_end; tauto || lia). cbn [mbind option_bind].
    rewrite raw_before_app, skip_ws_id by done.
    assert (Hsk : skip_ws (es +:+ "]" +:+ rest) = es +:+ "]" +:+ rest).
    { subst es. apply Forall_cons_1 in Hl as [He _]. destruct e as [te ve]. cbn [map fst].
      destruct (map fst l); cbn [Join]; rewrite ?str_app_assoc; by eapply reads_skip_ws. }
    rewrite Hsk, IH by (done || lia). done.
Qed.

Lemma whole_list l : Forall (fun e => reads e.1 e.2) l -> whole (json_list (map fst l)) (JArr l).
Proof.
  intros Hl. split; [|done]. intros [|f] rest Hf; [lia|]. unfold json_list in *.
  destruct (decide (l = [])) as [->|Hne]; [done|].
  set (es := Join (map fst l) ",") in *. cbn [String.append parse_value].
  change (Ascii.eqb "[" "{") with false. change (Ascii.eqb "[" "[") with true. cbv iota.
  cbn [String.append String.length] in Hf. rewrite str_length_app in Hf. rewrite str_app_assoc.
  destruct l as [|[t v] l]; [done|]. pose proof Hl as Hl'. apply Forall_cons_1 in Hl' as [Ht _].
  assert (Hes : exists u, es = t +:+ u).
  { subst es. cbn [map fst]. destruct (map fst l); cbn [Join]; [exists EmptyString; by rewrite str_app_nil_r|by eexists]. }
  destruct Hes as [u Hu].
  assert (Hsk : skip_ws (es +:+ "]" +:+ rest) = es +:+ "]" +:+ rest).
  { rewrite Hu, !str_app_assoc. by eapply reads_skip_ws. }
  rewrite Hsk. subst es. rewrite parse_elems_spec; [|done|done|cbn [String.length] in Hf; lia].
  cbn [mbind option_bind].
  destruct Ht as [Hr Hc]. cbn [fst] in Hr, Hc. destruct t as [|c t]; [done|].
  rewrite Hu, str_app_cons, str_app_cons.
  assert (c <> "]"%char).
  { intros ->. assert (Hlen : (String.length (String "]" t) < 2 + String.length t)%nat) by (cbn [String.length]; lia).
    specialize (Hr _ ","%char EmptyString Hlen (or_introl eq_refl)). cbn in Hr. unfold scan_digits1 in Hr. cbn in Hr. discriminate Hr. }
  destruct c as [[] [] [] [] [] [] [] []]; try done.
Qed.

(** ** Maps *)

#[local] Instance member_le_dec (a b : string * string) : Decision (String.leb a.1 b.1 = true) := _.

(** The members of a map in the order of their keys, and [json.Marshal] of a
    [map[string]T] from its encoded values. *)
Definition sorted_members (m : gmap string string) : list (string * string) :=
  merge_sort (fun a b => String.leb a.1 b.1 = true) (map_to_list m).
Definition json_map (m : gmap string string) : string := json_object (sorted_members m).
