(* ===== verification/TextLemmas.v ===== *)
(** * Lemmas on ASCII text: trimming, splitting and joining *)

From S2P Require Import Prelude GoString GoTime Encoding Json.

Definition is_space (c : ascii) : bool := IsSpace (byte_val c).

(** Text that [strings.TrimSpace] leaves alone, on the left and on both sides. *)
Definition head_ok (s : string) : bool :=
  match s with String c _ => negb (is_space c) | EmptyString => false end.
Definition trimmed (s : string) : Prop :=
  is_ascii s = true /\ head_ok s = true /\ exists t c, s = t +:+ str1 c /\ is_space c = false.

Lemma concat_chunks_bytes l :
  concat_chunks (map (fun c => (byte_val c, str1 c)) l) = bytes_str l.
Proof. induction l as [|c l IH]; [done|]. cbn. by f_equal. Qed.

Lemma is_ascii_app s t : is_ascii (s +:+ t) = is_ascii s && is_ascii t.
Proof. apply str_forall_app. Qed.

Lemma drop_while_spaces pre (l : list (Z * string)) :
  str_forall is_space pre = true ->
  drop_while (fun x : Z * string => IsSpace x.1)
    (map (fun c => (byte_val c, str1 c)) (str_bytes pre) ++ l)%list =
  drop_while (fun x : Z * string => IsSpace x.1) l.
Proof.
  intros Hp. induction pre as [|c pre IH]; [done|].
  unfold str_forall in *. cbn [str_bytes forallb map app drop_while fst] in *.
  apply andb_true_iff in Hp as [Hc Hp]. unfold is_space in Hc. by rewrite Hc, IH.
Qed.

Lemma TrimSpace_trimmed pre s :
  is_ascii pre = true -> str_forall is_space pre = true -> trimmed s ->
  TrimSpace (pre +:+ s) = s.
Proof.
  intros Hpa Hp (Ha & Hh & t & c & -> & Hc). unfold TrimSpace.
  rewrite runes_ascii by (rewrite is_ascii_app; by apply andb_true_iff).
  rewrite str_bytes_app, map_app, drop_while_spaces by done.
  set (l := map _ (str_bytes (t +:+ str1 c))).
  assert (Hd : drop_while (fun x : Z * string => IsSpace x.1) l = l).
  { subst l. destruct (t +:+ str1 c) as [|x u]; [done|].
    cbn [str_bytes map drop_while fst]. cbn [head_ok] in Hh. apply negb_true_iff in Hh.
    unfold is_space in Hh. by rewrite Hh. }
  rewrite Hd. subst l. rewrite str_bytes_app, map_app, rev_app_distr.
  cbn [str1 str_bytes map rev app drop_while fst]. unfold is_space in Hc. rewrite Hc.
  cbn [rev]. rewrite rev_involutive.
  change [(byte_val c, str1 c)] with (map (fun c => (byte_val c, str1 c)) [c]).
  rewrite <- map_app, concat_chunks_bytes, bytes_str_app, bytes_str_bytes. done.
Qed.

Lemma TrimSpace_id s : trimmed s -> TrimSpace s = s.
Proof. intros Hs. by apply (TrimSpace_trimmed EmptyString). Qed.

(** Splitting a joined list at the first byte of the separator. *)
Lemma Split_Join sep pad l x :
  Forall (fun s => sep ∉ str_bytes s) (x :: l) -> sep ∉ str_bytes pad ->
  Split (Join (x :: l) (String sep pad)) sep = x :: map (fun s => pad +:+ s) l.
Proof.
  intros Hl Hpad. revert x Hl. induction l as [|y l IH]; intros x Hl.
  - apply Forall_cons_1 in Hl as [Hx _]. by apply Split_not_elem.
  - apply Forall_cons_1 in Hl as [Hx Hl].
    change (Join (x :: y :: l) (String sep pad)) with
      (x +:+ String sep (pad +:+ Join (y :: l) (String sep pad))).
    rewrite Split_app by done. f_equal. cbn [map].
    destruct l as [|z l].
    + apply Forall_cons_1 in Hl as [Hy _]. rewrite Split_not_elem; [done|].
      rewrite str_bytes_app. set_solver.
    + change (Join (y :: z :: l) (String sep pad)) with
        (y +:+ String sep (pad +:+ Join (z :: l) (String sep pad))).
      rewrite <- str_app_assoc, Split_app.
      * specialize (IH y Hl).
        change (Join (y :: z :: l) (String sep pad)) with
          (y +:+ String sep (pad +:+ Join (z :: l) (String sep pad))) in IH.
        apply Forall_cons_1 in Hl as [Hy _]. rewrite Split_app in IH by done.
        injection IH as IH. cbn [map]. by f_equal.
      * apply Forall_cons_1 in Hl as [Hy _]. rewrite str_bytes_app. set_solver.
Qed.

(** Stripping quotes. *)
Lemma Trim_quoted c s :
  c ∉ str_bytes s -> Trim (str1 c +:+ s +:+ str1 c) c = s.
Proof.
  intros Hn. unfold Trim, str1. cbn [String.append trim_left]. rewrite Ascii.eqb_refl.
  destruct s as [|x s]; [cbn [String.append trim_left]; by rewrite Ascii.eqb_refl|].
  assert (Hx : Ascii.eqb c x = false) by (apply Ascii.eqb_neq; set_solver).
  cbn [String.append trim_left]. rewrite Hx, <- str_app_cons, trim_right_app
    by (unfold str_forall; cbn [str_bytes forallb]; by rewrite Ascii.eqb_refl).
  destruct (trim_right_spec (Ascii.eqb c) (String x s)) as (t & Ht & Hall & _).
  rewrite Ht at 2. destruct t as [|y t]; [by rewrite str_app_nil_r|].
  unfold str_forall in Hall. cbn [str_bytes forallb] in Hall.
  apply andb_true_iff in Hall as [Hy%Ascii.eqb_eq _]. subst y.
  exfalso. apply Hn. rewrite Ht, str_bytes_app. set_solver.
Qed.

Lemma Trim_id c s : c ∉ str_bytes s -> Trim s c = s.
Proof.
  intros Hn. unfold Trim.
  assert (trim_left (Ascii.eqb c) s = s) as ->.
  { destruct s as [|x s]; [done|]. cbn [trim_left].
    by rewrite (proj2 (Ascii.eqb_neq c x)) by set_solver. }
  destruct (trim_right_spec (Ascii.eqb c) s) as (t & Ht & Hall & _).
  rewrite Ht at 2. destruct t as [|y t]; [by rewrite str_app_nil_r|].
  unfold str_forall in Hall. cbn [str_bytes forallb] in Hall.
  apply andb_true_iff in Hall as [Hy%Ascii.eqb_eq _]. subst y.
  exfalso. apply Hn. rewrite Ht, str_bytes_app. set_solver.
Qed.

Lemma not_elem_forall p c s : str_forall p s = true -> p c = false -> c ∉ str_bytes s.
Proof. intros Hs Hp Hin. rewrite (proj1 (str_forall_spec _ _) Hs c Hin) in Hp. done. Qed.

(** Splitting words joined by spaces. *)
Definition word (s : string) : Prop :=
  is_ascii s = true /\ s <> EmptyString /\ str_forall (fun c => negb (is_space c)) s = true.

Lemma fields_acc_word s cur l :
  str_forall (fun c => negb (is_space c)) s = true ->
  fields_acc cur (map (fun c => (byte_val c, str1 c)) (str_bytes s) ++ l)%list = fields_acc (cur +:+ s) l.
Proof.
  revert cur. induction s as [|c s IH]; intros cur Hs; [by rewrite str_app_nil_r|].
  unfold str_forall in Hs. cbn [str_bytes forallb] in Hs. apply andb_true_iff in Hs as [Hc Hs].
  apply negb_true_iff in Hc. unfold is_space in Hc. cbn [str_bytes map app fields_acc]. rewrite Hc, IH by done.
  by rewrite str_app_assoc.
Qed.

Lemma Fields_Join l : Forall word l -> Fields (Join l " ") = l.
Proof.
  intros Hl. unfold Fields.
  assert (Ha : is_ascii (Join l " ") = true).
  { induction Hl as [|s l (Hs & _) Hl IH]; [done|]. destruct l as [|s' l]; [done|].
    change (Join (s :: s' :: l) " ") with (s +:+ " " +:+ Join (s' :: l) " "). by rewrite !is_ascii_app, Hs, IH. }
  rewrite runes_ascii by done. clear Ha. induction Hl as [|s l (_ & Hne & Hs) Hl IH]; [done|].
  apply String.eqb_neq in Hne. destruct l as [|s' l].
  - cbn [Join]. pose proof (fields_acc_word s EmptyString [] Hs) as Hf. rewrite app_nil_r in Hf. rewrite Hf.
    cbn [String.append fields_acc]. by rewrite Hne.
  - change (Join (s :: s' :: l) " ") with (s +:+ String " " (Join (s' :: l) " ")).
    rewrite str_bytes_app, map_app, fields_acc_word by done. cbn [String.append str_bytes map fields_acc].
    change (IsSpace (byte_val " ")) with true. cbv iota. by rewrite Hne, IH.
Qed.
