(* ===== verification/TimeText.v ===== *)
(** * The JSON text of a [time.Time]

    [time.Time.MarshalJSON] writes RFC 3339 with the nanoseconds that are not
    zero; [UnmarshalJSON] reads it back.  Calendar years are counted from
    March, so that the leap day is the last day of the year. *)

From S2P Require Import Prelude GoString GoTime Encoding Json.

(** ** Decimal digits *)

Definition digit (z : Z) : ascii := of_byte (48 + z).

(** [n] decimal digits of [z], leading zeros included. *)
Fixpoint pad_dec (n : nat) (z : Z) : string :=
  match n with
  | O => EmptyString
  | S n => pad_dec n (z / 10) +:+ str1 (digit (z mod 10))
  end.

Fixpoint dec_acc (acc : Z) (s : string) : option Z :=
  match s with
  | EmptyString => Some acc
  | String c s => if is_digit c then dec_acc (10 * acc + (byte_val c - 48)) s else None
  end.

(** [parseUint(s, min, max)] of [time.parseRFC3339]. *)
Definition parse_uint (s : string) (lo hi : Z) : option Z :=
  x ← dec_acc 0 s; if (lo <=? x) && (x <=? hi) then Some x else None.

(** ** The calendar *)

Definition is_leap (y : Z) : bool :=
  (y mod 4 =? 0) && (negb (y mod 100 =? 0) || (y mod 400 =? 0)).

Definition daysIn (month year : Z) : Z :=
  if month =? 2 then (if is_leap year then 29 else 28)
  else if existsb (Z.eqb month) [4; 6; 9; 11] then 30 else 31.

(** Days before month [m], counted from March (0) to February (11). *)
Definition march_days (m : Z) : Z := (153 * m + 2) / 5.

(** Days from 0000-03-01 to the given date. *)
Definition days_of_date (year month day : Z) : Z :=
  let y := if month <=? 2 then year - 1 else year in
  let m := if month <=? 2 then month + 9 else month - 3 in
  365 * y + y / 4 - y / 100 + y / 400 + march_days m + (day - 1).

Definition date_of_days (z : Z) : Z * Z * Z :=
  let c400 := z / 146097 in let r := z mod 146097 in
  let c100 := Z.min 3 (r / 36524) in let r := r - 36524 * c100 in
  let c4 := r / 1461 in let r := r mod 1461 in
  let c1 := Z.min 3 (r / 365) in let r := r - 365 * c1 in
  let y := 400 * c400 + 100 * c100 + 4 * c4 + c1 in
  let m := (5 * r + 2) / 153 in
  let month := if m <? 10 then m + 3 else m - 9 in
  (if m <? 10 then y else y + 1, month, r - march_days m + 1).

(** Days from 0000-03-01 to 1970-01-01. *)
Definition epoch_days : Z := 719468.

(** ** Formatting and parsing *)

Definition nanos_text (n : Z) : string :=
  if n =? 0 then EmptyString else String "." (trim_right (Ascii.eqb "0") (pad_dec 9 n)).

Definition zone_text (offset : Z) : string :=
  if offset =? 0 then "Z" else
  let zone := Z.abs (Z.quot offset 60) in
  (if Z.quot offset 60 <? 0 then "-" else "+") +:+
  pad_dec 2 (zone / 60) +:+ ":" +:+ pad_dec 2 (zone mod 60).

(** [t.appendStrictRFC3339] in a zone [offset] seconds east of UTC. *)
Definition time_text (offset : Z) (t : Time) : option string :=
  let secs := t / Second + offset in
  let days := secs / 86400 in let clock := secs mod 86400 in
  let '(year, month, day) := date_of_days (days + epoch_days) in
  if negb (in_range 0 9999 year) || (24 <=? Z.abs (Z.quot offset 60) / 60) then None else
  Some (pad_dec 4 year +:+ "-" +:+ pad_dec 2 month +:+ "-" +:+ pad_dec 2 day +:+ "T" +:+
        pad_dec 2 (clock / 3600) +:+ ":" +:+ pad_dec 2 (clock / 60 mod 60) +:+ ":" +:+
        pad_dec 2 (clock mod 60) +:+ nanos_text (t mod Second) +:+ zone_text offset).

(** [s[i:j]] *)
Definition slice (s : string) (i j : nat) : string := str_take (j - i) (str_drop i s).

Definition parse_nanos (s : string) : Z * string :=
  match s with
  | String "." rest =>
      let '(ds, rest') := span is_digit rest in
      if String.eqb ds EmptyString then (0, s)
      else let ds := str_take 9 ds in
        (default 0 (dec_acc 0 ds) * 10 ^ (9 - Z.of_nat (String.length ds)), rest')
  | _ => (0, s)
  end.

Definition parse_zone (s : string) : option Z :=
  if String.eqb s "Z" then Some 0 else
  if negb (Nat.eqb (String.length s) 6) then None else
  hr ← parse_uint (slice s 1 3) 0 23;
  mm ← parse_uint (slice s 4 6) 0 59;
  if negb (String.eqb (slice s 3 4) ":") then None else
  if HasPrefix s "-" then Some (- (hr * 60 + mm) * 60)
  else if HasPrefix s "+" then Some ((hr * 60 + mm) * 60)
  else None.

(** [parseRFC3339(s, Local)] *)
Definition parseRFC3339 (s : string) : option Time :=
  if Nat.ltb (String.length s) 19 then None else
  year ← parse_uint (slice s 0 4) 0 9999;
  month ← parse_uint (slice s 5 7) 1 12;
  day ← parse_uint (slice s 8 10) 1 (daysIn month year);
  hour ← parse_uint (slice s 11 13) 0 23;
  min ← parse_uint (slice s 14 16) 0 59;
  sec ← parse_uint (slice s 17 19) 0 59;
  if negb (String.eqb (slice s 4 5) "-" && String.eqb (slice s 7 8) "-" &&
           String.eqb (slice s 10 11) "T" && String.eqb (slice s 13 14) ":" &&
           String.eqb (slice s 16 17) ":")
  then None else
  let '(nsec, rest) := parse_nanos (str_drop 19 s) in
  offset ← parse_zone rest;
  Some (((days_of_date year month day - epoch_days) * 86400 +
         hour * 3600 + min * 60 + sec - offset) * Second + nsec).

(** The process: the zone of [time.Local] (seconds east of UTC), and what
    [time.Parse(time.RFC3339, s)] accepts beyond [parseRFC3339]. *)
Class LocalTime := {
  local_offset : Z;
  parse_lenient : string -> option Time
}.

Section Json.
Context {L : LocalTime}.

Definition time_MarshalJSON (t : Time) : option string :=
  s ← time_text local_offset t; Some (str1 dquote +:+ s +:+ str1 dquote).

(** [UnmarshalJSON] of the raw text into a [Time] that holds [old]. *)
Definition time_UnmarshalJSON (old : Time) (raw : string) : option Time :=
  if String.eqb raw "null" then Some old else
  if Nat.ltb (String.length raw) 2 || negb (HasPrefix raw (str1 dquote)) ||
     negb (HasSuffix raw (str1 dquote)) then None else
  let s := slice raw 1 (String.length raw - 1) in
  match parseRFC3339 s with
  | Some t => Some t
  | None => parse_lenient s
  end.
End Json.

#[export] Instance utc : LocalTime := {| local_offset := 0; parse_lenient _ := None |}.

Example time_text_ex :
  time_text 0 (1700000000 * Second + 120000000) = Some "2023-11-14T22:13:20.12Z".
Proof. reflexivity. Qed.
Example parse_ex :
  parseRFC3339 "2023-11-15T03:43:20.12+05:30" = Some (1700000000 * Second + 120000000).
Proof. reflexivity. Qed.
Example time_text_leap : time_text (-3600) (1709258399 * Second) = Some "2024-03-01T00:59:59-01:00".
Proof. reflexivity. Qed.

(** ** The text round trip *)

(** The four divisions leave a year of the 400-year cycle and a day of it. *)
Lemma date_split z :
  let c400 := z / 146097 in let r1 := z mod 146097 in
  let c100 := Z.min 3 (r1 / 36524) in let r2 := r1 - 36524 * c100 in
  let c4 := r2 / 1461 in let r3 := r2 mod 1461 in
  let c1 := Z.min 3 (r3 / 365) in let r := r3 - 365 * c1 in
  z = 146097 * c400 + 36524 * c100 + 1461 * c4 + 365 * c1 + r /\
  0 <= c100 <= 3 /\ 0 <= c4 <= 24 /\ 0 <= c1 <= 3 /\ 0 <= r <= 365 /\
  (r = 365 -> c1 = 3 /\ (c4 < 24 \/ c100 = 3)).
Proof.
  intros.
  assert (Hz : z = 146097 * c400 + r1 /\ 0 <= r1 < 146097) by (subst c400 r1; zlia).
  clearbody c400 r1.
  assert (H1 : 0 <= c100 <= 3 /\ 0 <= r2 <= 36524 /\ (c100 < 3 -> r2 < 36524)).
  { assert (0 <= r1 - 36524 * (r1 / 36524) < 36524 /\ 0 <= r1 / 36524 <= 4) by zlia.
    subst c100 r2. clear c4 r3 c1 r. lia. }
  assert (Hr2 : r1 = r2 + 36524 * c100) by (subst r2; lia). clearbody c100 r2.
  assert (H2 : r2 = 1461 * c4 + r3 /\ 0 <= r3 < 1461) by (subst c4 r3; zlia). clearbody c4 r3.
  assert (H3 : 0 <= c1 <= 3 /\ 0 <= r <= 365 /\ (r = 365 -> c1 = 3)).
  { assert (0 <= r3 - 365 * (r3 / 365) < 365 /\ 0 <= r3 / 365 <= 4) by zlia.
    subst c1 r. lia. }
  assert (Hr3 : r3 = r + 365 * c1) by (subst r; lia). clearbody c1 r. lia.
Qed.

Lemma march_month r :
  0 <= r < 366 ->
  let m := (5 * r + 2) / 153 in
  0 <= m <= 11 /\ 1 <= r - march_days m + 1 /\
  r - march_days m + 1 <= (if m =? 11 then (if r =? 365 then 29 else 28)
                           else if existsb (Z.eqb m) [1; 3; 6; 8] then 30 else 31).
Proof.
  intros Hr m. subst m.
  assert (H : forallb (fun n => let r := Z.of_nat n in let m := (5 * r + 2) / 153 in
    (0 <=? m) && (m <=? 11) && (1 <=? r - march_days m + 1) &&
    (r - march_days m + 1 <=? (if m =? 11 then (if r =? 365 then 29 else 28)
                           else if existsb (Z.eqb m) [1; 3; 6; 8] then 30 else 31)))
    (seq 0 366) = true) by (vm_compute; reflexivity).
  rewrite forallb_forall in H. specialize (H (Z.to_nat r)). rewrite Z2Nat.id in H by lia.
  specialize (H ltac:(apply in_seq; lia)). cbv zeta in H. b2p. lia.
Qed.

Lemma date_of_days_spec z :
  let '(year, month, day) := date_of_days z in
  1 <= month <= 12 /\ 1 <= day <= daysIn month year /\ days_of_date year month day = z.
Proof.
  pose proof (date_split z) as Hs. unfold date_of_days. cbv zeta in *.
  set (c400 := z / 146097) in *. set (r1 := z mod 146097) in *.
  set (c100 := Z.min 3 (r1 / 36524)) in *. set (r2 := r1 - 36524 * c100) in *.
  set (c4 := r2 / 1461) in *. set (r3 := r2 mod 1461) in *.
  set (c1 := Z.min 3 (r3 / 365)) in *. set (r := r3 - 365 * c1) in *.
  clearbody c400 c100 c4 c1 r. clear r1 r2 r3.
  destruct Hs as (Hz & H100 & H4 & H1 & Hr & Hleap).
  pose proof (march_month r ltac:(lia)) as Hm. cbv zeta in Hm.
  set (m := (5 * r + 2) / 153) in *. clearbody m. destruct Hm as (Hm & Hd1 & Hd2).
  set (y := 400 * c400 + 100 * c100 + 4 * c4 + c1).
  assert (Hdays : 365 * y + y / 4 - y / 100 + y / 400 + r = z).
  { assert (y / 4 = 100 * c400 + 25 * c100 + c4) as -> by (subst y; zlia).
    assert (y / 100 = 4 * c400 + c100) as -> by (subst y; zlia).
    assert (y / 400 = c400) as -> by (subst y; zlia). subst y. lia. }
  assert (Hl : r = 365 -> is_leap (y + 1) = true).
  { intros Hr'. destruct (Hleap Hr') as [-> Hc]. unfold is_leap.
    assert ((y + 1) mod 4 = 0) as -> by (subst y; zlia). simpl.
    destruct Hc as [Hc| ->].
    - assert ((y + 1) mod 100 <> 0) as ->%Z.eqb_neq by (subst y; zlia). done.
    - destruct (decide (c4 = 24)) as [->|].
      + assert ((y + 1) mod 400 = 0) as -> by (subst y; zlia). by rewrite orb_true_r.
      + assert ((y + 1) mod 100 <> 0) as ->%Z.eqb_neq by (subst y; zlia). done. }
  clearbody y. unfold days_of_date.
  destruct (Z.ltb_spec m 10) as [Hm10|Hm10].
  - assert (m + 3 <=? 2 = false) as -> by lia. replace (m + 3 - 3) with m by lia.
    split; [lia|]. split; [|lia]. split; [lia|]. unfold daysIn.
    assert (m + 3 =? 2 = false) as -> by lia. assert (m =? 11 = false) as Hx by lia.
    rewrite Hx in Hd2.
    assert (m = 0 \/ m = 1 \/ m = 2 \/ m = 3 \/ m = 4 \/ m = 5 \/ m = 6 \/ m = 7 \/ m = 8 \/ m = 9)
      as [->|[->|[->|[->|[->|[->|[->|[->|[->| ->]]]]]]]]] by lia; exact Hd2.
  - assert (m - 9 <=? 2 = true) as -> by lia. replace (m - 9 + 9) with m by lia.
    replace (y + 1 - 1) with y by lia.
    split; [lia|]. split; [|lia]. split; [lia|]. unfold daysIn.
    assert (m = 10 \/ m = 11) as [-> | ->] by lia; simpl in *; [lia|].
    destruct (Z.eqb_spec r 365) as [Hr'|]; [rewrite Hl by done; lia|].
    destruct (is_leap _); lia.
Qed.

Lemma byte_val_digit z : 0 <= z < 10 -> byte_val (digit z) = 48 + z.
Proof. intros H. unfold digit. apply byte_val_of_byte. lia. Qed.

Lemma is_digit_digit z : 0 <= z < 10 -> is_digit (digit z) = true.
Proof. intros H. unfold is_digit, in_range. rewrite byte_val_digit by done. lia. Qed.

Lemma dec_acc_app acc s t : dec_acc acc (s +:+ t) = (a ← dec_acc acc s; dec_acc a t).
Proof.
  revert acc. induction s as [|c s IH]; intros acc; [done|].
  cbn [dec_acc String.append]. by destruct (is_digit c).
Qed.

Lemma pad_dec_length n z : String.length (pad_dec n z) = n.
Proof.
  revert z. induction n as [|n IH]; intros z; [done|].
  cbn [pad_dec]. rewrite str_length_app, IH. simpl. lia.
Qed.

Lemma pad_dec_digits n z : 0 <= z -> str_forall is_digit (pad_dec n z) = true.
Proof.
  revert z. induction n as [|n IH]; intros z Hz; [done|].
  cbn [pad_dec]. rewrite str_forall_app, IH by zlia. simpl.
  unfold str_forall. simpl. rewrite is_digit_digit by zlia. done.
Qed.

Lemma dec_acc_pad_dec n acc z :
  0 <= z < 10 ^ Z.of_nat n -> dec_acc acc (pad_dec n z) = Some (acc * 10 ^ Z.of_nat n + z).
Proof.
  revert z. induction n as [|n IH]; intros z Hz; [simpl; f_equal; lia|].
  cbn [pad_dec]. rewrite dec_acc_app, Nat2Z.inj_succ, Z.pow_succ_r in * by lia.
  rewrite IH by zlia. cbn [mbind option_bind dec_acc str1].
  rewrite is_digit_digit, byte_val_digit by zlia. f_equal. zlia.
Qed.

Lemma parse_uint_pad n z lo hi :
  0 <= z < 10 ^ Z.of_nat n -> lo <= z <= hi -> parse_uint (pad_dec n z) lo hi = Some z.
Proof.
  intros Hz Hr. unfold parse_uint. rewrite dec_acc_pad_dec by done.
  replace (0 * 10 ^ Z.of_nat n + z) with z by lia. cbn [mbind option_bind].
  destruct (Z.leb_spec lo z), (Z.leb_spec z hi); try lia. done.
Qed.

(** Zeros appended to a numeral. *)
Lemma dec_acc_zeros acc t :
  str_forall (Ascii.eqb "0") t = true ->
  dec_acc acc t = Some (acc * 10 ^ Z.of_nat (String.length t)).
Proof.
  revert acc. induction t as [|c t IH]; intros acc Ht; [simpl; f_equal; lia|].
  unfold str_forall in Ht. cbn [str_bytes forallb] in Ht.
  apply andb_true_iff in Ht as [<-%Ascii.eqb_eq Ht]. cbn [dec_acc].
  change (is_digit "0") with true. cbv iota. rewrite IH by done.
  cbn [String.length]. rewrite Nat2Z.inj_succ, Z.pow_succ_r by lia.
  change (byte_val "0") with 48. f_equal. lia.
Qed.

Lemma str_take_ge n s : (String.length s <= n)%nat -> str_take n s = s.
Proof.
  revert n. induction s as [|c s IH]; intros [|n] Hn; simpl in *; try done; [lia|].
  rewrite IH by lia. done.
Qed.

Lemma parse_nanos_text n rest :
  0 <= n < Second -> match rest with String c _ => is_digit c = false /\ c <> "."%char | _ => True end ->
  parse_nanos (nanos_text n +:+ rest) = (n, rest).
Proof.
  intros Hn Hrest. unfold nanos_text. destruct (Z.eqb_spec n 0) as [->|Hne].
  - simpl. destruct rest as [|c rest]; [done|]. unfold parse_nanos.
    destruct Hrest as [_ Hc]. destruct c as [[] [] [] [] [] [] [] []]; done.
  - destruct (trim_right_spec (Ascii.eqb "0") (pad_dec 9 n)) as (t & Ht & Hz & _).
    set (u := trim_right _ _) in *.
    assert (Hn9 : 0 <= n < 10 ^ Z.of_nat 9) by (unfold Second in Hn; lia).
    pose proof (pad_dec_digits 9 n ltac:(lia)) as Hd.
    pose proof (dec_acc_pad_dec 9 0 n Hn9) as Hv.
    pose proof (pad_dec_length 9 n) as Hlen.
    rewrite Ht in Hd, Hv, Hlen. rewrite str_forall_app in Hd. apply andb_true_iff in Hd as [Hd _].
    rewrite dec_acc_app in Hv. rewrite str_length_app in Hlen.
    destruct (dec_acc 0 u) as [a|] eqn:Ha; [|done]. cbn [mbind option_bind] in Hv.
    rewrite dec_acc_zeros in Hv by done. injection Hv as Hv.
    rewrite str_app_cons. cbn [parse_nanos]. rewrite span_app; [|done|].
    2: { destruct rest; [done|]. by destruct Hrest. }
    destruct (String.eqb_spec u EmptyString) as [Hu|Hu].
    { rewrite Hu in Ha. injection Ha as <-. lia. }
    rewrite (str_take_ge 9 u) by lia.
    rewrite Ha. simpl. f_equal. replace (9 - Z.of_nat (String.length u)) with (Z.of_nat (String.length t)) by lia.
    lia.
Qed.

Lemma pad_dec2 z : exists a b, pad_dec 2 z = String a (str1 b).
Proof. eexists _, _. reflexivity. Qed.

Lemma pad_dec4 z : exists a b c d, pad_dec 4 z = String a (String b (String c (str1 d))).
Proof. eexists _, _, _, _. reflexivity. Qed.

Lemma parse_zone_text offset :
  offset mod 60 = 0 -> Z.abs offset < 24 * 3600 -> parse_zone (zone_text offset) = Some offset.
Proof.
  intros Hm Ha. unfold zone_text. destruct (Z.eqb_spec offset 0) as [->|Hne]; [done|].
  set (q := Z.quot offset 60). assert (Hq : offset = q * 60) by (subst q; zlia).
  clearbody q. subst offset.
  pose proof (parse_uint_pad 2 (Z.abs q / 60) 0 23 ltac:(simpl; zlia) ltac:(zlia)) as Hh.
  pose proof (parse_uint_pad 2 (Z.abs q mod 60) 0 59 ltac:(simpl; zlia) ltac:(zlia)) as Hmm.
  destruct (pad_dec2 (Z.abs q / 60)) as (a & b & E1). rewrite E1 in *.
  destruct (pad_dec2 (Z.abs q mod 60)) as (c & d & E2). rewrite E2 in *.
  unfold parse_zone.
  destruct (Z.ltb_spec q 0); cbn - [parse_uint Z.mul];
    change (String a (String b EmptyString)) with (String a (str1 b));
    change (String c (String d EmptyString)) with (String c (str1 d));
    rewrite Hh, Hmm; cbn - [Z.mul]; f_equal; zlia.
Qed.

Lemma zone_text_head offset :
  match zone_text offset with String c _ => is_digit c = false /\ c <> "."%char | _ => True end.
Proof. unfold zone_text. by destruct (offset =? 0), (Z.quot offset 60 <? 0). Qed.

(** The text of an instant of the years 0 to 9999, in a zone of whole
    minutes, reads back as the instant. *)
Lemma parseRFC3339_text offset t s :
  offset mod 60 = 0 -> Z.abs offset < 24 * 3600 ->
  time_text offset t = Some s -> parseRFC3339 s = Some t.
Proof.
  intros Hm Ha. unfold time_text.
  set (secs := t / Second + offset).
  pose proof (date_of_days_spec (secs / 86400 + epoch_days)) as Hdate.
  destruct (date_of_days _) as [[year month] day]. destruct Hdate as (Hmo & Hday & Hdays).
  destruct (negb _ || _) eqn:Hrange; [done|]. intros Hs%(inj Some). subst s.
  apply orb_false_iff in Hrange as [Hy _]. unfold in_range in Hy. b2p.
  set (clock := secs mod 86400).
  assert (Hc : 0 <= clock < 86400) by (subst clock; zlia).
  assert (Hdim : daysIn month year <= 31).
  { unfold daysIn. destruct (month =? 2); [destruct (is_leap year)|destruct (existsb _ _)]; lia. }
  pose proof (parse_uint_pad 4 year 0 9999 ltac:(simpl; lia) ltac:(lia)) as Ey.
  pose proof (parse_uint_pad 2 month 1 12 ltac:(simpl; lia) ltac:(lia)) as Emo.
  pose proof (parse_uint_pad 2 day 1 (daysIn month year) ltac:(simpl; lia) ltac:(lia)) as Ed.
  pose proof (parse_uint_pad 2 (clock / 3600) 0 23 ltac:(simpl; zlia) ltac:(zlia)) as Eh.
  pose proof (parse_uint_pad 2 (clock / 60 mod 60) 0 59 ltac:(simpl; zlia) ltac:(zlia)) as Emi.
  pose proof (parse_uint_pad 2 (clock mod 60) 0 59 ltac:(simpl; zlia) ltac:(zlia)) as Es.
  pose proof (parse_nanos_text (t mod Second) (zone_text offset) ltac:(unfold Second; zlia)
    (zone_text_head offset)) as En.
  destruct (pad_dec4 year) as (y1 & y2 & y3 & y4 & Py). rewrite Py in *.
  destruct (pad_dec2 month) as (m1 & m2 & Pm). rewrite Pm in *.
  destruct (pad_dec2 day) as (d1 & d2 & Pd). rewrite Pd in *.
  destruct (pad_dec2 (clock / 3600)) as (h1 & h2 & Ph). rewrite Ph in *.
  destruct (pad_dec2 (clock / 60 mod 60)) as (i1 & i2 & Pi). rewrite Pi in *.
  destruct (pad_dec2 (clock mod 60)) as (s1 & s2 & Ps). rewrite Ps in *.
  clear Py Pm Pd Ph Pi Ps. set (rest := nanos_text _ +:+ _) in *. clearbody rest.
  unfold parseRFC3339, slice. unfold str1 in *.
  cbn [String.append String.length Nat.ltb Nat.leb Nat.sub str_take str_drop].
  rewrite Ey. cbn [mbind option_bind]. rewrite Emo. cbn [mbind option_bind].
  rewrite Ed. cbn [mbind option_bind]. rewrite Eh. cbn [mbind option_bind].
  rewrite Emi. cbn [mbind option_bind]. rewrite Es. cbn [mbind option_bind].
  rewrite !String.eqb_refl. cbn [andb negb]. rewrite En, parse_zone_text by done.
  cbn [mbind option_bind]. f_equal. rewrite Hdays.
  unfold Second in *. subst secs clock. zlia.
Qed.

(** ** The JSON round trip *)

Lemma is_plain_digit c : is_digit c = true -> is_plain c = true.
Proof.
  unfold is_digit, is_plain, in_range. intros H. b2p. cbn [existsb].
  rewrite !(proj2 (Z.eqb_neq _ _)) by lia. simpl. apply andb_true_iff. split; [|done].
  apply andb_true_iff. rewrite Z.leb_le, Z.ltb_lt. lia.
Qed.

Lemma plain_pad n z : 0 <= z -> str_forall is_plain (pad_dec n z) = true.
Proof.
  intros Hz. apply str_forall_spec. intros c Hc. apply is_plain_digit.
  by apply (proj1 (str_forall_spec _ _) (pad_dec_digits n z Hz)).
Qed.

Lemma plain_nanos n : 0 <= n -> str_forall is_plain (nanos_text n) = true.
Proof.
  intros Hn. unfold nanos_text. destruct (n =? 0); [done|].
  destruct (trim_right_spec (Ascii.eqb "0") (pad_dec 9 n)) as (t & Ht & _).
  pose proof (plain_pad 9 n Hn) as Hp. rewrite Ht, str_forall_app in Hp.
  apply andb_true_iff in Hp as [Hp _]. exact Hp.
Qed.

Lemma plain_zone offset : str_forall is_plain (zone_text offset) = true.
Proof.
  unfold zone_text. destruct (offset =? 0); [done|].
  destruct (_ <? 0); rewrite !str_forall_app, !plain_pad by zlia; done.
Qed.

Lemma time_text_plain offset t s : time_text offset t = Some s -> str_forall is_plain s = true.
Proof.
  unfold time_text.
  pose proof (date_of_days_spec ((t / Second + offset) / 86400 + epoch_days)) as Hdate.
  destruct (date_of_days _) as [[year month] day]. destruct Hdate as (Hmo & Hday & _).
  destruct (negb _ || _) eqn:Hrange; [done|]. intros Hs%(inj Some). subst s.
  apply orb_false_iff in Hrange as [Hy _]. unfold in_range in Hy. b2p.
  rewrite !str_forall_app, !plain_pad, plain_nanos, plain_zone; try done; try (unfold Second; zlia).
Qed.

Section JsonRoundTrip.
Context {L : LocalTime}.

Lemma time_MarshalJSON_quote t j :
  time_MarshalJSON t = Some j ->
  exists s, time_text local_offset t = Some s /\ str_forall is_plain s = true /\ j = json_quote s.
Proof.
  unfold time_MarshalJSON. destruct (time_text _ t) as [s|] eqn:Hs; [|done]. cbn [mbind option_bind].
  intros Hj%(inj Some). subst j. exists s. pose proof (time_text_plain _ _ _ Hs).
  split; [done|]. split; [done|]. by rewrite json_quote_plain.
Qed.

Lemma time_UnmarshalJSON_Marshal old t j :
  local_offset mod 60 = 0 -> Z.abs local_offset < 24 * 3600 ->
  time_MarshalJSON t = Some j -> time_UnmarshalJSON old j = Some t.
Proof.
  intros Hm Ha Hj. apply time_MarshalJSON_quote in Hj as (s & Hs & Hp & ->).
  rewrite json_quote_plain by done. unfold time_UnmarshalJSON.
  cbn [String.append str1]. 
  assert (String.eqb (String dquote (s +:+ str1 dquote)) "null" = false) as -> by done.
  cbn [String.length HasPrefix]. rewrite str_length_app.
  assert (Nat.ltb (S (String.length s + String.length (str1 dquote))) 2 = false) as ->.
  { apply Nat.ltb_ge. simpl. lia. }
  assert (HasSuffix (String dquote (s +:+ str1 dquote)) (str1 dquote) = true) as ->.
  { apply HasSuffix_spec. by exists (String dquote s). }
  cbn [str1 HasPrefix]. cbn [negb orb andb Ascii.eqb dquote Bool.eqb].
  assert (slice (String dquote (s +:+ str1 dquote)) 1
    (S (String.length s + String.length (str1 dquote)) - 1) = s) as ->.
  { unfold slice. cbn [str_drop]. simpl (String.length (str1 dquote)).
    replace (S (String.length s + 1) - 1 - 1)%nat with (String.length s) by lia.
    apply str_take_app. }
  by rewrite (parseRFC3339_text _ _ _ Hm Ha Hs).
Qed.
End JsonRoundTrip.
