(* ===== verification/Http.v ===== *)
(** * HTTP messages: what the program uses of [net/http] and [net]

    A [Header] maps canonical names to value lists; a [Request] carries the
    parsed request line, headers, cookies and body; a [Response] records what
    a handler wrote to its [http.ResponseWriter]. *)

From S2P Require Import Prelude GoString GoTime Encoding.

(** ** Header names: [textproto.CanonicalMIMEHeaderKey] *)

Definition is_token_char (c : ascii) : bool :=
  let b := byte_val c in
  is_upper b || is_lower b || in_range 48 57 b ||
  bool_decide (c ∈ ["!"; "#"; "$"; "%"; "&"; "'"; "*"; "+"; "-"; "."; "^"; "_"; "`"; "|"; "~"]%char).

Definition to_lower_byte (c : ascii) : ascii :=
  if is_upper (byte_val c) then of_byte (byte_val c + 32) else c.
Definition to_upper_byte (c : ascii) : ascii :=
  if is_lower (byte_val c) then of_byte (byte_val c - 32) else c.

(** Upper case at the start and after each hyphen, lower case elsewhere. *)
Fixpoint title_case (start : bool) (s : string) : string :=
  match s with
  | EmptyString => EmptyString
  | String c s' =>
      String (if start then to_upper_byte c else to_lower_byte c)
             (title_case (Ascii.eqb c "-") s')
  end.

Definition CanonicalHeaderKey (s : string) : string :=
  if str_forall is_token_char s then title_case true s else s.

(** ** Headers *)

Abbreviation Header := (gmap string (list string)) (only parsing).

Definition Header_Get (h : Header) (name : string) : string :=
  default EmptyString (h !! CanonicalHeaderKey name ≫= head).
Definition Header_Values (h : Header) (name : string) : list string :=
  default [] (h !! CanonicalHeaderKey name).
Definition Header_Set (h : Header) (name value : string) : Header :=
  <[CanonicalHeaderKey name := [value]]> h.
Definition Header_Del (h : Header) (name : string) : Header :=
  delete (CanonicalHeaderKey name) h.

(** ** Requests and responses *)

Record Cookie := MkCookie {
  ck_Name : string;
  ck_Value : string;
  ck_MaxAge : Z;
  ck_Path : string;
  ck_HttpOnly : bool;
  ck_SameSiteLax : bool
}.

(** [rq_Cookies]: the name-value pairs [net/http] reads from the Cookie
    headers; [rq_URL]: the text of [r.URL.String()]; [rq_Body]: the bytes of
    the body, [None] when reading it fails. *)
Record Request := MkRequest {
  rq_Method : string;
  rq_Path : string;
  rq_RawQuery : string;
  rq_URL : string;
  rq_RequestURI : string;
  rq_Host : string;
  rq_TLS : bool;
  rq_RemoteAddr : string;
  rq_Header : Header;
  rq_Cookies : list (string * string);
  rq_Body : option string
}.

Record Response := MkResponse {
  rs_Status : option Z;
  rs_Header : Header;
  rs_Cookies : list Cookie;
  rs_Body : string
}.

(** A writer nothing was written to. *)
Definition empty_response : Response := MkResponse None ∅ [] EmptyString.

Definition StatusOK : Z := 200.
Definition StatusNoContent : Z := 204.
Definition StatusBadRequest : Z := 400.
Definition StatusUnauthorized : Z := 401.
Definition StatusMethodNotAllowed : Z := 405.
Definition StatusTooManyRequests : Z := 429.
Definition StatusInternalServerError : Z := 500.

(** [w.Header().Set(name, value)]; later writes of the status keep the first. *)
Definition SetHeader (name value : string) (w : Response) : Response :=
  MkResponse (rs_Status w) (Header_Set (rs_Header w) name value) (rs_Cookies w) (rs_Body w).
Definition WriteHeader (code : Z) (w : Response) : Response :=
  MkResponse (Some (default code (rs_Status w))) (rs_Header w) (rs_Cookies w) (rs_Body w).
Definition Write (s : string) (w : Response) : Response :=
  MkResponse (Some (default StatusOK (rs_Status w))) (rs_Header w) (rs_Cookies w) (rs_Body w +:+ s).
Definition SetCookie (c : Cookie) (w : Response) : Response :=
  MkResponse (rs_Status w) (rs_Header w) (rs_Cookies w ++ [c])%list (rs_Body w).

(** [http.Error(w, msg, code)] *)
Definition http_Error (msg : string) (code : Z) (w : Response) : Response :=
  let h := Header_Del (rs_Header w) "Content-Length" in
  let h := Header_Set h "Content-Type" "text/plain; charset=utf-8" in
  let h := Header_Set h "X-Content-Type-Options" "nosniff" in
  Write (msg +:+ str1 "010") (WriteHeader code (MkResponse (rs_Status w) h (rs_Cookies w) (rs_Body w))).

(** [r.Cookie(name)]: the first cookie of that name. *)
Definition request_Cookie (r : Request) (name : string) : option string :=
  snd <$> List.find (fun c => String.eqb c.1 name) (rq_Cookies r).

(** ** [net.SplitHostPort]: the host, [None] on error *)

Definition last_char_is (c : ascii) (s : string) : bool := HasSuffix s (str1 c).

Definition SplitHostPort_host (hostport : string) : option string :=
  match LastIndexByte hostport ":" with
  | None => None
  | Some i =>
      match hostport with
      | String "[" _ =>
          match IndexByte hostport "]" with
          | None => None
          | Some e =>
              if Nat.eqb (S e) (String.length hostport) then None
              else if negb (Nat.eqb (S e) i) then None
              else
                let host := str_take (e - 1) (str_drop 1 hostport) in
                if Contains (str_drop 1 hostport) "[" || Contains (str_drop (S e) hostport) "]"
                then None else Some host
          end
      | _ =>
          let host := str_take i hostport in
          if Contains host ":" then None
          else if Contains hostport "[" || Contains hostport "]" then None
          else Some host
      end
  end.

Example SplitHostPort_ex1 : SplitHostPort_host "10.0.0.1:443" = Some "10.0.0.1".
Proof. reflexivity. Qed.
Example SplitHostPort_ex2 : SplitHostPort_host "[::1]:443" = Some "::1".
Proof. reflexivity. Qed.
Example SplitHostPort_ex3 : SplitHostPort_host "::1" = None.
Proof. reflexivity. Qed.
Example CanonicalHeaderKey_ex : CanonicalHeaderKey "x-iam-ACR" = "X-Iam-Acr".
Proof. reflexivity. Qed.

(** ** Lemmas *)

Lemma to_upper_lower_facts c :
  to_upper_byte (to_upper_byte c) = to_upper_byte c /\
  to_lower_byte (to_lower_byte c) = to_lower_byte c /\
  is_token_char (to_upper_byte c) = is_token_char c /\
  is_token_char (to_lower_byte c) = is_token_char c /\
  Ascii.eqb (to_upper_byte c) "-" = Ascii.eqb c "-" /\
  Ascii.eqb (to_lower_byte c) "-" = Ascii.eqb c "-" /\
  to_lower_byte (to_upper_byte c) = to_lower_byte c.
Proof. destruct c as [[] [] [] [] [] [] [] []]; vm_compute; repeat split. Qed.

Lemma title_case_idem b s : title_case b (title_case b s) = title_case b s.
Proof.
  revert b. induction s as [|c s IH]; intros b; [done|]. cbn [title_case].
  destruct (to_upper_lower_facts c) as (Hu & Hl & _ & _ & Hu' & Hl' & _).
  destruct b; rewrite ?Hu, ?Hl, ?Hu', ?Hl', IH; done.
Qed.

Lemma title_case_token b s :
  str_forall is_token_char (title_case b s) = str_forall is_token_char s.
Proof.
  unfold str_forall. revert b. induction s as [|c s IH]; intros b; [done|].
  cbn [title_case str_bytes forallb].
  destruct (to_upper_lower_facts c) as (_ & _ & Hu & Hl & _).
  rewrite IH. by destruct b; rewrite ?Hu, ?Hl.
Qed.

Lemma CanonicalHeaderKey_idem s : CanonicalHeaderKey (CanonicalHeaderKey s) = CanonicalHeaderKey s.
Proof.
  unfold CanonicalHeaderKey at 2 3. destruct (str_forall is_token_char s) eqn:E.
  - unfold CanonicalHeaderKey. by rewrite title_case_token, E, title_case_idem.
  - unfold CanonicalHeaderKey. by rewrite E.
Qed.

Lemma Header_Get_Set_same h n v : Header_Get (Header_Set h n v) n = v.
Proof. unfold Header_Get, Header_Set. by rewrite lookup_insert_eq. Qed.

Lemma Header_Get_Set_other h n m v :
  CanonicalHeaderKey n <> CanonicalHeaderKey m ->
  Header_Get (Header_Set h n v) m = Header_Get h m.
Proof. intros Hne. unfold Header_Get, Header_Set. by rewrite lookup_insert_ne. Qed.
