(* ===== verification/Url.v ===== *)
(** * Query strings: what the program uses of [net/url]

    [url.Values], its encoding with sorted keys and percent escapes, and the
    parser servers read forms and queries with.  The parser undoes the
    encoding. *)

From stdpp Require Import sorting.
From S2P Require Import Prelude GoString Encoding.
Open Scope Z_scope.

Abbreviation Values := (gmap string (list string)) (only parsing).

Definition Values_Get (v : Values) (key : string) : string := default EmptyString (v !! key ≫= head).
Definition Values_Set (v : Values) (key value : string) : Values := <[key := [value]]> v.
Definition Values_Add (v : Values) (key value : string) : Values := <[key := (default [] (v !! key) ++ [value])%list]> v.

(** ** Escaping *)

Definition is_unreserved (c : ascii) : bool :=
  let b := byte_val c in
  is_upper b || is_lower b || in_range 48 57 b || bool_decide (c ∈ ["-"; "_"; "."; "~"]%char).

Definition upper_hex (z : Z) : ascii := if z <? 10 then of_byte (48 + z) else of_byte (55 + z).

Definition query_escape_char (c : ascii) : string :=
  if is_unreserved c then str1 c
  else if Ascii.eqb c " " then "+"
  else String "%" (String (upper_hex (byte_val c / 16)) (str1 (upper_hex (byte_val c mod 16)))).

Fixpoint QueryEscape (s : string) : string :=
  match s with
  | EmptyString => EmptyString
  | String c s' => query_escape_char c +:+ QueryEscape s'
  end.

Section Query.
Context {U : Unicode}.

Definition EscapeError (s : string) : error := errorf ("invalid URL escape " +:+ Quote (str_take 3 s)).

Fixpoint QueryUnescape (s : string) : res string :=
  match s with
  | EmptyString => Ok EmptyString
  | String c s1 =>
      if Ascii.eqb c "%" then
        match s1 with
        | String a (String b s') =>
            match hex_value a, hex_value b with
            | Some x, Some y => let? r := QueryUnescape s' in Ok (String (of_byte (16 * x + y)) r)
            | _, _ => Err (EscapeError s)
            end
        | _ => Err (EscapeError s)
        end
      else
        let? r := QueryUnescape s1 in
        Ok (String (if Ascii.eqb c "+" then " "%char else c) r)
  end.

(** ** [Values.Encode] and [url.ParseQuery] *)

(** The pairs in the order they are written: by key, then as listed. *)
#[local] Instance key_le_dec (a b : string * list string) : Decision (String.leb a.1 b.1 = true) := _.
Definition value_pairs (v : Values) : list (string * string) :=
  List.concat (map (fun kv => map (pair kv.1) kv.2)
    (merge_sort (fun a b => String.leb a.1 b.1 = true) (map_to_list v))).

Definition encode_pair (kv : string * string) : string := QueryEscape kv.1 +:+ "=" +:+ QueryEscape kv.2.
Definition Values_Encode (v : Values) : string := Join (map encode_pair (value_pairs v)) "&".

(** One part between two [&]; the first error is kept. *)
Definition parse_pair (acc : Values * option error) (part : string) : Values * option error :=
  let '(m, err) := acc in
  let fail e := (m, match err with Some _ => err | None => Some e end) in
  if Contains part ";" then (m, Some (errorf "invalid semicolon separator in query"))
  else if String.eqb part EmptyString then acc
  else
    let '(k, x) := match Cut part "=" with Some kx => kx | None => (part, EmptyString) end in
    match QueryUnescape k with
    | Err e => fail e
    | Ok k =>
        match QueryUnescape x with
        | Err e => fail e
        | Ok x => (Values_Add m k x, err)
        end
    end.

Definition parseQuery (m : Values) (query : string) : Values * option error :=
  foldl parse_pair (m, None) (Split query "&").
Definition ParseQuery (query : string) : Values * option error := parseQuery ∅ query.
End Query.

(** ** The round trip *)

Definition is_query_char (c : ascii) : bool :=
  negb (bool_decide (c ∈ ["&"; "="; ";"]%char)).

Lemma query_escape_char_safe c : str_forall is_query_char (query_escape_char c) = true.
Proof. destruct c as [[] [] [] [] [] [] [] []]; vm_compute; reflexivity. Qed.

Lemma QueryEscape_safe s : str_forall is_query_char (QueryEscape s) = true.
Proof.
  induction s as [|c s IH]; [done|]. cbn [QueryEscape].
  by rewrite str_forall_app, query_escape_char_safe, IH.
Qed.

Lemma QueryEscape_no s c : is_query_char c = false -> c ∉ str_bytes (QueryEscape s).
Proof. intros Hc. exact (str_forall_not_elem _ _ _ (QueryEscape_safe s) Hc). Qed.

(** The bytes of an encoded query. *)
Definition is_encoded_char (c : ascii) : bool :=
  is_unreserved c || bool_decide (c ∈ ["%"; "+"; "="; "&"]%char).

Lemma QueryEscape_bytes s : str_forall is_encoded_char (QueryEscape s) = true.
Proof.
  induction s as [|c s IH]; [done|]. cbn [QueryEscape]. rewrite str_forall_app, IH, andb_true_r.
  destruct c as [[] [] [] [] [] [] [] []]; vm_compute; reflexivity.
Qed.

Lemma Values_Encode_bytes v : str_forall is_encoded_char (Values_Encode v) = true.
Proof.
  unfold Values_Encode. induction (value_pairs v) as [|kv l IH]; [done|]. cbn [map Join].
  destruct (map encode_pair l) as [|x l']; unfold encode_pair;
    rewrite !str_forall_app, !QueryEscape_bytes; [done|by rewrite IH].
Qed.

Section RoundTrip.
Context {U : Unicode}.

Lemma QueryUnescape_char c s :
  QueryUnescape (query_escape_char c +:+ s) = let? r := QueryUnescape s in Ok (String c r).
Proof. destruct c as [[] [] [] [] [] [] [] []]; reflexivity. Qed.

Lemma QueryUnescape_escape s : QueryUnescape (QueryEscape s) = Ok s.
Proof. induction s as [|c s IH]; [done|]. cbn [QueryEscape]. by rewrite QueryUnescape_char, IH. Qed.

Lemma Contains_byte_false s c : c ∉ str_bytes s -> Contains s (str1 c) = false.
Proof. intros H. unfold Contains. by rewrite Cut_byte_None. Qed.

Lemma parse_pair_encode m err kv :
  parse_pair (m, err) (encode_pair kv) = (Values_Add m kv.1 kv.2, err).
Proof.
  destruct kv as [k x]. unfold parse_pair, encode_pair. cbn [fst snd].
  change ";" with (str1 ";"). rewrite Contains_byte_false.
  2: { rewrite !str_bytes_app, !elem_of_app. intros [H|[H|H]].
       - by apply (QueryEscape_no k ";"%char) in H.
       - by apply list_elem_of_singleton in H.
       - by apply (QueryEscape_no x ";"%char) in H. }
  destruct (String.eqb_spec (QueryEscape k +:+ "=" +:+ QueryEscape x) EmptyString) as [He|_].
  { exfalso. apply (f_equal String.length) in He. rewrite !str_length_app in He. cbn in He. lia. }
  change "=" with (str1 "="). change (str1 "=" +:+ QueryEscape x) with (String "=" (QueryEscape x)).
  rewrite Cut_byte_first by (by apply QueryEscape_no). by rewrite !QueryUnescape_escape.
Qed.

Lemma encode_pair_no_amp kv : "&"%char ∉ str_bytes (encode_pair kv).
Proof.
  unfold encode_pair. rewrite !str_bytes_app, !elem_of_app. intros [H|[H|H]].
  - by apply (QueryEscape_no kv.1 "&"%char) in H.
  - by apply list_elem_of_singleton in H.
  - by apply (QueryEscape_no kv.2 "&"%char) in H.
Qed.

Lemma parse_pairs l m err :
  l <> [] ->
  foldl parse_pair (m, err) (Split (Join (map encode_pair l) "&") "&") =
  (foldl (fun m kv => Values_Add m kv.1 kv.2) m l, err).
Proof.
  revert m. induction l as [|kv l IH]; intros m Hne; [done|]. destruct l as [|kv2 l].
  - cbn [map Join]. rewrite Split_not_elem by apply encode_pair_no_amp.
    cbn [foldl]. by rewrite parse_pair_encode.
  - change (Join (map encode_pair (kv :: kv2 :: l)) "&") with
      (encode_pair kv +:+ String "&" (Join (map encode_pair (kv2 :: l)) "&")).
    rewrite Split_app by apply encode_pair_no_amp. cbn [foldl]. by rewrite parse_pair_encode, IH.
Qed.

(** Adding the values of one key, then of all. *)
Lemma add_values k l m :
  foldl (fun m kv => Values_Add m kv.1 kv.2) m (map (pair k) l) =
  match l with [] => m | _ => <[k := (default [] (m !! k) ++ l)%list]> m end.
Proof.
  revert m. induction l as [|x l IH]; intros m; [done|]. cbn [map foldl fst snd]. rewrite IH.
  unfold Values_Add. rewrite lookup_insert_eq. cbn [default]. destruct l as [|y l]; [done|].
  rewrite insert_insert_eq. f_equal. unfold id. by rewrite <- app_assoc.
Qed.

Lemma add_pairs kvs m :
  NoDup kvs.*1 -> (forall k, k ∈ kvs.*1 -> m !! k = None) -> Forall (fun kv => kv.2 <> []) kvs ->
  foldl (fun m kv => Values_Add m kv.1 kv.2) m (List.concat (map (fun kv => map (pair kv.1) kv.2) kvs)) =
  list_to_map kvs ∪ m.
Proof.
  revert m. induction kvs as [|[k l] kvs IH]; intros m Hnd Hm Hne.
  - cbn. by rewrite map_empty_union.
  - cbn [map List.concat fst snd]. rewrite foldl_app, add_values.
    apply Forall_cons in Hne as [Hl Hne]. cbn [snd] in Hl. destruct l as [|x l]; [done|].
    cbn [fmap list_fmap fst] in Hnd. apply NoDup_cons in Hnd as [Hk Hnd].
    rewrite Hm by (cbn; left). cbn [default app].
    rewrite IH; [|done| |done].
    + cbn [list_to_map]. cbn. rewrite <- insert_union_r; [by rewrite insert_union_l|].
      by apply not_elem_of_list_to_map_1.
    + intros k' Hk'. destruct (decide (k = k')) as [->|Hkk]; [done|].
      rewrite lookup_insert_ne by done. apply Hm. cbn. by right.
Qed.

(** Values all of whose keys have a value. *)
Definition has_values (v : gmap string (list string)) : Prop := forall k l, v !! k = Some l -> l <> [].

Lemma has_values_empty : has_values ∅.
Proof. intros k l H. by rewrite lookup_empty in H. Qed.

Lemma has_values_insert v k l : has_values v -> l <> [] -> has_values (<[k := l]> v).
Proof. intros Hv Hl k' l' [[_ <-]|[_ H]]%lookup_insert_Some; [done|by apply (Hv k')]. Qed.

Lemma has_values_Set v k x : has_values v -> has_values (Values_Set v k x).
Proof. intros Hv. by apply has_values_insert. Qed.

Lemma has_values_Add v k x : has_values v -> has_values (Values_Add v k x).
Proof. intros Hv. apply has_values_insert; [done|]. by destruct (default _ _). Qed.

Lemma ParseQuery_has_values q : has_values (ParseQuery q).1.
Proof.
  unfold ParseQuery, parseQuery. generalize (Split q "&") as parts. generalize has_values_empty.
  generalize (None : option error) as err. generalize (∅ : gmap string (list string)) as m.
  intros m err Hm parts. revert m err Hm. induction parts as [|p parts IH]; intros m err Hm; [done|].
  cbn [foldl]. destruct (parse_pair (m, err) p) as [m' err'] eqn:E. apply IH. unfold parse_pair in E.
  repeat case_match; simplify_eq; auto using has_values_Add.
Qed.

Lemma ParseQuery_encode_values v : has_values v -> ParseQuery (Values_Encode v) = (v, None).
Proof.
  intros Hne. unfold ParseQuery, parseQuery, Values_Encode.
  assert (Hfold : foldl (fun m kv => Values_Add m kv.1 kv.2) ∅ (value_pairs v) = v).
  { unfold value_pairs.
    set (sorted := merge_sort _ (map_to_list v)).
    assert (Hp : sorted ≡ₚ map_to_list v) by apply merge_sort_Permutation.
    rewrite add_pairs.
    - rewrite map_union_empty. rewrite (list_to_map_proper _ (map_to_list v)); [apply list_to_map_to_list| |done].
      rewrite Hp. apply NoDup_fst_map_to_list.
    - rewrite Hp. apply NoDup_fst_map_to_list.
    - intros k _. apply lookup_empty.
    - rewrite Hp. apply Forall_forall. intros [k l] Hin%elem_of_map_to_list. by apply (Hne k). }
  destruct (value_pairs v) as [|kv l] eqn:E.
  - cbn. cbn in Hfold. by rewrite <- Hfold.
  - rewrite parse_pairs by done. by rewrite Hfold.
Qed.

Lemma ParseQuery_Encode_Set2 q k1 x1 k2 x2 :
  let v := Values_Set (Values_Set (ParseQuery q).1 k1 x1) k2 x2 in ParseQuery (Values_Encode v) = (v, None).
Proof. apply ParseQuery_encode_values. auto using has_values_Set, ParseQuery_has_values. Qed.
End RoundTrip.

(** Forms and queries survive the wire.  [ParseQuery] reads back exactly
    the values that [Encode] wrote, keys and values with any bytes, several
    values per key in their order (a key with no values is not written). *)
Theorem ParseQuery_Encode {U : Unicode} (v : gmap string (list string)) :
  (forall k l, v !! k = Some l -> l <> []) -> ParseQuery (Values_Encode v) = (v, None).
Proof. apply ParseQuery_encode_values. Qed.

Example ParseQuery_Encode_witness :
  let v := <["scope" := ["read pay"; "50%"]]> (<["a&b" := ["c=d;e+f"]]> (∅ : gmap string (list string))) in
  ParseQuery (U := unicode_min) (Values_Encode v) = (v, None).
Proof.
  intros v. apply (ParseQuery_Encode (U := unicode_min) v). intros k l Hl. unfold v in Hl.
  apply lookup_insert_Some in Hl as [[_ <-]|[_ Hl]]; [discriminate|].
  apply lookup_insert_Some in Hl as [[_ <-]|[_ Hl]]; [discriminate|]. 
  rewrite lookup_empty in Hl. discriminate Hl.
Defined.

Example Values_Encode_ex :
  Values_Encode (<["b" := ["x y"]]> (<["a/" := ["1"; "2"]]> ∅)) = "a%2F=1&a%2F=2&b=x+y".
Proof. vm_compute. reflexivity. Qed.
