(* ===== verification/Form.v ===== *)
(** * Form bodies: what the program uses of [mime] and of [Request.ParseForm]

    A handler reads its parameters with [ParseForm] and [FormValue]: those of
    an url-encoded body first, then those of the query.  A form posted by a
    client is read back by the server. *)

From S2P Require Import Prelude GoString Encoding Json Http Url.
Open Scope Z_scope.

(** ** [mime.ParseMediaType] *)

Definition consumeToken (v : string) : string * string := span is_token_char v.

Definition TrimLeftSpace (s : string) : string :=
  concat_chunks (drop_while (fun x => IsSpace (fst x)) (runes s)).

(** A media type, or one word. *)
Definition checkMediaTypeDisposition (s : string) : bool :=
  let '(typ, rest) := consumeToken s in
  if String.eqb typ EmptyString then false
  else if String.eqb rest EmptyString then true
  else if HasPrefix rest "/" then
    let '(subtype, rest) := consumeToken (str_drop 1 rest) in
    negb (String.eqb subtype EmptyString) && String.eqb rest EmptyString
  else false.

Definition is_tspecial (c : ascii) : bool :=
  bool_decide (c ∈ ["("; ")"; "<"; ">"; "@"; ","; ";"; ":"; "\"; "034"; "/"; "["; "]"; "?"; "="]%char).

(** What follows the opening quote: the value and the rest, [None] if the
    string does not end. *)
Fixpoint quoted_value (v : string) : option (string * string) :=
  match v with
  | EmptyString => None
  | String c v1 =>
      if Ascii.eqb c dquote then Some (EmptyString, v1) else
      match v1 with
      | String c1 v2 =>
          if Ascii.eqb c backslash && is_tspecial c1 then
            '(x, rest) ← quoted_value v2; Some (String c1 x, rest)
          else if Ascii.eqb c "013" || Ascii.eqb c "010" then None
          else '(x, rest) ← quoted_value v1; Some (String c x, rest)
      | EmptyString => None
      end
  end.

Definition consumeValue (v : string) : string * string :=
  match v with
  | EmptyString => (EmptyString, EmptyString)
  | String c v1 => if Ascii.eqb c dquote then default (EmptyString, v) (quoted_value v1) else consumeToken v
  end.

Section WithUnicode.
Context {U : Unicode}.

(** The next parameter, [None] for an empty name. *)
Definition consumeMediaParam (v : string) : option (string * string * string) :=
  match TrimLeftSpace v with
  | String ";" rest =>
      let '(param, rest) := consumeToken (TrimLeftSpace rest) in
      let param := ToLower param in
      if String.eqb param EmptyString then None else
      match TrimLeftSpace rest with
      | String "=" rest =>
          let rest := TrimLeftSpace rest in
          let '(value, rest2) := consumeValue rest in
          if String.eqb value EmptyString && String.eqb rest2 rest then None
          else Some (param, value, rest2)
      | _ => None
      end
  | _ => None
  end.

(** No parameter is repeated with another value.  A malformed parameter ends
    the list and keeps the media type; each step consumes some bytes, so that
    the length of the text is fuel enough. *)
Fixpoint media_params (fuel : nat) (v : string) (params : gmap string string) : bool :=
  match fuel with
  | O => true
  | S f =>
      match consumeMediaParam v with
      | None => true
      | Some (key, value, rest) =>
          match params !! key with
          | Some x => String.eqb x value && media_params f rest params
          | None => media_params f rest (<[key := value]> params)
          end
      end
  end.

(** The media type, empty on the errors that leave none. *)
Definition ParseMediaType (v : string) : string :=
  let base := match Cut v ";" with Some (b, _) => b | None => v end in
  let mediatype := TrimSpace (ToLower base) in
  if negb (checkMediaTypeDisposition mediatype) then EmptyString
  else if media_params (String.length v) (str_drop (String.length base) v) ∅ then mediatype else EmptyString.

(** ** [Request.ParseForm] and [FormValue] *)

Definition maxFormSize : Z := 10485760.

(** [parsePostForm]: no values on an error, except those read before an error
    in the encoding. *)
Definition parsePostForm (r : Request) : gmap string (list string) :=
  match rq_Body r with
  | None => ∅
  | Some b =>
      let ct := Header_Get (rq_Header r) "Content-Type" in
      let ct := if String.eqb ct EmptyString then "application/octet-stream" else ct in
      if negb (String.eqb (ParseMediaType ct) "application/x-www-form-urlencoded") then ∅
      else if maxFormSize <? Z.of_nat (String.length b) then ∅
      else (ParseQuery b).1
  end.

Definition copyValues (dst src : gmap string (list string)) : gmap string (list string) :=
  union_with (fun a b => Some (a ++ b)%list) dst src.

(** [r.Form] after [ParseForm]. *)
Definition ParseForm (r : Request) : gmap string (list string) :=
  let post := if bool_decide (rq_Method r ∈ ["POST"; "PUT"; "PATCH"]) then parsePostForm r else ∅ in
  copyValues post (ParseQuery (rq_RawQuery r)).1.

(** [r.FormValue(key)] once the form is parsed. *)
Definition FormValue (r : Request) (key : string) : string := Values_Get (ParseForm r) key.

(** ** A posted form *)

(** The request of [http.Client] posting a form. *)
Record form_post (r : Request) (form : gmap string (list string)) : Prop := {
  fp_method : rq_Method r = "POST";
  fp_type : Header_Get (rq_Header r) "Content-Type" = "application/x-www-form-urlencoded";
  fp_body : rq_Body r = Some (Values_Encode form);
  fp_size : Z.of_nat (String.length (Values_Encode form)) <= maxFormSize
}.

Lemma FormValue_posted r form key v :
  form_post r form -> has_values form -> form !! key = Some [v] -> FormValue r key = v.
Proof.
  intros [Hm Ht Hb Hs] Hf Hk. unfold FormValue, ParseForm. rewrite Hm, bool_decide_eq_true_2 by left.
  unfold parsePostForm. rewrite Hb, Ht.
  change (String.eqb (ParseMediaType _) _) with
    (String.eqb (ParseMediaType "application/x-www-form-urlencoded") "application/x-www-form-urlencoded").
  replace (ParseMediaType "application/x-www-form-urlencoded") with "application/x-www-form-urlencoded"
    by (symmetry; vm_compute; reflexivity).
  rewrite String.eqb_refl. cbn [negb]. destruct (Z.ltb_spec maxFormSize (Z.of_nat (String.length (Values_Encode form)))); [lia|].
  rewrite ParseQuery_encode_values by done. cbn [fst]. unfold Values_Get, copyValues.
  rewrite lookup_union_with, Hk. by destruct ((ParseQuery (rq_RawQuery r)).1 !! key).
Qed.
End WithUnicode.

Example ParseMediaType_ex :
  ParseMediaType (U := unicode_min) "Application/X-WWW-Form-Urlencoded; charset=utf-8" = "application/x-www-form-urlencoded" /\
  ParseMediaType (U := unicode_min) "text/html; a=1; a=2" = EmptyString /\
  ParseMediaType (U := unicode_min) "text/html; a" = "text/html".
Proof. repeat split; vm_compute; reflexivity. Qed.
