(* ===== verification/ServeMux.v ===== *)
(** * Request multiplexers: what the program uses of [http.ServeMux]

    Patterns without method, host or wildcard, as the program registers them:
    a path, or a path with a trailing slash that stands for a subtree.  The
    multiplexer matches the escaped path segment by segment, and redirects to
    the clean path and to a registered subtree. *)

From S2P Require Import Prelude GoString Encoding Http Url.
Open Scope Z_scope.

(** A request with what only multiplexers read: [r.URL.RawPath], and whether
    the protocol is HTTP/1.1 or newer. *)
Record Incoming := MkIncoming {
  in_Request : Request;
  in_RawPath : string;
  in_Proto11 : bool
}.

(** ** Paths *)

Definition path_plain (c : ascii) : bool :=
  is_unreserved c || bool_decide (c ∈ ["$"; "&"; "+"; ","; "/"; ":"; ";"; "="; "@"]%char).

Definition percent (c : ascii) : string :=
  String "%" (String (upper_hex (byte_val c / 16)) (str1 (upper_hex (byte_val c mod 16)))).

Fixpoint escapePath (s : string) : string :=
  match s with
  | EmptyString => EmptyString
  | String c s' => (if path_plain c then str1 c else percent c) +:+ escapePath s'
  end.

(** [url.PathUnescape], [None] on a malformed escape. *)
Fixpoint PathUnescape (s : string) : option string :=
  match s with
  | EmptyString => Some EmptyString
  | String c s1 =>
      if Ascii.eqb c "%" then
        match s1 with
        | String a (String b s') =>
            x ← hex_value a; y ← hex_value b; r ← PathUnescape s'; Some (String (of_byte (16 * x + y)) r)
        | _ => None
        end
      else r ← PathUnescape s1; Some (String c r)
  end.

Definition valid_encoded (c : ascii) : bool :=
  path_plain c || bool_decide (c ∈ ["!"; "'"; "("; ")"; "*"; "["; "]"; "%"]%char).

(** [URL.EscapedPath] *)
Definition EscapedPath (Path RawPath : string) : string :=
  if negb (String.eqb RawPath EmptyString) && str_forall valid_encoded RawPath &&
     bool_decide (PathUnescape RawPath = Some Path)
  then RawPath
  else if String.eqb Path "*" then "*" else escapePath Path.

(** [path.Clean] of a rooted path: the stack of its elements, last first. *)
Definition clean_step (stack : list string) (elem : string) : list string :=
  if String.eqb elem EmptyString || String.eqb elem "." then stack
  else if String.eqb elem ".." then tail stack else elem :: stack.
Definition clean_elems (p : string) : list string := rev (foldl clean_step [] (Split p "/")).
Definition path_Clean (p : string) : string := "/" +:+ Join (clean_elems p) "/".

Definition cleanPath (p : string) : string :=
  if String.eqb p EmptyString then "/" else
  let p := if HasPrefix p "/" then p else "/" +:+ p in
  let np := path_Clean p in
  if HasSuffix p "/" && negb (String.eqb np "/") then np +:+ "/" else np.

(** The segments [firstSegment] yields: unescaped, and "/" for a trailing
    slash. *)
Definition segment (s : string) : string := default s (PathUnescape s).
Fixpoint segments_of (parts : list string) : list string :=
  match parts with
  | [] => []
  | [s] => [if String.eqb s EmptyString then "/" else segment s]
  | s :: parts' => segment s :: segments_of parts'
  end.
Definition path_segments (path : string) : list string :=
  match path with EmptyString => [] | String _ p => segments_of (Split p "/") end.

(** ** Patterns and the routing tree *)

(** [pt_multi]: the pattern ends in a slash. *)
Record Pattern (H : Type) := MkPattern { pt_lits : list string; pt_multi : bool; pt_handler : H }.
Arguments MkPattern {H} _ _ _.
Arguments pt_lits {H} _.
Arguments pt_multi {H} _.
Arguments pt_handler {H} _.

Section Mux.
Context {H : Type}.

Definition parse_pattern (pattern : string) (h : H) : Pattern H :=
  let parts := Split (str_drop 1 pattern) "/" in
  if HasSuffix pattern "/" then MkPattern (removelast parts) true h else MkPattern parts false h.

(** [mux.Handle] *)
Definition Handle (pattern : string) (h : H) (mux : list (Pattern H)) : list (Pattern H) :=
  (mux ++ [parse_pattern pattern h])%list.

(** A node of the tree: the patterns below it, with what is left of their
    literals. *)
Definition tree_node : Type := list (list string * Pattern H).
Definition findChild (seg : string) (n : tree_node) : tree_node :=
  omap (fun x => match x.1 with
                 | l :: lits => if String.eqb l seg then Some (lits, x.2) else None
                 | [] => None
                 end) n.
Definition ends_here (multi : bool) (n : tree_node) : option (Pattern H) :=
  snd <$> List.find (fun x => bool_decide (x.1 = []) && Bool.eqb (pt_multi x.2) multi) n.

Fixpoint matchPath (n : tree_node) (segs : list string) : option (Pattern H) :=
  match segs with
  | [] => ends_here false n
  | seg :: rest =>
      match matchPath (findChild seg n) rest with
      | Some p => Some p
      | None => ends_here true n
      end
  end.
Definition tree_match (mux : list (Pattern H)) (path : string) : option (Pattern H) :=
  matchPath (map (fun p => (pt_lits p, p)) mux) (path_segments path).

Definition count_slashes (path : string) : nat :=
  List.length (List.filter (Ascii.eqb "/") (str_bytes path)).
Definition exactMatch (n : option (Pattern H)) (path : string) : bool :=
  match n with
  | None => false
  | Some p =>
      if negb (pt_multi p) then true
      else if negb (String.eqb path EmptyString) && negb (HasSuffix path "/") then false
      else Nat.eqb (1 + List.length (pt_lits p)) (count_slashes path)
  end.

(** The match, or the path to redirect to. *)
Definition matchOrRedirect (mux : list (Pattern H)) (path url_path : string)
    : option (Pattern H) + string :=
  let n := tree_match mux path in
  if negb (exactMatch n path) && negb (HasSuffix path "/") &&
     exactMatch (tree_match mux (path +:+ "/")) (path +:+ "/")
  then inr (cleanPath url_path +:+ "/") else inl n.

(** What [ServeMux] does with a request; a redirect carries the path and the
    query of its [url.URL]. *)
Inductive mux_result :=
| MuxBadRequest
| MuxRedirect (path query : string)
| MuxNotFound
| MuxFound (h : H).

Definition found (n : option (Pattern H)) : mux_result :=
  match n with Some p => MuxFound (pt_handler p) | None => MuxNotFound end.

(** No pattern names a host, so hosts do not matter. *)
Definition mux_find (mux : list (Pattern H)) (i : Incoming) : mux_result :=
  let r := in_Request i in
  if String.eqb (rq_RequestURI r) "*" then MuxBadRequest else
  let escaped := EscapedPath (rq_Path r) (in_RawPath i) in
  if String.eqb (rq_Method r) "CONNECT" then
    match matchOrRedirect mux escaped (rq_Path r) with
    | inr to => MuxRedirect to (rq_RawQuery r)
    | inl _ => found (tree_match mux escaped)
    end
  else
    let path := cleanPath escaped in
    match matchOrRedirect mux path (rq_Path r) with
    | inr to => MuxRedirect to (rq_RawQuery r)
    | inl n => if negb (String.eqb path escaped) then MuxRedirect path (rq_RawQuery r) else found n
    end.
End Mux.
Arguments mux_result H : clear implicits.

(** What a handler behind a multiplexer did: wrote a response, or redirected
    (301) to a path and query. *)
Inductive reply :=
| Wrote (w : Response)
| Redirected (w : Response) (path query : string).

Definition StatusNotFound : Z := 404.
(** [http.NotFound] *)
Definition NotFound (w : Response) : Response := http_Error "404 page not found" StatusNotFound w.
Definition bad_request_uri (i : Incoming) (w : Response) : Response :=
  WriteHeader StatusBadRequest (if in_Proto11 i then SetHeader "Connection" "close" w else w).

(** [ServeMux.ServeHTTP] where no handler is called. *)
Definition mux_reply {H} (i : Incoming) (w : Response) (m : mux_result H) : reply + H :=
  match m with
  | MuxBadRequest => inl (Wrote (bad_request_uri i w))
  | MuxRedirect path query => inl (Redirected w path query)
  | MuxNotFound => inl (Wrote (NotFound w))
  | MuxFound h => inr h
  end.

(** [http.StripPrefix]: the request for the inner handler, [None] for a 404. *)
Definition set_path (r : Request) (path url : string) : Request :=
  MkRequest (rq_Method r) path (rq_RawQuery r) url (rq_RequestURI r) (rq_Host r) (rq_TLS r)
    (rq_RemoteAddr r) (rq_Header r) (rq_Cookies r) (rq_Body r).
Definition StripPrefix (url_text : Request -> string -> string) (prefix : string) (i : Incoming) : option Incoming :=
  let r := in_Request i in
  let p := TrimPrefix (rq_Path r) prefix in
  let rp := TrimPrefix (in_RawPath i) prefix in
  if (String.length p <? String.length (rq_Path r))%nat &&
     (String.eqb (in_RawPath i) EmptyString || (String.length rp <? String.length (in_RawPath i))%nat)
  then Some (MkIncoming (set_path r p (url_text r p)) rp (in_Proto11 i)) else None.

(** ** Matching *)

Section MuxFacts.
Context {H : Type}.
Implicit Types (n : tree_node (H := H)) (p : Pattern H).

(** The pattern [p], of which [lits] is left, matches the segments. *)
Definition matches_segs (lits segs : list string) (p : Pattern H) : Prop :=
  if pt_multi p then exists rest, rest <> [] /\ segs = (lits ++ rest)%list else segs = lits.

Lemma ends_here_Some b n p :
  ends_here b n = Some p -> ([], p) ∈ n /\ pt_multi p = b.
Proof.
  unfold ends_here. destruct (List.find _ n) as [[lits p']|] eqn:Hf; [|done]. intros [= ->].
  apply List.find_some in Hf as [Hin [Hl%bool_decide_eq_true Hm%Bool.eqb_prop]%andb_true_iff].
  cbn in Hl, Hm. subst. split; [by apply list_elem_of_In|done].
Qed.

Lemma findChild_elem seg lits n p :
  (lits, p) ∈ findChild seg n <-> (seg :: lits, p) ∈ n.
Proof.
  unfold findChild. rewrite list_elem_of_omap. split.
  - intros ([[|l ls] p'] & Hin & Hx); [done|]. cbn in Hx.
    destruct (String.eqb_spec l seg) as [->|]; [|done]. by injection Hx as -> ->.
  - intros Hin. exists (seg :: lits, p). split; [done|]. cbn. by rewrite String.eqb_refl.
Qed.

Lemma matchPath_sound n segs p :
  matchPath n segs = Some p -> exists lits, (lits, p) ∈ n /\ matches_segs lits segs p.
Proof.
  unfold matches_segs. revert n. induction segs as [|seg rest IH]; intros n; cbn [matchPath].
  - intros [Hin Hm]%ends_here_Some. exists []. by rewrite Hm.
  - destruct (matchPath (findChild seg n) rest) as [p'|] eqn:E.
    + intros [= ->]. apply IH in E as (lits & Hin%findChild_elem & Hs). exists (seg :: lits).
      split; [done|]. destruct (pt_multi p); [|by rewrite Hs].
      destruct Hs as (r & Hr & ->). by exists r.
    + intros [Hin Hm]%ends_here_Some. exists []. rewrite Hm. split; [done|]. by exists (seg :: rest).
Qed.

(** A pattern found is registered and matches the segments of the path. *)
Lemma tree_match_sound (mux : list (Pattern H)) path p :
  tree_match mux path = Some p -> p ∈ mux /\ matches_segs (pt_lits p) (path_segments path) p.
Proof.
  intros (lits & Hin & Hs)%matchPath_sound.
  apply list_elem_of_fmap in Hin as (p' & [= -> ->] & Hin). done.
Qed.

(** A handler is reached only on the clean path, or by CONNECT. *)
Lemma mux_find_found (mux : list (Pattern H)) i h :
  mux_find mux i = MuxFound h ->
  let path := EscapedPath (rq_Path (in_Request i)) (in_RawPath i) in
  rq_RequestURI (in_Request i) <> "*" /\
  (rq_Method (in_Request i) = "CONNECT" \/ cleanPath path = path) /\
  exists p, p ∈ mux /\ pt_handler p = h /\ matches_segs (pt_lits p) (path_segments path) p.
Proof.
  unfold mux_find. set (path := EscapedPath _ _). cbv zeta.
  destruct (String.eqb_spec (rq_RequestURI (in_Request i)) "*") as [|Huri]; [done|].
  assert (Hfound : forall o, found o = MuxFound h -> o = tree_match mux path ->
    exists p, p ∈ mux /\ pt_handler p = h /\ matches_segs (pt_lits p) (path_segments path) p).
  { intros [p|] Hn; [|done]. injection Hn as <-. intros E. exists p.
    by destruct (tree_match_sound mux path p (eq_sym E)). }
  destruct (String.eqb_spec (rq_Method (in_Request i)) "CONNECT") as [Hc|_].
  - destruct (matchOrRedirect _ _ _); [|done]. intros Hf. split; [done|]. split; [by left|]. by eapply Hfound.
  - unfold matchOrRedirect. destruct (negb _ && _ && _); [done|].
    destruct (String.eqb_spec (cleanPath path) path) as [Heq|_]; [|done]. cbn [negb].
    intros Hf. split; [done|]. split; [by right|]. eapply Hfound; [done|]. by rewrite Heq.
Qed.
End MuxFacts.

(** ** The path a match stands for *)

Lemma string_length_ind (P : string -> Prop) :
  (forall s, (forall t, (String.length t < String.length s)%nat -> P t) -> P s) -> forall s, P s.
Proof. intros Hs s. induction (Nat.lt_wf_0_projected String.length s) as [s _ IH] using Acc_ind. by apply Hs. Qed.

Lemma hex_value_slash : hex_value "/" = None.
Proof. reflexivity. Qed.

(** Unescaping works between slashes. *)
Lemma PathUnescape_slash a b z :
  PathUnescape (a +:+ String "/" b) = Some z ->
  exists x y, PathUnescape a = Some x /\ PathUnescape b = Some y /\ z = x +:+ String "/" y.
Proof.
  revert z. induction a as [a IH] using string_length_ind. intros z.
  destruct a as [|c a].
  { cbn. destruct (PathUnescape b) as [y|]; [|done]. intros [= <-]. by exists EmptyString, y. }
  cbn [append PathUnescape]. destruct (Ascii.eqb c "%").
  - destruct a as [|c1 a].
    { cbn [append]. destruct b as [|c2 b]; [done|]. rewrite hex_value_slash. done. }
    destruct a as [|c2 a].
    { cbn [append]. rewrite hex_value_slash. cbn [mbind option_bind]. by destruct (hex_value c1). }
    cbn [append]. destruct (hex_value c1) as [x1|]; [|done]. destruct (hex_value c2) as [x2|]; [|done].
    cbn [mbind option_bind]. destruct (PathUnescape (a +:+ String "/" b)) as [r|] eqn:E; [|done].
    cbn [mbind option_bind]. intros [= <-].
    destruct (IH a ltac:(cbn; lia) r E) as (x & y & -> & -> & ->). by eexists _, _.
  - destruct (PathUnescape (a +:+ String "/" b)) as [r|] eqn:E; [|done].
    cbn [mbind option_bind]. intros [= <-].
    destruct (IH a ltac:(cbn; lia) r E) as (x & y & -> & -> & ->). by eexists _, _.
Qed.

Lemma PathUnescape_escape s : PathUnescape (escapePath s) = Some s.
Proof.
  induction s as [|c s IH]; [done|]. cbn [escapePath].
  assert (Hc : forall t, PathUnescape ((if path_plain c then str1 c else percent c) +:+ t) =
                         r ← PathUnescape t; Some (String c r)).
  { intros t. destruct c as [[] [] [] [] [] [] [] []]; reflexivity. }
  by rewrite Hc, IH.
Qed.

Lemma escapePath_app s t : escapePath (s +:+ t) = escapePath s +:+ escapePath t.
Proof. induction s as [|c s IH]; [done|]. cbn [append escapePath]. by rewrite IH, str_app_assoc. Qed.

Lemma EscapedPath_unescape p raw : PathUnescape (EscapedPath p raw) = Some p.
Proof.
  unfold EscapedPath. destruct (negb _ && _ && _) eqn:E.
  - by apply andb_true_iff in E as [_ E%bool_decide_eq_true].
  - destruct (String.eqb_spec p "*") as [->|_]; [done|apply PathUnescape_escape].
Qed.

Lemma first_byte_split c s :
  c ∈ str_bytes s -> exists a b, s = a +:+ String c b /\ c ∉ str_bytes a.
Proof.
  induction s as [|x s IH]; [by intros ?%not_elem_of_nil|]. cbn [str_bytes]. intros Hin.
  destruct (decide (x = c)) as [->|Hne].
  { exists EmptyString, s. split; [done|]. apply not_elem_of_nil. }
  apply elem_of_cons in Hin as [->|Hin]; [done|]. destruct (IH Hin) as (a & b & -> & Ha).
  exists (String x a), b. split; [done|]. cbn [str_bytes]. rewrite not_elem_of_cons. by split.
Qed.

(** The segments unescape to the elements of the path. *)
Lemma unescape_parts s z :
  PathUnescape s = Some z -> z = Join (map segment (Split s "/")) "/".
Proof.
  revert z. induction s as [s IH] using string_length_ind. intros z Hz.
  destruct (decide ("/"%char ∈ str_bytes s)) as [(a & b & -> & Ha)%first_byte_split|Hn].
  - apply PathUnescape_slash in Hz as (x & y & Hx & Hy & ->).
    rewrite Split_app by done. cbn [map]. unfold segment at 1. rewrite Hx. cbn [default from_option id].
    assert (Hlen : (String.length b < String.length (a +:+ String "/" b))%nat).
    { rewrite str_length_app. cbn [String.length]. lia. }
    rewrite (IH b Hlen y Hy). destruct (Split b "/") as [|p l] eqn:E; [|done].
    exfalso. revert E. clear. destruct b as [|c b]; [done|]. cbn [Split].
    destruct (Ascii.eqb c "/"); [done|]. by destruct (Split b "/").
  - rewrite Split_not_elem by done. cbn. unfold segment. by rewrite Hz.
Qed.

Lemma segments_of_map parts :
  last (segments_of parts) <> Some "/" -> segments_of parts = map segment parts.
Proof.
  induction parts as [|s parts IH]; [done|]. destruct parts as [|s2 parts].
  - cbn. by destruct (String.eqb s EmptyString).
  - intros Hl. change (segments_of (s :: s2 :: parts)) with (segment s :: segments_of (s2 :: parts)) in *.
    cbn [map]. f_equal. apply IH. intros E. apply Hl.
    rewrite last_cons, E. done.
Qed.

Lemma cleanPath_rooted path : cleanPath path = path -> exists p, path = String "/" p.
Proof.
  unfold cleanPath. destruct (String.eqb path EmptyString) eqn:E.
  - intros <-. by exists EmptyString.
  - intros <-. destruct (_ && _); by eexists.
Qed.

(** A path matched by literal segments is those segments, decoded. *)
Lemma literal_path path p lits :
  cleanPath path = path -> PathUnescape path = Some p ->
  path_segments path = lits -> last lits <> Some "/" -> p = "/" +:+ Join lits "/".
Proof.
  intros Hc Hp <- Hl. destruct (cleanPath_rooted path Hc) as (q & ->).
  cbn [path_segments] in *. cbn [PathUnescape] in Hp. change (Ascii.eqb "/" "%") with false in Hp. cbv iota in Hp.
  destruct (PathUnescape q) as [z|] eqn:Hq; [|done]. injection Hp as <-.
  rewrite segments_of_map by done. by rewrite (unescape_parts q z Hq).
Qed.

(** ** Trailing slashes *)

Lemma Split_snoc s c : Split (s +:+ str1 c) c = (Split s c ++ [EmptyString])%list.
Proof.
  induction s as [|x s IH]; [cbn; by rewrite Ascii.eqb_refl|]. cbn [append Split]. rewrite IH.
  destruct (Ascii.eqb x c); [done|]. pose proof (Split_not_nil c s). by destruct (Split s c).
Qed.

Lemma Split_slashes s : List.length (Split s "/") = S (count_slashes s).
Proof.
  unfold count_slashes. induction s as [|x s IH]; [done|]. cbn [Split str_bytes List.filter].
  rewrite (Ascii.eqb_sym "/" x). destruct (Ascii.eqb x "/"); cbn [List.length]; [by rewrite IH|].
  pose proof (Split_not_nil "/" s). by destruct (Split s "/").
Qed.

Lemma HasSuffix_slash q : HasSuffix (String "/" q) "/" = bool_decide (last (Split q "/") = Some EmptyString).
Proof.
  destruct (decide (q = EmptyString)) as [->|Hne]; [done|].
  destruct (HasSuffix (String "/" q) "/") eqn:E; symmetry.
  - apply bool_decide_eq_true. apply HasSuffix_spec in E as [p Hp].
    destruct p as [|x p]; [cbn in Hp; by injection Hp|]. cbn [append] in Hp. injection Hp as _ ->.
    change (Split (p +:+ "/") "/") with (Split (p +:+ str1 "/") "/"). by rewrite Split_snoc, last_snoc.
  - apply bool_decide_eq_false. intros Hl. apply Bool.diff_false_true. rewrite <- E. clear E.
    apply HasSuffix_spec. clear Hne. induction q as [|x q IH]; [by exists EmptyString|].
    cbn [Split] in Hl. destruct (Ascii.eqb x "/") eqn:Ex.
    + apply Ascii.eqb_eq in Ex as ->. rewrite last_cons in Hl. destruct (last (Split q "/")) as [l|] eqn:El.
      * injection Hl as ->. destruct (IH eq_refl) as [p Hp]. exists (String "/" p). cbn [append]. by rewrite <- Hp.
      * apply last_None in El. by apply Split_not_nil in El.
    + destruct (Split q "/") as [|y l] eqn:Es; [by apply Split_not_nil in Es|].
      destruct l as [|z l]; [cbn in Hl; discriminate Hl|].
      assert (Hl' : last (y :: z :: l) = Some EmptyString) by (cbn in Hl |- *; exact Hl).
      destruct (IH Hl') as [[|c p] Hp]; [cbn in Hp; injection Hp as ->; discriminate Es|].
      cbn [append] in Hp. injection Hp as <- ->. exists (String "/" (String x p)). done.
Qed.

Lemma segments_of_open parts :
  last parts <> Some EmptyString -> segments_of parts = map segment parts.
Proof.
  induction parts as [|s parts IH]; [done|]. destruct parts as [|s2 parts].
  - cbn. destruct (String.eqb_spec s EmptyString) as [->|]; [by intros []|done].
  - intros Hl. change (segments_of (s :: s2 :: parts)) with (segment s :: segments_of (s2 :: parts)).
    cbn [map]. f_equal. by apply IH.
Qed.

Lemma segments_of_snoc parts : segments_of (parts ++ [EmptyString]) = (map segment parts ++ ["/"])%list.
Proof.
  induction parts as [|s parts IH]; [done|]. cbn [app map]. rewrite <- IH.
  destruct (parts ++ [EmptyString])%list eqn:E; [by destruct parts|done].
Qed.

(** The segments, and the number of slashes, after a slash is appended. *)
Lemma path_segments_slash path :
  cleanPath path = path -> HasSuffix path "/" = false ->
  path_segments (path +:+ "/") = (path_segments path ++ ["/"])%list /\
  count_slashes (path +:+ "/") = S (List.length (path_segments path)) /\ path_segments path <> [].
Proof.
  intros Hc Hs. destruct (cleanPath_rooted path Hc) as (q & ->). rewrite HasSuffix_slash in Hs.
  apply bool_decide_eq_false in Hs. cbn [append path_segments].
  change (q +:+ "/") with (q +:+ str1 "/"). rewrite Split_snoc, segments_of_snoc, segments_of_open by done.
  split; [done|]. rewrite length_map. split; [|intros E; apply map_eq_nil in E; by apply Split_not_nil in E].
  rewrite Split_slashes. unfold count_slashes. cbn [str_bytes List.filter]. change (Ascii.eqb "/" "/") with true.
  cbv iota. cbn [List.length]. f_equal. rewrite str_bytes_app, List.filter_app, length_app. cbn. lia.
Qed.

Lemma matchPath_nil {H} segs : matchPath (H := H) [] segs = None.
Proof. induction segs as [|s segs IH]; [done|]. cbn. by rewrite IH. Qed.
