(* ===== verification/UrlParse.v ===== *)
(** * URLs: [url.Parse] and [URL.String] of [net/url]

    The parts of a URL, the parser of absolute and relative references, and
    the printer.  What the parser does with an address in brackets (an IPv6
    literal) differs between releases of Go 1.25 and is a parameter.  Printing
    is undone by parsing for the URLs of HTTP endpoints. *)

From S2P Require Import Prelude GoString Encoding Http Url ServeMux.
Open Scope Z_scope.

(** [URL]; [u_User] is a user name and possibly a password. *)
Record URL := MkURL {
  u_Scheme : string;
  u_Opaque : string;
  u_User : option (string * option string);
  u_Host : string;
  u_Path : string;
  u_RawPath : string;
  u_OmitHost : bool;
  u_ForceQuery : bool;
  u_RawQuery : string;
  u_Fragment : string;
  u_RawFragment : string
}.

Definition set_RawQuery (q : string) (u : URL) : URL :=
  MkURL (u_Scheme u) (u_Opaque u) (u_User u) (u_Host u) (u_Path u) (u_RawPath u) (u_OmitHost u)
    (u_ForceQuery u) q (u_Fragment u) (u_RawFragment u).

(** ** Escapes of the parts *)

(** The bytes a host name is written with as they are. *)
Definition host_plain (c : ascii) : bool :=
  is_unreserved c ||
  bool_decide (c ∈ ["!"; "$"; "&"; "'"; "("; ")"; "*"; "+"; ","; ";"; "="; ":"; "["; "]"; "<"; ">"; dquote]%char).
Definition user_plain (c : ascii) : bool :=
  is_unreserved c || bool_decide (c ∈ ["$"; "&"; "+"; ","; ";"; "="]%char).
Definition fragment_plain (c : ascii) : bool :=
  path_plain c || bool_decide (c ∈ ["?"; "!"; "("; ")"; "*"]%char).

Fixpoint escape (plain : ascii -> bool) (s : string) : string :=
  match s with
  | EmptyString => EmptyString
  | String c s' => (if plain c then str1 c else percent c) +:+ escape plain s'
  end.

(** A fragment keeps an encoding of its own, as a path does. *)
Definition EscapedFragment (u : URL) : string :=
  if negb (String.eqb (u_RawFragment u) EmptyString) &&
     str_forall (fun c => fragment_plain c || bool_decide (c ∈ ["'"; "["; "]"; "%"]%char)) (u_RawFragment u) &&
     bool_decide (PathUnescape (u_RawFragment u) = Some (u_Fragment u))
  then u_RawFragment u else escape fragment_plain (u_Fragment u).

(** ** [URL.String] *)

Definition user_String (user : string * option string) : string :=
  escape user_plain user.1 +:+
  match user.2 with Some p => ":" +:+ escape user_plain p | None => EmptyString end.

(** The part before the path: scheme, user and host. *)
Definition origin_String (u : URL) : string :=
  (if String.eqb (u_Scheme u) EmptyString then EmptyString else u_Scheme u +:+ ":") +:+
  (if negb (String.eqb (u_Scheme u) EmptyString) || negb (String.eqb (u_Host u) EmptyString) ||
      bool_decide (u_User u <> None)
   then
     if u_OmitHost u && String.eqb (u_Host u) EmptyString && bool_decide (u_User u = None) then EmptyString
     else
       (if negb (String.eqb (u_Host u) EmptyString) || negb (String.eqb (u_Path u) EmptyString) ||
           bool_decide (u_User u <> None) then "//" else EmptyString) +:+
       (match u_User u with Some ui => user_String ui +:+ "@" | None => EmptyString end) +:+
       escape host_plain (u_Host u)
   else EmptyString).

Definition url_String (u : URL) : string :=
  (if negb (String.eqb (u_Opaque u) EmptyString)
   then (if String.eqb (u_Scheme u) EmptyString then EmptyString else u_Scheme u +:+ ":") +:+ u_Opaque u
   else
     let origin := origin_String u in
     let path := EscapedPath (u_Path u) (u_RawPath u) in
     let origin :=
       if negb (String.eqb path EmptyString) && negb (HasPrefix path "/") && negb (String.eqb (u_Host u) EmptyString)
       then origin +:+ "/" else origin in
     let segment := match Cut path "/" with Some (a, _) => a | None => path end in
     origin +:+ (if String.eqb origin EmptyString && Contains segment ":" then "./" else EmptyString) +:+ path) +:+
  (if u_ForceQuery u || negb (String.eqb (u_RawQuery u) EmptyString) then "?" +:+ u_RawQuery u else EmptyString) +:+
  (if String.eqb (u_Fragment u) EmptyString then EmptyString else "#" +:+ EscapedFragment u).

(** ** [url.Parse] *)

Section Parse.
Context {U : Unicode}.
(** [parseHost] on a host with an opening bracket. *)
Context (bracketed : string -> res string).

(** [unescape] outside of hosts and queries. *)
Fixpoint bad_escape (s : string) : string :=
  match s with
  | EmptyString => EmptyString
  | String c s1 =>
      if Ascii.eqb c "%" then
        match s1 with
        | String a (String b s') =>
            if bool_decide (hex_value a = None) || bool_decide (hex_value b = None) then s else bad_escape s'
        | _ => s
        end
      else bad_escape s1
  end.
Definition unescape (s : string) : res string :=
  match PathUnescape s with Some r => Ok r | None => Err (EscapeError (bad_escape s)) end.

(** [unescape] of a host: escapes are for bytes outside of ASCII and for the
    percent sign. *)
Fixpoint host_unescape (s : string) : res string :=
  match s with
  | EmptyString => Ok EmptyString
  | String c s1 =>
      if Ascii.eqb c "%" then
        match s1 with
        | String a (String b s') =>
            match hex_value a, hex_value b with
            | Some x, Some y =>
                if (x <? 8) && negb (Ascii.eqb a "2" && Ascii.eqb b "5") then Err (EscapeError s) else
                let? r := host_unescape s' in Ok (String (of_byte (16 * x + y)) r)
            | _, _ => Err (EscapeError s)
            end
        | _ => Err (EscapeError s)
        end
      else if (byte_val c <? 128) && negb (host_plain c)
      then Err (errorf ("invalid character " +:+ Quote (str1 c) +:+ " in host name"))
      else let? r := host_unescape s1 in Ok (String c r)
  end.

Definition validOptionalPort (port : string) : bool :=
  match port with
  | EmptyString => true
  | String c ds => Ascii.eqb c ":" && str_forall (fun d => in_range 48 57 (byte_val d)) ds
  end.

Definition parseHost (host : string) : res string :=
  if Contains host "[" then bracketed host else
  let colonPort := match LastIndexByte host ":" with Some i => str_drop i host | None => EmptyString end in
  if negb (validOptionalPort colonPort)
  then Err (errorf ("invalid port " +:+ Quote colonPort +:+ " after host"))
  else host_unescape host.

Definition validUserinfo (s : string) : bool :=
  str_forall (fun c => is_unreserved c ||
    bool_decide (c ∈ [":"; "!"; "$"; "&"; "'"; "("; ")"; "*"; "+"; ","; ";"; "="; "%"; "@"]%char)) s.

Definition parseAuthority (authority : string) : res (option (string * option string) * string) :=
  match LastIndexByte authority "@" with
  | None => let? host := parseHost authority in Ok (None, host)
  | Some i =>
      let? host := parseHost (str_drop (S i) authority) in
      let userinfo := str_take i authority in
      if negb (validUserinfo userinfo) then Err (errorf "net/url: invalid userinfo") else
      match Cut userinfo ":" with
      | None => let? username := unescape userinfo in Ok (Some (username, None), host)
      | Some (username, password) =>
          let? username := unescape username in
          let? password := unescape password in
          Ok (Some (username, Some password), host)
      end
  end.

Definition is_alpha (c : ascii) : bool := is_upper (byte_val c) || is_lower (byte_val c).
Definition scheme_rest (c : ascii) : bool :=
  in_range 48 57 (byte_val c) || bool_decide (c ∈ ["+"; "-"; "."]%char).

(** [getScheme]: the scheme and what follows its colon, or no scheme and the
    whole text. *)
Fixpoint scheme_span (s : string) : string * string :=
  match s with
  | EmptyString => (EmptyString, EmptyString)
  | String c s' =>
      if is_alpha c || scheme_rest c then let '(a, b) := scheme_span s' in (String c a, b)
      else (EmptyString, s)
  end.
Definition getScheme (s : string) : res (string * string) :=
  match scheme_span s with
  | (EmptyString, String ":" _) => Err (errorf "missing protocol scheme")
  | (String c _ as scheme, String ":" rest) => Ok (if is_alpha c then (scheme, rest) else (EmptyString, s))
  | _ => Ok (EmptyString, s)
  end.

Definition has_ctl (s : string) : bool :=
  negb (str_forall (fun c => (32 <=? byte_val c) && negb (byte_val c =? 127)) s).

(** A path, and the encoding to remember when it is not the default one. *)
Definition setPath (p : string) : res (string * string) :=
  let? path := unescape p in
  Ok (path, if String.eqb p (escapePath path) then EmptyString else p).

Definition Count (s : string) (c : ascii) : nat := List.length (filter (eq c) (str_bytes s)).

(** [parse(rawURL, false)] *)
Definition parse (rawURL : string) : res URL :=
  if has_ctl rawURL then Err (errorf "net/url: invalid control character in URL") else
  if String.eqb rawURL "*"
  then Ok (MkURL EmptyString EmptyString None EmptyString "*" EmptyString false false EmptyString EmptyString EmptyString)
  else
  let? sr := getScheme rawURL in
  let scheme := ToLower sr.1 in
  let rest := sr.2 in
  let '(rest, force, query) :=
    if HasSuffix rest "?" && Nat.eqb (Count rest "?") 1
    then (TrimSuffix rest "?", true, EmptyString)
    else match Cut rest "?" with
         | Some (a, q) => (a, false, q)
         | None => (rest, false, EmptyString)
         end in
  if negb (HasPrefix rest "/") && negb (String.eqb scheme EmptyString)
  then Ok (MkURL scheme rest None EmptyString EmptyString EmptyString false force query EmptyString EmptyString)
  else
  let segment := match Cut rest "/" with Some (a, _) => a | None => rest end in
  if negb (HasPrefix rest "/") && Contains segment ":"
  then Err (errorf "first path segment in URL cannot contain colon") else
  let? auth :=
    (if (negb (String.eqb scheme EmptyString) || negb (HasPrefix rest "///")) && HasPrefix rest "//" then
       let authority := str_drop 2 rest in
       let '(authority, path) :=
         match IndexByte authority "/" with
         | Some i => (str_take i authority, str_drop i authority)
         | None => (authority, EmptyString)
         end in
       let? uh := parseAuthority authority in Ok (uh.1, uh.2, false, path)
     else Ok (None, EmptyString, negb (String.eqb scheme EmptyString) && HasPrefix rest "/", rest)) in
  let '(user, host, omit, path) := auth in
  let? pr := setPath path in
  Ok (MkURL scheme EmptyString user host pr.1 pr.2 omit force query EmptyString EmptyString).

Definition set_Fragment (frag raw : string) (u : URL) : URL :=
  MkURL (u_Scheme u) (u_Opaque u) (u_User u) (u_Host u) (u_Path u) (u_RawPath u) (u_OmitHost u)
    (u_ForceQuery u) (u_RawQuery u) frag raw.

Definition parse_error (url : string) (e : error) : error := errorw ("parse " +:+ Quote url) e.

Definition url_Parse (rawURL : string) : res URL :=
  let '(u, frag) := match Cut rawURL "#" with Some x => x | None => (rawURL, EmptyString) end in
  match parse u with
  | Err e => Err (parse_error u e)
  | Ok url =>
      if String.eqb frag EmptyString then Ok url else
      match unescape frag with
      | Err e => Err (parse_error rawURL e)
      | Ok f => Ok (set_Fragment f (if String.eqb frag (escape fragment_plain f) then EmptyString else frag) url)
      end
  end.
End Parse.

(** ** The URLs of HTTP endpoints *)

(** A host name with a port, or without. *)
Definition name_char (c : ascii) : bool :=
  is_unreserved c ||
  bool_decide (c ∈ ["!"; "$"; "&"; "'"; "("; ")"; "*"; "+"; ","; ";"; "="; ":"]%char).

Record endpoint (u : URL) : Prop := {
  ep_scheme : u_Scheme u = "http" \/ u_Scheme u = "https";
  ep_opaque : u_Opaque u = EmptyString;
  ep_user : u_User u = None;
  ep_host : u_Host u <> EmptyString /\ str_forall name_char (u_Host u) = true;
  ep_port : forall i, LastIndexByte (u_Host u) ":" = Some i -> validOptionalPort (str_drop i (u_Host u)) = true;
  ep_path : u_Path u = EmptyString /\ u_RawPath u = EmptyString \/ HasPrefix (u_Path u) "/" = true;
  ep_raw : u_RawPath u = EmptyString \/
    (HasPrefix (u_RawPath u) "/" = true /\ EscapedPath (u_Path u) (u_RawPath u) = u_RawPath u /\
     u_RawPath u <> escapePath (u_Path u));
  ep_omit : u_OmitHost u = false;
  ep_query : str_forall (fun c => (32 <=? byte_val c) && negb (byte_val c =? 127) && negb (Ascii.eqb c "#"))
               (u_RawQuery u) = true;
  ep_force : u_ForceQuery u = true -> u_RawQuery u = EmptyString;
  ep_fragment : u_Fragment u = EmptyString /\ u_RawFragment u = EmptyString
}.

Definition url_byte (c : ascii) : bool :=
  (32 <=? byte_val c) && negb (byte_val c =? 127) && negb (Ascii.eqb c "#") && negb (Ascii.eqb c "?").

Lemma escape_plain plain s : str_forall plain s = true -> escape plain s = s.
Proof.
  induction s as [|c s IH]; [done|]. intros [Hc Hs]%andb_true_iff. cbn [escape]. rewrite Hc.
  cbn [append str1]. f_equal. by apply IH.
Qed.

Lemma host_unescape_plain {U : Unicode} s : str_forall name_char s = true -> host_unescape s = Ok s.
Proof.
  induction s as [|c s IH]; [done|]. intros [Hc Hs]%andb_true_iff. cbn [host_unescape]. rewrite (IH Hs).
  by destruct c as [[] [] [] [] [] [] [] []]; vm_compute in Hc; try discriminate Hc.
Qed.

Lemma escapePath_bytes s : str_forall url_byte (escapePath s) = true.
Proof.
  induction s as [|c s IH]; [done|]. cbn [escapePath]. rewrite str_forall_app, IH, andb_true_r.
  by destruct c as [[] [] [] [] [] [] [] []].
Qed.

Lemma EscapedPath_bytes p raw : str_forall url_byte (EscapedPath p raw) = true.
Proof.
  unfold EscapedPath. destruct (negb _ && _ && _) eqn:E.
  - apply andb_true_iff in E as [[_ E]%andb_true_iff _]. revert E. apply str_forall_weaken. intros c.
    destruct c as [[] [] [] [] [] [] [] []]; vm_compute; (reflexivity || discriminate).
  - destruct (String.eqb p "*"); [reflexivity|apply escapePath_bytes].
Qed.

Lemma escapePath_rooted s : HasPrefix s "/" = true -> HasPrefix (escapePath s) "/" = true.
Proof.
  intros (t & ->)%HasPrefix_spec. cbn [append escapePath].
  by apply HasPrefix_spec; exists (escapePath t).
Qed.

Lemma EscapedPath_rooted p raw :
  HasPrefix p "/" = true -> raw = EmptyString \/ HasPrefix raw "/" = true -> HasPrefix (EscapedPath p raw) "/" = true.
Proof.
  intros Hp Hr. unfold EscapedPath. destruct (String.eqb_spec raw EmptyString) as [->|Hne]; cbn [negb andb].
  - destruct (String.eqb_spec p "*") as [->|_]; [done|by apply escapePath_rooted].
  - destruct Hr as [|Hr]; [done|]. destruct (_ && _); [done|].
    destruct (String.eqb_spec p "*") as [->|_]; [done|by apply escapePath_rooted].
Qed.

(** What is written for the path is read as the path. *)
Lemma setPath_EscapedPath {U : Unicode} u :
  endpoint u -> setPath (EscapedPath (u_Path u) (u_RawPath u)) = Ok (u_Path u, u_RawPath u).
Proof.
  intros Hu. unfold setPath, unescape. rewrite EscapedPath_unescape. f_equal. f_equal.
  destruct (ep_raw _ Hu) as [Hr|(Hr & -> & Hne)].
  - rewrite Hr. unfold EscapedPath. cbn [String.eqb negb andb].
    destruct (ep_path _ Hu) as [[-> _]|Hp]; [done|].
    destruct (String.eqb_spec (u_Path u) "*") as [Hs|_]; [by rewrite Hs in Hp|]. by rewrite String.eqb_refl.
  - by rewrite (proj2 (String.eqb_neq _ _) Hne).
Qed.

(** The authority is read as the host. *)
Lemma parseAuthority_host {U : Unicode} bracketed u :
  endpoint u -> parseAuthority bracketed (u_Host u) = Ok (None, u_Host u).
Proof.
  intros Hu. destruct (ep_host _ Hu) as [_ Hh].
  assert (Hno : forall c, name_char c = false -> c ∉ str_bytes (u_Host u))
    by (intros c Hc; by eapply str_forall_not_elem).
  unfold parseAuthority. rewrite LastIndexByte_None by by apply Hno. unfold parseHost.
  change "[" with (str1 "["). rewrite Contains_byte_false by by apply Hno.
  rewrite host_unescape_plain by done.
  destruct (LastIndexByte (u_Host u) ":") as [i|] eqn:Hi; [|done]. by rewrite (ep_port _ Hu i Hi).
Qed.

Definition query_text (u : URL) : string :=
  if u_ForceQuery u || negb (String.eqb (u_RawQuery u) EmptyString) then "?" +:+ u_RawQuery u else EmptyString.

Lemma url_String_endpoint u :
  endpoint u ->
  url_String u = u_Scheme u +:+ "://" +:+ u_Host u +:+ EscapedPath (u_Path u) (u_RawPath u) +:+ query_text u.
Proof.
  intros Hu. destruct (ep_host _ Hu) as [Hne Hh]. destruct (ep_fragment _ Hu) as [Hf _].
  assert (Hs : String.eqb (u_Scheme u) EmptyString = false) by (by destruct (ep_scheme _ Hu) as [->| ->]).
  unfold url_String, origin_String. rewrite (ep_opaque _ Hu), Hs, (ep_user _ Hu), (ep_omit _ Hu), Hf.
  rewrite (proj2 (String.eqb_neq _ _) Hne). cbn [String.eqb negb orb andb].
  rewrite (escape_plain host_plain (u_Host u)).
  2: { revert Hh. apply str_forall_weaken. intros c.
       destruct c as [[] [] [] [] [] [] [] []]; vm_compute; (reflexivity || discriminate). }
  fold (query_text u).
  assert (Hp : negb (String.eqb (EscapedPath (u_Path u) (u_RawPath u)) EmptyString) &&
               negb (HasPrefix (EscapedPath (u_Path u) (u_RawPath u)) "/") && true = false).
  { destruct (ep_path _ Hu) as [[-> ->]|Hp]; [done|].
    rewrite EscapedPath_rooted; [by rewrite andb_false_r|done|].
    destruct (ep_raw _ Hu) as [|[? _]]; auto. }
  rewrite Hp.
  assert (Ho : forall x, String.eqb ((u_Scheme u +:+ ":") +:+ x) EmptyString = false)
    by (intros x; by destruct (ep_scheme _ Hu) as [->| ->]).
  rewrite Ho. cbn [andb append]. rewrite str_app_nil_r. by rewrite !str_app_assoc.
Qed.

(** The query is found again, whatever question marks it has. *)
Lemma split_query u rest :
  endpoint u -> "?"%char ∉ str_bytes rest ->
  (if HasSuffix (rest +:+ query_text u) "?" && Nat.eqb (Count (rest +:+ query_text u) "?") 1
   then (TrimSuffix (rest +:+ query_text u) "?", true, EmptyString)
   else match Cut (rest +:+ query_text u) "?" with
        | Some (a, q) => (a, false, q)
        | None => (rest +:+ query_text u, false, EmptyString)
        end) = (rest, u_ForceQuery u, u_RawQuery u).
Proof.
  intros Hu Hr. unfold query_text.
  assert (Hc0 : Count rest "?" = 0%nat).
  { unfold Count. apply length_zero_iff_nil. apply elem_of_nil_inv. intros c [<- Hc]%list_elem_of_filter. done. }
  assert (Hc : forall q, Count (rest +:+ "?" +:+ q) "?" = S (Count q "?")).
  { intros q. unfold Count in *. rewrite !str_bytes_app, !filter_app, !length_app, Hc0. cbn [str_bytes].
    by rewrite filter_cons_True. }
  change "?" with (str1 "?") in *. destruct (u_ForceQuery u) eqn:Hfq; cbn [orb].
  - rewrite (ep_force _ Hu Hfq), Hc. rewrite str_app_nil_r.
    rewrite (proj2 (HasSuffix_spec _ _)) by by exists rest. by rewrite TrimSuffix_app.
  - destruct (String.eqb_spec (u_RawQuery u) EmptyString) as [Hq|Hq]; cbn [negb].
    + rewrite str_app_nil_r, Hq. replace (Nat.eqb (Count rest "?") 1) with false by by rewrite Hc0.
      by rewrite andb_false_r, Cut_byte_None.
    + rewrite Hc. destruct (_ && _) eqn:E.
      * apply andb_true_iff in E as [E1 E2]. apply Nat.eqb_eq in E2. injection E2 as E2.
        apply HasSuffix_spec in E1 as (t & Ht). exfalso.
        apply Hq, str_bytes_inj. destruct (str_bytes (u_RawQuery u)) as [|c l _] eqn:Hb using rev_ind; [done|].
        apply (f_equal str_bytes) in Ht. rewrite !str_bytes_app, Hb, !app_assoc in Ht.
        apply app_inj_tail in Ht as [_ ->]. unfold Count in E2. rewrite Hb, filter_app, length_app in E2.
        rewrite filter_cons_True in E2 by done. cbn in E2. lia.
      * change (str1 "?" +:+ u_RawQuery u) with (String "?" (u_RawQuery u)). by rewrite Cut_byte_first.
Qed.

Lemma endpoint_bytes u :
  endpoint u ->
  str_forall (fun c => (32 <=? byte_val c) && negb (byte_val c =? 127) && negb (Ascii.eqb c "#")) (url_String u) = true.
Proof.
  intros Hu. rewrite url_String_endpoint by done. rewrite !str_forall_app. rewrite !andb_true_iff. split; [|split; [|split; [|split]]].
  - by destruct (ep_scheme _ Hu) as [->| ->].
  - reflexivity.
  - destruct (ep_host _ Hu) as [_ Hh]. revert Hh. apply str_forall_weaken. intros c.
    destruct c as [[] [] [] [] [] [] [] []]; vm_compute; (reflexivity || discriminate).
  - generalize (EscapedPath_bytes (u_Path u) (u_RawPath u)). apply str_forall_weaken. intros c.
    destruct c as [[] [] [] [] [] [] [] []]; vm_compute; (reflexivity || discriminate).
  - unfold query_text. destruct (_ || _); [|done]. rewrite str_forall_app. by rewrite (ep_query _ Hu).
Qed.

Lemma scheme_found {U : Unicode} u x :
  endpoint u -> getScheme (u_Scheme u +:+ "://" +:+ x) = Ok (u_Scheme u, "//" +:+ x) /\ ToLower (u_Scheme u) = u_Scheme u.
Proof. intros Hu. by destruct (ep_scheme _ Hu) as [->| ->]. Qed.

(** Where the path of an endpoint starts. *)
Lemma authority_split u :
  endpoint u ->
  match IndexByte (u_Host u +:+ EscapedPath (u_Path u) (u_RawPath u)) "/" with
  | Some i => (str_take i (u_Host u +:+ EscapedPath (u_Path u) (u_RawPath u)),
               str_drop i (u_Host u +:+ EscapedPath (u_Path u) (u_RawPath u)))
  | None => (u_Host u +:+ EscapedPath (u_Path u) (u_RawPath u), EmptyString)
  end = (u_Host u, EscapedPath (u_Path u) (u_RawPath u)).
Proof.
  intros Hu. destruct (ep_host _ Hu) as [_ Hh].
  assert (Hno : "/"%char ∉ str_bytes (u_Host u)) by by eapply str_forall_not_elem.
  destruct (ep_path _ Hu) as [[-> ->]|Hp].
  - change (EscapedPath EmptyString EmptyString) with EmptyString. rewrite str_app_nil_r.
    by rewrite (proj2 (IndexByte_None _ _) Hno).
  - pose proof (EscapedPath_rooted (u_Path u) (u_RawPath u) Hp ltac:(destruct (ep_raw _ Hu) as [|[? _]]; auto)) as Hr.
    apply HasPrefix_spec in Hr as (t & ->). change ("/" +:+ t) with (String "/" t).
    rewrite IndexByte_first by done. by rewrite str_take_app, str_drop_app.
Qed.

(** Printing the URL of an endpoint and parsing the text gives it back. *)
Theorem url_Parse_String {U : Unicode} bracketed u :
  endpoint u -> url_Parse bracketed (url_String u) = Ok u.
Proof.
  intros Hu. pose proof (endpoint_bytes u Hu) as Hb. unfold url_Parse.
  change "#" with (str1 "#"). rewrite Cut_byte_None.
  2: { eapply str_forall_not_elem; [exact Hb|reflexivity]. }
  assert (parse bracketed (url_String u) = Ok u) as ->; [|done].
  unfold parse. replace (has_ctl (url_String u)) with false.
  2: { symmetry. unfold has_ctl. apply negb_false_iff. revert Hb. apply str_forall_weaken. intros c Hc.
       by apply andb_true_iff in Hc as [Hc _]. }
  rewrite url_String_endpoint by done.
  assert (String.eqb (u_Scheme u +:+ "://" +:+ u_Host u +:+ EscapedPath (u_Path u) (u_RawPath u) +:+ query_text u) "*" = false)
    as -> by by destruct (ep_scheme _ Hu) as [->| ->].
  destruct (scheme_found u (u_Host u +:+ EscapedPath (u_Path u) (u_RawPath u) +:+ query_text u) Hu) as [-> Hlow].
  cbn [fst snd]. rewrite Hlow. rewrite <- (str_app_assoc (u_Host u)), <- str_app_assoc.
  rewrite split_query; [|done|].
  2: { rewrite !str_bytes_app, !elem_of_app. intros [H|[H|H]]; [by apply list_elem_of_In in H as [?|[?|[]]]|..].
       - revert H. by eapply str_forall_not_elem; [exact (proj2 (ep_host _ Hu))|].
       - revert H. by eapply str_forall_not_elem; [apply EscapedPath_bytes|]. }
  assert (Hs : String.eqb (u_Scheme u) EmptyString = false) by by destruct (ep_scheme _ Hu) as [->| ->].
  rewrite Hs. cbn [append HasPrefix Ascii.eqb Bool.eqb andb negb orb]. cbn [str_drop].
  rewrite authority_split by done. rewrite parseAuthority_host by done. cbn [fst snd].
  rewrite setPath_EscapedPath by done. cbn [fst snd]. f_equal.
  destruct (ep_fragment _ Hu) as [Hf1 Hf2].
  pose proof (ep_opaque _ Hu) as Ho. pose proof (ep_user _ Hu) as Hus. pose proof (ep_omit _ Hu) as Hom.
  destruct u. cbn in *. by subst.
Qed.
