(* ===== verification/Rar.v ===== *)
(** * Rich authorization requests: [pkg/core/rar/types.go]

    The [authorization_details] elements of a token (RFC 9396), the policy-side
    filters, and the matching of filters against details.  [Fields] maps a
    member name to its raw JSON text, as [json.RawMessage] does; [None] is a
    nil map. *)

From S2P Require Import Prelude GoString Encoding Json.

Record AuthorizationDetail := MkDetail {
  ad_Type : string;
  ad_Fields : option (gmap string string)
}.

Record AuthorizationDetailFilter := MkFilter {
  af_Type : string;
  af_Actions : list string;
  af_Fields : gmap string string
}.

#[export] Instance AuthorizationDetail_eq_dec : EqDecision AuthorizationDetail.
Proof. solve_decision. Defined.

(** The texts of [encoding/json]'s own errors are not modelled. *)
Definition json_error : error := errorf "json".

Definition containsString (slice : list string) (s : string) : bool :=
  existsb (fun v => String.eqb v s) slice.

Definition field_raw (a : AuthorizationDetail) (field : string) : option string :=
  m ← ad_Fields a; m !! field.

(** [GetStringSlice]: nil (here []) when absent or not a string array. *)
Definition GetStringSlice (a : AuthorizationDetail) (field : string) : list string :=
  match field_raw a field with
  | None => []
  | Some raw => default [] (j ← json_Unmarshal raw; dec_strings [] j)
  end.

(** [GetString]: [None] when absent or not a string. *)
Definition GetString (a : AuthorizationDetail) (field : string) : option string :=
  raw ← field_raw a field;
  j ← json_Unmarshal raw;
  dec_string EmptyString j.

(** The members of an object as a map of raw values; a later duplicate wins. *)
Definition raw_map (l : list (string * (string * json))) : gmap string string :=
  foldl (fun m kv => <[kv.1 := kv.2.1]> m) ∅ l.

(** [UnmarshalJSON] into a zero [AuthorizationDetail]. *)
Definition UnmarshalJSON (data : string) : res AuthorizationDetail :=
  let? raw :=
    match json_Unmarshal data with
    | Some (JObj l) => Ok (Some (raw_map l))
    | Some JNull => Ok None
    | _ => Err (errorw "authorization_detail must be a JSON object" json_error)
    end in
  match raw ≫= (fun m : gmap string string => m !! "type") with
  | None =>
      Err (errorf ("authorization_detail missing required field " +:+
                   str1 dquote +:+ "type" +:+ str1 dquote))
  | Some t =>
      match j ← json_Unmarshal t; dec_string EmptyString j with
      | Some ty => Ok (MkDetail ty raw)
      | None =>
          Err (errorw ("authorization_detail " +:+ str1 dquote +:+ "type" +:+
                       str1 dquote +:+ " must be a string") json_error)
      end
  end.

(** [MarshalJSON]: the [Fields] it serializes, with ["type"] overwritten; when
    the map is not nil the caller's map is the one modified. *)
Definition MarshalJSON_fields (a : AuthorizationDetail) : gmap string string :=
  <["type" := json_quote (ad_Type a)]> (default ∅ (ad_Fields a)).

(** ** Matching *)

Definition Satisfies (f : AuthorizationDetailFilter) (detail : AuthorizationDetail) : bool :=
  if negb (String.eqb (ad_Type detail) (af_Type f)) then false else
  if negb (bool_decide (af_Actions f = [])) &&
     negb (forallb (containsString (GetStringSlice detail "actions")) (af_Actions f))
  then false else
  forallb (fun kv =>
    match GetString detail kv.1 with
    | Some got => String.eqb got kv.2
    | None => false
    end) (map_to_list (af_Fields f)).

Section WithUnicode.
Context {U : Unicode}.

(** [MatchAll(filters, details)]: (ok, missing). *)
Fixpoint MatchAll (filters : list AuthorizationDetailFilter)
    (details : list AuthorizationDetail) : bool * string :=
  match filters with
  | [] => (true, EmptyString)
  | f :: filters' =>
      if existsb (Satisfies f) details then MatchAll filters' details
      else (false, "no authorization_detail satisfies type=" +:+ Quote (af_Type f))
  end.
End WithUnicode.

(** ** What a filter demands (the doc comment of AuthorizationDetailFilter) *)

Definition filter_holds (f : AuthorizationDetailFilter) (d : AuthorizationDetail) : Prop :=
  ad_Type d = af_Type f /\
  (forall a, a ∈ af_Actions f -> a ∈ GetStringSlice d "actions") /\
  (forall k v, af_Fields f !! k = Some v -> GetString d k = Some v).

Lemma containsString_spec l s : containsString l s = true <-> s ∈ l.
Proof. apply existsb_eqb_elem. Qed.

Lemma forallb_containsString l k :
  forallb (containsString k) l = true <-> forall a, a ∈ l -> a ∈ k.
Proof.
  rewrite forallb_forall. setoid_rewrite containsString_spec.
  by setoid_rewrite list_elem_of_In.
Qed.

Lemma map_to_list_forallb {V} (m : gmap string V) (p : string * V -> bool) :
  forallb p (map_to_list m) = true <-> forall k v, m !! k = Some v -> p (k, v) = true.
Proof.
  rewrite forallb_forall. split.
  - intros H k v Hkv. apply H, list_elem_of_In, elem_of_map_to_list, Hkv.
  - intros H [k v] Hin. apply H, elem_of_map_to_list, list_elem_of_In, Hin.
Qed.

Lemma Satisfies_spec f d : Satisfies f d = true <-> filter_holds f d.
Proof.
  unfold Satisfies, filter_holds.
  destruct (String.eqb_spec (ad_Type d) (af_Type f)) as [Ht|Ht]; simpl; [|split; [done|by intros [? _]]].
  destruct (negb (bool_decide _) && negb _) eqn:Ha.
  - b2p. split; [done|]. intros (_ & Hact & _). exfalso.
    apply forallb_containsString in Hact. congruence.
  - assert (forall a, a ∈ af_Actions f -> a ∈ GetStringSlice d "actions").
    { apply andb_false_iff in Ha as [Ha|Ha]; b2p.
      - rewrite Ha. set_solver.
      - by apply forallb_containsString. }
    rewrite map_to_list_forallb. split.
    + intros Hf. repeat split; [done..|]. intros k v Hkv. specialize (Hf k v Hkv).
      simpl in Hf. destruct (GetString d k); [|done]. b2p. by subst.
    + intros (_ & _ & Hf) k v Hkv. simpl. rewrite (Hf k v Hkv). apply String.eqb_refl.
Qed.

Section Theorems.
Context {U : Unicode}.

Lemma MatchAll_first_missing filters details :
  match List.find (fun f => negb (existsb (Satisfies f) details)) filters with
  | None => MatchAll filters details = (true, EmptyString)
  | Some f => MatchAll filters details =
      (false, "no authorization_detail satisfies type=" +:+ Quote (af_Type f))
  end.
Proof.
  induction filters as [|f fs IH]; simpl; [done|].
  by destruct (existsb (Satisfies f) details).
Qed.

Lemma existsb_Satisfies f details :
  existsb (Satisfies f) details = true <-> exists d, d ∈ details /\ filter_holds f d.
Proof.
  rewrite existsb_exists. setoid_rewrite Satisfies_spec.
  by setoid_rewrite list_elem_of_In.
Qed.

Lemma MatchAll_ok filters details :
  fst (MatchAll filters details) = true <->
  forall f, f ∈ filters -> exists d, d ∈ details /\ filter_holds f d.
Proof.
  induction filters as [|f fs IH]; simpl; [set_solver|].
  destruct (existsb (Satisfies f) details) eqn:He; simpl.
  - apply existsb_Satisfies in He. rewrite IH. split.
    + intros H g Hg. apply elem_of_cons in Hg as [->|Hg]; auto.
    + intros H g Hg. apply H. set_solver.
  - split; [done|]. intros H. exfalso.
    apply not_true_iff_false in He. apply He, existsb_Satisfies, H. set_solver.
Qed.
End Theorems.

(** [MatchAll] decides that every filter is held by some detail of the
    token.  It answers true with an empty description exactly then; otherwise
    it names the type of the first filter that no detail satisfies. *)
Theorem MatchAll_decides {U : Unicode} filters details :
  let unmet f := forall d, d ∈ details -> ~ filter_holds f d in
  (MatchAll filters details = (true, EmptyString) /\
   forall f, f ∈ filters -> exists d, d ∈ details /\ filter_holds f d) \/
  (exists before f after,
     filters = (before ++ f :: after)%list /\ unmet f /\
     Forall (fun g => exists d, d ∈ details /\ filter_holds g d) before /\
     MatchAll filters details =
       (false, "no authorization_detail satisfies type=" +:+ Quote (af_Type f))).
Proof.
  intros unmet. induction filters as [|f fs IH]; simpl; [left; split; [done|set_solver]|].
  destruct (existsb (Satisfies f) details) eqn:He.
  - apply existsb_Satisfies in He. destruct IH as [[-> IH]|(b & g & a & -> & Hu & Hb & ->)].
    + left. split; [done|]. intros g [->|Hg]%elem_of_cons; auto.
    + right. exists (f :: b), g, a. auto.
  - right. exists [], f, fs. split; [done|]. split; [|done].
    intros d Hd Hf. assert (existsb (Satisfies f) details = true); [|congruence].
    apply existsb_Satisfies. eauto.
Qed.
