(* ===== verification/Matcher.v ===== *)
(** * Resource, method and ACR matching: [pkg/core/policy/matcher.go]

    [path.Match] with its chunk-by-chunk greedy search, and the three matchers
    of the policy engine built on it. *)

From S2P Require Import Prelude GoString Encoding Rar.

(** ** Package [path]: [Match]

    [None] is [ErrBadPattern]. *)

Definition slash : ascii := "/".

(** The chunk up to the next ['*'] outside a character class. *)
Fixpoint scan_body (s : string) (inrange : bool) : string * string :=
  match s with
  | EmptyString => (EmptyString, EmptyString)
  | String c s' =>
      if Ascii.eqb c backslash then
        match s' with
        | EmptyString => (s, EmptyString)
        | String d s'' =>
            let '(chunk, rest) := scan_body s'' inrange in (String c (String d chunk), rest)
        end
      else if Ascii.eqb c "*" && negb inrange then (EmptyString, s)
      else
        let inrange' :=
          if Ascii.eqb c "[" then true else if Ascii.eqb c "]" then false else inrange in
        let '(chunk, rest) := scan_body s' inrange' in (String c chunk, rest)
  end.

Definition scanChunk (pattern : string) : bool * string * string :=
  let p := trim_left (Ascii.eqb "*") pattern in
  (HasPrefix pattern "*", fst (scan_body p false), snd (scan_body p false)).

(** A character of a class, possibly escaped, and the rest of the chunk. *)
Definition getEsc (chunk : string) : option (Z * string) :=
  match chunk with
  | EmptyString => None
  | String c r =>
      if Ascii.eqb c "-" || Ascii.eqb c "]" then None else
      let body := if Ascii.eqb c backslash then r else chunk in
      match body with
      | EmptyString => None
      | _ =>
          let '(r, n) := decode_rune body in
          if (r =? RuneError) && Nat.eqb n 1 then None else
          let nchunk := str_drop n body in
          if String.eqb nchunk EmptyString then None else Some (r, nchunk)
      end
  end.

(** The ranges of a class after ['['] and ['^']: does one contain [r]? *)
Fixpoint class_ranges (fuel : nat) (chunk : string) (r : Z) (nrange : nat) (found : bool)
    : option (bool * string) :=
  match fuel with
  | O => None
  | S f =>
      if HasPrefix chunk "]" && Nat.ltb 0 nrange then Some (found, str_drop 1 chunk) else
      '(lo, chunk1) ← getEsc chunk;
      '(hi, chunk2) ← (if HasPrefix chunk1 "-" then getEsc (str_drop 1 chunk1)
                       else Some (lo, chunk1));
      class_ranges f chunk2 r (S nrange) (found || (lo <=? r) && (r <=? hi))
  end.

(** [matchChunk(chunk, s)]: [Some (Some t)] when the chunk matches a prefix of
    [s] and [t] remains; [failed] keeps parsing the chunk for errors. *)
Fixpoint match_chunk (fuel : nat) (failed : bool) (chunk s : string) : option (option string) :=
  match fuel with
  | O => None
  | S f =>
      match chunk with
      | EmptyString => Some (if failed then None else Some s)
      | String c chunk' =>
          let failed := failed || String.eqb s EmptyString in
          let literal d rest :=
            match s with
            | String x s' =>
                if failed then match_chunk f true rest s
                else match_chunk f (negb (Ascii.eqb d x)) rest s'
            | EmptyString => match_chunk f true rest s
            end in
          if Ascii.eqb c "[" then
            let '(r, n) := if failed then (0, O) else decode_rune s in
            let negated := HasPrefix chunk' "^" in
            let body := if negated then str_drop 1 chunk' else chunk' in
            '(found, rest) ← class_ranges (S (String.length body)) body r 0 false;
            match_chunk f (failed || Bool.eqb found negated) rest (str_drop n s)
          else if Ascii.eqb c "?" then
            if failed then match_chunk f true chunk' s
            else match_chunk f (HasPrefix s "/") chunk' (str_drop (snd (decode_rune s)) s)
          else if Ascii.eqb c backslash then
            match chunk' with
            | EmptyString => None
            | String d rest => literal d rest
            end
          else literal c chunk'
      end
  end.

Definition matchChunk (chunk s : string) : option (option string) :=
  match_chunk (S (String.length chunk)) false chunk s.

(** The search after a ['*']: skip one more byte each time, never a slash. *)
Fixpoint skip_match (chunk : string) (last : bool) (name : string) : option (option string) :=
  match name with
  | EmptyString => Some None
  | String c name' =>
      if Ascii.eqb c slash then Some None else
      match matchChunk chunk name' with
      | None => None
      | Some (Some t) =>
          if last && negb (String.eqb t EmptyString)
          then skip_match chunk last name' else Some (Some t)
      | Some None => skip_match chunk last name'
      end
  end.

(** The rest of a pattern that does not match is still checked for syntax. *)
Fixpoint check_rest (fuel : nat) (pattern : string) : option bool :=
  match fuel, pattern with
  | S f, String _ _ =>
      let '(_, chunk, rest) := scanChunk pattern in
      _ ← matchChunk chunk EmptyString; check_rest f rest
  | _, _ => Some false
  end.

Fixpoint match_loop (fuel : nat) (pattern name : string) : option bool :=
  match fuel, pattern with
  | S f, String _ _ =>
      let '(star, chunk, rest) := scanChunk pattern in
      if star && String.eqb chunk EmptyString
      then Some (bool_decide (IndexByte name slash = None)) else
      match matchChunk chunk name with
      | None => None
      | Some m =>
          let last := String.eqb rest EmptyString in
          match m with
          | Some t =>
              if String.eqb t EmptyString || negb last then match_loop f rest t
              else match (if star then skip_match chunk last name else Some None) with
                   | None => None
                   | Some (Some t) => match_loop f rest t
                   | Some None => check_rest f rest
                   end
          | None =>
              match (if star then skip_match chunk last name else Some None) with
              | None => None
              | Some (Some t) => match_loop f rest t
              | Some None => check_rest f rest
              end
          end
      end
  | _, _ => Some (String.eqb name EmptyString)
  end.

(** [path.Match(pattern, name)]; every iteration consumes pattern. *)
Definition path_Match (pattern name : string) : option bool :=
  match_loop (S (String.length pattern)) pattern name.

(** ** [MatchResource] *)

Definition MatchResource (pattern requestPath : string) : bool :=
  let pattern := TrimRight pattern slash in
  let requestPath := TrimRight requestPath slash in
  if String.eqb pattern EmptyString || String.eqb requestPath EmptyString
  then String.eqb pattern requestPath
  else if Contains pattern "**" then
    let prefix := default pattern (head (SplitN2 pattern "**")) in
    let prefix := TrimRight prefix slash in
    if String.eqb prefix EmptyString then true
    else String.eqb requestPath prefix || HasPrefix requestPath (prefix +:+ "/")
  else match path_Match pattern requestPath with
       | Some matched => matched
       | None => false
       end.

(** ** [MatchMethod] *)

Section WithUnicode.
Context {U : Unicode}.

Definition MatchMethod (policyMethods : list string) (requestMethod : string) : bool :=
  if bool_decide (policyMethods = []) then true
  else
    let rm := ToUpper requestMethod in
    existsb (fun m => String.eqb (ToUpper m) rm) policyMethods.
End WithUnicode.

(** ** [ACRSatisfies] *)

Fixpoint indexOf_from (i : Z) (slice : list string) (val : string) : Z :=
  match slice with
  | [] => -1
  | v :: slice' => if String.eqb v val then i else indexOf_from (i + 1) slice' val
  end.
Definition indexOf (slice : list string) (val : string) : Z := indexOf_from 0 slice val.

Definition ACRSatisfies (provided required : string) (hierarchy : list string) : bool :=
  if String.eqb provided required then true
  else if bool_decide (hierarchy = []) then false
  else
    let providedIdx := indexOf hierarchy provided in
    let requiredIdx := indexOf hierarchy required in
    if (providedIdx <? 0) || (requiredIdx <? 0) then String.eqb provided required
    else requiredIdx <=? providedIdx.

(** ** Reference semantics of globs made of literals and ['*']

    A pattern [c0 * c1 * ... * cn] matches the names that read as the chunks in
    order, separated by text without a slash. *)

Definition is_literal (c : ascii) : bool :=
  negb (bool_decide (c ∈ ["*"%char; "?"%char; "["%char; backslash])).
Definition literal (s : string) : Prop := str_forall is_literal s = true.
Definition no_slash (s : string) : Prop := slash ∉ str_bytes s.

Fixpoint star_text (cs : list string) : string :=
  match cs with [] => EmptyString | c :: cs' => "*" +:+ c +:+ star_text cs' end.
Definition glob_text (c0 : string) (cs : list string) : string := c0 +:+ star_text cs.

Fixpoint glob_tail (cs : list string) (name : string) : Prop :=
  match cs with
  | [] => name = EmptyString
  | c :: cs' => exists s t, name = s +:+ c +:+ t /\ no_slash s /\ glob_tail cs' t
  end.
Definition glob (c0 : string) (cs : list string) (name : string) : Prop :=
  exists t, name = c0 +:+ t /\ glob_tail cs t.

(** ** Counting slashes *)

Definition slashes (s : string) : nat := List.length (List.filter (Ascii.eqb slash) (str_bytes s)).

Lemma slashes_app s t : slashes (s +:+ t) = (slashes s + slashes t)%nat.
Proof. unfold slashes. by rewrite str_bytes_app, List.filter_app, length_app. Qed.

Lemma slashes_zero s : slashes s = O <-> no_slash s.
Proof.
  unfold slashes, no_slash. rewrite length_zero_iff_nil. induction (str_bytes s) as [|c l IH].
  - by split; [intros _ H; apply elem_of_nil in H|].
  - cbn [List.filter]. destruct (Ascii.eqb_spec slash c) as [<-|Hne].
    + split; [done|]. intros H. exfalso. apply H, elem_of_cons. by left.
    + rewrite IH, not_elem_of_cons. by split; [|intros [_ ?]].
Qed.

Lemma no_slash_cons c s : no_slash (String c s) <-> c <> slash /\ no_slash s.
Proof. unfold no_slash. simpl. set_solver. Qed.

Lemma no_slash_app s t : no_slash (s +:+ t) <-> no_slash s /\ no_slash t.
Proof. rewrite <- !slashes_zero, slashes_app. lia. Qed.

(** ** Chunks of literals *)

Lemma literal_cons c s : literal (String c s) <-> is_literal c = true /\ literal s.
Proof. unfold literal, str_forall. simpl. by rewrite andb_true_iff. Qed.

Lemma is_literal_neq c :
  is_literal c = true ->
  Ascii.eqb c "*" = false /\ Ascii.eqb c "?" = false /\ Ascii.eqb c "[" = false /\
  Ascii.eqb c backslash = false.
Proof. unfold is_literal. intros H. b2p. rewrite !Ascii.eqb_neq. set_solver. Qed.

Lemma match_chunk_literal fuel failed chunk s :
  literal chunk -> (String.length chunk < fuel)%nat ->
  match_chunk fuel failed chunk s =
  Some (if negb failed && HasPrefix s chunk
        then Some (str_drop (String.length chunk) s) else None).
Proof.
  revert failed chunk s. induction fuel as [|f IH]; intros failed chunk s Hl Hf; [lia|].
  destruct chunk as [|c chunk]; [by destruct failed|].
  apply literal_cons in Hl as [Hc Hl]. apply is_literal_neq in Hc as (_ & Hq & Hb & Hs).
  simpl in Hf. cbn [match_chunk]. rewrite Hq, Hb, Hs.
  destruct s as [|x s]; simpl.
  - rewrite IH by (done || lia). by rewrite andb_false_r.
  - destruct failed; simpl; rewrite IH by (done || lia); simpl; [done|].
    rewrite negb_involutive. by destruct (Ascii.eqb c x).
Qed.

Lemma matchChunk_literal chunk s :
  literal chunk ->
  matchChunk chunk s =
  Some (if HasPrefix s chunk then Some (str_drop (String.length chunk) s) else None).
Proof. intros H. unfold matchChunk. by rewrite match_chunk_literal by (done || lia). Qed.

Lemma scan_body_literal chunk inrange cs :
  literal chunk -> inrange = false ->
  scan_body (chunk +:+ star_text cs) inrange = (chunk, star_text cs).
Proof.
  intros Hl ->. induction chunk as [|c chunk IH]; [by destruct cs|].
  apply literal_cons in Hl as [Hc Hl]. apply is_literal_neq in Hc as (Hst & _ & Hb & Hs).
  simpl. rewrite Hs, Hst, Hb. simpl.
  destruct (Ascii.eqb c "]"); by rewrite IH.
Qed.

Lemma trim_left_literal chunk cs :
  literal chunk -> (chunk = EmptyString -> cs = []) ->
  trim_left (Ascii.eqb "*") (chunk +:+ star_text cs) = chunk +:+ star_text cs.
Proof.
  intros Hl He. destruct chunk as [|c chunk]; [by rewrite He|].
  apply literal_cons in Hl as [Hc _]. apply is_literal_neq in Hc as (Hst & _).
  cbn [trim_left String.append]. by rewrite Ascii.eqb_sym, Hst.
Qed.

(** Every chunk but the last is non-empty: there is no ["**"]. *)
Fixpoint chunks_ok (cs : list string) : Prop :=
  match cs with
  | [] => True
  | c :: cs' => literal c /\ (c = EmptyString -> cs' = []) /\ chunks_ok cs'
  end.

Lemma scanChunk_star c cs :
  literal c -> (c = EmptyString -> cs = []) ->
  scanChunk ("*" +:+ c +:+ star_text cs) = (true, c, star_text cs).
Proof.
  intros Hl He. unfold scanChunk. simpl.
  rewrite trim_left_literal by done. by rewrite scan_body_literal.
Qed.

(** ** The leftmost search *)

Fixpoint leftmost (c : string) (last : bool) (name : string) : option string :=
  let t := str_drop (String.length c) name in
  if HasPrefix name c && (negb last || String.eqb t EmptyString) then Some t
  else match name with
       | EmptyString => None
       | String x name' => if Ascii.eqb x slash then None else leftmost c last name'
       end.

Lemma skip_match_leftmost c last name :
  literal c ->
  skip_match c last name =
  Some (match name with
        | EmptyString => None
        | String x name' => if Ascii.eqb x slash then None else leftmost c last name'
        end).
Proof.
  intros Hl. induction name as [|x name IH]; [done|].
  cbn [skip_match]. destruct (Ascii.eqb x slash); [done|].
  rewrite matchChunk_literal, IH by done.
  destruct name as [|y name]; cbn [leftmost]; destruct (HasPrefix _ c); simpl; try done;
    destruct last; simpl; try done; by destruct (String.eqb _ _).
Qed.

Lemma leftmost_sound c last name t :
  leftmost c last name = Some t ->
  exists s, name = s +:+ c +:+ t /\ no_slash s /\ (last = true -> t = EmptyString).
Proof.
  assert (Hhit : forall name, HasPrefix name c && (negb last ||
      String.eqb (str_drop (String.length c) name) EmptyString) = true ->
    exists s, name = s +:+ c +:+ str_drop (String.length c) name /\ no_slash s /\
      (last = true -> str_drop (String.length c) name = EmptyString)).
  { intros n H. b2p. exists EmptyString. split; [by apply HasPrefix_drop|].
    split; [unfold no_slash; set_solver|]. intros ->. simpl in *. by b2p. }
  revert t. induction name as [|x name IH]; intros t; cbn [leftmost];
    destruct (HasPrefix _ c && _) eqn:Hh; try done.
  - intros [= <-]. by apply Hhit.
  - intros [= <-]. by apply Hhit.
  - destruct (Ascii.eqb_spec x slash); [done|]. intros H.
    destruct (IH _ H) as (s & -> & Hs & Ht). exists (String x s).
    split; [done|]. by rewrite no_slash_cons.
Qed.

(** The search finds a match that leaves more text than any other, and the
    additional text has no slash: nothing is lost by committing to it. *)
Lemma leftmost_complete c last s t :
  no_slash s -> (last = true -> t = EmptyString) ->
  exists u, leftmost c last (s +:+ c +:+ t) = Some (u +:+ t) /\ no_slash u.
Proof.
  intros Hs Ht. induction s as [|x s IH].
  - exists EmptyString. split; [|unfold no_slash; set_solver]. simpl.
    assert (Hc : HasPrefix (c +:+ t) c &&
      (negb last || String.eqb (str_drop (String.length c) (c +:+ t)) EmptyString) = true).
    { rewrite HasPrefix_app, str_drop_app. destruct last; [by rewrite Ht|done]. }
    destruct (c +:+ t) eqn:E; cbn [leftmost]; rewrite Hc, <- E; by rewrite str_drop_app.
  - apply no_slash_cons in Hs as [Hx Hs]. destruct (IH Hs) as (u & Hu & Hn).
    rewrite str_app_cons. cbn [leftmost].
    destruct (HasPrefix _ c && _) eqn:Hh.
    + b2p. match goal with H : HasPrefix _ _ = true |- _ => apply HasPrefix_spec in H as [w Hw] end.
      rewrite Hw, str_drop_app. rewrite <- str_app_cons, <- str_app_assoc in Hw.
      destruct (str_app_eq_app _ _ _ _ Hw) as [(v & Hv & ->)|(v & Hv & ->)].
      * apply (f_equal String.length) in Hv. rewrite !str_length_app in Hv. simpl in Hv. lia.
      * exists v. split; [done|]. apply (f_equal slashes) in Hv.
        rewrite !slashes_app in Hv. apply slashes_zero.
        assert (slashes (String x s) = O) by (by apply slashes_zero, no_slash_cons). lia.
    + rewrite (proj2 (Ascii.eqb_neq _ _) Hx). eauto.
Qed.

(** ** The greedy loop decides the reference semantics *)

Lemma check_rest_false fuel cs :
  chunks_ok cs -> check_rest fuel (star_text cs) = Some false.
Proof.
  revert cs. induction fuel as [|f IH]; intros [|c cs] Hok; try done.
  destruct Hok as (Hl & He & Hok). cbn [check_rest star_text].
  rewrite scanChunk_star by done.
  change ("*" +:+ c +:+ star_text cs) with (String "*" (c +:+ star_text cs)).
  rewrite matchChunk_literal by done. simpl. by apply IH.
Qed.

Lemma star_text_nil cs : star_text cs = EmptyString <-> cs = [].
Proof. by destruct cs. Qed.

(** One iteration on a starred chunk is the leftmost search. *)
Lemma match_loop_star f c cs name :
  literal c -> c <> EmptyString -> chunks_ok cs ->
  match_loop (S f) (star_text (c :: cs)) name =
  match leftmost c (String.eqb (star_text cs) EmptyString) name with
  | Some t => match_loop f (star_text cs) t
  | None => Some false
  end.
Proof.
  intros Hl Hc Hok. cbn [match_loop star_text].
  change ("*" +:+ c +:+ star_text cs) with (String "*" (c +:+ star_text cs)) at 1.
  rewrite scanChunk_star by done. simpl.
  rewrite (proj2 (String.eqb_neq _ _) Hc), matchChunk_literal by done.
  rewrite skip_match_leftmost by done.
  rewrite check_rest_false by done.
  destruct name as [|x name]; cbn [leftmost];
    destruct (HasPrefix _ c); cbn [andb];
    destruct (String.eqb (star_text cs) EmptyString); cbn [negb orb];
    try destruct (String.eqb (str_drop _ _) EmptyString); cbn [negb orb]; try done;
    by destruct (Ascii.eqb x slash); try destruct (leftmost _ _ _).
Qed.

Lemma match_loop_glob f cs name :
  chunks_ok cs -> (List.length cs < f)%nat ->
  exists b, match_loop f (star_text cs) name = Some b /\ (b = true <-> glob_tail cs name).
Proof.
  revert f name. induction cs as [|c cs IH]; intros [|f] name Hok Hf; simpl in Hf; try lia.
  - eexists. split; [done|]. simpl. apply String.eqb_eq.
  - destruct Hok as (Hl & He & Hok). destruct (String.eqb_spec c EmptyString) as [->|Hc].
    + rewrite He by done. simpl. eexists. split; [done|].
      rewrite bool_decide_eq_true, IndexByte_None. split.
      * intros Hn. exists name, EmptyString. by rewrite str_app_nil_r.
      * intros (s & t & -> & Hs & ->). by rewrite str_app_nil_r.
    + rewrite match_loop_star by done.
      destruct (leftmost _ _ name) as [t|] eqn:Hlm.
      * destruct (IH f t Hok) as (b & Hb & Hiff); [lia|]. exists b. split; [done|].
        rewrite Hiff. cbn [glob_tail]. split.
        -- apply leftmost_sound in Hlm as (s & -> & Hs & _). eauto.
        -- intros (s & t' & -> & Hs & Hg).
           destruct (leftmost_complete c (String.eqb (star_text cs) EmptyString) s t')
             as (u & Hu & Hnu); [done|..].
           { intros Heq. b2p. apply star_text_nil in Heq as ->. done. }
           rewrite Hu in Hlm. injection Hlm as <-.
           destruct cs as [|c' cs]; simpl in *.
           ++ apply leftmost_sound in Hu as (? & _ & _ & Hlast). by apply Hlast.
           ++ destruct Hg as (s' & t & -> & Hs' & Hg). exists (u +:+ s'), t.
              rewrite !str_app_assoc. split; [done|]. by rewrite no_slash_app.
      * exists false. split; [done|]. split; [done|]. intros (s & t & -> & Hs & Hg).
        destruct (leftmost_complete c (String.eqb (star_text cs) EmptyString) s t)
          as (u & Hu & _); [done|..|congruence].
        intros Heq. b2p. apply star_text_nil in Heq as ->. done.
Qed.

(** ** [MatchResource] on the three documented pattern shapes *)

Lemma TrimRight_spec s c :
  exists t, s = TrimRight s c +:+ t /\ str_forall (Ascii.eqb c) t = true.
Proof. destruct (trim_right_spec (Ascii.eqb c) s) as (t & ? & ? & _). eauto. Qed.

Lemma chunks_ok_of_no_double_star c0 cs :
  Forall literal cs -> Contains (glob_text c0 cs) "**" = false -> chunks_ok cs.
Proof.
  unfold glob_text. revert c0. induction cs as [|c cs IH]; intros c0 Hl Hc; [done|].
  apply Forall_cons_1 in Hl as [Hl Hls]. simpl. split; [done|]. split.
  - intros ->. destruct cs as [|c' cs]; [done|]. exfalso.
    change (star_text ("" :: c' :: cs)) with ("**" +:+ c' +:+ star_text cs) in Hc.
    by rewrite Contains_app in Hc.
  - apply (IH (c0 +:+ "*" +:+ c)); [done|]. by rewrite !str_app_assoc.
Qed.

(** Patterns without ["**"]: the greedy matcher decides the glob semantics on
    the path without its trailing slashes. *)
Lemma path_Match_glob c0 cs name :
  literal c0 -> chunks_ok cs -> (c0 <> EmptyString \/ cs <> []) ->
  exists b, path_Match (glob_text c0 cs) name = Some b /\ (b = true <-> glob c0 cs name).
Proof.
  intros Hl Hok Hne. unfold path_Match, glob_text.
  assert (Hlen : (List.length cs <= String.length (star_text cs))%nat).
  { clear. induction cs as [|c cs IH]; simpl; [done|]. rewrite str_length_app. lia. }
  destruct c0 as [|x c0].
  - destruct (match_loop_glob (S (String.length (star_text cs))) cs name) as (b & Hb & Hiff);
      [done|lia|]. exists b. split; [done|]. rewrite Hiff. unfold glob. naive_solver.
  - set (p := String x c0) in *.
    assert (Hp : trim_left (Ascii.eqb "*") (p +:+ star_text cs) = p +:+ star_text cs)
      by (by apply trim_left_literal).
    assert (Hs : HasPrefix (p +:+ star_text cs) "*" = false).
    { apply literal_cons in Hl as [Hx _]. apply is_literal_neq in Hx as (Hx & _).
      cbn [p HasPrefix String.append]. rewrite Ascii.eqb_sym. by rewrite Hx. }
    assert (Hscan : scanChunk (p +:+ star_text cs) = (false, p, star_text cs)).
    { unfold scanChunk. rewrite Hp, Hs. by rewrite scan_body_literal. }
    rewrite str_length_app. cbn [match_loop].
    change (p +:+ star_text cs) with (String x (c0 +:+ star_text cs)) at 1.
    rewrite Hscan. cbn [andb]. rewrite matchChunk_literal by done.
    destruct (HasPrefix name p) eqn:Hpre.
    + apply HasPrefix_spec in Hpre as [t ->]. rewrite str_drop_app.
      destruct (match_loop_glob (String.length p + String.length (star_text cs)) cs t)
        as (b & Hb & Hiff); [done|simpl; lia|].
      assert (Hg : glob p cs (p +:+ t) <-> glob_tail cs t).
      { unfold glob. split; [intros (t' & H & ?); by apply str_app_inj_l in H as ->|eauto]. }
      destruct (String.eqb t EmptyString || _) eqn:Hc.
      * exists b. split; [done|]. by rewrite Hg, Hiff.
      * exists false. apply orb_false_iff in Hc as [Ht Hcs]. b2p.
        rewrite check_rest_false by done. split; [done|]. rewrite Hg.
        apply star_text_nil in Hcs as ->. done.
    + exists false. rewrite check_rest_false by done. split; [done|]. split; [done|].
      intros (t & -> & _). by rewrite HasPrefix_app in Hpre.
Qed.

(** C35: a pattern of literal text and single ['*'] wildcards (no ["**"], no
    trailing slash) matches a path exactly when the path, without its trailing
    slashes and not empty, reads as the pattern with every ['*'] replaced by
    text that has no slash: the chunk-by-chunk search that commits to the
    leftmost occurrence of each chunk loses no match. *)
Theorem MatchResource_glob c0 cs path :
  literal c0 -> Forall literal cs ->
  Contains (glob_text c0 cs) "**" = false ->
  TrimRight (glob_text c0 cs) slash = glob_text c0 cs ->
  glob_text c0 cs <> EmptyString ->
  MatchResource (glob_text c0 cs) path = true <->
  TrimRight path slash <> EmptyString /\ glob c0 cs (TrimRight path slash).
Proof.
  intros Hl Hls Hc Ht Hne. unfold MatchResource. rewrite Ht, Hc.
  rewrite (proj2 (String.eqb_neq _ _) Hne). cbn [orb].
  destruct (String.eqb_spec (TrimRight path slash) EmptyString) as [He|He].
  - rewrite He, String.eqb_eq. split; [done|by intros [? _]].
  - destruct (path_Match_glob c0 cs (TrimRight path slash)) as (b & Hb & Hiff); [done|..].
    + by eapply chunks_ok_of_no_double_star.
    + destruct c0; [|by left]. right. by intros ->.
    + rewrite Hb, Hiff. by split; [split|intros [_ ?]].
Qed.

Lemma MatchResource_glob_witness :
  MatchResource "/a*/b*c" "/axx/babcc/" = true.
Proof.
  apply (MatchResource_glob "/a" ["/b"; "c"] "/axx/babcc/").
  - done.
  - by repeat constructor.
  - done.
  - done.
  - done.
  - split; [done|]. exists "xx/babcc". split; [done|].
    exists "xx", "abcc". split; [done|]. split; [by apply slashes_zero|].
    exists "abc", "". split; [done|]. by split; [apply slashes_zero|].
Defined.

(** The first ["**"] of [p ++ "/**" ++ q]. *)
Lemma Cut_double_star p q :
  Contains p "**" = false -> Cut (p +:+ "/**" +:+ q) "**" = Some (p +:+ "/", q).
Proof.
  intros Hc. induction p as [|x p IH]; [done|]. rewrite str_app_cons. cbn [Cut].
  assert (Hp : Contains p "**" = false /\
    ~ (x = "*"%char /\ HasPrefix p "*" = true)).
  { split.
    - destruct (Contains p "**") eqn:E; [|done]. unfold Contains in E.
      destruct (Cut p "**") as [[a b]|] eqn:E'; [|done]. apply Cut_Some in E' as ->.
      by change (String x (a +:+ "**" +:+ b)) with (String x a +:+ "**" +:+ b) in Hc;
        rewrite Contains_app in Hc.
    - intros [-> H]. apply HasPrefix_spec in H as [t ->].
      change (String "*" ("*" +:+ t)) with ("" +:+ "**" +:+ t) in Hc.
      by rewrite Contains_app in Hc. }
  destruct Hp as [Hp Hx]. rewrite IH by done.
  destruct (HasPrefix _ "**") eqn:Hh; [|done]. exfalso. apply Hx.
  cbn [HasPrefix] in Hh. apply andb_true_iff in Hh as [Hh1 Hh2].
  apply Ascii.eqb_eq in Hh1 as <-. split; [done|].
  destruct p as [|y p]; [done|]. cbn [String.append HasPrefix] in *.
  apply andb_true_iff in Hh2 as [Hh2 _]. by rewrite Hh2.
Qed.

(** [p/**...] matches [p] itself and everything below [p/], at a path
    segment boundary, and nothing else: [/api/**] never matches [/apiv2].
    Whatever follows the ["**"] in the pattern plays no role. *)
Theorem MatchResource_double_star p q path :
  p <> EmptyString -> TrimRight p slash = p ->
  Contains p "**" = false ->
  MatchResource (p +:+ "/**" +:+ q) path = true <->
  TrimRight path slash = p \/ exists r, TrimRight path slash = p +:+ "/" +:+ r.
Proof.
  intros Hne Hp Hc. unfold MatchResource.
  assert (Hq : exists q', TrimRight (p +:+ "/**" +:+ q) slash = p +:+ "/**" +:+ q').
  { exists (TrimRight q slash). unfold TrimRight.
    destruct (trim_right_spec (Ascii.eqb slash) q) as (u & Hu & Hall & Hlast).
    rewrite Hu at 1. rewrite <- !str_app_assoc, trim_right_app by done.
    destruct Hlast as [->|(v & c & -> & Hc')].
    - rewrite !str_app_nil_r. change "/**" with ("/*" +:+ str1 "*").
      rewrite <- str_app_assoc. by apply trim_right_last.
    - rewrite <- !str_app_assoc. by apply trim_right_last. }
  destruct Hq as [q' Hq]. rewrite Hq.
  assert (Hpat : String.eqb (p +:+ "/**" +:+ q') EmptyString = false) by (by destruct p).
  rewrite Hpat. cbn [orb].
  assert (Hcon : Contains (p +:+ "/**" +:+ q') "**" = true).
  { change "/**" with ("/" +:+ "**"). rewrite str_app_assoc, <- str_app_assoc.
    apply Contains_app. }
  rewrite Hcon. unfold SplitN2. rewrite Cut_double_star by done. cbn [head default].
  assert (Hpre : TrimRight (p +:+ "/") slash = p).
  { unfold TrimRight. by rewrite trim_right_app. }
  simpl. rewrite Hpre, (proj2 (String.eqb_neq _ _) Hne).
  destruct (String.eqb_spec (TrimRight path slash) EmptyString) as [He|He].
  - rewrite He. split.
    + intros H%String.eqb_eq. by destruct p.
    + intros [<-|[r Hr]]; [done|by destruct p].
  - rewrite orb_true_iff, String.eqb_eq, HasPrefix_spec.
    by setoid_rewrite str_app_assoc.
Qed.

Lemma MatchResource_double_star_witness :
  MatchResource "/api/**" "/api/x/y" = true /\ MatchResource "/api/**/admin" "/api/public" = true.
Proof.
  split.
  - apply (MatchResource_double_star "/api" "" "/api/x/y"); [done..|]. right. by exists "x/y".
  - apply (MatchResource_double_star "/api" "/admin" "/api/public"); [done..|]. right. by exists "public".
Defined.

(** ** The ACR order *)

Lemma ACRSatisfies_refl a h : ACRSatisfies a a h = true.
Proof. unfold ACRSatisfies. by rewrite String.eqb_refl. Qed.

Lemma ACRSatisfies_spec a b h :
  ACRSatisfies a b h = true <->
  a = b \/ (0 <= indexOf h b /\ indexOf h b <= indexOf h a).
Proof.
  unfold ACRSatisfies. destruct (String.eqb_spec a b) as [->|Hne]; [naive_solver|].
  case_bool_decide as Hh; [subst; naive_solver lia|].
  destruct (_ || _) eqn:Hi.
  - split; [done|]. intros [?|[? ?]]; [done|]. apply orb_true_iff in Hi as [Hi|Hi]; b2p; lia.
  - b2p. rewrite Z.leb_le. naive_solver.
Qed.

(** "satisfies" is transitive for every hierarchy, duplicates and unknown
    levels included: together with reflexivity it is a preorder, so raising a
    token's level never loses access. *)
Theorem ACRSatisfies_trans a b c h :
  ACRSatisfies a b h = true -> ACRSatisfies b c h = true -> ACRSatisfies a c h = true.
Proof.
  rewrite !ACRSatisfies_spec. intros [->|[Hb Hab]] [->|[Hc Hbc]]; auto.
  right. lia.
Qed.

Lemma ACRSatisfies_trans_witness :
  ACRSatisfies "gold" "bronze" ["bronze"; "silver"; "gold"] = true.
Proof. by apply (ACRSatisfies_trans _ "silver"). Defined.
