(* ===== verification/Policy.v ===== *)
(** * The policy engine: [pkg/core/policy] ([types.go], [engine.go], [loader.go])

    [Evaluate] walks the policies in order and checks the first enabled one
    whose methods and resources match.  The specification is [decides]: which
    policy governs a request, and what it requires. *)

From S2P Require Import Prelude GoString GoTime Encoding Json Rar Matcher.

Record Policy := MkPolicy {
  p_Name : string;
  p_Resources : list string;
  p_Methods : list string;
  p_RequireACR : string;
  p_MaxAge : Z;
  p_RequireMFA : bool;
  p_RequireScopes : list string;
  p_RequireAuthorizationDetails : list AuthorizationDetailFilter;
  p_Enabled : bool
}.

Record Config := MkConfig {
  c_Version : string;
  c_Realm : string;
  c_Policies : list Policy;
  c_ACRLevels : list string
}.

Record PolicyRequest := MkPolicyRequest {
  q_Method : string;
  q_Path : string;
  q_TokenACR : string;
  q_TokenAMR : list string;
  q_TokenScopes : list string;
  q_AuthAge : Duration;
  q_AuthorizationDetails : list AuthorizationDetail
}.

Record PolicyResult := MkPolicyResult {
  pr_Allowed : bool;
  pr_MatchedPolicy : option Policy;
  pr_RequiredACR : string;
  pr_RequiredMaxAge : Z;
  pr_Reason : string
}.

(** [Engine]: its [config] pointer, [None] when nil. *)
Definition Engine := option Config.
Definition New (cfg : option Config) : Engine := cfg.
Definition Reload (e : Engine) (cfg : option Config) : Engine := cfg.

(** ** [loader.go] *)

Section Loader.
Context {U : Unicode}.

Fixpoint validate_from (i : Z) (l : list Policy) : option error :=
  match l with
  | [] => None
  | p :: l' =>
      if bool_decide (p_Resources p = [])
      then Some (errorf ("policy[" +:+ fmt_d i +:+ "] " +:+ Quote (p_Name p) +:+
                         ": resources must not be empty"))
      else validate_from (i + 1) l'
  end.
Definition validate (cfg : Config) : option error := validate_from 0 (c_Policies cfg).

(** [LoadFromBytes]; [yaml_Unmarshal] is [gopkg.in/yaml.v3]. *)
Definition LoadFromBytes (yaml_Unmarshal : string -> res Config) (data : string) : res Config :=
  match yaml_Unmarshal data with
  | Err e => Err (errorw "parsing policy YAML" e)
  | Ok cfg =>
      match validate cfg with
      | Some e => Err (errorw "invalid policy config" e)
      | None => Ok cfg
      end
  end.

(** [LoadFromFile]; [os_ReadFile] gives the contents of a file. *)
Definition LoadFromFile (yaml_Unmarshal : string -> res Config) (os_ReadFile : string -> res string)
    (path : string) : res Config :=
  match os_ReadFile path with
  | Err e => Err (errorw ("reading policy file " +:+ path) e)
  | Ok data => LoadFromBytes yaml_Unmarshal data
  end.

(** A configuration that loads is the one the document decodes to, and every
    rule of it names resources; an error names the step that failed. *)
Lemma validate_from_None i l :
  validate_from i l = None <-> Forall (fun p => p_Resources p <> []) l.
Proof.
  revert i. induction l as [|p l IH]; intros i; cbn [validate_from]; [by split; [constructor|]|].
  rewrite Forall_cons. destruct (bool_decide_reflect (p_Resources p = [])) as [E|E]; [naive_solver|].
  rewrite IH. naive_solver.
Qed.

Lemma LoadFromFile_Ok yaml_Unmarshal os_ReadFile path cfg :
  LoadFromFile yaml_Unmarshal os_ReadFile path = Ok cfg <->
  exists data, os_ReadFile path = Ok data /\ yaml_Unmarshal data = Ok cfg /\
    Forall (fun p => p_Resources p <> []) (c_Policies cfg).
Proof.
  unfold LoadFromFile, LoadFromBytes, validate. destruct (os_ReadFile path) as [data|e]; [|naive_solver].
  destruct (yaml_Unmarshal data) as [cfg'|e] eqn:E.
  2: { split; [done|]. intros (d & Hd & H & _). simplify_eq. congruence. }
  destruct (validate_from 0 (c_Policies cfg')) eqn:V.
  - split; [done|]. intros (d & Hd & H & Hf). simplify_eq. rewrite E in H. simplify_eq.
    apply (validate_from_None 0) in Hf. congruence.
  - apply validate_from_None in V. split; [intros; simplify_eq; eauto|].
    intros (d & Hd & H & _). simplify_eq. congruence.
Qed.
End Loader.

(** ** [engine.go] *)

Section Engine.
Context {U : Unicode}.

Definition matchesPolicy (p : Policy) (req : PolicyRequest) : bool :=
  if negb (MatchMethod (p_Methods p) (q_Method req)) then false
  else existsb (fun resource => MatchResource resource (q_Path req)) (p_Resources p).

(** The first required scope the token lacks. *)
Definition missing_scope (p : Policy) (req : PolicyRequest) : option string :=
  List.find (fun scope => negb (containsString (q_TokenScopes req) scope)) (p_RequireScopes p).

Definition check (acr_levels : list string) (p : Policy) (req : PolicyRequest) : PolicyResult :=
  let deny reason := MkPolicyResult false (Some p) (p_RequireACR p) (p_MaxAge p) reason in
  match missing_scope p req with
  | Some scope => deny ("missing required scope: " +:+ scope)
  | None =>
  if negb (String.eqb (p_RequireACR p) EmptyString) &&
     negb (ACRSatisfies (q_TokenACR req) (p_RequireACR p) acr_levels)
  then deny ("ACR " +:+ Quote (q_TokenACR req) +:+ " does not satisfy required " +:+
             Quote (p_RequireACR p)) else
  let maxAge := wrap64 (p_MaxAge p * Second) in
  if (0 <? p_MaxAge p) && (q_AuthAge req <=? 0)
  then deny "policy requires max_age but token has no auth_time claim" else
  if (0 <? p_MaxAge p) && (maxAge <? q_AuthAge req)
  then deny ("authentication is " +:+ Duration_String (Duration_Round (q_AuthAge req) Second) +:+
             " old, max allowed is " +:+ Duration_String maxAge) else
  if p_RequireMFA p && negb (containsString (q_TokenAMR req) "mfa") &&
     negb (containsString (q_TokenAMR req) "otp") && negb (containsString (q_TokenAMR req) "hwk")
  then deny "MFA authentication method required" else
  let '(ok, missing) := MatchAll (p_RequireAuthorizationDetails p) (q_AuthorizationDetails req) in
  if negb (bool_decide (p_RequireAuthorizationDetails p = [])) && negb ok
  then deny ("authorization_details insufficient: " +:+ missing)
  else MkPolicyResult true (Some p) (p_RequireACR p) (p_MaxAge p) EmptyString
  end.

Fixpoint evaluate_policies (acr_levels : list string) (l : list Policy) (req : PolicyRequest)
    : PolicyResult :=
  match l with
  | [] => MkPolicyResult false None EmptyString 0 "no matching policy"
  | p :: l' =>
      if negb (p_Enabled p) then evaluate_policies acr_levels l' req
      else if negb (matchesPolicy p req) then evaluate_policies acr_levels l' req
      else check acr_levels p req
  end.

(** [Evaluate]; its error result is always nil. *)
Definition Evaluate (e : Engine) (req : PolicyRequest) : PolicyResult :=
  match e with
  | None => MkPolicyResult false None EmptyString 0 "no policy config loaded"
  | Some cfg => evaluate_policies (c_ACRLevels cfg) (c_Policies cfg) req
  end.

Definition nl : string := str1 "010".

Definition Summary (e : Engine) : string :=
  match e with
  | None => "no policies loaded"
  | Some cfg =>
      "realm=" +:+ c_Realm cfg +:+ ", policies=" +:+
      fmt_d (Z.of_nat (List.length (c_Policies cfg))) +:+ ", acr_levels=" +:+
      fmt_d (Z.of_nat (List.length (c_ACRLevels cfg))) +:+ nl +:+
      foldr (fun p acc =>
        "  - " +:+ p_Name p +:+ " [" +:+ (if p_Enabled p then "enabled" else "disabled") +:+
        "]: resources=" +:+ fmt_strings (p_Resources p) +:+ " require_acr=" +:+
        p_RequireACR p +:+ nl +:+ acc) EmptyString (c_Policies cfg)
  end.
End Engine.

(** ** Specification *)

Section Spec.
Context {U : Unicode}.

Definition applies (p : Policy) (req : PolicyRequest) : Prop :=
  p_Enabled p = true /\
  MatchMethod (p_Methods p) (q_Method req) = true /\
  exists r, r ∈ p_Resources p /\ MatchResource r (q_Path req) = true.

(** [p] is the policy that governs [req]: the first that applies. *)
Definition governs (l : list Policy) (p : Policy) (req : PolicyRequest) : Prop :=
  exists before after, l = (before ++ p :: after)%list /\ applies p req /\
    Forall (fun q => ~ applies q req) before.

Definition mfa_done (amr : list string) : Prop :=
  "mfa" ∈ amr \/ "otp" ∈ amr \/ "hwk" ∈ amr.

Definition requirements (acr_levels : list string) (p : Policy) (req : PolicyRequest) : Prop :=
  (forall s, s ∈ p_RequireScopes p -> s ∈ q_TokenScopes req) /\
  (p_RequireACR p <> EmptyString ->
     ACRSatisfies (q_TokenACR req) (p_RequireACR p) acr_levels = true) /\
  (0 < p_MaxAge p -> 0 < q_AuthAge req <= wrap64 (p_MaxAge p * Second)) /\
  (p_RequireMFA p = true -> mfa_done (q_TokenAMR req)) /\
  (forall f, f ∈ p_RequireAuthorizationDetails p ->
     exists d, d ∈ q_AuthorizationDetails req /\ filter_holds f d).
End Spec.

(** ** The engine meets the specification *)

Section Correctness.
Context {U : Unicode}.
Implicit Types (p : Policy) (req : PolicyRequest).

Lemma applies_spec p req :
  p_Enabled p && matchesPolicy p req = true <-> applies p req.
Proof.
  unfold applies, matchesPolicy. rewrite andb_true_iff.
  destruct (MatchMethod _ _); simpl; [|split; [by intros [_ [=]]|by intros (_ & [=] & _)]].
  rewrite existsb_exists. setoid_rewrite list_elem_of_In. naive_solver.
Qed.

#[export] Instance applies_dec p req : Decision (applies p req).
Proof.
  destruct (p_Enabled p && matchesPolicy p req) eqn:E.
  - left. by apply applies_spec.
  - right. intros H%applies_spec. congruence.
Defined.

Lemma governs_cons p l g req :
  governs (p :: l) g req <->
  (applies p req /\ g = p) \/ (~ applies p req /\ governs l g req).
Proof.
  unfold governs. split.
  - intros ([|q before] & after & [= -> ->] & Happ & Hb); [by left|].
    apply Forall_cons_1 in Hb as [Hq Hb]. right. eauto 6.
  - intros [[Happ ->]|(Hn & before & after & -> & Happ & Hb)].
    + exists [], l. eauto.
    + exists (p :: before), after. eauto.
Qed.

Lemma evaluate_policies_governed levels l p req :
  governs l p req -> evaluate_policies levels l req = check levels p req.
Proof.
  induction l as [|q l IH]; [by intros ([] & ? & ? & _)|].
  rewrite governs_cons. cbn [evaluate_policies]. intros [[Happ ->]|[Hn Hg]].
  - apply applies_spec, andb_true_iff in Happ as [-> ->]. done.
  - rewrite <- applies_spec, not_true_iff_false, andb_false_iff in Hn.
    rewrite IH by done. destruct (p_Enabled q), (matchesPolicy q req); naive_solver.
Qed.

Lemma evaluate_policies_ungoverned levels l req :
  (forall p, ~ governs l p req) ->
  evaluate_policies levels l req = MkPolicyResult false None EmptyString 0 "no matching policy".
Proof.
  induction l as [|q l IH]; [done|]. intros Hn. cbn [evaluate_policies].
  assert (Hq : ~ applies q req) by (intros H; apply (Hn q), governs_cons; auto).
  rewrite IH by (intros p Hp; apply (Hn p), governs_cons; auto).
  rewrite <- applies_spec, not_true_iff_false, andb_false_iff in Hq.
  destruct (p_Enabled q), (matchesPolicy q req); naive_solver.
Qed.

Lemma governed_dec l req : (exists p, governs l p req) \/ (forall p, ~ governs l p req).
Proof.
  induction l as [|q l [[p IH]|IH]].
  - right. by intros p ([] & ? & ? & _).
  - destruct (decide (applies q req)); [left; exists q|left; exists p]; apply governs_cons; auto.
  - destruct (decide (applies q req)); [left; exists q; apply governs_cons; auto|].
    right. intros p [[? _]|[_ Hp]]%governs_cons; [done|by apply (IH p)].
Qed.

Lemma missing_scope_None p req :
  missing_scope p req = None <-> forall s, s ∈ p_RequireScopes p -> s ∈ q_TokenScopes req.
Proof.
  unfold missing_scope. split.
  - intros H s Hs. apply list_elem_of_In in Hs.
    apply (find_none _ _ H) in Hs. b2p. by apply containsString_spec.
  - intros H. destruct (List.find _ _) as [s|] eqn:E; [|done].
    apply find_some in E as [Hin Hn]. b2p. apply list_elem_of_In, H, containsString_spec in Hin.
    congruence.
Qed.

Lemma no_mfa_spec amr :
  negb (containsString amr "mfa") && negb (containsString amr "otp") &&
  negb (containsString amr "hwk") = false <-> mfa_done amr.
Proof.
  unfold mfa_done. rewrite !andb_false_iff, !negb_false_iff, !containsString_spec. tauto.
Qed.

Lemma check_fields levels p req :
  pr_MatchedPolicy (check levels p req) = Some p /\
  pr_RequiredACR (check levels p req) = p_RequireACR p /\
  pr_RequiredMaxAge (check levels p req) = p_MaxAge p.
Proof. unfold check. repeat case_match; done. Qed.

Lemma check_allowed levels p req :
  pr_Allowed (check levels p req) = true <-> requirements levels p req.
Proof.
  unfold requirements, check.
  destruct (missing_scope p req) as [s|] eqn:Hs.
  { split; [done|]. intros (H & _). rewrite (proj2 (missing_scope_None p req) H) in Hs. done. }
  pose proof (proj1 (missing_scope_None p req) Hs) as Hscopes.
  destruct (negb (String.eqb _ _) && negb (ACRSatisfies _ _ _)) eqn:Hacr.
  { split; [done|]. intros (_ & Hr & _). b2p. rewrite Hr in *; done. }
  assert (Ha : p_RequireACR p <> EmptyString ->
               ACRSatisfies (q_TokenACR req) (p_RequireACR p) levels = true).
  { intros Hne. apply String.eqb_neq in Hne. rewrite Hne in Hacr. by destruct (ACRSatisfies _ _ _). }
  destruct ((0 <? p_MaxAge p) && (q_AuthAge req <=? 0)) eqn:Hm0.
  { split; [done|]. intros (_ & _ & Hr & _). b2p. lia. }
  destruct ((0 <? p_MaxAge p) && (_ <? q_AuthAge req)) eqn:Hm1.
  { split; [done|]. intros (_ & _ & Hr & _). b2p. lia. }
  assert (Hm : 0 < p_MaxAge p -> 0 < q_AuthAge req <= wrap64 (p_MaxAge p * Second)).
  { intros Hp. apply Z.ltb_lt in Hp. rewrite Hp in *. simpl in *. b2p. lia. }
  rewrite <- !andb_assoc, (andb_assoc (negb (containsString _ "mfa"))).
  destruct (p_RequireMFA p && _) eqn:Hmfa.
  { apply andb_true_iff in Hmfa as [-> Hmfa]. split; [done|].
    intros (_ & _ & _ & H & _). apply no_mfa_spec in H; [congruence|done]. }
  assert (Hf : p_RequireMFA p = true -> mfa_done (q_TokenAMR req)).
  { intros Hp. rewrite Hp in Hmfa. by apply no_mfa_spec. }
  pose proof (MatchAll_ok (p_RequireAuthorizationDetails p) (q_AuthorizationDetails req)) as Hall.
  destruct (MatchAll _ _) as [ok missing]. simpl in Hall. rewrite <- Hall.
  destruct ok; rewrite ?andb_false_r; simpl; [naive_solver|].
  case_bool_decide as He; simpl; [|naive_solver].
  rewrite He in Hall. assert (false = true) by (apply Hall; set_solver). done.
Qed.
End Correctness.

(** ** Theorems *)

(** C4: [Evaluate] is the specified decision.  Access is allowed exactly when a
    configuration is loaded and the first enabled policy that matches method
    and path has all its requirements met; the answer to a governed request
    names that policy, its ACR and its max_age; with no configuration or no
    governing policy the request is denied. *)
Theorem Evaluate_correct {U : Unicode} (e : Engine) (req : PolicyRequest) :
  (pr_Allowed (Evaluate e req) = true <->
   exists cfg p, e = Some cfg /\ governs (c_Policies cfg) p req /\
                 requirements (c_ACRLevels cfg) p req) /\
  (forall cfg p, e = Some cfg -> governs (c_Policies cfg) p req ->
   pr_MatchedPolicy (Evaluate e req) = Some p /\
   pr_RequiredACR (Evaluate e req) = p_RequireACR p /\
   pr_RequiredMaxAge (Evaluate e req) = p_MaxAge p) /\
  ((forall cfg p, e = Some cfg -> ~ governs (c_Policies cfg) p req) ->
   pr_Allowed (Evaluate e req) = false /\ pr_MatchedPolicy (Evaluate e req) = None).
Proof.
  destruct e as [cfg|]; [|naive_solver]. simpl.
  destruct (governed_dec (c_Policies cfg) req) as [[p Hg]|Hn].
  - pose proof (check_fields (c_ACRLevels cfg) p req) as Hf.
    split; [|split].
    + rewrite (evaluate_policies_governed _ _ _ _ Hg), check_allowed. split; [eauto|].
      intros (cfg' & p' & [= <-] & Hg' & Hr).
      apply (evaluate_policies_governed (c_ACRLevels cfg)) in Hg', Hg.
      pose proof (check_fields (c_ACRLevels cfg) p' req) as Hf'. rewrite <- Hg', Hg in Hf'.
      naive_solver.
    + intros cfg' p' [= <-] Hg'. rewrite (evaluate_policies_governed _ _ _ _ Hg').
      apply check_fields.
    + intros H. by destruct (H cfg p).
  - rewrite evaluate_policies_ungoverned by done. naive_solver.
Qed.

Lemma Evaluate_governed {U : Unicode} cfg req :
  pr_Allowed (Evaluate (Some cfg) req) = true ->
  exists p, governs (c_Policies cfg) p req /\ requirements (c_ACRLevels cfg) p req /\
    pr_MatchedPolicy (Evaluate (Some cfg) req) = Some p.
Proof.
  simpl. destruct (governed_dec (c_Policies cfg) req) as [[p Hg]|Hn].
  - rewrite (evaluate_policies_governed _ _ _ _ Hg), check_allowed. exists p.
    split; [done|]. split; [done|]. apply check_fields.
  - by rewrite evaluate_policies_ungoverned.
Qed.

(** Freshness is sound although [time.Duration(p.MaxAge) * time.Second]
    wraps around: whenever access is allowed under a policy with a positive
    [MaxAge], the authentication is strictly positive and at most [MaxAge]
    seconds old, for every [int] value of [MaxAge]. *)
Theorem Evaluate_max_age_sound {U : Unicode} cfg req p :
  pr_Allowed (Evaluate (Some cfg) req) = true ->
  pr_MatchedPolicy (Evaluate (Some cfg) req) = Some p ->
  0 < p_MaxAge p ->
  0 < q_AuthAge req <= p_MaxAge p * Second.
Proof.
  intros Ha Hm Hp. apply Evaluate_governed in Ha as (p' & _ & Hr & Hm').
  rewrite Hm in Hm'. injection Hm' as <-.
  destruct Hr as (_ & _ & Hr & _). specialize (Hr Hp).
  pose proof (wrap64_le (p_MaxAge p * Second)). unfold Second in *. lia.
Qed.

(** A stronger token: at least the scopes, methods, level, freshness and
    authorization details of another one, for the same method and path. *)
Record stronger (levels : list string) (req' req : PolicyRequest) : Prop := {
  st_method : q_Method req' = q_Method req;
  st_path : q_Path req' = q_Path req;
  st_scopes : q_TokenScopes req ⊆ q_TokenScopes req';
  st_acr : ACRSatisfies (q_TokenACR req') (q_TokenACR req) levels = true;
  st_age : 0 < q_AuthAge req -> 0 < q_AuthAge req' <= q_AuthAge req;
  st_amr : q_TokenAMR req ⊆ q_TokenAMR req';
  st_details : q_AuthorizationDetails req ⊆ q_AuthorizationDetails req'
}.

Lemma requirements_stronger levels p req' req :
  stronger levels req' req -> requirements levels p req -> requirements levels p req'.
Proof.
  intros [Hm Hp Hs Ha Hg Hamr Hd] (R1 & R2 & R3 & R4 & R5).
  split; [|split; [|split; [|split]]].
  - intros s Hin. by apply Hs, R1.
  - intros Hne. specialize (R2 Hne). rewrite !ACRSatisfies_spec in *.
    destruct Ha as [Ha|[? ?]], R2 as [R2|[? ?]];
      [left; congruence|right; by rewrite Ha|right; by rewrite <- R2|right; lia].
  - intros Hpos. destruct (R3 Hpos). destruct (Hg ltac:(done)). lia.
  - intros Hmfa. destruct (R4 Hmfa) as [?|[?|?]]; [left|right; left|right; right]; by apply Hamr.
  - intros f Hf. destruct (R5 f Hf) as (d & Hin & Hok). exists d. split; [by apply Hd|done].
Qed.

Lemma governs_same {U : Unicode} l p req' req :
  q_Method req' = q_Method req -> q_Path req' = q_Path req ->
  governs l p req -> governs l p req'.
Proof.
  intros Hm Hp (before & after & -> & Happ & Hb). exists before, after.
  unfold applies in *. rewrite Hm, Hp. split; [done|]. split; [done|]. done.
Qed.

(** Stepping up never loses access.  A token that is allowed stays allowed
    for the same request when it is replaced by a stronger one: more scopes,
    more authentication methods, a level at least as high, a fresher (and
    known) authentication, more authorization details. *)
Theorem Evaluate_monotone {U : Unicode} cfg req' req :
  stronger (c_ACRLevels cfg) req' req ->
  pr_Allowed (Evaluate (Some cfg) req) = true ->
  pr_Allowed (Evaluate (Some cfg) req') = true.
Proof.
  intros Hst Ha. apply Evaluate_governed in Ha as (p & Hg & Hr & _).
  simpl. erewrite evaluate_policies_governed.
  - apply check_allowed. by eapply requirements_stronger.
  - destruct Hst. by eapply governs_same.
Qed.

(** ** Concrete runs *)

Definition demo_policy : Policy :=
  MkPolicy "payments" ["/api/payments/**"] ["POST"] "urn:acr:2" 300 true ["pay"] [] true.
Definition demo_config : Config :=
  MkConfig "1" "bank" [demo_policy] ["urn:acr:1"; "urn:acr:2"].
Definition demo_request : PolicyRequest :=
  MkPolicyRequest "POST" "/api/payments/7" "urn:acr:2" ["pwd"; "otp"] ["pay"] (200 * Second) [].
Definition demo_fresher : PolicyRequest :=
  MkPolicyRequest "POST" "/api/payments/7" "urn:acr:2" ["pwd"; "otp"; "hwk"] ["pay"; "read"]
    (10 * Second) [].

Example Evaluate_max_age_sound_witness :
  0 < q_AuthAge demo_request <= p_MaxAge demo_policy * Second.
Proof.
  apply (Evaluate_max_age_sound (U := unicode_min) demo_config).
  - vm_compute. reflexivity.
  - vm_compute. reflexivity.
  - vm_compute. reflexivity.
Defined.

Lemma demo_stronger : stronger (c_ACRLevels demo_config) demo_fresher demo_request.
Proof.
  split; try reflexivity; simpl; try set_solver.
  intros _. unfold Second. lia.
Qed.

Example Evaluate_monotone_witness :
  pr_Allowed (Evaluate (U := unicode_min) (Some demo_config) demo_fresher) = true.
Proof.
  apply (Evaluate_monotone demo_config demo_fresher demo_request demo_stronger).
  vm_compute. reflexivity.
Defined.
