(* ===== verification/PolicyReload.v ===== *)
(** * Policies replaced while they are evaluated: [pkg/core/policy/engine.go]

    [Reload] overwrites the [config] pointer of the engine without a lock, and
    [Evaluate] reads the pointer again for every policy and for the ACR
    levels.  Here an evaluation is a program of such reads, between which
    reloads may come; alone, it is [Policy.Evaluate].  Indexing a slice out of
    its range and following a nil pointer panic. *)

From S2P Require Import Prelude GoString GoTime Encoding Json Rar Matcher Policy.

(** A computation that reads [e.config]. *)
Inductive reader (A : Type) : Type :=
| Done (a : A)
| Panicked
| ReadConfig (k : Engine -> reader A).
Arguments Done {A} _.
Arguments Panicked {A}.
Arguments ReadConfig {A} _.

(** [e.config.x]: a read that follows the pointer. *)
Definition with_config {A} (k : Config -> reader A) : reader A :=
  ReadConfig (fun e => match e with Some cfg => k cfg | None => Panicked end).

(** A computation that starts under the configuration [e], during which those
    of [l] are installed, in this order: its result, [None] for a panic. *)
Inductive evaluates {A} : Engine -> reader A -> list Engine -> option A -> Prop :=
| evaluates_done e a : evaluates e (Done a) [] (Some a)
| evaluates_panic e : evaluates e Panicked [] None
| evaluates_read e k l x : evaluates e (k e) l x -> evaluates e (ReadConfig k) l x
| evaluates_reload e e' r l x : evaluates (Reload e e') r l x -> evaluates e r (e' :: l) x.

Section Evaluate.
Context {U : Unicode}.

(** [e.check(p, req)]: the levels are read only to compare the ACR. *)
Definition r_check (p : Policy) (req : PolicyRequest) : reader PolicyResult :=
  match missing_scope p req with
  | Some _ => Done (check [] p req)
  | None =>
      if String.eqb (p_RequireACR p) EmptyString then Done (check [] p req)
      else with_config (fun cfg => Done (check (c_ACRLevels cfg) p req))
  end.

(** The loop, with [n] rounds to go: the range was evaluated once. *)
Fixpoint r_loop (n i : nat) (req : PolicyRequest) : reader PolicyResult :=
  match n with
  | O => Done (MkPolicyResult false None EmptyString 0 "no matching policy")
  | S n' =>
      with_config (fun cfg =>
        match c_Policies cfg !! i with
        | None => Panicked
        | Some p =>
            if negb (p_Enabled p) then r_loop n' (S i) req
            else if negb (matchesPolicy p req) then r_loop n' (S i) req
            else r_check p req
        end)
  end.

Definition r_Evaluate (req : PolicyRequest) : reader PolicyResult :=
  ReadConfig (fun e =>
    match e with
    | None => Done (MkPolicyResult false None EmptyString 0 "no policy config loaded")
    | Some _ => with_config (fun cfg => r_loop (List.length (c_Policies cfg)) 0 req)
    end).

(** ** Without a reload *)

Lemma evaluates_alone_with {A} cfg (k : Config -> reader A) x :
  evaluates (Some cfg) (with_config k) [] x <-> evaluates (Some cfg) (k cfg) [] x.
Proof. split; [by inversion 1|]. intros H. by apply evaluates_read. Qed.

Lemma evaluates_alone_done {A} e (a : A) x : evaluates e (Done a) [] x <-> x = Some a.
Proof. split; [by inversion 1|]. intros ->. constructor. Qed.

Lemma check_without_levels levels p req :
  is_Some (missing_scope p req) \/ p_RequireACR p = EmptyString -> check [] p req = check levels p req.
Proof.
  unfold check. intros [[s ->]|E]; [done|]. by rewrite E.
Qed.

Lemma r_check_alone cfg p req x :
  evaluates (Some cfg) (r_check p req) [] x <-> x = Some (check (c_ACRLevels cfg) p req).
Proof.
  unfold r_check. destruct (missing_scope p req) as [s|] eqn:Hs.
  - rewrite evaluates_alone_done, (check_without_levels (c_ACRLevels cfg)) by eauto. done.
  - destruct (String.eqb_spec (p_RequireACR p) EmptyString) as [E|E].
    + rewrite evaluates_alone_done, (check_without_levels (c_ACRLevels cfg)) by eauto. done.
    + by rewrite evaluates_alone_with, evaluates_alone_done.
Qed.

Lemma r_loop_alone cfg req x l : forall before,
  c_Policies cfg = (before ++ l)%list ->
  evaluates (Some cfg) (r_loop (List.length l) (List.length before) req) [] x <->
  x = Some (evaluate_policies (c_ACRLevels cfg) l req).
Proof.
  induction l as [|p l IH]; intros before Hl; cbn [r_loop List.length evaluate_policies];
    [apply evaluates_alone_done|].
  rewrite evaluates_alone_with, Hl, list_lookup_middle by done.
  specialize (IH (before ++ [p])%list). rewrite length_app, Nat.add_1_r, <- app_assoc in IH.
  destruct (negb (p_Enabled p)); [by apply IH|]. destruct (negb (matchesPolicy p req)); [by apply IH|].
  apply r_check_alone.
Qed.

Lemma evaluates_alone_read {A} e (k : Engine -> reader A) x :
  evaluates e (ReadConfig k) [] x <-> evaluates e (k e) [] x.
Proof. split; [by inversion 1|]. intros H. by apply evaluates_read. Qed.

Lemma r_Evaluate_alone e req x : evaluates e (r_Evaluate req) [] x <-> x = Some (Evaluate e req).
Proof.
  unfold r_Evaluate. rewrite evaluates_alone_read. destruct e as [cfg|]; [|apply evaluates_alone_done].
  rewrite evaluates_alone_with. by apply (r_loop_alone cfg req x (c_Policies cfg) []).
Qed.

(** ** Whatever is read *)

(** The computation returns a [Q], unless it panics, if what it reads
    satisfies [seen]. *)
Fixpoint ends_in {A} (seen : Engine -> Prop) (Q : A -> Prop) (r : reader A) : Prop :=
  match r with
  | Done a => Q a
  | Panicked => True
  | ReadConfig k => forall e, seen e -> ends_in seen Q (k e)
  end.

Lemma evaluates_ends_in {A} seen Q e (r : reader A) l a :
  evaluates e r l (Some a) -> (forall e', e' ∈ e :: l -> seen e') -> ends_in seen Q r -> Q a.
Proof.
  remember (Some a) as x eqn:Hx. intros H. revert Hx.
  induction H as [e b|e|e k l x _ IH|e e' r l x _ IH]; intros Hx Hs Hr; cbn [ends_in] in Hr;
    [by simplify_eq|done|..].
  - apply IH; [done|done|]. apply Hr, Hs. left.
  - apply IH; [done| |done]. intros e1 He1. apply Hs. by right.
Qed.

(** The token of [req] meets the requirements of an enabled rule for its
    method and path, one of a configuration that is [seen]; its ACR is
    compared by the levels of one that is. *)
Definition allowed_by (seen : Engine -> Prop) (req : PolicyRequest) : Prop :=
  exists cfg p levels, seen (Some cfg) /\ p ∈ c_Policies cfg /\ applies p req /\
    requirements levels p req /\
    (p_RequireACR p <> EmptyString -> exists cfg', seen (Some cfg') /\ levels = c_ACRLevels cfg').

Definition allows_only (seen : Engine -> Prop) (req : PolicyRequest) (result : PolicyResult) : Prop :=
  pr_Allowed result = true -> allowed_by seen req.

Lemma r_check_ends seen cfg p req :
  seen (Some cfg) -> p ∈ c_Policies cfg -> applies p req -> ends_in seen (allows_only seen req) (r_check p req).
Proof.
  intros Hcfg Hp Happ. unfold r_check. destruct (missing_scope p req) as [s|] eqn:Hs.
  { intros Ha. unfold check in Ha. by rewrite Hs in Ha. }
  destruct (String.eqb_spec (p_RequireACR p) EmptyString) as [E|E].
  - intros Ha%check_allowed. by exists cfg, p, [].
  - intros [cfg'|] Hcfg'; cbn [ends_in]; [|done]. intros Ha%check_allowed.
    exists cfg, p, (c_ACRLevels cfg'). eauto 10.
Qed.

Lemma r_loop_ends seen n i req : ends_in seen (allows_only seen req) (r_loop n i req).
Proof.
  revert i. induction n as [|n IH]; intros i; cbn [r_loop]; [done|].
  intros [cfg|] Hcfg; cbn [ends_in]; [|done].
  destruct (c_Policies cfg !! i) as [p|] eqn:Hp; [|done].
  destruct (p_Enabled p) eqn:He; cbn [negb]; [|apply IH].
  destruct (matchesPolicy p req) eqn:Hm; cbn [negb]; [|apply IH].
  apply (r_check_ends seen cfg); [done|by eapply list_elem_of_lookup_2|].
  apply applies_spec. by rewrite He, Hm.
Qed.

Lemma r_Evaluate_ends seen req : ends_in seen (allows_only seen req) (r_Evaluate req).
Proof. intros [cfg|] _; cbn [ends_in]; [|done]. intros [cfg'|] _; cbn [ends_in]; [apply r_loop_ends|done]. Qed.

(** ** Why an evaluation panics *)

(** [e] cannot stand in for [cfg]: no configuration, or one of fewer rules. *)
Definition lesser (e : Engine) (cfg : Config) : Prop :=
  match e with None => True | Some cfg' => (List.length (c_Policies cfg') < List.length (c_Policies cfg))%nat end.

#[local] Instance lesser_dec e cfg : Decision (lesser e cfg).
Proof. destruct e; cbn; apply _. Defined.

(** Of the configurations [es], in the order of time, one was followed, at
    once or later, by a lesser one. *)
Definition later_lesser (es : list Engine) : Prop :=
  exists cfg e, [Some cfg; e] `sublist_of` es /\ lesser e cfg.

(** One was replaced by a lesser one. *)
Definition shrinks (es : list Engine) : Prop :=
  exists before cfg e after, es = (before ++ Some cfg :: e :: after)%list /\ lesser e cfg.

Lemma shrinks_cons e es : shrinks es -> shrinks (e :: es).
Proof. intros (before & cfg & e' & after & -> & H). by exists (e :: before), cfg, e', after. Qed.

Lemma later_lesser_shrinks es : later_lesser es -> shrinks es.
Proof.
  intros (cfg & e & Hs & Hl). revert cfg Hs Hl. induction es as [|e0 es IH]; intros cfg Hs Hl; [by apply sublist_nil_r in Hs|].
  apply sublist_cons_l in Hs as (k1 & k2 & Hes & Hs). destruct k1 as [|e1 k1]; injection Hes as -> ->.
  - clear IH. revert cfg Hs Hl. induction k2 as [|e1 k2 IH]; intros cfg Hs Hl; [by apply sublist_nil_r in Hs|].
    destruct (decide (lesser e1 cfg)) as [H1|H1]; [by exists [], cfg, e1, k2|].
    destruct e1 as [cfg1|]; [|by destruct H1]. cbn in H1. apply shrinks_cons, IH.
    + apply sublist_cons_l in Hs as (k1 & k3 & Hk & Hs). destruct k1 as [|? k1]; injection Hk as Hk ->.
      * subst e. by destruct H1.
      * apply sublist_cons_l. exists k1, k3. done.
    + destruct e as [cfg'|]; [cbn in *; lia|done].
  - apply shrinks_cons, (IH cfg); [|done]. rewrite sublist_cons_l. by exists k1, k2.
Qed.

Lemma later_lesser_mono es es' : es `sublist_of` es' -> later_lesser es -> later_lesser es'.
Proof. intros Hs (cfg & e & H & Hl). exists cfg, e. split; [by etransitivity|done]. Qed.

(** Reading the same configuration twice adds nothing. *)
Lemma later_lesser_again es e l : later_lesser (es ++ e :: e :: l)%list -> later_lesser (es ++ e :: l)%list.
Proof.
  intros (cfg & e' & Hs & Hl). exists cfg, e'. split; [|done].
  apply sublist_app_r in Hs as (k1 & k2 & Hk & H1 & H2). rewrite Hk. apply sublist_app; [done|].
  apply sublist_cons_r in H2 as [H2|(k & -> & H2)]; [done|].
  apply sublist_cons_r in H2 as [H2|(k' & -> & H2)]; [by apply sublist_skip|exfalso].
  destruct k1 as [|? [|? [|]]]; simplify_eq/=. by apply (Nat.lt_irrefl _ Hl).
Qed.

(** [r] panics only if the configurations it has read, after those of [es],
    have a lesser one after another. *)
Fixpoint panics_on_lesser {A} (es : list Engine) (r : reader A) : Prop :=
  match r with
  | Done _ => True
  | Panicked => later_lesser es
  | ReadConfig k => forall e, panics_on_lesser (es ++ [e]) (k e)
  end.

(** A configuration with at least [n] rules was read. *)
Definition long (n : nat) (es : list Engine) : Prop :=
  exists cfg, Some cfg ∈ es /\ (n <= List.length (c_Policies cfg))%nat.

Lemma long_lesser n es e :
  long n es -> (forall cfg, (n <= List.length (c_Policies cfg))%nat -> lesser e cfg) -> later_lesser (es ++ [e]).
Proof.
  intros (cfg & Hin & Hn) He. exists cfg, e. split; [|by apply He].
  change [Some cfg; e] with ([Some cfg] ++ [e])%list. apply sublist_app; [|done]. by apply singleton_sublist_l.
Qed.

Lemma long_snoc n es e : long n es -> long n (es ++ [e]).
Proof. intros (cfg & Hin & Hn). exists cfg. split; [|done]. apply elem_of_app. by left. Qed.

Lemma r_check_panics es p req n : long n es -> panics_on_lesser es (r_check p req).
Proof.
  intros Hl. unfold r_check. destruct (missing_scope p req); [done|]. destruct (String.eqb _ _); [done|].
  intros [cfg|]; cbn [panics_on_lesser]; [done|]. by eapply long_lesser.
Qed.

Lemma r_loop_panics n : forall i es req, long (n + i) es -> panics_on_lesser es (r_loop n i req).
Proof.
  induction n as [|n IH]; intros i es req Hl; cbn [r_loop]; [done|].
  intros [cfg|]; cbn [panics_on_lesser]; [|by eapply long_lesser].
  destruct (c_Policies cfg !! i) as [p|] eqn:Hp.
  - assert (long (n + S i) (es ++ [Some cfg])) by (rewrite Nat.add_succ_r; by apply long_snoc).
    destruct (negb (p_Enabled p)); [by apply IH|]. destruct (negb (matchesPolicy p req)); [by apply IH|].
    by eapply r_check_panics.
  - apply lookup_ge_None in Hp. eapply long_lesser; [exact Hl|]. intros cfg0 H0. cbn in *. lia.
Qed.

Lemma r_Evaluate_panics req es : panics_on_lesser es (r_Evaluate req).
Proof.
  intros [cfg|]; cbn [panics_on_lesser]; [|done]. intros [cfg'|]; cbn [panics_on_lesser].
  - apply r_loop_panics. exists cfg'. split; [|lia]. apply elem_of_app. right. left.
  - apply (long_lesser 0); [|done]. exists cfg. split; [|lia]. apply elem_of_app. right. left.
Qed.

Lemma evaluates_panics {A} e (r : reader A) l :
  evaluates e r l None -> forall es, panics_on_lesser es r -> later_lesser (es ++ e :: l)%list.
Proof.
  remember None as x eqn:Hx. intros H. revert Hx.
  induction H as [e b|e|e k l x _ IH|e e' r l x _ IH]; intros Hx es Hr; cbn [panics_on_lesser] in Hr; [done|..].
  - by apply (later_lesser_mono es), Hr; apply sublist_inserts_r.
  - apply later_lesser_again. specialize (IH Hx (es ++ [e])%list (Hr e)). by rewrite <- app_assoc in IH.
  - eapply later_lesser_mono; [|by apply IH, Hr]. apply sublist_app; [done|]. by apply sublist_cons.
Qed.

(** C7: Evaluation under reload.  However reloads come between its reads:
    an evaluation that allows a request found an enabled rule of a
    configuration in force while it ran, for the method and path, whose
    requirements the token meets; it panics only if one of the reloads
    replaced a configuration by none or by one with fewer rules, so never
    before the first is loaded nor when rules are only added or changed; and
    without a reload it is [Evaluate]. *)
Theorem Evaluate_under_reload e req l x :
  evaluates e (r_Evaluate req) l x ->
  match x with
  | Some result => pr_Allowed result = true -> allowed_by (fun e' => e' ∈ e :: l) req
  | None => shrinks (e :: l)
  end /\
  (l = [] -> x = Some (Evaluate e req)).
Proof.
  intros H. split.
  - destruct x as [result|].
    + apply (evaluates_ends_in (fun e' => e' ∈ e :: l) (allows_only _ req) _ _ _ _ H); [done|]. apply r_Evaluate_ends.
    + apply later_lesser_shrinks, (evaluates_panics _ _ _ H []), r_Evaluate_panics.
  - intros ->. by apply r_Evaluate_alone.
Qed.
End Evaluate.

(** ** A race *)

Section Race.
#[local] Existing Instance unicode_min.

Definition race_policy (name resource acr : string) : Policy :=
  MkPolicy name [resource] [] acr 0 false [] [] true.
Definition strict : Policy := race_policy "admin" "/admin/**" "gold".
Definition public : Policy := race_policy "public" "/public/**" EmptyString.
Definition rest : Policy := race_policy "rest" "/**" EmptyString.
Definition levels : list string := ["bronze"; "gold"].

(** The same rules; the second configuration has the first two in the other
    order.  Under either, [/admin/x] needs gold. *)
Definition old_config : Config := MkConfig "1" "r" [public; strict; rest] levels.
Definition new_config : Config := MkConfig "2" "r" [strict; public; rest] levels.
Definition bronze_request : PolicyRequest := MkPolicyRequest "GET" "/admin/x" "bronze" [] [] 0 [].

Lemma race_denied_by_each :
  pr_Allowed (Evaluate (Some old_config) bronze_request) = false /\
  pr_Allowed (Evaluate (Some new_config) bronze_request) = false.
Proof. split; vm_compute; reflexivity. Qed.

(** A reload between the first and the second rule: the strict one is
    skipped, and the request that both configurations deny is allowed. *)
Lemma reload_lets_through :
  evaluates (Some old_config) (r_Evaluate bronze_request) [Some new_config]
    (Some (MkPolicyResult true (Some rest) EmptyString 0 EmptyString)).
Proof.
  do 3 apply evaluates_read. apply evaluates_reload. do 2 apply evaluates_read. vm_compute. constructor.
Qed.

(** A reload that leaves fewer rules: the index is out of range. *)
Lemma reload_panics :
  evaluates (Some old_config) (r_Evaluate bronze_request) [Some (MkConfig "2" "r" [strict] levels)] None.
Proof.
  do 3 apply evaluates_read. apply evaluates_reload. apply evaluates_read. vm_compute. constructor.
Qed.

Example Evaluate_under_reload_witness :
  allowed_by (fun e => e ∈ [Some old_config; Some new_config]) bronze_request /\
  shrinks [Some old_config; Some (MkConfig "2" "r" [strict] levels)].
Proof.
  split.
  - destruct (Evaluate_under_reload _ _ _ _ reload_lets_through) as [H _]. apply H. vm_compute. reflexivity.
  - exact (proj1 (Evaluate_under_reload _ _ _ _ reload_panics)).
Defined.
End Race.
