(* ===== verification/StepUp.v ===== *)
(** * Step-up authentication: [pkg/core/stepup]

    [challenge.go] (RFC 9470 challenges and their header), [errors.go],
    [statemachine.go] (the flow, and the signed cookie that carries the saved
    request).  An operation that reads the clock takes one argument per
    reading, in the order of the calls. *)

From S2P Require Import Prelude GoString GoTime Encoding Crypto Json TextLemmas TimeText Http.

(** ** [errors.go] *)

Definition ErrCodeInsufficientUserAuthentication : string := "insufficient_user_authentication".
Definition ErrCodeInvalidToken : string := "invalid_token".
Definition ErrCodeInsufficientScope : string := "insufficient_scope".

(** The sentinel errors. *)
Definition ErrMissingToken : error := errorf "missing bearer token".
Definition ErrTokenExpired : error := errorf "token has expired".
Definition ErrTokenInactive : error := errorf "token is not active".
Definition ErrInsufficientACR : error := errorf "insufficient authentication context level".
Definition ErrAuthTooOld : error := errorf "authentication is too old (max_age exceeded)".
Definition ErrDPoPBindingMismatch : error := errorf "dpop proof does not match token binding".
Definition ErrTenantNotFound : error := errorf "tenant not found".
Definition ErrProviderUnavailable : error := errorf "identity provider unavailable".

Record StepUpError := MkStepUpError {
  se_Code : string;
  se_Description : string;
  se_ACRValues : string;
  se_MaxAge : Z
}.

Definition StepUpError_Error (e : StepUpError) : string := se_Description e.

Definition NewInsufficientACRError (requiredACR : string) (maxAge : Z) : StepUpError :=
  MkStepUpError ErrCodeInsufficientUserAuthentication "higher authentication level required"
    requiredACR maxAge.

(** ** [challenge.go] *)

Record StepUpChallenge := MkChallenge {
  ch_ACRValues : string;
  ch_MaxAge : Z;
  ch_Error : string;
  ch_ErrorDescription : string;
  ch_Realm : string
}.

Definition NewStepUpChallenge (err : StepUpError) (realm : string) : StepUpChallenge :=
  MkChallenge (se_ACRValues err) (se_MaxAge err) (se_Code err) (se_Description err) realm.

(** [fmt.Sprintf(`name="%s"`, v)] *)
Definition attr (name v : string) : string :=
  name +:+ "=" +:+ str1 dquote +:+ v +:+ str1 dquote.

(** [if v != "" { parts = append(parts, ...) }] *)
Definition attr_if (name v : string) : list string :=
  if String.eqb v EmptyString then [] else [attr name v].

Definition challenge_parts (c : StepUpChallenge) : list string :=
  let realm := if String.eqb (ch_Realm c) EmptyString then "IAM" else ch_Realm c in
  ([attr "realm" realm] ++
   attr_if "error" (ch_Error c) ++
   attr_if "error_description" (ch_ErrorDescription c) ++
   attr_if "acr_values" (ch_ACRValues c) ++
   if 0 <? ch_MaxAge c then ["max_age=" +:+ fmt_d (ch_MaxAge c)] else [])%list.

Definition WWWAuthenticateHeader (c : StepUpChallenge) : string :=
  "Bearer " +:+ Join (challenge_parts c) ", ".

(** [fmt.Sscanf(s, "%d", &v)] on an [int] variable that holds [old]: leading
    spaces (a newline is an error), an optional sign and decimal digits. *)
Definition Sscanf_d (old : Z) (s : string) : Z :=
  let s1 := concat_chunks (drop_while (fun x => IsSpace x.1 && negb (x.1 =? 10)) (runes s)) in
  let '(sign, s2) := match s1 with
                     | String "+" r => (EmptyString, r)
                     | String "-" r => ("-", r)
                     | _ => (EmptyString, s1)
                     end in
  match scan_digits1 s2 with
  | Some (ds, _) => default old (parse_int (sign +:+ ds))
  | None => old
  end.

Definition parse_part (c : StepUpChallenge) (part : string) : StepUpChallenge :=
  match SplitN2 (TrimSpace part) "=" with
  | [k; v] =>
      let key := TrimSpace k in
      let val := Trim (TrimSpace v) dquote in
      let '(MkChallenge acr age err desc realm) := c in
      if String.eqb key "realm" then MkChallenge acr age err desc val
      else if String.eqb key "error" then MkChallenge acr age val desc realm
      else if String.eqb key "error_description" then MkChallenge acr age err val realm
      else if String.eqb key "acr_values" then MkChallenge val age err desc realm
      else if String.eqb key "max_age" then MkChallenge acr (Sscanf_d age val) err desc realm
      else c
  | _ => c
  end.

Definition empty_challenge : StepUpChallenge :=
  MkChallenge EmptyString 0 EmptyString EmptyString EmptyString.

Definition ParseWWWAuthenticate (header : string) : res StepUpChallenge :=
  let header := TrimSpace header in
  if negb (HasPrefix header "Bearer ")
  then Err (errorf "unsupported scheme, expected Bearer")
  else Ok (foldl parse_part empty_challenge (Split (TrimPrefix header "Bearer ") ",")).

Section WithUnicode.
Context {U : Unicode}.

(** [WriteChallenge]: a 401 whose body quotes the texts with Go's [%q]. *)
Definition WriteChallenge (c : StepUpChallenge) (w : Response) : Response :=
  let w := SetHeader "WWW-Authenticate" (WWWAuthenticateHeader c) w in
  let w := SetHeader "Content-Type" "application/json" w in
  let w := WriteHeader StatusUnauthorized w in
  let q := str1 dquote in
  Write ("{" +:+ q +:+ "error" +:+ q +:+ ":" +:+ Quote (ch_Error c) +:+ "," +:+
         q +:+ "error_description" +:+ q +:+ ":" +:+ Quote (ch_ErrorDescription c) +:+ "}") w.
End WithUnicode.

(** ** [statemachine.go]: the flow *)

Definition CookieName : string := "iam_stepup_state".
Definition cookieMaxAge : Z := 600.

(** [State]; [StateOther] stands for the integers without a constant. *)
Inductive State := StateIdle | StateChallenge | StateCompleted | StateFailed | StateOther.
#[export] Instance State_eq_dec : EqDecision State.
Proof. solve_decision. Defined.

Definition State_String (s : State) : string :=
  match s with
  | StateIdle => "idle"
  | StateChallenge => "challenge"
  | StateCompleted => "completed"
  | StateFailed => "failed"
  | StateOther => "unknown"
  end.

Record SavedRequest := MkSaved {
  sr_Method : string;
  sr_Path : string;
  sr_Query : string;
  sr_StateID : string;
  sr_SavedAt : Time;
  sr_ACRHint : string;
  sr_MaxAge : Z
}.

Record FlowState := MkFlow {
  fs_State : State;
  fs_Challenge : option StepUpChallenge;
  fs_SavedRequest : option SavedRequest;
  fs_StartedAt : Time;
  fs_CompletedAt : Time
}.

(** [StateMachine]: its [Timeout]. *)
Record StateMachine := MkStateMachine { sm_Timeout : Duration }.
Definition NewStateMachine : StateMachine := MkStateMachine (10 * Minute).

(** [newStateID()] on the 16 bytes [rand.Read] delivers. *)
Definition newStateID (rand : string) : string := hex_encode rand.

Definition BeginChallenge (rand : string) (now1 now2 : Time) (r : Request)
    (challenge : StepUpChallenge) : FlowState :=
  MkFlow StateChallenge (Some challenge)
    (Some (MkSaved (rq_Method r) (rq_Path r) (rq_RawQuery r) (newStateID rand) now1
             (ch_ACRValues challenge) (ch_MaxAge challenge)))
    now2 time_zero.

Definition set_state (s : State) (f : FlowState) : FlowState :=
  MkFlow s (fs_Challenge f) (fs_SavedRequest f) (fs_StartedAt f) (fs_CompletedAt f).

(** [Complete]: the clock is read for the age, then for [CompletedAt]. *)
Definition Complete (sm : StateMachine) (now1 now2 : Time) (flow : FlowState)
    : option error * FlowState :=
  if negb (bool_decide (fs_State flow = StateChallenge)) then
    (Some (errorf ("cannot complete flow in state " +:+ State_String (fs_State flow))), flow)
  else if sm_Timeout sm <? time_Since now1 (fs_StartedAt flow) then
    (Some (errorf "step-up challenge timed out"), set_state StateFailed flow)
  else
    (None, MkFlow StateCompleted (fs_Challenge flow) (fs_SavedRequest flow)
             (fs_StartedAt flow) now2).

Definition Fail (flow : FlowState) : FlowState := set_state StateFailed flow.

(** The flow in a request context, as far as the key of flows is concerned:
    the pointer that was attached, of a type [Ptr] of pointers ([None] when
    nothing was attached). *)
Definition WithFlowState {Ptr} (ctx : option Ptr) (flow : Ptr) : option Ptr := Some flow.
Definition FlowStateFromContext {Ptr} (nil : Ptr) (ctx : option Ptr) : Ptr * bool :=
  match ctx with Some flow => (flow, true) | None => (nil, false) end.

(** ** [statemachine.go]: the signed cookie *)

Definition signPayload (payload key : string) : string :=
  RawURLEncode (hmac_sha256 key payload).

Definition ClearStateCookie (w : Response) : Response :=
  SetCookie (MkCookie CookieName EmptyString (-1) "/" true false) w.

Section Cookie.
Context {U : Unicode} {L : LocalTime}.

Definition saved_members (sr : SavedRequest) (saved_at : string) : list (string * string) :=
  [("Method", json_quote (sr_Method sr)); ("Path", json_quote (sr_Path sr));
   ("Query", json_quote (sr_Query sr)); ("StateID", json_quote (sr_StateID sr));
   ("SavedAt", saved_at); ("ACRHint", json_quote (sr_ACRHint sr));
   ("MaxAge", fmt_d (sr_MaxAge sr))].

(** [Encode]: marshalling fails only on the year of [SavedAt]. *)
Definition Encode (sr : SavedRequest) : res string :=
  match time_MarshalJSON (sr_SavedAt sr) with
  | None => Err (errorf "json: error calling MarshalJSON for type time.Time")
  | Some t => Ok (URLEncode (json_object (saved_members sr t)))
  end.

Definition saved_zero : SavedRequest :=
  MkSaved EmptyString EmptyString EmptyString EmptyString time_zero EmptyString 0.

Definition saved_names : list string :=
  ["Method"; "Path"; "Query"; "StateID"; "SavedAt"; "ACRHint"; "MaxAge"].

Definition saved_set (name raw : string) (j : json) (sr : SavedRequest) : option SavedRequest :=
  let '(MkSaved m p q i at_ a age) := sr in
  if String.eqb name "Method" then v ← dec_string m j; Some (MkSaved v p q i at_ a age)
  else if String.eqb name "Path" then v ← dec_string p j; Some (MkSaved m v q i at_ a age)
  else if String.eqb name "Query" then v ← dec_string q j; Some (MkSaved m p v i at_ a age)
  else if String.eqb name "StateID" then v ← dec_string i j; Some (MkSaved m p q v at_ a age)
  else if String.eqb name "SavedAt" then v ← time_UnmarshalJSON at_ raw; Some (MkSaved m p q i v a age)
  else if String.eqb name "ACRHint" then v ← dec_string a j; Some (MkSaved m p q i at_ v age)
  else v ← dec_int64 age j; Some (MkSaved m p q i at_ a v).

Definition DecodeSavedRequest (encoded : string) : res SavedRequest :=
  match URLDecode encoded with
  | None => Err (errorw "invalid encoded state" (errorf "illegal base64 data"))
  | Some b =>
      match j ← json_Unmarshal b; dec_struct saved_names saved_set saved_zero j with
      | None => Err (errorw "invalid state payload" (errorf "json"))
      | Some sr => Ok sr
      end
  end.

Definition SetStateCookie (w : Response) (saved : SavedRequest) (signingKey : string)
    : option error * Response :=
  match Encode saved with
  | Err e => (Some (errorw "encoding saved request" e), w)
  | Ok payload =>
      let value := payload +:+ "." +:+ signPayload payload signingKey in
      (None, SetCookie (MkCookie CookieName value cookieMaxAge "/" true true) w)
  end.

(** [ReadStateCookie]: [Ok None] when the cookie is absent. *)
Definition ReadStateCookie (now : Time) (r : Request) (signingKey : string)
    : res (option SavedRequest) :=
  match request_Cookie r CookieName with
  | None => Ok None
  | Some value =>
      match SplitN2 value "." with
      | [payload; sig] =>
          let expected := signPayload payload signingKey in
          if negb (hmac_Equal sig expected)
          then Err (errorf "invalid step-up cookie signature") else
          match DecodeSavedRequest payload with
          | Err e => Err (errorw "decoding step-up cookie" e)
          | Ok saved =>
              if cookieMaxAge * Second <? time_Since now (sr_SavedAt saved)
              then Err (errorf "step-up cookie expired")
              else Ok (Some saved)
          end
      | _ => Err (errorf "malformed step-up cookie")
      end
  end.
End Cookie.

(** ** The header round trip *)

(** What a value may contain to survive [ParseWWWAuthenticate]: ASCII without
    commas (the parser splits on them) and without quotes (not escaped). *)
Definition plain_value (s : string) : Prop :=
  is_ascii s = true /\ ","%char ∉ str_bytes s /\ dquote ∉ str_bytes s.

(** A parameter name: ASCII letters and underscores. *)
Definition is_name_char (c : ascii) : bool := is_lower (byte_val c) || Ascii.eqb c "_".
Definition param_name (n : string) : Prop := str_forall is_name_char n = true /\ n <> EmptyString.

Lemma name_char_facts c :
  is_name_char c = true ->
  is_ascii_char c = true /\ is_space c = false /\ c <> "="%char /\ c <> ","%char /\ c <> dquote.
Proof. destruct c as [[] [] [] [] [] [] [] []]; vm_compute; repeat split; done. Qed.

Lemma param_name_trimmed n : param_name n -> trimmed n.
Proof.
  intros [Hn Hne]. split; [|split].
  - unfold is_ascii. rewrite str_forall_spec in *. intros c Hc. by apply name_char_facts, Hn.
  - destruct n as [|c n]; [done|]. cbn [head_ok]. rewrite str_forall_spec in Hn.
    apply negb_true_iff. apply name_char_facts, Hn. set_solver.
  - exists (bytes_str (removelast (str_bytes n))), (List.last (str_bytes n) "000"%char).
    assert (Hb : str_bytes n <> []) by (by destruct n).
    split.
    + change (str1 ?c) with (bytes_str [c]). rewrite <- bytes_str_app.
      by rewrite <- app_removelast_last, bytes_str_bytes.
    + apply name_char_facts. rewrite str_forall_spec in Hn. apply Hn.
      apply list_elem_of_In. rewrite (app_removelast_last "000"%char Hb) at 2.
      apply in_or_app. right. by left.
Qed.

Lemma param_name_no n c : param_name n -> is_name_char c = false -> c ∉ str_bytes n.
Proof. intros [Hn _] Hc. by eapply not_elem_forall. Qed.

Lemma quoted_trimmed v : is_ascii v = true -> trimmed (str1 dquote +:+ v +:+ str1 dquote).
Proof.
  intros Hv. split; [|split].
  - by rewrite !is_ascii_app, Hv.
  - done.
  - exists (str1 dquote +:+ v), dquote. by rewrite str_app_assoc.
Qed.

Lemma digits_facts ds :
  str_forall is_digit ds = true -> ds <> EmptyString ->
  trimmed ds /\ dquote ∉ str_bytes ds /\ ","%char ∉ str_bytes ds.
Proof.
  intros Hd Hne. split; [|split; by eapply not_elem_forall].
  assert (Hf : forall c, is_digit c = true -> is_ascii_char c = true /\ is_space c = false).
  { intros c. destruct c as [[] [] [] [] [] [] [] []]; vm_compute; done. }
  rewrite str_forall_spec in Hd. split; [|split].
  - unfold is_ascii. apply str_forall_spec. intros c Hc. by apply Hf, Hd.
  - destruct ds as [|c ds]; [done|]. cbn [head_ok]. apply negb_true_iff, Hf, Hd. set_solver.
  - exists (bytes_str (removelast (str_bytes ds))), (List.last (str_bytes ds) "000"%char).
    assert (Hb : str_bytes ds <> []) by (by destruct ds). split.
    + change (str1 ?c) with (bytes_str [c]). rewrite <- bytes_str_app.
      by rewrite <- app_removelast_last, bytes_str_bytes.
    + apply Hf, Hd, list_elem_of_In. rewrite (app_removelast_last "000"%char Hb) at 2.
      apply in_or_app. right. by left.
Qed.

(** The name and the value that [parse_part] sees in [pad name=value]. *)
Lemma part_fields pad name v :
  is_ascii pad = true -> str_forall is_space pad = true -> param_name name -> trimmed v ->
  SplitN2 (TrimSpace (pad +:+ name +:+ "=" +:+ v)) "=" = [name; v] /\
  TrimSpace name = name /\ TrimSpace v = v.
Proof.
  intros Hpa Hps Hn Hv. pose proof (param_name_trimmed name Hn) as Hnt.
  split; [|split; by apply TrimSpace_id].
  rewrite TrimSpace_trimmed; [|done|done|].
  - unfold SplitN2. change (name +:+ "=" +:+ v) with (name +:+ String "=" v).
    change "=" with (str1 "="). rewrite Cut_byte_first; [done|]. by apply param_name_no.
  - destruct Hv as (Hva & Hvh & t & c & -> & Hc). destruct Hnt as (Hna & Hnh & _). split; [|split].
    + rewrite !is_ascii_app. rewrite is_ascii_app in Hva. by rewrite Hna, Hva.
    + destruct Hn as [_ Hne]. by destruct name.
    + exists (name +:+ "=" +:+ t), c. split; [|done]. by rewrite !str_app_assoc.
Qed.

Lemma parse_part_attr c pad name v :
  is_ascii pad = true -> str_forall is_space pad = true -> param_name name -> plain_value v ->
  parse_part c (pad +:+ attr name v) =
  let '(MkChallenge acr age err desc realm) := c in
  if String.eqb name "realm" then MkChallenge acr age err desc v
  else if String.eqb name "error" then MkChallenge acr age v desc realm
  else if String.eqb name "error_description" then MkChallenge acr age err v realm
  else if String.eqb name "acr_values" then MkChallenge v age err desc realm
  else if String.eqb name "max_age" then MkChallenge acr (Sscanf_d age v) err desc realm
  else c.
Proof.
  intros Hpa Hps Hn (Hva & _ & Hvq). unfold attr.
  destruct (part_fields pad name (str1 dquote +:+ v +:+ str1 dquote)) as (Hs & Hk & Hv); try done.
  { by apply quoted_trimmed. }
  unfold parse_part. rewrite Hs, Hk, Hv, Trim_quoted by done. done.
Qed.

Lemma Sscanf_fmt_d old n : 0 < n <= max_int64 -> Sscanf_d old (fmt_d n) = n.
Proof.
  intros Hn. destruct n as [|p|p]; [lia| |lia].
  destruct (pos_numeral p) as (s & Hf & _ & Hd & Hz). rewrite Hf.
  unfold Sscanf_d. rewrite runes_ascii.
  2: { apply digits_facts; [done|by destruct s]. }
  destruct s as [|c s]; [done|]. destruct Hz as [Hc _].
  assert (Hsp : IsSpace (byte_val c) = false /\ c <> "+"%char /\ c <> "-"%char).
  { revert Hc. destruct c as [[] [] [] [] [] [] [] []]; vm_compute; done. }
  cbn [str_bytes map drop_while fst]. destruct Hsp as (-> & Hp & Hm). cbn [andb].
  change (concat_chunks _) with
    (concat_chunks (map (fun c => (byte_val c, str1 c)) (str_bytes (String c s)))).
  rewrite concat_chunks_bytes, bytes_str_bytes.
  assert (Hsign : match String c s with
             | String "+" r => (EmptyString, r)
             | String "-" r => ("-", r)
             | _ => (EmptyString, String c s) end = (EmptyString, String c s)).
  { destruct c as [[] [] [] [] [] [] [] []]; done. }
  rewrite Hsign. unfold scan_digits1.
  pose proof (span_app is_digit (String c s) EmptyString Hd I) as Hspan.
  rewrite str_app_nil_r in Hspan. rewrite Hspan. cbn [String.append].
  rewrite <- Hf, parse_int_fmt_d; [done|]. unfold int64_ok, min_int64 in *. lia.
Qed.

Lemma parse_part_max_age c pad n :
  is_ascii pad = true -> str_forall is_space pad = true -> 0 < n <= max_int64 ->
  parse_part c (pad +:+ "max_age=" +:+ fmt_d n) =
  MkChallenge (ch_ACRValues c) n (ch_Error c) (ch_ErrorDescription c) (ch_Realm c).
Proof.
  intros Hpa Hps Hn.
  assert (Hd : str_forall is_digit (fmt_d n) = true /\ fmt_d n <> EmptyString).
  { destruct n as [|p|p]; [lia| |lia]. destruct (pos_numeral p) as (s & -> & _ & Hd & Hz).
    split; [done|]. by destruct s. }
  destruct Hd as [Hd Hne]. destruct (digits_facts _ Hd Hne) as (Ht & Hq & _).
  destruct (part_fields pad "max_age" (fmt_d n)) as (Hs & Hk & Hv); try done.
  unfold parse_part. change ("max_age=" +:+ fmt_d n) with ("max_age" +:+ "=" +:+ fmt_d n).
  rewrite Hs, Hk, Hv, Trim_id by done. destruct c. cbn [String.eqb Ascii.eqb Bool.eqb].
  by rewrite Sscanf_fmt_d.
Qed.

Definition part_ok (p : string) : Prop := trimmed p /\ ","%char ∉ str_bytes p.

Lemma attr_ok name v : param_name name -> plain_value v -> part_ok (attr name v).
Proof.
  intros Hn (Ha & Hc & _). destruct (quoted_trimmed v Ha) as (Hqa & _ & t & x & Hx & Hsp).
  pose proof (param_name_trimmed name Hn) as (Hna & Hnh & _). split; [split; [|split]|].
  - unfold attr. rewrite !is_ascii_app in *. by rewrite Hna, Hqa.
  - unfold attr. destruct Hn as [_ Hne]. by destruct name.
  - exists (name +:+ "=" +:+ t), x. split; [|done]. unfold attr. by rewrite Hx, !str_app_assoc.
  - unfold attr. rewrite !str_bytes_app, !elem_of_app.
    intros [Hi|[Hi|[Hi|[Hi|Hi]]]]; [|set_solver|set_solver|done|set_solver].
    by apply (param_name_no name ","%char Hn).
Qed.

Lemma attr_if_ok name v : param_name name -> plain_value v -> Forall part_ok (attr_if name v).
Proof.
  intros Hn Hv. unfold attr_if. destruct (String.eqb v EmptyString); [done|].
  constructor; [by apply attr_ok|done].
Qed.

Lemma max_age_ok n : 0 < n -> part_ok ("max_age=" +:+ fmt_d n).
Proof.
  intros Hn. destruct n as [|p|p]; [lia| |lia].
  destruct (pos_numeral p) as (s & -> & _ & Hd & Hz).
  destruct (digits_facts s Hd) as ((Ha & Hh & t & x & -> & Hx) & _ & Hc); [by destruct s|].
  split; [split; [|split]|].
  - by rewrite is_ascii_app, Ha.
  - done.
  - exists ("max_age=" +:+ t), x. by rewrite str_app_assoc.
  - rewrite str_bytes_app, elem_of_app. intros [Hi|Hi]; [|done].
    repeat (apply elem_of_cons in Hi as [Hi|Hi]; [done|]). by apply elem_of_nil in Hi.
Qed.

Lemma Join_trimmed x l : Forall trimmed (x :: l) -> trimmed (Join (x :: l) ", ").
Proof.
  revert x. induction l as [|y l IH]; intros x Hl; apply Forall_cons_1 in Hl as [Hx Hl]; [done|].
  destruct (IH y Hl) as (Ha & _ & t & c & Ht & Hc). destruct Hx as (Hxa & Hxh & _).
  change (Join (x :: y :: l) ", ") with (x +:+ ", " +:+ Join (y :: l) ", ").
  split; [|split].
  - by rewrite !is_ascii_app, Hxa, Ha.
  - by destruct x.
  - exists (x +:+ ", " +:+ t), c. rewrite Ht, !str_app_assoc. done.
Qed.

Definition set_param (name v : string) (c : StepUpChallenge) : StepUpChallenge :=
  let '(MkChallenge acr age err desc realm) := c in
  if String.eqb name "realm" then MkChallenge acr age err desc v
  else if String.eqb name "error" then MkChallenge acr age v desc realm
  else if String.eqb name "error_description" then MkChallenge acr age err v realm
  else if String.eqb name "acr_values" then MkChallenge v age err desc realm
  else if String.eqb name "max_age" then MkChallenge acr (Sscanf_d age v) err desc realm
  else c.

Lemma foldl_attr_if c name v :
  param_name name -> plain_value v ->
  foldl parse_part c (map (fun s => " " +:+ s) (attr_if name v)) =
  if String.eqb v EmptyString then c else set_param name v c.
Proof.
  intros Hn Hv. unfold attr_if. destruct (String.eqb v EmptyString); [done|].
  cbn [map foldl]. by apply parse_part_attr.
Qed.

(** C33: a challenge survives its header.  When its texts are ASCII without
    commas and quotes, parsing the [WWW-Authenticate] value that
    [WWWAuthenticateHeader] builds gives back every field, the realm defaulting
    to "IAM", whatever other spaces and ["="] signs the texts contain. *)
Theorem WWWAuthenticate_roundtrip c :
  plain_value (ch_ACRValues c) -> plain_value (ch_Error c) ->
  plain_value (ch_ErrorDescription c) -> plain_value (ch_Realm c) ->
  0 <= ch_MaxAge c <= max_int64 ->
  ParseWWWAuthenticate (WWWAuthenticateHeader c) =
  Ok (MkChallenge (ch_ACRValues c) (ch_MaxAge c) (ch_Error c) (ch_ErrorDescription c)
        (if String.eqb (ch_Realm c) EmptyString then "IAM" else ch_Realm c)).
Proof.
  intros Hacr Herr Hdesc Hrealm Hage.
  unfold ParseWWWAuthenticate, WWWAuthenticateHeader, challenge_parts.
  set (realm := if String.eqb (ch_Realm c) EmptyString then "IAM" else ch_Realm c).
  assert (Hr : plain_value realm).
  { subst realm. destruct (String.eqb _ _); [|done].
    split; [done|]. split; by eapply (not_elem_forall (fun c => is_upper (byte_val c))). }
  clearbody realm.
  set (ages := if 0 <? ch_MaxAge c then _ else _).
  assert (Hages : Forall part_ok ages).
  { subst ages. destruct (Z.ltb_spec 0 (ch_MaxAge c)); [|done].
    constructor; [by apply max_age_ok|done]. }
  set (rest := (attr_if "error" _ ++ attr_if "error_description" _ ++ attr_if "acr_values" _ ++ ages)%list).
  assert (Hparts : Forall part_ok (attr "realm" realm :: rest)).
  { constructor; [by apply attr_ok|]. subst rest. rewrite !Forall_app.
    split; [by apply attr_if_ok|]. split; [by apply attr_if_ok|].
    split; [by apply attr_if_ok|done]. }
  change ([attr "realm" realm] ++ rest)%list with (attr "realm" realm :: rest).
  assert (Ht : trimmed ("Bearer " +:+ Join (attr "realm" realm :: rest) ", ")).
  { destruct (Join_trimmed (attr "realm" realm) rest) as (Ha & _ & t & x & Hx & Hsp).
    { eapply Forall_impl; [exact Hparts|]. by intros p [? _]. }
    split; [|split; [done|]]; [by rewrite is_ascii_app, Ha|].
    exists ("Bearer " +:+ t), x. by rewrite Hx, str_app_assoc. }
  rewrite TrimSpace_id by exact Ht. rewrite HasPrefix_app, TrimPrefix_app. cbn [negb].
  rewrite (Split_Join "," " "); [|eapply Forall_impl; [exact Hparts|by intros p [_ ?]]|].
  2: { intros Hi. apply elem_of_cons in Hi as [Hi|Hi]; [done|]. by apply elem_of_nil in Hi. }
  subst rest. rewrite !map_app. cbn [foldl]. rewrite !foldl_app.
  change (attr "realm" realm) with (EmptyString +:+ attr "realm" realm).
  rewrite parse_part_attr by done. rewrite !foldl_attr_if by done.
  unfold empty_challenge. cbn [set_param String.eqb Ascii.eqb Bool.eqb]. f_equal. subst ages.
  destruct (String.eqb_spec (ch_Error c) EmptyString) as [->|];
    destruct (String.eqb_spec (ch_ErrorDescription c) EmptyString) as [->|];
    destruct (String.eqb_spec (ch_ACRValues c) EmptyString) as [->|];
    destruct (Z.ltb_spec 0 (ch_MaxAge c)); cbn [map foldl set_param String.eqb Ascii.eqb Bool.eqb];
    rewrite ?parse_part_max_age by (done || lia); cbn [ch_ACRValues ch_Error ch_ErrorDescription ch_Realm];
    try done; by replace (ch_MaxAge c) with 0 by lia.
Qed.

Example WWWAuthenticate_roundtrip_witness :
  ParseWWWAuthenticate
    (WWWAuthenticateHeader (MkChallenge "urn:acr:2" 300 "insufficient_user_authentication"
       "higher level = required" "bank"))
  = Ok (MkChallenge "urn:acr:2" 300 "insufficient_user_authentication"
       "higher level = required" "bank").
Proof.
  apply (WWWAuthenticate_roundtrip (MkChallenge "urn:acr:2" 300 "insufficient_user_authentication"
       "higher level = required" "bank"));
    try (split; [reflexivity|split; vm_compute; intros H;
         repeat (apply elem_of_cons in H as [H|H]; [discriminate H|]); by apply elem_of_nil in H]).
  vm_compute. split; discriminate.
Defined.

(** ** The flow as a transition system *)

Inductive flow_label :=
| LComplete (now1 now2 : Time) (result : option error)
| LFail.

Inductive flow_step (sm : StateMachine) : FlowState -> flow_label -> FlowState -> Prop :=
| step_complete f now1 now2 :
    flow_step sm f (LComplete now1 now2 (fst (Complete sm now1 now2 f)))
                   (snd (Complete sm now1 now2 f))
| step_fail f : flow_step sm f LFail (Fail f).

(** A run, the latest transition last. *)
Inductive flow_run (sm : StateMachine) (f0 : FlowState) : list flow_label -> FlowState -> Prop :=
| run_nil : flow_run sm f0 [] f0
| run_snoc tr f l f' :
    flow_run sm f0 tr f -> flow_step sm f l f' -> flow_run sm f0 (tr ++ [l])%list f'.

Definition rejected (l : flow_label) : Prop :=
  match l with LComplete _ _ (Some _) => True | _ => False end.
Definition succeeded (l : flow_label) : bool :=
  match l with LComplete _ _ None => true | _ => false end.

Definition flow_invariant (sm : StateMachine) (f0 : FlowState) (tr : list flow_label)
    (f : FlowState) : Prop :=
  fs_Challenge f = fs_Challenge f0 /\ fs_SavedRequest f = fs_SavedRequest f0 /\
  fs_StartedAt f = fs_StartedAt f0 /\
  (List.length (List.filter succeeded tr) <= 1)%nat /\
  match fs_State f with
  | StateChallenge => tr = []
  | StateCompleted => exists now1 now2 rest,
      tr = LComplete now1 now2 None :: rest /\ Forall rejected rest /\
      time_Since now1 (fs_StartedAt f0) <= sm_Timeout sm /\ fs_CompletedAt f = now2
  | StateFailed => tr <> []
  | _ => False
  end.

Lemma filter_succeeded_snoc tr l :
  succeeded l = false ->
  List.filter succeeded (tr ++ [l])%list = List.filter succeeded tr.
Proof. intros Hl. rewrite List.filter_app. simpl. by rewrite Hl, app_nil_r. Qed.

Lemma flow_invariant_step sm f0 tr f l f' :
  flow_invariant sm f0 tr f -> flow_step sm f l f' -> flow_invariant sm f0 (tr ++ [l])%list f'.
Proof.
  intros (Hc & Hs & Ht & Hn & Hst) Hstep. inversion Hstep as [g n1 n2|g]; subst; clear Hstep.
  - unfold Complete. destruct (bool_decide_reflect (fs_State f = StateChallenge)) as [E|E]; cbn [negb].
    + rewrite E in Hst. subst tr. destruct (Z.ltb_spec (sm_Timeout sm) (time_Since n1 (fs_StartedAt f)));
        cbn [fst snd]; (split; [done|]; split; [done|]; split; [done|]; simpl); [split; [lia|done]|].
      split; [lia|]. exists n1, n2, []. rewrite Ht in *. auto.
    + cbn [fst snd]. split; [done|]. split; [done|]. split; [done|].
      rewrite filter_succeeded_snoc by done. split; [done|].
      destruct (fs_State f); try done; [|by destruct tr].
      destruct Hst as (m1 & m2 & rest & -> & Hr & Hle & Hat). exists m1, m2, (rest ++ [LComplete n1 n2 (Some (errorf ("cannot complete flow in state " +:+ State_String StateCompleted)))])%list.
      split; [done|]. split; [by apply Forall_app; split; [|constructor]|done].
  - split; [done|]. split; [done|]. split; [done|]. rewrite filter_succeeded_snoc by done.
    split; [done|]. simpl. by destruct tr.
Qed.

(** C31: the lifecycle of a challenge.  In every run of [Complete] and [Fail]
    calls on the flow that [BeginChallenge] starts, the saved request, the
    challenge and the start time never change; [Complete] succeeds at most
    once; and the flow is [StateCompleted] only if the very first call was a
    [Complete] within [Timeout] of the start, after which only rejected
    [Complete] calls followed. *)
Theorem flow_lifecycle sm rand now1 now2 r challenge tr f :
  flow_run sm (BeginChallenge rand now1 now2 r challenge) tr f ->
  flow_invariant sm (BeginChallenge rand now1 now2 r challenge) tr f.
Proof.
  induction 1 as [|tr f l f' Hrun IH Hstep].
  - repeat split; simpl; lia.
  - by eapply flow_invariant_step.
Qed.

Definition demo_http_request : Request :=
  MkRequest "POST" "/api/pay" "id=7" "/api/pay?id=7" "/api/pay?id=7" "bank.example" true
    "10.0.0.1:999" ∅ [] (Some EmptyString).
Definition demo_challenge : StepUpChallenge := MkChallenge "urn:acr:2" 300 "e" "d" "bank".

Example flow_lifecycle_witness :
  let f0 := BeginChallenge "0123456789abcdef" 0 0 demo_http_request demo_challenge in
  flow_invariant NewStateMachine f0 [LComplete Minute Minute None]
    (snd (Complete NewStateMachine Minute Minute f0)).
Proof.
  intros f0. apply flow_lifecycle.
  apply (run_snoc _ _ [] f0); [constructor|].
  exact (step_complete NewStateMachine f0 Minute Minute).
Defined.

(** ** The cookie *)

Section CookieProofs.
Context {U : Unicode} {L : LocalTime}.

(** A saved request that JSON carries exactly: ASCII texts, an [int], an
    instant of the years 0 to 9999. *)
Definition saved_ok (sr : SavedRequest) : Prop :=
  is_ascii (sr_Method sr) = true /\ is_ascii (sr_Path sr) = true /\
  is_ascii (sr_Query sr) = true /\ is_ascii (sr_StateID sr) = true /\
  is_ascii (sr_ACRHint sr) = true /\ int64_ok (sr_MaxAge sr) /\
  time_text local_offset (sr_SavedAt sr) <> None.

Definition zone_ok : Prop := local_offset mod 60 = 0 /\ Z.abs local_offset < 24 * 3600.

Lemma DecodeSavedRequest_Encode sr :
  zone_ok -> saved_ok sr ->
  exists payload, Encode sr = Ok payload /\ DecodeSavedRequest payload = Ok sr /\
    "."%char ∉ str_bytes payload.
Proof.
  intros [Hm Ha] (H1 & H2 & H3 & H4 & H5 & H6 & H7). unfold Encode.
  destruct (time_MarshalJSON (sr_SavedAt sr)) as [t|] eqn:Ht.
  2: { unfold time_MarshalJSON in Ht. by destruct (time_text _ _). }
  eexists. split; [done|]. split; [|apply b64_encode_no_dot].
  unfold DecodeSavedRequest, URLDecode, URLEncode. rewrite b64_decode_encode.
  pose proof (time_UnmarshalJSON_Marshal time_zero _ _ Hm Ha Ht) as Hu.
  apply time_MarshalJSON_quote in Ht as (s & _ & Hs & ->).
  set (l := [("Method", (json_quote (sr_Method sr), JStr (sr_Method sr)));
             ("Path", (json_quote (sr_Path sr), JStr (sr_Path sr)));
             ("Query", (json_quote (sr_Query sr), JStr (sr_Query sr)));
             ("StateID", (json_quote (sr_StateID sr), JStr (sr_StateID sr)));
             ("SavedAt", (json_quote s, JStr s));
             ("ACRHint", (json_quote (sr_ACRHint sr), JStr (sr_ACRHint sr)));
             ("MaxAge", (fmt_d (sr_MaxAge sr), JNum (fmt_d (sr_MaxAge sr))))]).
  change (saved_members sr (json_quote s)) with (map (fun m => (m.1, m.2.1)) l).
  rewrite json_Unmarshal_object; [|done|].
  - cbn [mbind option_bind dec_struct l dec_members].
    rewrite !match_field_exact by set_solver.
    unfold saved_set, saved_zero. cbn [String.eqb Ascii.eqb Bool.eqb dec_string mbind option_bind].
    rewrite Hu. cbn [mbind option_bind dec_int64]. rewrite parse_int_fmt_d by done. by destruct sr.
  - pose proof (is_plain_ascii s Hs). subst l.
    repeat (constructor; [split; [done|]; eexists; split;
                          [first [by apply reads_quote|apply reads_fmt_d]|done]|]). constructor.
Qed.
End CookieProofs.

(** The cookie round trip.  [SetStateCookie] sets exactly one HttpOnly
    cookie, and a request that brings its value back within ten minutes, to
    any instance with the same signing key, makes [ReadStateCookie] return the
    saved request unchanged. *)
Theorem state_cookie_roundtrip {U : Unicode} {L : LocalTime} w saved key now :
  zone_ok -> saved_ok saved -> now - sr_SavedAt saved <= cookieMaxAge * Second ->
  exists value,
    SetStateCookie w saved key =
      (None, SetCookie (MkCookie CookieName value cookieMaxAge "/" true true) w) /\
    forall r, request_Cookie r CookieName = Some value ->
      ReadStateCookie now r key = Ok (Some saved).
Proof.
  intros Hz Hs Hnow. destruct (DecodeSavedRequest_Encode saved Hz Hs) as (payload & He & Hd & Hdot).
  unfold SetStateCookie. rewrite He. eexists. split; [done|]. intros r Hr.
  unfold ReadStateCookie. rewrite Hr. unfold SplitN2.
  change (payload +:+ "." +:+ ?x) with (payload +:+ String "." x). change "." with (str1 ".").
  rewrite Cut_byte_first by done. rewrite (proj2 (hmac_Equal_spec _ _) eq_refl). cbn [negb].
  rewrite Hd. destruct (Z.ltb_spec (cookieMaxAge * Second) (time_Since now (sr_SavedAt saved))) as [H|H];
    [|done].
  unfold time_Since, time_Sub, clamp64, cookieMaxAge, Second, min_int64, max_int64 in *. lia.
Qed.

Definition demo_saved : SavedRequest :=
  MkSaved "POST" "/api/pay" "id=7&x=<y>" "00ff" (1700000000 * Second + 5) "urn:acr:2" 300.

Example state_cookie_roundtrip_witness :
  exists value,
    SetStateCookie empty_response demo_saved "secret" =
      (None, SetCookie (MkCookie CookieName value cookieMaxAge "/" true true) empty_response) /\
    forall r, request_Cookie r CookieName = Some value ->
      ReadStateCookie (U := unicode_min) (1700000060 * Second) r "secret" = Ok (Some demo_saved).
Proof.
  apply (state_cookie_roundtrip (U := unicode_min) empty_response demo_saved "secret").
  - split; reflexivity.
  - repeat split; try reflexivity; vm_compute; discriminate.
  - vm_compute. discriminate.
Defined.

(** A cookie that carries [saved]: a payload, a dot and the payload's tag, not
    older than ten minutes. *)
Definition authentic_cookie {U : Unicode} {L : LocalTime} (now : Time) (r : Request) (key : string)
    (saved : SavedRequest) : Prop :=
  exists payload,
    request_Cookie r CookieName = Some (payload +:+ "." +:+ signPayload payload key) /\
    "."%char ∉ str_bytes payload /\
    DecodeSavedRequest payload = Ok saved /\
    now - sr_SavedAt saved <= cookieMaxAge * Second.

Lemma ReadStateCookie_iff {U : Unicode} {L : LocalTime} now r key saved :
  ReadStateCookie now r key = Ok (Some saved) <-> authentic_cookie now r key saved.
Proof.
  unfold ReadStateCookie, authentic_cookie. destruct (request_Cookie r CookieName) as [value|]; [|naive_solver].
  assert (Hage : forall t, cookieMaxAge * Second <? time_Since now t = false <->
                           now - t <= cookieMaxAge * Second).
  { intros t. rewrite Z.ltb_ge. unfold time_Since, time_Sub, clamp64, cookieMaxAge, Second, min_int64, max_int64.
    lia. }
  unfold SplitN2. change "." with (str1 ".").
  destruct (decide ("."%char ∈ str_bytes value)) as [Hin|Hin].
  2: { rewrite Cut_byte_None by done. split; [done|]. intros (p & [= ->] & _).
       exfalso. apply Hin. rewrite str_bytes_app. apply elem_of_app. right. by left. }
  destruct (Cut value (str1 ".")) as [[payload sig]|] eqn:Hcut.
  2: { exfalso. apply list_elem_of_split in Hin as (l1 & l2 & Hl).
       apply (f_equal bytes_str) in Hl. rewrite bytes_str_bytes, bytes_str_app in Hl.
       subst value. by apply (Cut_app_not_None (bytes_str l1) (str1 ".") (bytes_str l2)). }
  pose proof (Cut_Some _ _ _ _ Hcut) as Hv.
  assert (Hdot : "."%char ∉ str_bytes payload).
  { intros Hp. apply list_elem_of_split_l in Hp as (l1 & l2 & Hl & Hn).
    apply (f_equal bytes_str) in Hl. rewrite bytes_str_bytes, bytes_str_app in Hl.
    subst payload value. rewrite str_app_assoc in Hcut.
    change (bytes_str ("."%char :: l2) +:+ ?x) with (String "." (bytes_str l2 +:+ x)) in Hcut.
    rewrite Cut_byte_first in Hcut by (by rewrite str_bytes_str).
    injection Hcut as Hc _. apply (f_equal String.length) in Hc. rewrite str_length_app in Hc.
    simpl in Hc. lia. }
  split.
  - destruct (hmac_Equal sig _) eqn:Hh; [|done]. cbn [negb].
    apply hmac_Equal_spec in Hh as ->. destruct (DecodeSavedRequest payload) as [s|] eqn:Hd; [|done].
    destruct (_ <? _) eqn:Ht; [done|]. intros [= <-]. exists payload.
    rewrite <- Hv. by rewrite <- Hage.
  - intros (p & [= Hvp] & Hpd & Hd & Ht). 
    assert (p = payload /\ sig = signPayload p key) as [-> ->].
    { rewrite Hvp in Hcut. change (p +:+ str1 "." +:+ ?x) with (p +:+ String "." x) in Hcut.
      rewrite Cut_byte_first in Hcut by done. by injection Hcut as -> ->. }
    rewrite (proj2 (hmac_Equal_spec _ _) eq_refl). cbn [negb]. rewrite Hd.
    by rewrite (proj2 (Hage _) Ht).
Qed.

(** C29: the cookie cannot be forged.  [ReadStateCookie] returns a saved request
    exactly when the cookie is a payload, a dot and the HMAC-SHA256 tag of that
    payload under the signing key, the payload decodes to the request, and the
    request was saved at most ten minutes ago (the [MaxAge] of the cookie plays
    no role). *)
Theorem ReadStateCookie_authentic {U : Unicode} {L : LocalTime} now r key saved :
  ReadStateCookie now r key = Ok (Some saved) <->
  exists payload,
    request_Cookie r CookieName = Some (payload +:+ "." +:+ signPayload payload key) /\
    "."%char ∉ str_bytes payload /\
    DecodeSavedRequest payload = Ok saved /\
    now - sr_SavedAt saved <= cookieMaxAge * Second.
Proof. apply ReadStateCookie_iff. Qed.
