(* ===== verification/Claims.v ===== *)
(** * Token claims: [pkg/core/token/claims.go] and [introspect.go]

    [CommonClaims] and its accessors, the RFC 7662 introspection response and
    its normalisation, and the extraction of the bearer token.  The exchange
    with the authorization server is a parameter. *)

From S2P Require Import Prelude GoString GoTime Encoding Json JsonText TextLemmas TimeText Rar Http.

(** ** Dynamic values: [interface{}] as [encoding/json] fills it

    [GStrings] is a Go [[]string] and [GInt] an [int] or [int64], which JSON
    decoding never produces (it yields [GSlice] and [GNumber]); a [GNumber] is
    a [float64], kept as the literal it was read from. *)
Inductive goval : Set :=
| GNil
| GBool (b : bool)
| GNumber (lit : string)
| GInt (z : Z)
| GString (s : string)
| GStrings (l : list string)
| GSlice (l : list goval)
| GMap (l : list (string * goval)).

Definition dec_nat (s : string) : option Z := dec_acc 0 s.

(** [strconv.ParseFloat(lit, 64)] fails on a literal that rounds past the
    largest double. *)
Definition float_overflow (lit : string) : bool :=
  let lit := match lit with String "-" r => r | _ => lit end in
  let '(ip, r) := span is_digit lit in
  let '(fp, r) := match r with String "." r' => span is_digit r' | _ => (EmptyString, r) end in
  let exp := match r with
             | String _ (String "+" r') => default 0 (dec_nat r')
             | String _ (String "-" r') => - default 0 (dec_nat r')
             | String _ r' => default 0 (dec_nat r')
             | EmptyString => 0
             end in
  let m := default 0 (dec_nat (ip +:+ fp)) in
  let e := exp - Z.of_nat (String.length fp) in
  let bound := 2 ^ 1024 - 2 ^ 970 in
  if m =? 0 then false
  else if 400 <? e then true
  else if 0 <=? e then bound <=? m * 10 ^ e
  else if Z.of_nat (String.length (ip +:+ fp)) <? - e then false
  else bound * 10 ^ (- e) <=? m.

(** A value decoded into an [interface{}]; [None] is a number out of range. *)
Fixpoint json_any (j : json) : option goval :=
  match j with
  | JNull => Some GNil
  | JBool b => Some (GBool b)
  | JNum lit => if float_overflow lit then None else Some (GNumber lit)
  | JStr s => Some (GString s)
  | JArr l =>
      GSlice <$> (fix elems l :=
        match l with
        | [] => Some []
        | (_, x) :: l' => v ← json_any x; vs ← elems l'; Some (v :: vs)
        end) l
  | JObj l =>
      GMap <$> (fix members l :=
        match l with
        | [] => Some []
        | (k, (_, x)) :: l' => v ← json_any x; vs ← members l'; Some ((k, v) :: vs)
        end) l
  end.

(** [v.(string)], the zero value when the assertion fails. *)
Definition as_string (v : option goval) : option string :=
  match v with Some (GString s) => Some s | _ => None end.

(** A [map[string]interface{}]; [None] is nil.  A later duplicate wins. *)
Abbreviation Object := (option (gmap string goval)) (only parsing).
Definition object_add (m : gmap string goval) (l : list (string * (string * json)))
    : option (gmap string goval) :=
  foldl (fun m kv => m ← m; v ← json_any kv.2.2; Some (<[kv.1 := v]> m)) (Some m) l.

(** Into a [map[string]interface{}] that holds [old]. *)
Definition dec_object (old : Object) (j : json) : option Object :=
  match j with
  | JNull => Some None
  | JObj l => m ← object_add (default ∅ old) l; Some (Some m)
  | _ => None
  end.
Definition object_get (o : Object) (k : string) : option goval := m ← o; m !! k.

(** ** [claims.go] *)

Definition ErrMissingToken : error := sentinel "token.ErrMissingToken" "missing bearer token".
Definition ErrTokenExpired : error := sentinel "token.ErrTokenExpired" "token has expired".
Definition ErrTokenInactive : error := sentinel "token.ErrTokenInactive" "token is not active".
Definition ErrDPoPBindingMismatch : error :=
  sentinel "token.ErrDPoPBindingMismatch" "dpop proof does not match token binding".

Record Confirmation := MkConfirmation { cnf_JKT : string }.

Record CommonClaims := MkClaims {
  cl_Subject : string;
  cl_Issuer : string;
  cl_Audience : list string;
  cl_JTI : string;
  cl_ExpiresAt : Time;
  cl_IssuedAt : Time;
  cl_Confirmation : option Confirmation;
  cl_ACR : string;
  cl_AMR : list string;
  cl_SessionID : string;
  cl_AuthTime : Time;
  cl_Email : string;
  cl_Username : string;
  cl_Roles : list string;
  cl_Scopes : list string;
  cl_TenantID : string;
  cl_AuthorizationDetails : list AuthorizationDetail;
  cl_Extra : Object;
  cl_Active : bool
}.

(** [&CommonClaims{}], and one with only [Extra]. *)
Definition claims_extra (extra : Object) : CommonClaims :=
  MkClaims EmptyString EmptyString [] EmptyString time_zero time_zero None EmptyString []
    EmptyString time_zero EmptyString EmptyString [] [] EmptyString [] extra false.
Definition empty_claims : CommonClaims := claims_extra None.

Definition AuthAge (now : Time) (c : CommonClaims) : Duration :=
  if IsZero (cl_AuthTime c) then 0 else time_Since now (cl_AuthTime c).

Definition HasDPoP (c : CommonClaims) : bool :=
  match cl_Confirmation c with
  | Some cnf => negb (String.eqb (cnf_JKT cnf) EmptyString)
  | None => false
  end.

Definition extraString (c : CommonClaims) (key : string) : string :=
  default EmptyString (as_string (object_get (cl_Extra c) key)).

Definition HasPARRequestURI (c : CommonClaims) : bool :=
  negb (String.eqb (extraString c "request_uri") EmptyString) ||
  negb (String.eqb (extraString c "par_id") EmptyString).

Definition GetAuthAge (now : Time) (c : CommonClaims) : Duration := AuthAge now c.
Definition GetNonce (c : CommonClaims) : string := extraString c "nonce".
Definition HasScope (c : CommonClaims) (scope : string) : bool :=
  existsb (fun s => String.eqb s scope) (cl_Scopes c).
Definition HasRole (c : CommonClaims) (role : string) : bool :=
  existsb (fun r => String.eqb r role) (cl_Roles c).

(** ** [introspect.go]: the response *)

Record IntrospectionResponse := MkIntro {
  ir_Active : bool;
  ir_Sub : string;
  ir_Iss : string;
  ir_Exp : Z;
  ir_IAT : Z;
  ir_AuthTime : Z;
  ir_ACR : string;
  ir_AMR : list string;
  ir_Scope : string;
  ir_ClientID : string;
  ir_Username : string;
  ir_TokenType : string;
  ir_JTI : string;
  ir_Aud : list string;
  ir_Cnf : option Confirmation;
  ir_AuthorizationDetails : list AuthorizationDetail
}.

Definition intro_zero : IntrospectionResponse :=
  MkIntro false EmptyString EmptyString 0 0 0 EmptyString [] EmptyString EmptyString
    EmptyString EmptyString EmptyString [] None [].

(** [Audience.UnmarshalJSON]: a string, else an array of strings; JSON [null]
    is the string "" here. *)
Definition Audience_UnmarshalJSON (raw : string) : option (list string) :=
  j ← json_Unmarshal raw;
  match dec_string EmptyString j with
  | Some single => Some [single]
  | None => dec_strings [] j
  end.

Fixpoint dec_details (l : list (string * json)) : option (list AuthorizationDetail) :=
  match l with
  | [] => Some []
  | (raw, _) :: l' =>
      match Rar.UnmarshalJSON raw with
      | Ok d => ds ← dec_details l'; Some (d :: ds)
      | Err _ => None
      end
  end.

Section WithUnicode.
Context {U : Unicode}.

Definition cnf_set (name raw : string) (j : json) (c : Confirmation) : option Confirmation :=
  v ← dec_string (cnf_JKT c) j; Some (MkConfirmation v).

(** Into a [*Confirmation]: null makes it nil, an object fills the value it
    points to. *)
Definition dec_cnf (old : option Confirmation) (j : json) : option (option Confirmation) :=
  match j with
  | JNull => Some None
  | _ => c ← dec_struct ["jkt"] cnf_set (default (MkConfirmation EmptyString) old) j; Some (Some c)
  end.

Definition intro_names : list string :=
  ["active"; "sub"; "iss"; "exp"; "iat"; "auth_time"; "acr"; "amr"; "scope"; "client_id";
   "username"; "token_type"; "jti"; "aud"; "cnf"; "authorization_details"].

Definition intro_set (name raw : string) (j : json) (r : IntrospectionResponse)
    : option IntrospectionResponse :=
  let '(MkIntro active sub iss exp iat auth_time acr amr scope client_id username token_type
          jti aud cnf details) := r in
  let mk active sub iss exp iat auth_time acr amr scope client_id username token_type jti aud
         cnf details :=
    Some (MkIntro active sub iss exp iat auth_time acr amr scope client_id username token_type
            jti aud cnf details) in
  if String.eqb name "active" then v ← dec_bool active j;
    mk v sub iss exp iat auth_time acr amr scope client_id username token_type jti aud cnf details
  else if String.eqb name "sub" then v ← dec_string sub j;
    mk active v iss exp iat auth_time acr amr scope client_id username token_type jti aud cnf details
  else if String.eqb name "iss" then v ← dec_string iss j;
    mk active sub v exp iat auth_time acr amr scope client_id username token_type jti aud cnf details
  else if String.eqb name "exp" then v ← dec_int64 exp j;
    mk active sub iss v iat auth_time acr amr scope client_id username token_type jti aud cnf details
  else if String.eqb name "iat" then v ← dec_int64 iat j;
    mk active sub iss exp v auth_time acr amr scope client_id username token_type jti aud cnf details
  else if String.eqb name "auth_time" then v ← dec_int64 auth_time j;
    mk active sub iss exp iat v acr amr scope client_id username token_type jti aud cnf details
  else if String.eqb name "acr" then v ← dec_string acr j;
    mk active sub iss exp iat auth_time v amr scope client_id username token_type jti aud cnf details
  else if String.eqb name "amr" then v ← dec_strings amr j;
    mk active sub iss exp iat auth_time acr v scope client_id username token_type jti aud cnf details
  else if String.eqb name "scope" then v ← dec_string scope j;
    mk active sub iss exp iat auth_time acr amr v client_id username token_type jti aud cnf details
  else if String.eqb name "client_id" then v ← dec_string client_id j;
    mk active sub iss exp iat auth_time acr amr scope v username token_type jti aud cnf details
  else if String.eqb name "username" then v ← dec_string username j;
    mk active sub iss exp iat auth_time acr amr scope client_id v token_type jti aud cnf details
  else if String.eqb name "token_type" then v ← dec_string token_type j;
    mk active sub iss exp iat auth_time acr amr scope client_id username v jti aud cnf details
  else if String.eqb name "jti" then v ← dec_string jti j;
    mk active sub iss exp iat auth_time acr amr scope client_id username token_type v aud cnf details
  else if String.eqb name "aud" then v ← Audience_UnmarshalJSON raw;
    mk active sub iss exp iat auth_time acr amr scope client_id username token_type jti v cnf details
  else if String.eqb name "cnf" then v ← dec_cnf cnf j;
    mk active sub iss exp iat auth_time acr amr scope client_id username token_type jti aud v details
  else
    v ← match j with JArr l => dec_details l | JNull => Some [] | _ => None end;
    mk active sub iss exp iat auth_time acr amr scope client_id username token_type jti aud cnf v.

(** [json.NewDecoder(body).Decode(&intro)] *)
Definition decode_intro (body : string) : option IntrospectionResponse :=
  j ← json_Decode body; dec_struct intro_names intro_set intro_zero j.
End WithUnicode.

Definition introToCommonClaims (r : IntrospectionResponse) : CommonClaims :=
  let unix t := if 0 <? t then time_Unix t else time_zero in
  MkClaims (ir_Sub r) (ir_Iss r) (ir_Aud r) (ir_JTI r) (unix (ir_Exp r)) (unix (ir_IAT r))
    (ir_Cnf r) (ir_ACR r) (ir_AMR r) EmptyString (unix (ir_AuthTime r)) EmptyString
    (ir_Username r) []
    (if String.eqb (ir_Scope r) EmptyString then [] else Fields (ir_Scope r))
    EmptyString
    (if bool_decide (ir_AuthorizationDetails r = []) then [] else ir_AuthorizationDetails r)
    None (ir_Active r).

(** ** [introspect.go]: the call *)

Record IntrospectorConfig := MkIntrospectorConfig {
  ic_Endpoint : string;
  ic_ClientID : string;
  ic_ClientSecret : string;
  ic_Timeout : Duration
}.

Definition NewIntrospector (cfg : IntrospectorConfig) : IntrospectorConfig :=
  MkIntrospectorConfig (ic_Endpoint cfg) (ic_ClientID cfg) (ic_ClientSecret cfg)
    (if ic_Timeout cfg =? 0 then 5 * Second else ic_Timeout cfg).

(** The form posted to the endpoint. *)
Definition introspect_form (token : string) : list (string * string) :=
  [("token", token); ("token_type_hint", "access_token")].

Section Introspect.
Context {U : Unicode}.
(** The exchange with the authorization server: the configuration (endpoint,
    credentials, timeout) and the form, to the status and body or an error. *)
Context (http_post : IntrospectorConfig -> list (string * string) -> res (Z * string)).
(** [http.NewRequestWithContext] on the endpoint: the error of a bad URL. *)
Context (new_request : string -> option error).

Definition Introspect (cfg : IntrospectorConfig) (token : string) : res CommonClaims :=
  match new_request (ic_Endpoint cfg) with
  | Some e => Err (errorw "creating introspection request" e)
  | None =>
  match http_post cfg (introspect_form token) with
  | Err e => Err (errorw "introspection request failed" e)
  | Ok (status, body) =>
      if negb (status =? StatusOK)
      then Err (errorf ("introspection endpoint returned " +:+ fmt_d status)) else
      match decode_intro body with
      | None => Err (errorw "decoding introspection response" json_error)
      | Some intro => Ok (introToCommonClaims intro)
      end
  end
  end.
End Introspect.

Section Bearer.
Context {U : Unicode}.

Definition ExtractBearerToken (authHeader : string) : res string :=
  if String.eqb authHeader EmptyString then Err ErrMissingToken else
  match SplitN2 authHeader " " with
  | [scheme; rest] =>
      if negb (EqualFold scheme "bearer")
      then Err (errorf "invalid Authorization header format") else
      let token := TrimSpace rest in
      if String.eqb token EmptyString then Err ErrMissingToken else Ok token
  | _ => Err (errorf "invalid Authorization header format")
  end.
End Bearer.

Example float_overflow_ex : float_overflow "1e309" = true /\ float_overflow "-1.7e308" = false /\
  float_overflow "0.1e-400" = false /\ float_overflow "1797693134862315807e290" = false.
Proof. repeat split; vm_compute; reflexivity. Qed.

(** ** What an answer says

    The members of an introspection response as RFC 7662 has them, in any
    order, any of them absent, among members that the code does not know. *)

(** The member says what the field of [r] of its name says.  Strings are in
    ASCII here; the audience is a list, or a string if it has one element; the
    details are what [Rar.UnmarshalJSON] makes of the elements. *)
Inductive says (r : IntrospectionResponse) : string -> string -> json -> Prop :=
| says_active : says r "active" (json_bool (ir_Active r)) (JBool (ir_Active r))
| says_sub : is_ascii (ir_Sub r) = true -> says r "sub" (json_quote (ir_Sub r)) (JStr (ir_Sub r))
| says_iss : is_ascii (ir_Iss r) = true -> says r "iss" (json_quote (ir_Iss r)) (JStr (ir_Iss r))
| says_exp : int64_ok (ir_Exp r) -> says r "exp" (fmt_d (ir_Exp r)) (JNum (fmt_d (ir_Exp r)))
| says_iat : int64_ok (ir_IAT r) -> says r "iat" (fmt_d (ir_IAT r)) (JNum (fmt_d (ir_IAT r)))
| says_auth_time :
    int64_ok (ir_AuthTime r) -> says r "auth_time" (fmt_d (ir_AuthTime r)) (JNum (fmt_d (ir_AuthTime r)))
| says_acr : is_ascii (ir_ACR r) = true -> says r "acr" (json_quote (ir_ACR r)) (JStr (ir_ACR r))
| says_amr :
    Forall (fun s => is_ascii s = true) (ir_AMR r) ->
    says r "amr" (json_strings (ir_AMR r)) (JArr (map (fun s => (json_quote s, JStr s)) (ir_AMR r)))
| says_scope : is_ascii (ir_Scope r) = true -> says r "scope" (json_quote (ir_Scope r)) (JStr (ir_Scope r))
| says_client_id :
    is_ascii (ir_ClientID r) = true -> says r "client_id" (json_quote (ir_ClientID r)) (JStr (ir_ClientID r))
| says_username :
    is_ascii (ir_Username r) = true -> says r "username" (json_quote (ir_Username r)) (JStr (ir_Username r))
| says_token_type :
    is_ascii (ir_TokenType r) = true -> says r "token_type" (json_quote (ir_TokenType r)) (JStr (ir_TokenType r))
| says_jti : is_ascii (ir_JTI r) = true -> says r "jti" (json_quote (ir_JTI r)) (JStr (ir_JTI r))
| says_aud_list :
    Forall (fun s => is_ascii s = true) (ir_Aud r) ->
    says r "aud" (json_strings (ir_Aud r)) (JArr (map (fun s => (json_quote s, JStr s)) (ir_Aud r)))
| says_aud_string s : ir_Aud r = [s] -> is_ascii s = true -> says r "aud" (json_quote s) (JStr s)
| says_cnf jkt :
    ir_Cnf r = Some (MkConfirmation jkt) -> is_ascii jkt = true ->
    says r "cnf" (json_object [("jkt", json_quote jkt)]) (JObj [("jkt", (json_quote jkt, JStr jkt))])
| says_details ts :
    Forall2 (fun t d => reads t.1 t.2 /\ Rar.UnmarshalJSON t.1 = Ok d) ts (ir_AuthorizationDetails r) ->
    says r "authorization_details" (json_list (map fst ts)) (JArr ts).

Section Answers.
Context {U : Unicode}.
Variable r : IntrospectionResponse.
Abbreviation members := (list (string * (string * json))) (only parsing).

(** A member of an answer: one of those, or one of another name. *)
Definition stated (m : string * (string * json)) : Prop :=
  says r m.1 m.2.1 m.2.2 \/ (is_ascii m.1 = true /\ reads m.2.1 m.2.2 /\ match_field intro_names m.1 = None).

(** [v] if the answer has a member of that name, else [d]. *)
Definition said {A} (l : members) (name : string) (v d : A) : A := if decide (name ∈ map fst l) then v else d.

Lemma said_here {A} x l name (v d : A) : said ((name, x) :: l) name v d = v.
Proof. unfold said. rewrite decide_True; [done|left]. Qed.

Lemma said_same {A} l name (v : A) : said l name v v = v.
Proof. unfold said. by destruct (decide _). Qed.

Lemma said_other {A} name' x l name (v d : A) : name' <> name -> said ((name', x) :: l) name v d = said l name v d.
Proof.
  intros Hne. unfold said. destruct (decide (name ∈ map fst l)) as [H|H].
  - by rewrite decide_True by (by right).
  - rewrite decide_False; [done|]. cbn. rewrite elem_of_cons. naive_solver.
Qed.

(** [acc] with what the answer says of [r]. *)
Definition told (l : members) (acc : IntrospectionResponse) : IntrospectionResponse :=
  MkIntro (said l "active" (ir_Active r) (ir_Active acc)) (said l "sub" (ir_Sub r) (ir_Sub acc))
    (said l "iss" (ir_Iss r) (ir_Iss acc)) (said l "exp" (ir_Exp r) (ir_Exp acc))
    (said l "iat" (ir_IAT r) (ir_IAT acc)) (said l "auth_time" (ir_AuthTime r) (ir_AuthTime acc))
    (said l "acr" (ir_ACR r) (ir_ACR acc)) (said l "amr" (ir_AMR r) (ir_AMR acc))
    (said l "scope" (ir_Scope r) (ir_Scope acc)) (said l "client_id" (ir_ClientID r) (ir_ClientID acc))
    (said l "username" (ir_Username r) (ir_Username acc)) (said l "token_type" (ir_TokenType r) (ir_TokenType acc))
    (said l "jti" (ir_JTI r) (ir_JTI acc)) (said l "aud" (ir_Aud r) (ir_Aud acc))
    (said l "cnf" (ir_Cnf r) (ir_Cnf acc))
    (said l "authorization_details" (ir_AuthorizationDetails r) (ir_AuthorizationDetails acc)).

Lemma told_cons m l acc : told l (told [m] acc) = told (m :: l) acc.
Proof.
  destruct m as [name x]. assert (Hs : forall A n (v d : A), said l n v (said [(name, x)] n v d) = said ((name, x) :: l) n v d).
  { intros A n v d. destruct (decide (name = n)) as [->|Hne]; [by rewrite !said_here, said_same|].
    rewrite !said_other by done. unfold said at 2. by rewrite decide_False by (intros []%not_elem_of_nil). }
  unfold told. cbn [ir_Active ir_Sub ir_Iss ir_Exp ir_IAT ir_AuthTime ir_ACR ir_AMR ir_Scope ir_ClientID
    ir_Username ir_TokenType ir_JTI ir_Aud ir_Cnf ir_AuthorizationDetails]. by rewrite !Hs.
Qed.

(** ** It is read as it says *)

Lemma whole_strings l :
  Forall (fun s => is_ascii s = true) l -> whole (json_strings l) (JArr (map (fun s => (json_quote s, JStr s)) l)).
Proof.
  intros Hl. rewrite json_strings_list. pose proof (whole_list (map (fun s => (json_quote s, JStr s)) l)) as Hw.
  rewrite map_map in Hw. apply Hw. apply Forall_forall. intros [t v] (s & [= <- <-] & Hs)%list_elem_of_In%in_map_iff.
  apply whole_reads, whole_quote. apply list_elem_of_In in Hs. exact (proj1 (Forall_forall _ _) Hl s Hs).
Qed.

Lemma dec_strings_quoted old l : dec_strings old (JArr (map (fun s => (json_quote s, JStr s)) l)) = Some l.
Proof. cbn [dec_strings]. revert old. induction l as [|s l IH]; intros old; [done|]. cbn. by rewrite IH. Qed.

Lemma dec_int64_fmt old z : int64_ok z -> dec_int64 old (JNum (fmt_d z)) = Some z.
Proof. intros Hz. exact (parse_int_fmt_d z Hz). Qed.

Lemma Audience_whole t v : whole t v ->
  Audience_UnmarshalJSON t = match dec_string EmptyString v with Some s => Some [s] | None => dec_strings [] v end.
Proof.
  intros Hw. unfold Audience_UnmarshalJSON. pose proof (json_Unmarshal_whole t v EmptyString Hw eq_refl) as H.
  rewrite str_app_nil_r in H. by rewrite H.
Qed.

Lemma dec_details_read ts l :
  Forall2 (fun t d => reads t.1 t.2 /\ Rar.UnmarshalJSON t.1 = Ok d) ts l -> dec_details ts = Some l.
Proof.
  induction 1 as [|[t v] d ts l [_ Hd] _ IH]; [done|]. cbn [dec_details]. cbn [fst] in Hd. by rewrite Hd, IH.
Qed.

Lemma dec_cnf_says old jkt :
  dec_cnf old (JObj [("jkt", (json_quote jkt, JStr jkt))]) = Some (Some (MkConfirmation jkt)).
Proof. unfold dec_cnf. cbn [dec_struct dec_members]. rewrite match_field_exact by left. done. Qed.

Lemma says_reads n t v : says r n t v -> is_ascii n = true /\ reads t v.
Proof.
  intros []; (split; [reflexivity|]);
    try first [by apply whole_reads, whole_bool|by apply whole_reads, whole_quote|by apply reads_fmt_d
      |by apply whole_reads, whole_strings].
  - apply whole_reads. apply (whole_object [("jkt", (json_quote jkt, JStr jkt))]). constructor; [|done].
    split; [reflexivity|by apply whole_reads, whole_quote].
  - apply whole_reads, whole_list. clear -H. induction H as [|t d ts l [Ht _] _ IH]; by constructor.
Qed.

Lemma says_name n t v : says r n t v -> n ∈ intro_names.
Proof. intros []; apply list_elem_of_In; cbn; tauto. Qed.

Lemma intro_set_says n t v acc : says r n t v -> intro_set n t v acc = Some (told [(n, (t, v))] acc).
Proof.
  destruct acc as [active sub iss exp iat auth acr amr scope client username tt jti aud cnf details].
  intros H. unfold told. cbn [ir_Active ir_Sub ir_Iss ir_Exp ir_IAT ir_AuthTime ir_ACR ir_AMR ir_Scope ir_ClientID
    ir_Username ir_TokenType ir_JTI ir_Aud ir_Cnf ir_AuthorizationDetails].
  destruct H; unfold intro_set; cbn [String.eqb Ascii.eqb Bool.eqb dec_bool dec_string mbind option_bind];
    rewrite ?dec_int64_fmt, ?dec_strings_quoted, ?dec_cnf_says by done; cbn [mbind option_bind];
    lazymatch goal with
    | H : Forall _ (ir_Aud r) |- _ => rewrite (Audience_whole _ _ (whole_strings _ H)); cbn [dec_string]
    | H : is_ascii ?s = true, _ : ir_Aud r = [?s] |- _ => rewrite (Audience_whole _ _ (whole_quote _ H))
    | H : Forall2 _ _ _ |- _ => rewrite (dec_details_read _ _ H)
    | _ => idtac
    end; rewrite ?dec_strings_quoted; cbn [dec_string mbind option_bind];
    rewrite ?said_here, !said_other by discriminate;
    try match goal with H : ir_Aud r = _ |- _ => rewrite H | H : ir_Cnf r = _ |- _ => rewrite H end; done.
Qed.

Lemma told_unknown m acc : match_field intro_names m.1 = None -> told [m] acc = acc.
Proof.
  intros Hm. assert (Hs : forall A n (v d : A), n ∈ intro_names -> said [m] n v d = d).
  { intros A n v d Hn. unfold said. rewrite decide_False; [done|]. cbn. intros ->%list_elem_of_singleton.
    by rewrite match_field_exact in Hm. }
  destruct acc. unfold told. rewrite !Hs by (apply list_elem_of_In; cbn; tauto). done.
Qed.

Lemma dec_members_told l acc :
  Forall stated l -> dec_members intro_names intro_set l acc = Some (told l acc).
Proof.
  intros Hl. revert acc. induction Hl as [|m l Hm _ IH]; intros acc.
  - by destruct acc.
  - rewrite <- told_cons, <- IH. destruct m as [n [t v]]. cbn [dec_members]. destruct Hm as [Hm|(_ & _ & Hm)]; cbn [fst snd] in Hm.
    + by rewrite (match_field_exact _ _ (says_name _ _ _ Hm)), (intro_set_says _ _ _ _ Hm).
    + by rewrite told_unknown, Hm.
Qed.

Lemma decode_stated l rest :
  Forall stated l -> decode_intro (json_object (map (fun m => (m.1, m.2.1)) l) +:+ rest) = Some (told l intro_zero).
Proof.
  intros Hl. unfold decode_intro. rewrite (json_Decode_whole _ (JObj l)).
  - cbn [mbind option_bind dec_struct]. by apply dec_members_told.
  - apply whole_object. eapply Forall_impl; [exact Hl|]. intros m [Hm|(Ha & Hr & _)]; [by apply says_reads|done].
Qed.
End Answers.

(** The instant of a number of seconds, zero for none. *)
Definition instant (sec : Z) : Time := if 0 <? sec then sec * Second else time_zero.

(** The claims [c] are what the members [l] say of [r]; an absent member is
    the zero value, and no claim has another source. *)
Record as_told (r : IntrospectionResponse) (l : list (string * (string * json))) (c : CommonClaims) : Prop := {
  at_active : cl_Active c = said l "active" (ir_Active r) false;
  at_subject : cl_Subject c = said l "sub" (ir_Sub r) EmptyString;
  at_issuer : cl_Issuer c = said l "iss" (ir_Iss r) EmptyString;
  at_audience : cl_Audience c = said l "aud" (ir_Aud r) [];
  at_jti : cl_JTI c = said l "jti" (ir_JTI r) EmptyString;
  at_expires : ir_Exp r <= 2 ^ 62 -> cl_ExpiresAt c = said l "exp" (instant (ir_Exp r)) time_zero;
  at_issued : ir_IAT r <= 2 ^ 62 -> cl_IssuedAt c = said l "iat" (instant (ir_IAT r)) time_zero;
  at_auth_time : ir_AuthTime r <= 2 ^ 62 -> cl_AuthTime c = said l "auth_time" (instant (ir_AuthTime r)) time_zero;
  at_confirmation : cl_Confirmation c = said l "cnf" (ir_Cnf r) None;
  at_acr : cl_ACR c = said l "acr" (ir_ACR r) EmptyString;
  at_amr : cl_AMR c = said l "amr" (ir_AMR r) [];
  at_username : cl_Username c = said l "username" (ir_Username r) EmptyString;
  at_scopes scopes : ir_Scope r = Join scopes " " -> Forall word scopes -> cl_Scopes c = said l "scope" scopes [];
  at_details : cl_AuthorizationDetails c = said l "authorization_details" (ir_AuthorizationDetails r) [];
  at_nothing_else :
    cl_SessionID c = EmptyString /\ cl_Email c = EmptyString /\ cl_Roles c = [] /\ cl_TenantID c = EmptyString /\
    cl_Extra c = None
}.

Lemma unix_said l name sec :
  sec <= 2 ^ 62 ->
  (if 0 <? said l name sec 0 then time_Unix (said l name sec 0) else time_zero) = said l name (instant sec) time_zero.
Proof.
  intros Hle. unfold said, instant. destruct (decide _); [|done].
  destruct (Z.ltb_spec 0 sec); [apply time_Unix_id; lia|done].
Qed.

Lemma Fields_scope scopes :
  Forall word scopes -> (if String.eqb (Join scopes " ") EmptyString then [] else Fields (Join scopes " ")) = scopes.
Proof.
  intros Hw. rewrite (Fields_Join _ Hw). destruct Hw as [|s l (_ & Hne & _) Hl]; [done|].
  destruct (String.eqb_spec (Join (s :: l) " ") EmptyString) as [He|_]; [|done].
  exfalso. destruct s; [done|]. destruct l; discriminate He.
Qed.

Lemma claims_as_told r l : as_told r l (introToCommonClaims (told r l intro_zero)).
Proof.
  split; cbn; try done; try (intros; by apply unix_said).
  - intros scopes -> Hw. unfold said. destruct (decide _); [by apply Fields_scope|done].
  - by case_bool_decide.
Qed.

(** C25: Introspection passes on what the authorization server says.  A 200
    answer whose body is a JSON object that says of each field of a response
    [r], in any order and possibly not of all, what [r] has, is decoded
    without error to just these claims: active, subject, issuer, audience (a
    string or a list), jti, the three instants, the key confirmation, the
    authentication context, the user name, the scopes and the authorization
    details are those of the answer; what it does not mention is absent (so
    the token is inactive unless it says "active"), members the code does not
    know change nothing, and no claim has another source.  Any other status is
    an error, whatever the body says. *)
Theorem introspected_claims_exact `{U : Unicode} http_post new_request cfg token status r l rest :
  let body := json_object (map (fun m => (m.1, m.2.1)) l) +:+ rest in
  new_request (ic_Endpoint cfg) = None ->
  http_post cfg (introspect_form token) = Ok (status, body) ->
  Forall (stated r) l ->
  match Introspect http_post new_request cfg token with
  | Ok c => status = 200 /\ as_told r l c
  | Err _ => status <> 200
  end.
Proof.
  intros body Hn Hp Hl. unfold Introspect. rewrite Hn, Hp. change StatusOK with 200.
  destruct (Z.eqb_spec status 200) as [->|Hs]; cbn [negb]; [|done].
  unfold body. rewrite (decode_stated r l rest Hl). split; [done|apply claims_as_told].
Qed.

Section AnswerDemo.
#[local] Existing Instance unicode_min.

(** A bound token of two scopes; the members are not in the order of the
    fields, one is unknown and several are absent. *)
Definition demo_answer : IntrospectionResponse :=
  MkIntro true "user-1" "https://as.example" 1900000000 0 0 "gold" ["pwd"; "otp"] "read pay" EmptyString
    EmptyString EmptyString "t-7" ["api"] (Some (MkConfirmation "thumb")) [].
Definition demo_says : list (string * (string * json)) :=
  [("scope", (json_quote "read pay", JStr "read pay")); ("exp", (fmt_d 1900000000, JNum (fmt_d 1900000000)));
   ("x_extra", (json_bool false, JBool false)); ("sub", (json_quote "user-1", JStr "user-1"));
   ("cnf", (json_object [("jkt", json_quote "thumb")], JObj [("jkt", (json_quote "thumb", JStr "thumb"))]));
   ("amr", (json_strings ["pwd"; "otp"], JArr [(json_quote "pwd", JStr "pwd"); (json_quote "otp", JStr "otp")]));
   ("aud", (json_quote "api", JStr "api")); ("active", (json_bool true, JBool true))].

Lemma demo_stated : Forall (stated demo_answer) demo_says.
Proof.
  repeat apply Forall_cons_2; [..|apply Forall_nil_2];
    [left|left|right|left|left|left|left|left]; cbn [fst snd].
  - by apply (says_scope demo_answer).
  - by apply (says_exp demo_answer).
  - split; [reflexivity|]. split; [apply whole_reads, whole_bool|vm_compute; reflexivity].
  - by apply (says_sub demo_answer).
  - by apply (says_cnf demo_answer).
  - by apply (says_amr demo_answer); repeat constructor.
  - by apply (says_aud_string demo_answer).
  - apply (says_active demo_answer).
Qed.

Example introspected_claims_exact_witness :
  let body := json_object (map (fun m => (m.1, m.2.1)) demo_says) in
  match Introspect (fun _ _ => Ok (200, body)) (fun _ => None) (MkIntrospectorConfig "" "" "" 0) "t" with
  | Ok c => cl_Active c = true /\ cl_Subject c = "user-1" /\ cl_Issuer c = EmptyString /\
      cl_ExpiresAt c = 1900000000 * Second /\ cl_Scopes c = ["read"; "pay"] /\
      cl_Confirmation c = Some (MkConfirmation "thumb") /\ cl_Audience c = ["api"] /\ cl_AMR c = ["pwd"; "otp"]
  | Err _ => False
  end.
Proof.
  intros body.
  pose proof (introspected_claims_exact (fun _ _ => Ok (200, body +:+ EmptyString)) (fun _ => None)
    (MkIntrospectorConfig "" "" "" 0) "t" 200 demo_answer demo_says EmptyString eq_refl eq_refl) as H.
  rewrite str_app_nil_r in H. destruct (Introspect _ _ _ _) as [c|e].
  - destruct H as [_ [Ha Hs Hi Hau _ He _ _ Hc _ Ham _ Hsc _ _]].
    + apply demo_stated.
    + rewrite Ha, Hs, Hi, Hau, Hc, Ham, He, (Hsc ["read"; "pay"]); [repeat split; vm_compute; reflexivity|reflexivity|..].
      * repeat constructor; discriminate.
      * vm_compute. discriminate.
  - destruct H; [|reflexivity].
    apply demo_stated.
Defined.
End AnswerDemo.
