(* ===== verification/Effects.v ===== *)
(** * Effects: a state monad with a clock

    The process clock is a sequence of readings: the [n]-th call of
    [time.Now] returns [w_now n].  A computation of [M S] reads and updates a
    state of type [S] and advances the count of readings. *)

From S2P Require Import Prelude GoString GoTime.

Record world (S : Type) := World {
  w_now : nat -> Time;
  w_tick : nat;
  w_st : S
}.
Arguments World {S} _ _ _.
Arguments w_now {S} _ _.
Arguments w_tick {S} _.
Arguments w_st {S} _.

Definition M (S A : Type) : Type := world S -> A * world S.

#[export] Instance M_ret S : MRet (M S) := fun A a w => (a, w).
#[export] Instance M_bind S : MBind (M S) := fun A B f m w => let '(a, w') := m w in f a w'.

Section Operations.
Context {S : Type}.

(** [time.Now()] *)
Definition Now : M S Time :=
  fun w => (w_now w (w_tick w), World (w_now w) (1 + w_tick w)%nat (w_st w)).

Definition gets {A} (f : S -> A) : M S A := fun w => (f (w_st w), w).
Definition modify (f : S -> S) : M S unit :=
  fun w => (tt, World (w_now w) (w_tick w) (f (w_st w))).
Definition put (s : S) : M S unit := modify (fun _ => s).

(** A pure state transformer with a result. *)
Definition lift {A} (f : S -> A * S) : M S A :=
  fun w => let '(a, s) := f (w_st w) in (a, World (w_now w) (w_tick w) s).

Fixpoint mapM_ {A} (f : A -> M S unit) (l : list A) : M S unit :=
  match l with
  | [] => mret tt
  | x :: l' => _ ← f x; mapM_ f l'
  end.

(** The reading the next [time.Now] will return. *)
Definition now_of (w : world S) : Time := w_now w (w_tick w).

(** The clock never goes back. *)
Definition clock_ok (w : world S) : Prop :=
  forall i j, (i <= j)%nat -> w_now w i <= w_now w j.

(** [w'] is reached from [w]: same clock, no fewer readings. *)
Definition later (w w' : world S) : Prop :=
  w_now w' = w_now w /\ (w_tick w <= w_tick w')%nat.

#[export] Instance later_preorder : PreOrder later.
Proof.
  split; [by intros w|]. intros w1 w2 w3 [H1 H1'] [H2 H2'].
  split; [by rewrite H2|lia].
Qed.

Lemma later_now w w' : clock_ok w -> later w w' -> now_of w <= now_of w'.
Proof. intros Hc [Hn Ht]. unfold now_of. rewrite Hn. by apply Hc. Qed.

Lemma later_clock w w' : clock_ok w -> later w w' -> clock_ok w'.
Proof. intros Hc [Hn _]. unfold clock_ok. by rewrite Hn. Qed.
End Operations.

(** The clock stands still. *)
Definition frozen {T} (w : world T) (t : Time) : Prop := forall i, w_now w i = t.

Lemma frozen_later {T} (w1 w2 : world T) t : frozen w1 t -> later w1 w2 -> frozen w2 t.
Proof. intros Hf [Hn _] i. by rewrite Hn. Qed.

(** Run a computation on a part of a larger state. *)
Definition zoom {S T A} (get : T -> S) (set : S -> T -> T) (m : M S A) : M T A :=
  fun w =>
    let '(a, w') := m (World (w_now w) (w_tick w) (get (w_st w))) in
    (a, World (w_now w') (w_tick w') (set (w_st w') (w_st w))).

(** The same on a part that may be absent (a nil pointer), with the answer
    given then. *)
Definition zoom_opt {S T A} (get : T -> option S) (set : S -> T -> T) (absent : A) (m : M S A) : M T A :=
  fun w =>
    match get (w_st w) with
    | None => (absent, w)
    | Some s =>
        let '(a, w') := m (World (w_now w) (w_tick w) s) in
        (a, World (w_now w') (w_tick w') (set (w_st w') (w_st w)))
    end.

(** A step of a handler that may answer and return: [Return] carries the
    response, [Continue] the value for the rest of the handler. *)
Inductive ctl (R A : Type) := Return (r : R) | Continue (a : A).
Arguments Return {R A} _.
Arguments Continue {R A} _.

Definition ctl_bind {S R A B} (m : M S (ctl R A)) (f : A -> M S (ctl R B)) : M S (ctl R B) :=
  c ← m; match c with Return r => mret (Return r) | Continue a => f a end.
Notation "x '←!' m ';' k" := (ctl_bind m (fun x => k))
  (at level 20, m at level 100, k at level 200, only parsing) : go_scope.
Notation "' x '←!' m ';' k" := (ctl_bind m (fun x => k))
  (at level 20, x pattern, m at level 100, k at level 200, only parsing) : go_scope.

(** A handler continues only if each of its steps does. *)
Lemma ctl_bind_Continue {S R A B} (m : M S (ctl R A)) (f : A -> M S (ctl R B)) w b w' :
  ctl_bind m f w = (Continue b, w') ->
  exists a w1, m w = (Continue a, w1) /\ f a w1 = (Continue b, w').
Proof.
  unfold ctl_bind, mbind, M_bind. destruct (m w) as [[r|a] w1]; [intros [= ]|]. intros H. by exists a, w1.
Qed.

Lemma ctl_bind_run {S R A B} (m : M S (ctl R A)) (f : A -> M S (ctl R B)) w a w1 :
  m w = (Continue a, w1) -> ctl_bind m f w = f a w1.
Proof. intros H. unfold ctl_bind, mbind, M_bind. by rewrite H. Qed.

(** Where it returned: at the first step, or in what follows it. *)
Lemma ctl_bind_Return {S R A B} (m : M S (ctl R A)) (f : A -> M S (ctl R B)) w r w' :
  ctl_bind m f w = (Return r, w') ->
  m w = (Return r, w') \/ exists a w1, m w = (Continue a, w1) /\ f a w1 = (Return r, w').
Proof.
  unfold ctl_bind, mbind, M_bind. destruct (m w) as [[r'|a] w1].
  - intros [= -> ->]. by left.
  - intros H. right. by exists a, w1.
Qed.

#[export] Hint Extern 0 (later ?w ?w) => reflexivity : core.
