(* ===== verification/AuditLog.v ===== *)
(** * Audit events: [pkg/telemetry/audit.go]

    The logger that fans events out to its sinks, the events of policy
    decisions, and the two sinks of the package: [slog] lines and a file of
    newline-delimited JSON. *)

From S2P Require Import Prelude GoString GoTime Encoding Json TextLemmas TimeText Effects.

(** The event types; the code emits the three of step-up and policy
    decisions. *)
Definition AuditTokenValidated : string := "iam.token.validated".
Definition AuditTokenRejected : string := "iam.token.rejected".
Definition AuditStepUpIssued : string := "iam.stepup.challenge_issued".
Definition AuditStepUpCompleted : string := "iam.stepup.completed".
Definition AuditStepUpFailed : string := "iam.stepup.failed".
Definition AuditPolicyDenied : string := "iam.policy.denied".
Definition AuditPolicyAllowed : string := "iam.policy.allowed".
Definition AuditTokenRevoked : string := "iam.token.revoked".
Definition AuditTenantRegistered : string := "iam.tenant.registered".
Definition AuditTenantUnregistered : string := "iam.tenant.unregistered".

Record AuditEvent := MkAudit {
  ae_EventID : string;
  ae_Type : string;
  ae_Timestamp : Time;
  ae_TraceID : string;
  ae_TenantID : string;
  ae_ClientIP : string;
  ae_Resource : string;
  ae_Method : string;
  ae_Subject : string;
  ae_ACR : string;
  ae_AMR : list string;
  ae_SessionID : string;
  ae_PolicyName : string;
  ae_RequiredACR : string;
  ae_Reason : string;
  ae_Allowed : bool
}.

(** ** Sinks and the logger *)

Class AuditSink (K : Type) := {
  sink_Write : AuditEvent -> K -> option error * K
}.

(** [AuditLogger]: its sinks, and the write errors it reported to
    [slog.Default()], oldest first. *)
Record AuditLogger (K : Type) := MkLogger {
  al_sinks : list K;
  al_errors : list error
}.
Arguments MkLogger {K} _ _.
Arguments al_sinks {K} _.
Arguments al_errors {K} _.

Section Logger.
Context {K : Type} `{!AuditSink K}.

Definition NewAuditLogger (slog : K) : AuditLogger K := MkLogger [slog] [].
Definition AddSink (sink : K) (a : AuditLogger K) : AuditLogger K :=
  MkLogger (al_sinks a ++ [sink])%list (al_errors a).

(** The loop over the sinks: a failure is reported and the loop goes on. *)
Fixpoint write_all (event : AuditEvent) (sinks : list K) : list error * list K :=
  match sinks with
  | [] => ([], [])
  | s :: rest =>
      let '(err, s') := sink_Write event s in
      let '(errs, rest') := write_all event rest in
      (match err with Some e => e :: errs | None => errs end, s' :: rest')
  end.

(** The event with its defaults; [trace] is [TraceIDFromContext(ctx)]. *)
Definition stamp (now : Time) (trace : string) (event : AuditEvent) : AuditEvent :=
  let '(MkAudit id ty ts tr ten ip res me sub acr amr sid pol req rea all) := event in
  MkAudit id ty (if IsZero ts then now else ts) (if String.eqb tr EmptyString then trace else tr)
    ten ip res me sub acr amr sid pol req rea all.

Definition Emit (trace : string) (event : AuditEvent) : M (AuditLogger K) unit :=
  now ← (if IsZero (ae_Timestamp event) then Now else mret time_zero);
  modify (fun a =>
    let '(errs, sinks) := write_all (stamp now trace event) (al_sinks a) in
    MkLogger sinks (al_errors a ++ errs)%list).

Definition newEventID (now : Time) : string := fmt_d (UnixNano now).

Definition EmitStepUpChallenge (trace sub tenantID resource method requiredACR : string)
    : M (AuditLogger K) unit :=
  now ← Now;
  Emit trace (MkAudit (newEventID now) AuditStepUpIssued time_zero EmptyString tenantID EmptyString
    resource method sub EmptyString [] EmptyString EmptyString requiredACR EmptyString false).

Definition EmitPolicyDecision (trace sub tenantID resource method policyName reason : string)
    (allowed : bool) : M (AuditLogger K) unit :=
  let eventType := if negb allowed then AuditPolicyDenied else AuditPolicyAllowed in
  now ← Now;
  Emit trace (MkAudit (newEventID now) eventType time_zero EmptyString tenantID EmptyString
    resource method sub EmptyString [] EmptyString policyName EmptyString reason allowed).
End Logger.

(** ** The sinks of the package *)

Definition omitempty (name v : string) : list (string * string) :=
  if String.eqb v EmptyString then [] else [(name, json_quote v)].

Section Sinks.
Context {L : LocalTime}.

(** [json.Marshal(event)]; it fails only on the year of the timestamp. *)
Definition marshal_event (e : AuditEvent) : option string :=
  ts ← time_MarshalJSON (ae_Timestamp e);
  Some (json_object
    ([("jti", json_quote (ae_EventID e)); ("event_type", json_quote (ae_Type e)); ("iat", ts)] ++
     omitempty "trace_id" (ae_TraceID e) ++ omitempty "tenant_id" (ae_TenantID e) ++
     omitempty "client_ip" (ae_ClientIP e) ++ omitempty "resource" (ae_Resource e) ++
     omitempty "method" (ae_Method e) ++ omitempty "sub" (ae_Subject e) ++
     omitempty "acr" (ae_ACR e) ++
     (if bool_decide (ae_AMR e = []) then [] else [("amr", json_strings (ae_AMR e))]) ++
     omitempty "sid" (ae_SessionID e) ++ omitempty "policy_name" (ae_PolicyName e) ++
     omitempty "required_acr" (ae_RequiredACR e) ++ omitempty "reason" (ae_Reason e) ++
     [("allowed", json_bool (ae_Allowed e))])%list).

Definition marshal_error : error := errorf "json: error calling MarshalJSON for type time.Time".

(** [slogSink]: the records it handed to its logger, as event type and
    payload. *)
Definition slogSink := list (string * string).
Definition slog_Write (event : AuditEvent) (s : slogSink) : option error * slogSink :=
  match marshal_event event with
  | None => (Some (errorw "marshaling audit event" marshal_error), s)
  | Some b => (None, (s ++ [(ae_Type event, b)])%list)
  end.

(** [FileSink]: the name of the file, the bytes written, the error the JSON
    encoder keeps after a failed write, and whether the file is closed.
    [os_write] says what a write to the open file answers, [os_close] what
    closing it does. *)
Record FileSink := MkFileSink {
  fk_name : string;
  fk_content : string;
  fk_err : option error;
  fk_closed : bool
}.

(** [os.ErrClosed], as the [PathError] of an operation on a closed file. *)
Definition ErrClosed : error := errorf "file already closed".
Definition closed_error (op name : string) : error := errorw (op +:+ " " +:+ name) ErrClosed.

(** [NewFileSink]: the file is opened for appending; [os_OpenFile] gives what
    it holds already. *)
Definition NewFileSink `{!Unicode} (os_OpenFile : string -> res string) (path : string) : res FileSink :=
  match os_OpenFile path with
  | Err e => Err (errorw ("opening audit file " +:+ Quote path) e)
  | Ok content => Ok (MkFileSink path content None false)
  end.

Context (os_write : string -> string -> option error).

Definition newline : ascii := "010".

(** [f.Write]: the error, and what the file holds after it. *)
Definition os_File_Write (fs : FileSink) (line : string) : option error * string :=
  if fk_closed fs then (Some (closed_error "write" (fk_name fs)), fk_content fs) else
  match os_write (fk_content fs) line with
  | Some e => (Some e, fk_content fs)
  | None => (None, fk_content fs +:+ line)
  end.

Definition FileSink_Write (event : AuditEvent) (fs : FileSink) : option error * FileSink :=
  match fk_err fs with
  | Some e => (Some (errorw "writing audit event" e), fs)
  | None =>
      match marshal_event event with
      | None => (Some (errorw "writing audit event" marshal_error), fs)
      | Some b =>
          let '(err, content) := os_File_Write fs (b +:+ str1 newline) in
          (match err with Some e => Some (errorw "writing audit event" e) | None => None end,
           MkFileSink (fk_name fs) content err (fk_closed fs))
      end
  end.

Definition FileSink_Close (os_close : option error) (fs : FileSink) : option error * FileSink :=
  if fk_closed fs then (Some (closed_error "close" (fk_name fs)), fs)
  else (os_close, MkFileSink (fk_name fs) (fk_content fs) (fk_err fs) true).
End Sinks.

(** A logger's sinks are of either kind. *)
Inductive Sink := SlogSink (s : slogSink) | File (f : FileSink).
#[export] Instance package_sinks {L : LocalTime} (os_write : string -> string -> option error) : AuditSink Sink := {|
  sink_Write event k :=
    match k with
    | SlogSink s => let '(e, s') := slog_Write event s in (e, SlogSink s')
    | File f => let '(e, f') := FileSink_Write os_write event f in (e, File f')
    end
|}.

(** ** Text without control characters *)

Definition no_control (c : ascii) : bool := 32 <=? byte_val c.

Lemma decode_rune_wide s :
  (decode_rune s).2 = 0%nat \/ (decode_rune s).2 = 1%nat \/
  str_forall (fun c => 128 <=? byte_val c) (str_take (decode_rune s).2 s) = true.
Proof.
  destruct s as [|c0 r0]; [by left|]. cbn [decode_rune].
  destruct (byte_val c0 <? 128) eqn:H0; [by right; left|]. b2p.
  destruct r0 as [|c1 r1]; [by right; left|].
  assert (Hc : forall lo hi b, in_range lo hi b = true -> lo <= b <= hi)
    by (unfold in_range; intros; b2p; lia).
  destruct (in_range 194 223 _) eqn:H2.
  { destruct (in_range 128 191 (byte_val c1)) eqn:H3; [|by right; left].
    apply Hc in H3. right; right. cbn. rewrite !(proj2 (Z.leb_le _ _)) by lia. done. }
  destruct (negb _) eqn:H3; [by right; left|]. b2p.
  assert (128 <= byte_val c1).
  { match goal with H : in_range _ _ (byte_val c1) = true |- _ => apply Hc in H end.
    destruct (byte_val c0 =? 224), (byte_val c0 =? 240); lia. }
  destruct r1 as [|c2 r2]; [by right; left|].
  destruct (negb (in_range 128 191 (byte_val c2))) eqn:H4; [by right; left|]. b2p.
  match goal with H : in_range _ _ (byte_val c2) = true |- _ => apply Hc in H end.
  destruct (byte_val c0 <? 240).
  { right; right. cbn. rewrite !(proj2 (Z.leb_le _ _)) by lia. done. }
  destruct r2 as [|c3 r3]; [by right; left|].
  destruct (negb (in_range 128 191 (byte_val c3))) eqn:H5; [by right; left|]. b2p.
  match goal with H : in_range _ _ (byte_val c3) = true |- _ => apply Hc in H end.
  right; right. cbn. rewrite !(proj2 (Z.leb_le _ _)) by lia. done.
Qed.

Lemma quote_char_no_control c : str_forall no_control (quote_char c) = true.
Proof. destruct c as [[] [] [] [] [] [] [] []]; vm_compute; reflexivity. Qed.

Lemma json_quote_no_control s : str_forall no_control (json_quote s) = true.
Proof.
  unfold json_quote. rewrite !str_forall_app. apply andb_true_iff. split; [done|].
  rewrite andb_true_r. unfold runes. generalize (String.length s) as fuel.
  intros fuel. revert s. induction fuel as [|fuel IH]; intros s; [done|].
  destruct s as [|c s']; [done|]. cbn [runes_fuel].
  pose proof (decode_rune_wide (String c s')) as Hw. set (s := String c s') in *.
  destruct (decode_rune s) as [r w]. cbn [snd] in Hw. cbn [foldr]. rewrite str_forall_app, IH, andb_true_r.
  unfold quote_json_rune. destruct (_ && _); [done|].
  destruct (_ || _) eqn:Hr.
  { apply orb_true_iff in Hr as [Hr|Hr]; b2p; subst r; done. }
  destruct Hw as [->|[->|Hw]]; [done|subst s; cbn [str_take]; apply quote_char_no_control|].
  assert (Hn : str_forall no_control (str_take w s) = true)
    by (eapply str_forall_weaken; [|exact Hw]; unfold no_control; intros; b2p; by apply Z.leb_le; lia).
  destruct (str_take w s) as [|x [|y t]]; [done|apply quote_char_no_control|done].
Qed.

Lemma json_members_no_control l :
  Forall (fun kv => str_forall no_control kv.2 = true) l -> str_forall no_control (json_members l) = true.
Proof.
  induction l as [|[k v] l IH]; [done|]. intros [Hv Hl]%Forall_cons_1. cbn [snd] in Hv.
  specialize (IH Hl). destruct l as [|kv l].
  - cbn [json_members]. by rewrite !str_forall_app, json_quote_no_control, Hv.
  - change (json_members ((k, v) :: kv :: l)) with
      (json_quote k +:+ ":" +:+ v +:+ "," +:+ json_members (kv :: l)).
    by rewrite !str_forall_app, json_quote_no_control, Hv, IH.
Qed.

Lemma Join_no_control l sep :
  Forall (fun s => str_forall no_control s = true) l -> str_forall no_control sep = true ->
  str_forall no_control (Join l sep) = true.
Proof.
  intros Hl Hs. induction l as [|x l IH]; [done|]. apply Forall_cons_1 in Hl as [Hx Hl].
  specialize (IH Hl). destruct l as [|y l]; [done|].
  change (Join (x :: y :: l) sep) with (x +:+ sep +:+ Join (y :: l) sep).
  by rewrite !str_forall_app, Hx, Hs, IH.
Qed.

Lemma omitempty_no_control name v :
  Forall (fun kv : string * string => str_forall no_control kv.2 = true) (omitempty name v).
Proof.
  unfold omitempty. destruct (String.eqb _ _); [done|]. constructor; [|done]. apply json_quote_no_control.
Qed.

Lemma marshal_event_one_line {L : LocalTime} e b :
  marshal_event e = Some b -> newline ∉ str_bytes b.
Proof.
  unfold marshal_event. destruct (time_MarshalJSON _) as [ts|] eqn:Ht; [|done]. cbn [mbind option_bind].
  intros Hb%(inj Some). subst b. apply (not_elem_forall no_control); [|done].
  unfold json_object. rewrite !str_forall_app. rewrite json_members_no_control; [done|].
  rewrite !Forall_app. repeat split; try apply omitempty_no_control.
  - apply time_MarshalJSON_quote in Ht as (s & _ & _ & ->).
    repeat constructor; cbn [snd]; apply json_quote_no_control.
  - destruct (bool_decide _); [done|]. constructor; [|done]. cbn [snd]. unfold json_strings.
    rewrite !str_forall_app, Join_no_control; [done| |done].
    apply Forall_map, Forall_true. intros s. apply json_quote_no_control.
  - constructor; [|done]. cbn [snd]. by destruct (ae_Allowed e).
Qed.

(** ** Theorems *)

Lemma write_all_map {K} `{!AuditSink K} ev sinks :
  write_all ev sinks =
  (omap (fun s => (sink_Write ev s).1) sinks, map (fun s => (sink_Write ev s).2) sinks).
Proof.
  induction sinks as [|s sinks IH]; [done|]. cbn [write_all map]. rewrite IH.
  cbn. by destruct (sink_Write ev s) as [[e|] s'].
Qed.

(** Delivery.  A policy decision reaches every sink exactly once and with
    the same event, whatever the other sinks answer: each sink ends in the
    state its own write leaves, and exactly the errors returned are reported.
    The event names the request, the outcome and the reason, is stamped with
    the clock and carries the trace id. *)
Theorem EmitPolicyDecision_delivers {K} `{!AuditSink K} trace sub tenant resource method policy reason
    allowed (w : world (AuditLogger K)) :
  let '(_, w') := EmitPolicyDecision trace sub tenant resource method policy reason allowed w in
  exists ev,
    al_sinks (w_st w') = map (fun s => (sink_Write ev s).2) (al_sinks (w_st w)) /\
    al_errors (w_st w') = (al_errors (w_st w) ++ omap (fun s => (sink_Write ev s).1) (al_sinks (w_st w)))%list /\
    ae_Type ev = (if allowed then AuditPolicyAllowed else AuditPolicyDenied) /\
    ae_Allowed ev = allowed /\ ae_Subject ev = sub /\ ae_TenantID ev = tenant /\
    ae_Resource ev = resource /\ ae_Method ev = method /\ ae_PolicyName ev = policy /\
    ae_Reason ev = reason /\ ae_TraceID ev = trace /\ ae_Timestamp ev = w_now w (1 + w_tick w)%nat.
Proof.
  unfold EmitPolicyDecision, Emit, mbind, M_bind, Now, modify.
  cbn [ae_Timestamp stamp w_now w_tick w_st].
  change (IsZero time_zero) with true. cbv beta iota. cbn [w_now w_tick w_st].
  rewrite write_all_map. eexists. split; [reflexivity|]. split; [reflexivity|].
  by destruct allowed.
Qed.

(** What is done to a file sink, and a history of it: the operations with
    the errors they return. *)
Inductive file_op := FileWrite (event : AuditEvent) | FileClose (os_close : option error).

Definition file_step {L : LocalTime} (os_write : string -> string -> option error) (op : file_op)
    (fs : FileSink) : option error * FileSink :=
  match op with
  | FileWrite e => FileSink_Write os_write e fs
  | FileClose os_close => FileSink_Close os_close fs
  end.

Fixpoint file_run {L : LocalTime} (os_write : string -> string -> option error)
    (ops : list file_op) (fs : FileSink) : list (file_op * option error) * FileSink :=
  match ops with
  | [] => ([], fs)
  | op :: ops' =>
      let '(err, fs1) := file_step os_write op fs in
      let '(errs, fs2) := file_run os_write ops' fs1 in ((op, err) :: errs, fs2)
  end.

Definition concat_lines (ls : list string) : string :=
  foldr (fun l acc => l +:+ String newline acc) EmptyString ls.

Lemma concat_lines_snoc ls b : concat_lines (ls ++ [b])%list = concat_lines ls +:+ b +:+ str1 newline.
Proof.
  induction ls as [|l ls IH]; [done|]. cbn [concat_lines foldr app] in *.
  change (foldr (fun l acc => l +:+ String newline acc) EmptyString) with concat_lines in *.
  by rewrite IH, str_app_assoc.
Qed.

Lemma Split_lines ls :
  Forall (fun l => newline ∉ str_bytes l) ls -> Split (concat_lines ls) newline = (ls ++ [EmptyString])%list.
Proof.
  induction ls as [|l ls IH]; [done|]. intros [Hl Hls]%Forall_cons_1. cbn [concat_lines foldr].
  change (foldr (fun l acc => l +:+ String newline acc) EmptyString) with concat_lines.
  rewrite Split_app by done. by rewrite (IH Hls).
Qed.

(** The lines a run recorded. *)
Definition recorded_op {L : LocalTime} (x : file_op * option error) : option string :=
  match x with (FileWrite e, None) => marshal_event e | _ => None end.
Definition recorded {L : LocalTime} (errs : list (file_op * option error)) : list string := omap recorded_op errs.

Section FileHistory.
Context {L : LocalTime} (os_write : string -> string -> option error).

(** One operation appends the line it recorded, or nothing; a closed sink
    records nothing and stays closed. *)
Lemma file_step_content op fs ls :
  fk_content fs = concat_lines ls ->
  let '(err, fs') := file_step os_write op fs in
  fk_content fs' = concat_lines (ls ++ option_list (recorded_op (op, err)))%list /\
  (fk_closed fs = true -> fk_closed fs' = true /\ recorded_op (op, err) = None /\ is_Some err).
Proof.
  intros Hc. destruct op as [e|oc]; cbn [file_step].
  - unfold FileSink_Write. destruct (fk_err fs) as [er|]; [by rewrite app_nil_r|].
    destruct (marshal_event e) as [b|] eqn:Hb; [|by rewrite app_nil_r].
    unfold os_File_Write. destruct (fk_closed fs) eqn:Hcl; [cbn; by rewrite app_nil_r|].
    destruct (os_write _ _); cbn [recorded_op fk_content].
    + by rewrite app_nil_r.
    + rewrite Hb. change (option_list (Some b)) with [b]. by rewrite concat_lines_snoc, Hc.
  - unfold FileSink_Close. destruct (fk_closed fs) eqn:Hcl; cbn; rewrite app_nil_r; [by rewrite Hcl|done].
Qed.

Lemma recorded_cons x errs : recorded (x :: errs) = (option_list (recorded_op x) ++ recorded errs)%list.
Proof. unfold recorded. cbn. by destruct (recorded_op x). Qed.

Lemma file_run_lines ops : forall fs ls,
  fk_content fs = concat_lines ls ->
  fk_content (file_run os_write ops fs).2 =
  concat_lines (ls ++ recorded (file_run os_write ops fs).1)%list.
Proof.
  induction ops as [|op ops IH]; intros fs ls Hc; cbn [file_run]; [by rewrite app_nil_r|].
  pose proof (file_step_content op fs ls Hc) as Hs.
  destruct (file_step os_write op fs) as [err fs1]. destruct Hs as [Hs _]. specialize (IH fs1 _ Hs).
  destruct (file_run os_write ops fs1) as [errs fs2]. cbn [fst snd] in *.
  by rewrite IH, recorded_cons, app_assoc.
Qed.

(** The audit file is newline-delimited JSON.  Whatever the events contain
    (line breaks in a path included), whichever writes fail and whenever the
    sink is closed, splitting the file at line breaks gives back exactly the
    JSON of the events whose write succeeded, in order, each on one line. *)
Theorem FileSink_ndjson path ops :
  let '(errs, fs) := file_run os_write ops (MkFileSink path EmptyString None false) in
  Split (fk_content fs) newline = (recorded errs ++ [EmptyString])%list.
Proof.
  pose proof (file_run_lines ops (MkFileSink path EmptyString None false) [] eq_refl) as H.
  destruct (file_run os_write ops _) as [errs fs]. cbn [fst snd] in H. rewrite H.
  apply Split_lines. apply Forall_forall. intros l Hl. cbn [app] in Hl.
  unfold recorded in Hl. apply list_elem_of_omap in Hl as ([[e|oc] [err|]] & _ & He); try discriminate He.
  exact (marshal_event_one_line e l He).
Qed.

(** A closed sink is final: every later operation is an error and leaves the
    file as it is. *)
Lemma FileSink_closed ops : forall fs,
  fk_closed fs = true ->
  let '(errs, fs') := file_run os_write ops fs in
  fk_content fs' = fk_content fs /\ Forall (fun x => is_Some x.2) errs.
Proof.
  induction ops as [|op ops IH]; intros fs Hcl; cbn [file_run]; [by split|].
  assert (Hs : fk_closed (file_step os_write op fs).2 = true /\ is_Some (file_step os_write op fs).1 /\
               fk_content (file_step os_write op fs).2 = fk_content fs).
  { destruct op as [e|oc]; cbn [file_step].
    - unfold FileSink_Write, os_File_Write. rewrite Hcl.
      destruct (fk_err fs); [by eauto|]. destruct (marshal_event e); by cbn; eauto.
    - unfold FileSink_Close. rewrite Hcl. by cbn; eauto. }
  destruct (file_step os_write op fs) as [err fs1]. cbn [fst snd] in Hs. destruct Hs as (Hc1 & He & Hf).
  specialize (IH fs1 Hc1). destruct (file_run os_write ops fs1) as [errs fs2]. destruct IH as [IH IHe].
  rewrite IH, Hf. split; [done|]. by constructor.
Qed.
End FileHistory.
