(* ===== verification/Telemetry.v ===== *)
(** * Structured logs and traces: [pkg/telemetry/logger.go], [tracing.go]

    The loggers [NewLogger] makes, with what the two handlers of [log/slog]
    write to the standard output, the logger kept in a context, and the event
    of the gateway.  OpenTelemetry is a parameter. *)

From S2P Require Import Prelude GoString GoTime Encoding Json JsonText TextLemmas TimeText Effects AuditLog.
Open Scope Z_scope.

(** ** [log/slog] *)

(** The values the program logs. *)
Inductive Value := VString (s : string) | VBool (b : bool).

Record LogRecord := MkRecord {
  lr_Time : Time;
  lr_Level : Z;
  lr_Message : string;
  lr_Attrs : list (string * Value)
}.

Definition LevelInfo : Z := 0.

(** [Level.String] *)
Definition level_from (base : string) (d : Z) : string :=
  if d =? 0 then base else base +:+ (if 0 <=? d then "+" else EmptyString) +:+ fmt_d d.
Definition Level_String (l : Z) : string :=
  if l <? 0 then level_from "DEBUG" (l + 4)
  else if l <? 4 then level_from "INFO" l
  else if l <? 8 then level_from "WARN" (l - 4)
  else level_from "ERROR" (l - 8).

(** A logger: the levels it handles, and the line it writes for a record,
    [None] for a time outside of the years 0 to 9999. *)
Record Logger := MkSlog {
  lg_Enabled : Z -> bool;
  lg_line : LogRecord -> option string
}.

(** *** The JSON handler *)

(** [appendEscapedJSONString] without the escapes for HTML. *)
Definition slog_char (c : ascii) : string :=
  let b := byte_val c in
  if (b =? 34) || (b =? 92) then escape1 c
  else if b =? 10 then escape1 "n"
  else if b =? 13 then escape1 "r"
  else if b =? 9 then escape1 "t"
  else if b <? 32 then escape1 "u" +:+ hex_pad 4 b
  else str1 c.
Definition slog_rune (x : Z * string) : string :=
  let '(r, b) := x in
  if (r =? RuneError) && Nat.eqb (String.length b) 1 then escape1 "u" +:+ "fffd"
  else if (r =? 8232) || (r =? 8233) then escape1 "u" +:+ hex_pad 4 r
  else match b with
       | String c EmptyString => slog_char c
       | _ => b
       end.
Definition slog_quote (s : string) : string :=
  str1 dquote +:+ foldr (fun x acc => slog_rune x +:+ acc) EmptyString (runes s) +:+ str1 dquote.

Definition json_value (v : Value) : string :=
  match v with VString s => slog_quote s | VBool b => json_bool b end.
Definition json_attr (a : string * Value) : string := slog_quote a.1 +:+ ":" +:+ json_value a.2.

Section Handlers.
Context {U : Unicode} {L : LocalTime}.

Definition json_line (r : LogRecord) : option string :=
  time ← (if IsZero (lr_Time r) then Some []
          else t ← time_MarshalJSON (lr_Time r); Some [slog_quote "time" +:+ ":" +:+ t]);
  Some ("{" +:+ Join (time ++ [slog_quote "level" +:+ ":" +:+ slog_quote (Level_String (lr_Level r));
                               slog_quote "msg" +:+ ":" +:+ slog_quote (lr_Message r)] ++
                      map json_attr (lr_Attrs r))%list "," +:+ "}" +:+ str1 newline).

(** *** The text handler *)

(** [needsQuoting] *)
Definition quoted_rune (x : Z * string) : bool :=
  let '(r, b) := x in
  if r <? 128 then negb (r =? 92) && ((r =? 32) || (r =? 61) || negb (in_range 32 127 r) || (r =? 34))
  else (r =? RuneError) || IsSpace r || negb (is_print r).
Definition needsQuoting (s : string) : bool :=
  String.eqb s EmptyString || existsb quoted_rune (runes s).
Definition text_string (s : string) : string := if needsQuoting s then Quote s else s.
Definition text_value (v : Value) : string := match v with VString s => text_string s | VBool b => json_bool b end.
Definition text_attr (a : string * Value) : string := text_string a.1 +:+ "=" +:+ text_value a.2.

(** [appendRFC3339Millis]: a tenth of a millisecond is added, and the fourth
    digit dropped. *)
Definition millis_text (t : Time) : option string :=
  s ← time_text local_offset (t - t mod 1000000 + 100000);
  Some (str_take 23 s +:+ str_drop 24 s).

Definition text_line (r : LogRecord) : option string :=
  time ← (if IsZero (lr_Time r) then Some []
          else t ← millis_text (lr_Time r); Some ["time=" +:+ t]);
  Some (Join (time ++ ["level=" +:+ text_string (Level_String (lr_Level r));
                       "msg=" +:+ text_string (lr_Message r)] ++ map text_attr (lr_Attrs r))%list " " +:+ str1 newline).

(** ** [logger.go] *)

Definition NewLogger (format : string) (level : Z) : Logger :=
  MkSlog (fun l => level <=? l) (if String.eqb format "text" then text_line else json_line).
End Handlers.

(** The value a context has for [contextLogKey]: a pointer, maybe nil. *)
Abbreviation LogContext := (option (option Logger)) (only parsing).
Definition WithLogger (ctx : LogContext) (logger : option Logger) : LogContext := Some logger.
(** [dflt] is [slog.Default()]. *)
Definition LoggerFromContext (dflt : Logger) (ctx : LogContext) : Logger :=
  match ctx with Some (Some l) => l | _ => dflt end.

Record IAMEvent := MkIAMEvent {
  ie_Event : string;
  ie_TenantID : string;
  ie_Subject : string;
  ie_ACR : string;
  ie_Resource : string;
  ie_Method : string;
  ie_Allowed : bool;
  ie_Reason : string;
  ie_TraceID : string
}.

Definition event_attrs (e : IAMEvent) : list (string * Value) :=
  [("tenant_id", VString (ie_TenantID e)); ("sub", VString (ie_Subject e)); ("acr", VString (ie_ACR e));
   ("resource", VString (ie_Resource e)); ("method", VString (ie_Method e)); ("allowed", VBool (ie_Allowed e));
   ("reason", VString (ie_Reason e)); ("trace_id", VString (ie_TraceID e))].

(** [Logger.InfoContext]: the state is what the logger wrote. *)
Definition InfoContext (logger : Logger) (msg : string) (attrs : list (string * Value)) : M string unit :=
  if lg_Enabled logger LevelInfo then
    now ← Now;
    modify (fun out => out +:+ default EmptyString (lg_line logger (MkRecord now LevelInfo msg attrs)))
  else mret tt.

(** [IAMEvent.Log] *)
Definition IAMEvent_Log (dflt : Logger) (ctx : LogContext) (e : IAMEvent) : M string unit :=
  InfoContext (LoggerFromContext dflt ctx) (ie_Event e) (event_attrs e).

(** ** [tracing.go] *)

(** What the package calls of OpenTelemetry: tracers, spans with attributes,
    and the span of a context with its identity. *)
Class OpenTelemetry (C T Sp : Type) := {
  otel_Tracer : string -> T;
  otel_Start : T -> C -> string -> list (string * string) -> C * Sp;
  span_SetAttributes : Sp -> list (string * string) -> Sp;
  span_RecordError : Sp -> error -> Sp;
  span_SetStatusError : Sp -> string -> Sp;
  SpanFromContext : C -> Sp;
  span_IsValid : Sp -> bool;
  span_TraceID : Sp -> string
}.

Section Tracing.
Context {C T Sp : Type} `{!OpenTelemetry C T Sp}.

Definition tracerName : string := "github.com/common-iam/iam".
Definition Tracer : T := otel_Tracer tracerName.
Definition StartSpan (ctx : C) (operation : string) (attrs : list (string * string)) : C * Sp :=
  otel_Start Tracer ctx operation attrs.
Definition SpanFromToken (span : Sp) (sub acr tenantID : string) : Sp :=
  span_SetAttributes span [("iam.subject", sub); ("iam.acr", acr); ("iam.tenant_id", tenantID)].
Definition SpanFail (span : Sp) (err : error) : Sp :=
  span_SetStatusError (span_RecordError span err) (err_text err).
Definition TraceIDFromContext (ctx : C) : string :=
  let span := SpanFromContext ctx in
  if negb (span_IsValid span) then EmptyString else span_TraceID span.
End Tracing.

(** ** One event, one line *)

Lemma slog_char_no_control c : str_forall no_control (slog_char c) = true.
Proof. destruct c as [[] [] [] [] [] [] [] []]; vm_compute; reflexivity. Qed.

(** Each decoded chunk is one byte or made of bytes beyond ASCII. *)
Definition chunk_ok (x : Z * string) : Prop :=
  (String.length x.2 <= 1)%nat \/ str_forall (fun c => 128 <=? byte_val c) x.2 = true.

Lemma runes_chunks s : Forall chunk_ok (runes s).
Proof.
  unfold runes. generalize (String.length s) as fuel. intros fuel. revert s.
  induction fuel as [|fuel IH]; intros s; [by constructor|]. destruct s as [|c s]; [by constructor|].
  cbn [runes_fuel]. pose proof (decode_rune_wide (String c s)) as Hw.
  destruct (decode_rune (String c s)) as [r w]. cbn [snd] in Hw. constructor; [|apply IH]. unfold chunk_ok. cbn [snd].
  destruct Hw as [->|[->|Hw]]; [left; cbn; lia|left; cbn; destruct s; cbn; lia|by right].
Qed.

Lemma wide_no_control s : str_forall (fun c => 128 <=? byte_val c) s = true -> str_forall no_control s = true.
Proof. apply str_forall_weaken. unfold no_control. intros c Hc. b2p. apply Z.leb_le. lia. Qed.

Lemma foldr_no_control (f : Z * string -> string) l :
  Forall (fun x => str_forall no_control (f x) = true) l ->
  str_forall no_control (foldr (fun x acc => f x +:+ acc) EmptyString l) = true.
Proof. induction 1 as [|x l Hx _ IH]; [done|]. cbn [foldr]. by rewrite str_forall_app, Hx, IH. Qed.

Lemma slog_quote_no_control s : str_forall no_control (slog_quote s) = true.
Proof.
  unfold slog_quote. rewrite !str_forall_app, foldr_no_control; [done|].
  eapply Forall_impl; [apply runes_chunks|]. intros [r b] Hb. unfold slog_rune, chunk_ok in *. cbn [snd] in Hb.
  destruct (_ && _); [done|]. destruct (_ || _) eqn:Hr.
  { apply orb_true_iff in Hr as [Hr|Hr]; b2p; by subst r. }
  destruct Hb as [Hb|Hb].
  - destruct b as [|c [|d b]]; [done|apply slog_char_no_control|cbn in Hb; lia].
  - destruct b as [|c [|d b]]; [done|apply slog_char_no_control|by apply wide_no_control].
Qed.

Lemma hex_pad_no_control n z : str_forall no_control (hex_pad n z) = true.
Proof.
  revert z. induction n as [|n IH]; intros z; [done|]. cbn [hex_pad].
  assert (Hd : forall d, 0 <= d < 16 -> no_control (hex_digit d) = true).
  { intros d Hd. assert (Hall : forallb (fun z => no_control (hex_digit z)) (map Z.of_nat (seq 0 16)) = true) by reflexivity.
    rewrite forallb_forall in Hall. apply Hall. apply in_map_iff. exists (Z.to_nat d). split; [lia|]. apply in_seq. lia. }
  unfold str_forall in *. cbn [str_bytes forallb]. rewrite IH, Hd; [done|].
  change 15 with (Z.ones 4). rewrite Z.land_ones by lia. apply Z.mod_pos_bound. lia.
Qed.

Lemma high_byte z : Z.testbit z 7 = true -> no_control (of_byte z) = true.
Proof.
  intros Hz. unfold no_control. apply Z.leb_le. rewrite byte_val_mod.
  pose proof (Z.mod_pos_bound z 256 ltac:(lia)) as Hb.
  destruct (Z.lt_ge_cases (z mod 256) 32) as [Hlt|]; [|done]. exfalso.
  assert (Z.testbit (z mod 2 ^ 8) 7 = true) as Ht by by rewrite Z.mod_pow2_bits_low by lia.
  change (2 ^ 8) with 256 in Ht. destruct (Z.eq_dec (z mod 256) 0) as [E|E]; [by rewrite E in Ht|].
  rewrite Z.bits_above_log2 in Ht; [done|lia|]. apply Z.log2_lt_pow2; lia.
Qed.

Lemma encode_rune_no_control r : 32 <= r -> str_forall no_control (encode_rune r) = true.
Proof.
  intros Hr. unfold encode_rune.
  assert (Hl : forall a z, Z.testbit a 7 = true -> no_control (of_byte (Z.lor a z)) = true)
    by (intros a z Ha; apply high_byte; by rewrite Z.lor_spec, Ha).
  destruct (in_range 0 127 r) eqn:E0.
  { unfold in_range in E0. b2p. unfold str_forall. cbn [str_bytes forallb]. rewrite andb_true_r.
    unfold no_control. rewrite byte_val_mod, Z.mod_small by lia. by apply Z.leb_le. }
  unfold str_forall. destruct (in_range 128 2047 r); cbn [str_bytes forallb]; [by rewrite !Hl|].
  set (r' := if _ || _ then _ else r). destruct (r' <? 65536); cbn [str_bytes forallb]; by rewrite !Hl.
Qed.

Section Lines.
Context {U : Unicode} {L : LocalTime}.

Lemma Quote_no_control s : str_forall no_control (Quote s) = true.
Proof.
  unfold Quote. rewrite !str_forall_app, foldr_no_control; [done|]. apply Forall_forall.
  intros [r b] _. unfold quote_rune. destruct (_ && _).
  { rewrite str_forall_app. by destruct b; [|rewrite hex_pad_no_control]. }
  unfold escaped_rune. destruct (_ || _) eqn:E.
  { apply orb_true_iff in E as [E|E]; b2p; by subst r. }
  destruct (is_print r) eqn:Hp.
  { apply encode_rune_no_control. unfold is_print, in_range in Hp.
    destruct (Z.ltb_spec r 128); b2p; lia. }
  clear E Hp. repeat (destruct (_ =? _); [done|]).
  destruct (_ || _); [|destruct (_ <? _)]; by rewrite str_forall_app, hex_pad_no_control.
Qed.

Lemma str_drop_short n s : (String.length (str_drop n s) <= String.length s)%nat.
Proof. rewrite <- (str_take_drop n s) at 2. rewrite str_length_app. lia. Qed.

Lemma decode_rune_width c s : (1 <= (decode_rune (String c s)).2)%nat.
Proof. cbn [decode_rune]. repeat case_match; cbn; lia. Qed.

Lemma unquoted_no_control s : needsQuoting s = false -> str_forall no_control s = true.
Proof.
  unfold needsQuoting, runes. intros [_ Hq]%orb_false_iff. revert Hq.
  assert (Hf : (String.length s <= String.length s)%nat) by lia. revert Hf. generalize (String.length s) at 2 3 as fuel.
  intros fuel. revert s. induction fuel as [|fuel IH]; intros s Hf; [by destruct s; cbn in Hf; [|lia]|].
  destruct s as [|c s]; [done|]. cbn [runes_fuel].
  pose proof (decode_rune_wide (String c s)) as Hw. pose proof (decode_rune_width c s) as Hpos.
  destruct (decode_rune (String c s)) as [r w] eqn:Hd. cbn [snd] in Hw, Hpos. cbn [existsb].
  intros [Hx Hl]%orb_false_iff. rewrite <- (str_take_drop w (String c s)), str_forall_app.
  rewrite (IH (str_drop w (String c s))); [|destruct w as [|w]; [lia|]; cbn [str_drop]; pose proof (str_drop_short w s); cbn in Hf; lia|done].
  rewrite andb_true_r. destruct Hw as [->|[->|Hw]]; [lia| |by apply wide_no_control].
  cbn [str_take]. replace (str_take 0 s) with EmptyString by by destruct s.
  unfold str_forall, no_control. cbn [str_bytes forallb]. rewrite andb_true_r. apply Z.leb_le.
  destruct (Z.lt_ge_cases (byte_val c) 128) as [Hc|Hc]; [|lia].
  rewrite decode_rune_ascii in Hd by done. injection Hd as <-.
  unfold quoted_rune, in_range in Hx. rewrite (proj2 (Z.ltb_lt _ _) Hc) in Hx.
  destruct (Z.eqb_spec (byte_val c) 92); [lia|]. cbn [negb andb] in Hx.
  apply orb_false_iff in Hx as [Hx _]. apply orb_false_iff in Hx as [_ Hx]. b2p. lia.
Qed.

Lemma text_string_no_control s : str_forall no_control (text_string s) = true.
Proof. unfold text_string. destruct (needsQuoting s) eqn:E; [apply Quote_no_control|by apply unquoted_no_control]. Qed.

Lemma plain_no_control s : str_forall is_plain s = true -> str_forall no_control s = true.
Proof.
  apply str_forall_weaken. intros c. destruct c as [[] [] [] [] [] [] [] []]; vm_compute; (reflexivity || discriminate).
Qed.

Lemma str_forall_take_drop p n m s : str_forall p s = true -> str_forall p (str_take n s +:+ str_drop m s) = true.
Proof.
  intros Hs. rewrite str_forall_app. pose proof Hs as Hs'.
  rewrite <- (str_take_drop n s), str_forall_app in Hs. rewrite <- (str_take_drop m s), str_forall_app in Hs'.
  apply andb_true_iff in Hs as [-> _]. by apply andb_true_iff in Hs' as [_ ->].
Qed.

(** A handler's line ends with the only line break it has. *)
Definition one_line (line : string) : Prop := exists l, line = l +:+ str1 newline /\ newline ∉ str_bytes l.

Lemma one_line_no_control l : str_forall no_control l = true -> one_line (l +:+ str1 newline).
Proof. intros Hl. exists l. split; [done|]. by eapply str_forall_not_elem. Qed.

Lemma json_line_one_line r line : json_line r = Some line -> one_line line.
Proof.
  unfold json_line. set (time := if IsZero _ then _ else _). destruct time as [ts|] eqn:Ht; [|done].
  cbn [mbind option_bind]. intros Hl%(inj Some). subst line.
  set (body := Join _ ","). rewrite <- !str_app_assoc. apply one_line_no_control. subst body.
  rewrite !str_forall_app, Join_no_control; [done| |done]. rewrite !Forall_app. split.
  - subst time. destruct (IsZero _); [by apply (inj Some) in Ht; subst ts|].
    destruct (time_MarshalJSON (lr_Time r)) as [t|] eqn:Hm; [|done]. apply (inj Some) in Ht; subst ts. constructor; [|done].
    apply time_MarshalJSON_quote in Hm as (x & _ & _ & ->).
    by rewrite !str_forall_app, slog_quote_no_control, json_quote_no_control.
  - split.
    + repeat constructor; by rewrite !str_forall_app, !slog_quote_no_control.
    + apply Forall_map, Forall_true. intros [k v]. unfold json_attr. rewrite !str_forall_app, slog_quote_no_control.
      destruct v as [v|[]]; [apply slog_quote_no_control|done..].
Qed.

Lemma text_line_one_line r line : text_line r = Some line -> one_line line.
Proof.
  unfold text_line. set (time := if IsZero _ then _ else _). destruct time as [ts|] eqn:Ht; [|done].
  cbn [mbind option_bind]. intros Hl%(inj Some). subst line. apply one_line_no_control.
  apply Join_no_control; [|done]. rewrite !Forall_app. split.
  - subst time. destruct (IsZero _); [by apply (inj Some) in Ht; subst ts|]. unfold millis_text in Ht.
    destruct (time_text _ _) as [t|] eqn:Hm; [|done]. apply (inj Some) in Ht; subst ts. constructor; [|done].
    rewrite str_forall_app, str_forall_take_drop; [done|]. eapply plain_no_control, time_text_plain, Hm.
  - split.
    + repeat constructor; by rewrite str_forall_app, text_string_no_control.
    + apply Forall_map, Forall_true. intros [k v]. unfold text_attr. rewrite !str_forall_app, text_string_no_control.
      destruct v as [v|[]]; [apply text_string_no_control|done..].
Qed.
End Lines.

(** ** The JSON lines are read back *)

Lemma slog_char_cases c :
  (slog_char c = str1 c /\ 32 <= byte_val c /\ c <> dquote /\ c <> backslash) \/
  (exists e, slog_char c = escape1 e /\ simple_escape e = Some c /\ e <> "u"%char) \/
  slog_char c = escape1 "u" +:+ hex_pad 4 (byte_val c).
Proof.
  assert (Hex : forall z d, byte_val c = z -> byte_val d = z -> c = d).
  { intros z d H1 H2. apply byte_val_inj. congruence. }
  unfold slog_char.
  destruct (_ || _) eqn:H0.
  { right; left. exists c. split; [done|]. apply orb_true_iff in H0 as [H0|H0]; b2p;
      [rewrite (Hex 34 dquote H0 eq_refl)|rewrite (Hex 92 backslash H0 eq_refl)]; done. }
  apply orb_false_iff in H0 as [Hq Hs]. b2p.
  destruct (_ =? 10) eqn:?; [right; left; exists "n"%char; b2p; by rewrite (Hex 10 "010"%char)|].
  destruct (_ =? 13) eqn:?; [right; left; exists "r"%char; b2p; by rewrite (Hex 13 "013"%char)|].
  destruct (_ =? 9) eqn:?; [right; left; exists "t"%char; b2p; by rewrite (Hex 9 "009"%char)|].
  destruct (_ <? 32) eqn:Hc; [by right; right|].
  left. b2p. split; [done|]. split; [done|]. split; intros ->; done.
Qed.

Lemma slog_runes_ascii s :
  is_ascii s = true ->
  foldr (fun x acc => slog_rune x +:+ acc) EmptyString (runes s) =
  foldr (fun c acc => slog_char c +:+ acc) EmptyString (str_bytes s).
Proof.
  intros Hs. rewrite runes_ascii by done. induction s as [|c s IH]; [done|].
  apply is_ascii_cons in Hs as [Hc Hs]. cbn [str_bytes map foldr]. rewrite IH by done. f_equal.
  unfold slog_rune. pose proof (byte_val_range c). by rewrite !(proj2 (Z.eqb_neq _ _)) by (unfold RuneError; lia).
Qed.

Lemma parse_str_slog s rest f :
  is_ascii s = true -> (String.length s < f)%nat ->
  parse_str f (foldr (fun c acc => slog_char c +:+ acc) EmptyString (str_bytes s) +:+ String dquote rest) = Some (s, rest).
Proof.
  intros Hs. revert f. induction s as [|c s IH]; intros [|f] Hf; simpl in Hf; try lia; [done|].
  apply is_ascii_cons in Hs as [Hc Hs]. cbn [str_bytes foldr]. rewrite str_app_assoc.
  assert (Hp : forall t, parse_str (S f) (slog_char c +:+ t) = '(v, r) ← parse_str f t; Some (String c v, r)).
  { intros t. destruct (slog_char_cases c) as [(-> & Hb & Hq & Hb')|[(e & -> & He & Hu)| ->]].
    - apply parse_str_plain; done || lia.
    - by apply parse_str_escape.
    - by apply parse_str_u00. }
  rewrite Hp. by rewrite IH by (done || lia).
Qed.

Lemma whole_slog_quote s : is_ascii s = true -> whole (slog_quote s) (JStr s).
Proof.
  intros Hs. unfold slog_quote. rewrite slog_runes_ascii by done. split; [|done]. intros [|f] rest Hf; [lia|].
  set (body := foldr _ EmptyString (str_bytes s)) in *.
  assert (Hlen : (String.length s <= String.length body)%nat).
  { subst body. clear. induction s as [|c s IH]; simpl; [lia|]. rewrite str_length_app.
    assert (1 <= String.length (slog_char c))%nat; [|lia].
    destruct (slog_char_cases c) as [(-> & _)|[(e & -> & _)| ->]]; simpl; lia. }
  rewrite !str_length_app in Hf. simpl in Hf.
  change (str1 dquote +:+ body +:+ str1 dquote) with (String dquote (body +:+ str1 dquote)).
  rewrite str_app_cons, str_app_assoc. cbn [parse_value].
  change (Ascii.eqb dquote "{") with false. change (Ascii.eqb dquote "[") with false.
  rewrite Ascii.eqb_refl. unfold str1. cbn [String.append]. subst body.
  rewrite parse_str_slog by (done || lia). done.
Qed.

Lemma json_members_Join l :
  json_members l = Join (map (fun kv => json_quote kv.1 +:+ ":" +:+ kv.2) l) ",".
Proof.
  induction l as [|[k v] l IH]; [done|]. destruct l as [|kv l]; [done|].
  change (json_members ((k, v) :: kv :: l)) with (json_quote k +:+ ":" +:+ v +:+ "," +:+ json_members (kv :: l)).
  rewrite IH. cbn [map Join fst snd]. by rewrite !str_app_assoc.
Qed.

Section Events.
Context {U : Unicode} {L : LocalTime}.

(** The members of an event's line, as (name, value). *)
Definition event_members (time : string) (e : IAMEvent) : list (string * json) :=
  [("time", JStr time); ("level", JStr "INFO"); ("msg", JStr (ie_Event e)); ("tenant_id", JStr (ie_TenantID e));
   ("sub", JStr (ie_Subject e)); ("acr", JStr (ie_ACR e)); ("resource", JStr (ie_Resource e));
   ("method", JStr (ie_Method e)); ("allowed", JBool (ie_Allowed e)); ("reason", JStr (ie_Reason e));
   ("trace_id", JStr (ie_TraceID e))].

Definition ascii_event (e : IAMEvent) : Prop :=
  Forall (fun s => is_ascii s = true)
    [ie_Event e; ie_TenantID e; ie_Subject e; ie_ACR e; ie_Resource e; ie_Method e; ie_Reason e; ie_TraceID e].

Lemma json_line_event t e ts :
  IsZero t = false -> time_MarshalJSON t = Some ts ->
  json_line (MkRecord t LevelInfo (ie_Event e) (event_attrs e)) =
  Some (json_object [("time", ts); ("level", slog_quote "INFO"); ("msg", slog_quote (ie_Event e));
    ("tenant_id", slog_quote (ie_TenantID e)); ("sub", slog_quote (ie_Subject e)); ("acr", slog_quote (ie_ACR e));
    ("resource", slog_quote (ie_Resource e)); ("method", slog_quote (ie_Method e)); ("allowed", json_bool (ie_Allowed e));
    ("reason", slog_quote (ie_Reason e)); ("trace_id", slog_quote (ie_TraceID e))] +:+ str1 newline).
Proof.
  intros Hz Ht. unfold json_line. cbn [lr_Time lr_Level lr_Message lr_Attrs]. rewrite Hz, Ht.
  cbn [mbind option_bind]. f_equal. unfold json_object. rewrite json_members_Join, !str_app_assoc. done.
Qed.

(** An event written by the JSON logger of the context is read back, and its
    time with it; below the level of the logger nothing is written. *)
Theorem logged_event_roundtrip dflt ctx format level e w :
  String.eqb format "text" = false -> local_offset mod 60 = 0 -> Z.abs local_offset < 24 * 3600 ->
  ascii_event e -> IsZero (now_of w) = false -> time_text local_offset (now_of w) <> None ->
  let out := w_st (IAMEvent_Log dflt (WithLogger ctx (Some (NewLogger format level))) e w).2 in
  if level <=? LevelInfo then
    exists line l ts, out = w_st w +:+ line /\ one_line line /\ json_Unmarshal line = Some (JObj l) /\
      map (fun m => (m.1, m.2.2)) l = event_members ts e /\ parseRFC3339 ts = Some (now_of w)
  else out = w_st w.
Proof.
  intros Hfmt Hm Ha Hascii Hz Ht. unfold IAMEvent_Log, InfoContext, WithLogger, LoggerFromContext, NewLogger.
  cbn [lg_Enabled lg_line]. rewrite Hfmt. destruct (level <=? LevelInfo); [|done].
  unfold mbind, M_bind, Now, modify. cbn [w_now w_tick w_st snd].
  change (w_now w (w_tick w)) with (now_of w).
  destruct (time_MarshalJSON (now_of w)) as [j|] eqn:Hj.
  2: { unfold time_MarshalJSON in Hj. by destruct (time_text _ _). }
  rewrite (json_line_event _ e j Hz Hj). cbn [default].
  apply time_MarshalJSON_quote in Hj as (ts & Hts & Hp & ->).
  set (l := [("time", (json_quote ts, JStr ts)); ("level", (slog_quote "INFO", JStr "INFO"));
    ("msg", (slog_quote (ie_Event e), JStr (ie_Event e))); ("tenant_id", (slog_quote (ie_TenantID e), JStr (ie_TenantID e)));
    ("sub", (slog_quote (ie_Subject e), JStr (ie_Subject e))); ("acr", (slog_quote (ie_ACR e), JStr (ie_ACR e)));
    ("resource", (slog_quote (ie_Resource e), JStr (ie_Resource e))); ("method", (slog_quote (ie_Method e), JStr (ie_Method e)));
    ("allowed", (json_bool (ie_Allowed e), JBool (ie_Allowed e))); ("reason", (slog_quote (ie_Reason e), JStr (ie_Reason e)));
    ("trace_id", (slog_quote (ie_TraceID e), JStr (ie_TraceID e)))]).
  eexists _, l, ts. split; [reflexivity|]. split.
  { eapply json_line_one_line, json_line_event; [exact Hz|]. unfold time_MarshalJSON. rewrite Hts. cbn [mbind option_bind].
    by rewrite json_quote_plain. }
  split; [|split; [done|by eapply parseRFC3339_text]].
  apply (json_Unmarshal_whole _ _ (str1 newline)); [|done]. apply (whole_object l).
  apply Forall_cons_1 in Hascii as [H1 Hascii]. rewrite !Forall_cons in Hascii.
  destruct Hascii as (H2 & H3 & H4 & H5 & H6 & H7 & H8 & _).
  assert (Hq : forall k s, is_ascii k = true -> is_ascii s = true -> member_ok (k, (slog_quote s, JStr s))).
  { intros k s Hk Hs. split; [done|]. by apply whole_reads, whole_slog_quote. }
  subst l. repeat (apply Forall_cons_2; [try by apply Hq|]); [..|done].
  - split; [done|]. apply whole_reads, whole_quote. by apply is_plain_ascii.
  - split; [done|]. apply whole_reads, whole_bool.
Qed.
End Events.

Section Demo.
#[local] Existing Instance unicode_min.

Definition demo_event : IAMEvent :=
  MkIAMEvent "stepup.challenge_issued" "acme" "bob" EmptyString ("/pay" +:+ str1 newline +:+ "level=ERROR") "GET" false
    "acr" "t1".
Definition demo_log (format : string) : string :=
  w_st (IAMEvent_Log (MkSlog (fun _ => false) (fun _ => None))
    (WithLogger None (Some (NewLogger format LevelInfo))) demo_event (World (fun _ => 1700000000 * Second + 5000000) 0 EmptyString)).2.

(** The line break in the path does not start a line of its own. *)
Example demo_log_text :
  demo_log "text" = "time=2023-11-14T22:13:20.005Z level=INFO msg=stepup.challenge_issued tenant_id=acme sub=bob acr=" +:+
    Quote EmptyString +:+ " resource=" +:+ Quote (ie_Resource demo_event) +:+
    " method=GET allowed=false reason=acr trace_id=t1" +:+ str1 newline.
Proof. vm_compute. reflexivity. Qed.

Example logged_event_roundtrip_witness :
  exists line l ts, demo_log "json" = line /\ one_line line /\ json_Unmarshal line = Some (JObj l) /\
    map (fun m => (m.1, m.2.2)) l = event_members ts demo_event /\ parseRFC3339 ts = Some (1700000000 * Second + 5000000).
Proof.
  exact (logged_event_roundtrip (MkSlog (fun _ => false) (fun _ => None)) None "json" LevelInfo demo_event
    (World (fun _ => 1700000000 * Second + 5000000) 0 EmptyString) eq_refl eq_refl eq_refl
    ltac:(repeat constructor; vm_compute; reflexivity) eq_refl ltac:(vm_compute; discriminate)).
Defined.
End Demo.
