(* ===== verification/Cache.v ===== *)
(** * Token caches: [pkg/core/token/cache.go]

    The [Cache] interface with its laws, [MemoryCache] and [RedisCache] as its
    instances, and [CachedIntrospector].  Every operation gets the instant at
    which it runs: the reading of [time.Now] in [MemoryCache], the server's
    clock for Redis. *)

From S2P Require Import Prelude GoString GoTime Encoding Crypto Json TextLemmas Rar Claims Effects.

(** ** The interface *)

Class Cache (S : Type) := {
  Cache_Get : Time -> string -> S -> option CommonClaims;
  Cache_Set : Time -> string -> CommonClaims -> Duration -> S -> option error * S;
  Cache_Delete : Time -> string -> S -> option error * S;
  Cache_Flush : Time -> S -> option error * S
}.

Definition HashToken (token : string) : string := hex_encode (sha256 token).

(** What a JSON round trip forgets: a [[]string] comes back as [[]interface{}],
    an integer as a number. *)
Definition json_norm (v : goval) : goval :=
  match v with GStrings l => GSlice (map GString l) | GInt z => GNumber (fmt_d z) | _ => v end.

(** Claims that agree up to [json_norm] of the [Extra] values. *)
Definition claims_norm (c : CommonClaims) : CommonClaims :=
  let '(MkClaims a b c d e f g h i j k l m n o p q extra r) := c in
  MkClaims a b c d e f g h i j k l m n o p q (fmap (M := option) (fmap json_norm) extra) r.
#[export] Instance claims_equiv : Equiv CommonClaims :=
  fun c c' => claims_norm c = claims_norm c'.
#[export] Instance claims_equivalence : Equivalence (≡@{CommonClaims}).
Proof. split; unfold equiv, claims_equiv; congruence. Qed.

(** What a cache promises its clients.  [healthy] states have a reachable
    backend; [storable] claims survive the storage. *)
Class CacheLaws (S : Type) `{Cache S} := {
  healthy : S -> Prop;
  storable : CommonClaims -> Prop;
  set_ok t k c ttl s : healthy s -> storable c -> 0 < ttl ->
    fst (Cache_Set t k c ttl s) = None /\ healthy (snd (Cache_Set t k c ttl s));
  delete_ok t k s : healthy s ->
    fst (Cache_Delete t k s) = None /\ healthy (snd (Cache_Delete t k s));
  get_set_live t now k c ttl s : healthy s -> storable c -> 0 < ttl -> t <= now < t + ttl ->
    exists c', Cache_Get now k (snd (Cache_Set t k c ttl s)) = Some c' /\ c' ≡ c;
  get_set_dead t now k c ttl s : healthy s -> storable c -> 0 < ttl -> t + ttl < now ->
    Cache_Get now k (snd (Cache_Set t k c ttl s)) = None;
  get_set_other t now k k' c ttl s : k <> k' ->
    Cache_Get now k' (snd (Cache_Set t k c ttl s)) = Cache_Get now k' s;
  get_delete_same t now k s : healthy s -> Cache_Get now k (snd (Cache_Delete t k s)) = None;
  get_delete_other t now k k' s : k <> k' ->
    Cache_Get now k' (snd (Cache_Delete t k s)) = Cache_Get now k' s;
  get_expired t now k s : t <= now -> Cache_Get t k s = None -> Cache_Get now k s = None
}.

(** ** [MemoryCache] *)

Record memoryCacheEntry := MkEntry {
  me_claims : CommonClaims;
  me_expiresAt : Time
}.

Record MemoryCache := MkMemoryCache { mc_entries : gmap string memoryCacheEntry }.

Module Memory.
Definition NewMemoryCache : MemoryCache := MkMemoryCache ∅.

Definition Get (now : Time) (key : string) (m : MemoryCache) : option CommonClaims :=
  match mc_entries m !! key with
  | None => None
  | Some entry => if time_After now (me_expiresAt entry) then None else Some (me_claims entry)
  end.

Definition Set_ (now : Time) (key : string) (claims : CommonClaims) (ttl : Duration)
    (m : MemoryCache) : option error * MemoryCache :=
  (None, MkMemoryCache (<[key := MkEntry claims (time_Add now ttl)]> (mc_entries m))).

Definition Delete (_ : Time) (key : string) (m : MemoryCache) : option error * MemoryCache :=
  (None, MkMemoryCache (delete key (mc_entries m))).

Definition Flush (_ : Time) (m : MemoryCache) : option error * MemoryCache :=
  (None, MkMemoryCache ∅).

(** One round of [cleanupLoop]. *)
Definition cleanup (now : Time) (m : MemoryCache) : MemoryCache :=
  MkMemoryCache (filter (fun kv => time_After now (me_expiresAt kv.2) = false) (mc_entries m)).
End Memory.

#[export] Instance memory_cache : Cache MemoryCache := {|
  Cache_Get := Memory.Get;
  Cache_Set := Memory.Set_;
  Cache_Delete := Memory.Delete;
  Cache_Flush := Memory.Flush
|}.

#[export] Instance memory_cache_laws : CacheLaws MemoryCache.
Proof.
  refine {| healthy _ := True; storable _ := True |}; cbn;
    unfold Memory.Get, Memory.Set_, Memory.Delete, time_After, time_Add; cbn.
  - done.
  - done.
  - intros t now k c ttl s _ _ _ Ht. rewrite lookup_insert_eq. cbn.
    destruct (Z.ltb_spec (t + ttl) now); [lia|]. eauto.
  - intros t now k c ttl s _ _ _ Ht. rewrite lookup_insert_eq. cbn.
    by destruct (Z.ltb_spec (t + ttl) now); [|lia].
  - intros t now k k' c ttl s Hne. by rewrite lookup_insert_ne.
  - intros t now k s _. by rewrite lookup_delete_eq.
  - intros t now k k' s Hne. by rewrite lookup_delete_ne.
  - intros t now k s Ht. destruct (mc_entries s !! k) as [e|]; [|done].
    destruct (Z.ltb_spec (me_expiresAt e) t), (Z.ltb_spec (me_expiresAt e) now); done || lia.
Defined.

(** ** [RedisCache] *)

(** [RedisClient]: the subset of Redis the cache uses, on a server state. *)
Class RedisClient (R : Type) := {
  Redis_Get : Time -> string -> R -> res string;
  Redis_Set : Time -> string -> string -> Duration -> R -> option error * R;
  Redis_Del : Time -> list string -> R -> option error * R;
  Redis_FlushDB : Time -> R -> option error * R
}.

(** [json.Marshal] and [json.Unmarshal] at the type [CommonClaims]. *)
Class ClaimsJSON := {
  marshal_claims : CommonClaims -> res string;
  unmarshal_claims : string -> option CommonClaims
}.

Record RedisCache (R : Type) := MkRedisCache { rc_client : R; rc_keyPrefix : string }.
Arguments MkRedisCache {R} _ _.
Arguments rc_client {R} _.
Arguments rc_keyPrefix {R} _.

Module Redis.
Section Redis.
Context {R : Type} `{!RedisClient R} `{!ClaimsJSON}.

Definition NewRedisCache (client : R) (keyPrefix : string) : RedisCache R :=
  MkRedisCache client (if String.eqb keyPrefix EmptyString then "iam:token:" else keyPrefix).

Definition Get (now : Time) (key : string) (r : RedisCache R) : option CommonClaims :=
  match Redis_Get now (rc_keyPrefix r +:+ key) (rc_client r) with
  | Err _ => None
  | Ok val => if String.eqb val EmptyString then None else unmarshal_claims val
  end.

Definition Set_ (now : Time) (key : string) (claims : CommonClaims) (ttl : Duration)
    (r : RedisCache R) : option error * RedisCache R :=
  match marshal_claims claims with
  | Err e => (Some (errorw "marshaling claims" e), r)
  | Ok b =>
      let '(err, client) := Redis_Set now (rc_keyPrefix r +:+ key) b ttl (rc_client r) in
      (err, MkRedisCache client (rc_keyPrefix r))
  end.

Definition Delete (now : Time) (key : string) (r : RedisCache R) : option error * RedisCache R :=
  let '(err, client) := Redis_Del now [rc_keyPrefix r +:+ key] (rc_client r) in
  (err, MkRedisCache client (rc_keyPrefix r)).

Definition Flush (now : Time) (r : RedisCache R) : option error * RedisCache R :=
  let '(err, client) := Redis_FlushDB now (rc_client r) in
  (err, MkRedisCache client (rc_keyPrefix r)).
End Redis.
End Redis.

#[export] Instance redis_cache {R} `{!RedisClient R} `{!ClaimsJSON} : Cache (RedisCache R) := {|
  Cache_Get := Redis.Get;
  Cache_Set := Redis.Set_;
  Cache_Delete := Redis.Delete;
  Cache_Flush := Redis.Flush
|}.

(** The documented behaviour of GET, SET with a TTL, and DEL on a reachable
    server; a failed command changes nothing. *)
Class RedisLaws (R : Type) `{!RedisClient R} := {
  reachable : R -> Prop;
  redis_set_ok t k v ttl r : reachable r -> 0 < ttl ->
    fst (Redis_Set t k v ttl r) = None /\ reachable (snd (Redis_Set t k v ttl r));
  redis_del_ok t ks r : reachable r ->
    fst (Redis_Del t ks r) = None /\ reachable (snd (Redis_Del t ks r));
  redis_get_set_live t now k v ttl r : reachable r -> 0 < ttl -> t <= now < t + ttl ->
    Redis_Get now k (snd (Redis_Set t k v ttl r)) = Ok v;
  redis_get_set_dead t now k v ttl r : reachable r -> 0 < ttl -> t + ttl < now ->
    Redis_Get now k (snd (Redis_Set t k v ttl r)) = Ok EmptyString;
  redis_get_set_other t now k k' v ttl r : k <> k' ->
    Redis_Get now k' (snd (Redis_Set t k v ttl r)) = Redis_Get now k' r;
  redis_get_del_same t now k r : reachable r ->
    Redis_Get now k (snd (Redis_Del t [k] r)) = Ok EmptyString;
  redis_get_del_other t now k k' r : k <> k' ->
    Redis_Get now k' (snd (Redis_Del t [k] r)) = Redis_Get now k' r;
  redis_expire t now k r : t <= now ->
    (forall v, Redis_Get t k r = Ok v -> Redis_Get now k r = Ok v \/ Redis_Get now k r = Ok EmptyString) /\
    (forall e, Redis_Get t k r = Err e -> Redis_Get now k r = Err e)
}.

(** Claims the JSON codec brings back. *)
Definition codec_keeps `{!ClaimsJSON} (c : CommonClaims) : Prop :=
  exists b c', marshal_claims c = Ok b /\ b <> EmptyString /\ unmarshal_claims b = Some c' /\ c' ≡ c.

Lemma prefix_ne (p k k' : string) : k <> k' -> p +:+ k <> p +:+ k'.
Proof. intros Hne H. by apply str_app_inj_l in H. Qed.

#[export] Instance redis_cache_laws {R} `{!RedisClient R} `{!RedisLaws R} `{!ClaimsJSON} :
  CacheLaws (RedisCache R).
Proof.
  refine {| healthy s := reachable (rc_client s); storable := codec_keeps |}; cbn;
    unfold Redis.Get, Redis.Set_, Redis.Delete.
  - intros t k c ttl s Hh (b & c' & -> & _) Httl.
    destruct (redis_set_ok t (rc_keyPrefix s +:+ k) b ttl (rc_client s) Hh Httl) as [H1 H2].
    by destruct (Redis_Set _ _ _ _ _).
  - intros t k s Hh.
    destruct (redis_del_ok t [rc_keyPrefix s +:+ k] (rc_client s) Hh) as [H1 H2].
    by destruct (Redis_Del _ _ _).
  - intros t now k c ttl s Hh (b & c' & -> & Hb & Hu & Hc) Httl Ht. exists c'. split; [|done].
    pose proof (redis_get_set_live t now (rc_keyPrefix s +:+ k) b ttl (rc_client s) Hh Httl Ht) as Hg.
    destruct (Redis_Set _ _ _ _ _) as [err client]. cbn in *. rewrite Hg.
    by rewrite (proj2 (String.eqb_neq _ _) Hb).
  - intros t now k c ttl s Hh (b & c' & -> & Hb & Hu & Hc) Httl Ht.
    pose proof (redis_get_set_dead t now (rc_keyPrefix s +:+ k) b ttl (rc_client s) Hh Httl Ht) as Hg.
    destruct (Redis_Set _ _ _ _ _) as [err client]. cbn in *. by rewrite Hg.
  - intros t now k k' c ttl s Hne. destruct (marshal_claims c) as [b|e]; [|done].
    pose proof (redis_get_set_other t now _ _ b ttl (rc_client s) (prefix_ne (rc_keyPrefix s) _ _ Hne)) as Hg.
    destruct (Redis_Set _ _ _ _ _) as [err client]. cbn in *. by rewrite Hg.
  - intros t now k s Hh.
    pose proof (redis_get_del_same t now (rc_keyPrefix s +:+ k) (rc_client s) Hh) as Hg.
    destruct (Redis_Del _ _ _) as [err client]. cbn in *. by rewrite Hg.
  - intros t now k k' s Hne.
    pose proof (redis_get_del_other t now _ _ (rc_client s) (prefix_ne (rc_keyPrefix s) _ _ Hne)) as Hg.
    destruct (Redis_Del _ _ _) as [err client]. cbn in *. by rewrite Hg.
  - intros t now k s Ht.
    destruct (redis_expire t now (rc_keyPrefix s +:+ k) (rc_client s) Ht) as [Hok Herr].
    destruct (Redis_Get t _ _) as [v|e].
    + destruct (Hok v eq_refl) as [-> | ->]; [done|]. by rewrite String.eqb_refl.
    + by rewrite (Herr e eq_refl).
Defined.

(** A server that satisfies the Redis laws: values with their expiry. *)
Record MiniRedis := MkMiniRedis { mr_store : gmap string (string * Time) }.

#[export] Instance mini_redis : RedisClient MiniRedis := {|
  Redis_Get now k r :=
    Ok (match mr_store r !! k with
        | Some (v, e) => if now <? e then v else EmptyString
        | None => EmptyString
        end);
  Redis_Set now k v ttl r := (None, MkMiniRedis (<[k := (v, now + ttl)]> (mr_store r)));
  Redis_Del _ ks r := (None, MkMiniRedis (foldr (fun k m => delete k m) (mr_store r) ks));
  Redis_FlushDB _ r := (None, MkMiniRedis ∅)
|}.

#[export] Instance mini_redis_laws : RedisLaws MiniRedis.
Proof.
  refine {| reachable _ := True |}; cbn.
  - done.
  - done.
  - intros t now k v ttl r _ _ Ht. rewrite lookup_insert_eq. by destruct (Z.ltb_spec now (t + ttl)); [|lia].
  - intros t now k v ttl r _ _ Ht. rewrite lookup_insert_eq. by destruct (Z.ltb_spec now (t + ttl)); [lia|].
  - intros t now k k' v ttl r Hne. by rewrite lookup_insert_ne.
  - intros t now k r _. by rewrite lookup_delete_eq.
  - intros t now k k' r Hne. by rewrite lookup_delete_ne.
  - intros t now k r Ht. split; [|done]. intros v [= <-].
    destruct (mr_store r !! k) as [[v e]|]; [|by left].
    destruct (Z.ltb_spec t e), (Z.ltb_spec now e); auto; lia.
Defined.

(** ** [MemoryCache] against an abstract history

    The abstract cache is the list of operations performed, newest first. *)

Inductive cache_op :=
| OpSet (key : string) (claims : CommonClaims) (ttl : Duration)
| OpDelete (key : string)
| OpFlush
| OpCleanup.

Definition memory_step (m : MemoryCache) (x : Time * cache_op) : MemoryCache :=
  match x.2 with
  | OpSet k c ttl => snd (Memory.Set_ x.1 k c ttl m)
  | OpDelete k => snd (Memory.Delete x.1 k m)
  | OpFlush => snd (Memory.Flush x.1 m)
  | OpCleanup => Memory.cleanup x.1 m
  end.

(** The newest operation that concerns the key decides; cleaning never does. *)
Fixpoint history_get (hist : list (Time * cache_op)) (now : Time) (key : string)
    : option CommonClaims :=
  match hist with
  | [] => None
  | (t, OpSet k c ttl) :: hist' =>
      if bool_decide (k = key)
      then if now <=? t + ttl then Some c else None
      else history_get hist' now key
  | (_, OpDelete k) :: hist' =>
      if bool_decide (k = key) then None else history_get hist' now key
  | (_, OpFlush) :: _ => None
  | (_, OpCleanup) :: hist' => history_get hist' now key
  end.

(** Caches that answer every read from [now] on alike. *)
Definition cache_equiv (now : Time) (m m' : MemoryCache) : Prop :=
  forall t k, now <= t -> Memory.Get t k m = Memory.Get t k m'.
#[export] Instance cache_equiv_equivalence now : Equivalence (cache_equiv now).
Proof.
  split.
  - by intros m t k _.
  - intros x y Hxy t k Ht. symmetry. by apply Hxy.
  - intros x y z Hxy Hyz t k Ht. by rewrite (Hxy t k Ht), (Hyz t k Ht).
Qed.

Lemma cleanup_equiv now m : cache_equiv now (Memory.cleanup now m) m.
Proof.
  intros t k Ht. unfold Memory.cleanup, Memory.Get. cbn. rewrite map_lookup_filter.
  destruct (mc_entries m !! k) as [e|]; [|done]. cbn. unfold time_After.
  destruct (Z.ltb_spec (me_expiresAt e) now) as [Hg|Hg].
  - rewrite option_guard_False by done. cbn. by rewrite (proj2 (Z.ltb_lt _ _)) by lia.
  - by rewrite option_guard_True.
Qed.

(** C32: [MemoryCache] refines its history.  After any sequence of stores,
    deletions, flushes and cleaning rounds, a read that is not earlier
    than any of them returns exactly what the newest operation on that key
    left: the stored claims until [ttl] has elapsed, nothing after a deletion
    or a flush.  When and how often the cleaning goroutine runs is invisible. *)
Theorem MemoryCache_refines_history ops now key :
  Forall (fun x => x.1 <= now) ops ->
  Memory.Get now key (foldl memory_step Memory.NewMemoryCache ops) =
  history_get (rev ops) now key.
Proof.
  intros Hle. induction ops as [|[t op] ops IH] using rev_ind; [done|].
  apply Forall_app in Hle as [Hle Ht]. apply Forall_cons_1 in Ht as [Ht _]. cbn [fst] in Ht.
  specialize (IH Hle). rewrite foldl_app, rev_app_distr. cbn [foldl rev app].
  destruct op as [k c ttl|k| |]; unfold memory_step; cbn [fst snd history_get Memory.Set_ Memory.Delete Memory.Flush].
  - case_bool_decide as E.
    + subst k. unfold Memory.Get, time_After, time_Add. cbn. rewrite lookup_insert_eq. cbn.
      destruct (Z.ltb_spec (t + ttl) now), (Z.leb_spec now (t + ttl)); done || lia.
    + rewrite <- IH. unfold Memory.Get. cbn. by rewrite lookup_insert_ne.
  - case_bool_decide as E; [|rewrite <- IH]; unfold Memory.Get; cbn.
    + by rewrite E, lookup_delete_eq.
    + by rewrite lookup_delete_ne.
  - done.
  - rewrite <- IH. by apply (cleanup_equiv t).
Qed.

Example MemoryCache_refines_history_witness :
  Memory.Get 50 "k" (foldl memory_step Memory.NewMemoryCache
    [(0, OpSet "k" empty_claims 60); (10, OpSet "x" empty_claims 5); (40, OpCleanup)])
  = Some empty_claims.
Proof.
  apply (MemoryCache_refines_history
    [(0, OpSet "k" empty_claims 60); (10, OpSet "x" empty_claims 5); (40, OpCleanup)] 50 "k").
  repeat constructor; vm_compute; discriminate.
Defined.
