(* ===== verification/GoRedis.v ===== *)
(** * The Redis adapter: [pkg/core/token/goredis/adapter.go]

    The adapter gives [go-redis] the shape of the cache's [RedisClient]: a
    missing key, an error there, is an empty value here.  The library is a
    class of its calls; under its documented behaviour the adapter keeps the
    contract of the cache. *)

From S2P Require Import Prelude GoString GoTime Encoding Json Http Rar Claims Cache.
Open Scope Z_scope.

(** [redis.Client], and the error of a missing key. *)
Class GoRedis (R : Type) := {
  redis_Nil : error;
  gr_Get : Time -> string -> R -> res string;
  gr_Set : Time -> string -> string -> Duration -> R -> option error * R;
  gr_Del : Time -> list string -> R -> option error * R;
  gr_FlushDB : Time -> R -> option error * R
}.

Record RedisAdapter (R : Type) := MkRedisAdapter { ad_client : R }.
Arguments MkRedisAdapter {R} _.
Arguments ad_client {R} _.

Section Adapter.
Context {R : Type} `{!GoRedis R}.

(** [New] *)
Definition Adapter_New (client : R) : RedisAdapter R := MkRedisAdapter client.

Definition Adapter_Get (now : Time) (key : string) (a : RedisAdapter R) : res string :=
  match gr_Get now key (ad_client a) with
  | Ok val => Ok val
  | Err err => if errors_Is err redis_Nil then Ok EmptyString else Err err
  end.

Definition Adapter_Set (now : Time) (key value : string) (ttl : Duration) (a : RedisAdapter R) : option error * RedisAdapter R :=
  let '(err, client) := gr_Set now key value ttl (ad_client a) in (err, MkRedisAdapter client).

Definition Adapter_Del (now : Time) (keys : list string) (a : RedisAdapter R) : option error * RedisAdapter R :=
  let '(err, client) := gr_Del now keys (ad_client a) in (err, MkRedisAdapter client).

Definition Adapter_FlushDB (now : Time) (a : RedisAdapter R) : option error * RedisAdapter R :=
  let '(err, client) := gr_FlushDB now (ad_client a) in (err, MkRedisAdapter client).
End Adapter.

#[export] Instance adapter_client {R} `{!GoRedis R} : RedisClient (RedisAdapter R) := {|
  Redis_Get := Adapter_Get;
  Redis_Set := Adapter_Set;
  Redis_Del := Adapter_Del;
  Redis_FlushDB := Adapter_FlushDB
|}.

(** The documented behaviour of the library on a reachable server: a key that
    is missing or expired gives [redis.Nil], and a failed command changes
    nothing. *)
Definition is_missing `{!GoRedis R} (x : res string) : Prop :=
  exists e, x = Err e /\ errors_Is e redis_Nil = true.

Class GoRedisLaws (R : Type) `{!GoRedis R} := {
  gr_reachable : R -> Prop;
  gr_set_ok t k v ttl r : gr_reachable r -> 0 < ttl ->
    fst (gr_Set t k v ttl r) = None /\ gr_reachable (snd (gr_Set t k v ttl r));
  gr_del_ok t ks r : gr_reachable r -> fst (gr_Del t ks r) = None /\ gr_reachable (snd (gr_Del t ks r));
  gr_get_set_live t now k v ttl r : gr_reachable r -> 0 < ttl -> t <= now < t + ttl ->
    gr_Get now k (snd (gr_Set t k v ttl r)) = Ok v;
  gr_get_set_dead t now k v ttl r : gr_reachable r -> 0 < ttl -> t + ttl < now ->
    is_missing (gr_Get now k (snd (gr_Set t k v ttl r)));
  gr_get_set_other t now k k' v ttl r : k <> k' ->
    gr_Get now k' (snd (gr_Set t k v ttl r)) = gr_Get now k' r;
  gr_get_del_same t now k r : gr_reachable r -> is_missing (gr_Get now k (snd (gr_Del t [k] r)));
  gr_get_del_other t now k k' r : k <> k' -> gr_Get now k' (snd (gr_Del t [k] r)) = gr_Get now k' r;
  gr_expire t now k r : t <= now ->
    match gr_Get t k r with
    | Ok v => gr_Get now k r = Ok v \/ is_missing (gr_Get now k r)
    | Err e => gr_Get now k r = Err e
    end
}.

Section Laws.
Context {R : Type} `{!GoRedis R}.

Lemma Adapter_Get_missing now k (a : RedisAdapter R) :
  is_missing (gr_Get now k (ad_client a)) -> Adapter_Get now k a = Ok EmptyString.
Proof. intros (e & He & Hn). unfold Adapter_Get. by rewrite He, Hn. Qed.

Lemma Adapter_Set_client now k v ttl (a : RedisAdapter R) :
  Adapter_Set now k v ttl a = ((gr_Set now k v ttl (ad_client a)).1, MkRedisAdapter (gr_Set now k v ttl (ad_client a)).2).
Proof. unfold Adapter_Set. by destruct (gr_Set _ _ _ _ _). Qed.

Lemma Adapter_Del_client now ks (a : RedisAdapter R) :
  Adapter_Del now ks a = ((gr_Del now ks (ad_client a)).1, MkRedisAdapter (gr_Del now ks (ad_client a)).2).
Proof. unfold Adapter_Del. by destruct (gr_Del _ _ _). Qed.

Context `{!GoRedisLaws R}.

(** The adapter keeps the contract the cache is proved against. *)
#[export] Instance adapter_laws : RedisLaws (RedisAdapter R).
Proof using All.
  refine {| reachable a := gr_reachable (ad_client a) |}; cbn [Redis_Get Redis_Set Redis_Del adapter_client];
    intros *; rewrite ?Adapter_Set_client, ?Adapter_Del_client; cbn [fst snd ad_client].
  - apply gr_set_ok.
  - apply gr_del_ok.
  - intros Hr Ht Hn. unfold Adapter_Get. cbn [ad_client]. by rewrite gr_get_set_live.
  - intros Hr Ht Hn. apply Adapter_Get_missing. by apply gr_get_set_dead.
  - intros Hk. unfold Adapter_Get. cbn [ad_client]. by rewrite gr_get_set_other.
  - intros Hr. apply Adapter_Get_missing. by apply gr_get_del_same.
  - intros Hk. unfold Adapter_Get. cbn [ad_client]. by rewrite gr_get_del_other.
  - intros Ht. pose proof (gr_expire t now k (ad_client r) Ht) as H. unfold Adapter_Get.
    destruct (gr_Get t k (ad_client r)) as [v|e].
    + split; [|done]. intros v' [= <-]. destruct H as [->|(e & -> & ->)]; auto.
    + rewrite H. destruct (errors_Is e redis_Nil); (split; [intros v [= <-]; auto|intros e' [= <-]; auto]).
Qed.
End Laws.
