(* ===== verification/Revocation.v ===== *)
(** * Revocation webhooks and the cached introspector

    [pkg/core/token/revocation.go] (the webhook handler and the secondary
    index from jti, subject and session to token hashes) and the
    [CachedIntrospector] of [cache.go], over any cache that satisfies the
    [Cache] interface. *)

From S2P Require Import Prelude GoString GoTime Encoding Crypto Json TextLemmas Http Rar Claims Effects Cache.

Record RevocationEvent := MkEvent {
  ev_TokenHash : string;
  ev_JTI : string;
  ev_Subject : string;
  ev_SessionID : string;
  ev_RevokeAll : bool
}.

Definition jtiIndexPrefix : string := "idx:jti:".
Definition subIndexPrefix : string := "idx:sub:".
Definition sidIndexPrefix : string := "idx:sid:".

(** [Extra["hashes"]] of an index entry. *)
Definition hashes_of (entry : CommonClaims) : list string :=
  match object_get (cl_Extra entry) "hashes" with
  | Some (GStrings l) => l
  | Some (GSlice l) => omap (fun x => match x with GString s => Some s | _ => None end) l
  | _ => []
  end.

Definition index_entry (hashes : list string) : CommonClaims :=
  claims_extra (Some {["hashes" := GStrings hashes]}).

(** ** The index over a cache *)

Section Index.
Context {S : Type} `{!Cache S}.

(** Calls on the cache happen at the current reading of the clock. *)
Definition cache_Get (key : string) : M S (option CommonClaims) :=
  now ← Now; gets (Cache_Get now key).
Definition cache_Set (key : string) (c : CommonClaims) (ttl : Duration) : M S (option error) :=
  now ← Now; lift (Cache_Set now key c ttl).
Definition cache_Delete (key : string) : M S (option error) :=
  now ← Now; lift (Cache_Delete now key).

Definition indexHashes (key : string) : M S (list string) :=
  entry ← cache_Get key;
  mret (match entry with Some e => hashes_of e | None => [] end).

Definition lookupIndexHash (key : string) : M S (option string) :=
  hashes ← indexHashes key; mret (head hashes).

Definition appendIndexHash (key tokenHash : string) (ttl : Duration) : M S unit :=
  hashes ← indexHashes key;
  if existsb (fun h => String.eqb h tokenHash) hashes then mret tt else
  _ ← cache_Set key (index_entry (hashes ++ [tokenHash])) ttl;
  mret tt.

(** [if v != "" { appendIndexHash(ctx, c, prefix+v, tokenHash, ttl) }] *)
Definition append_if (prefix v tokenHash : string) (ttl : Duration) : M S unit :=
  if String.eqb v EmptyString then mret tt else appendIndexHash (prefix +:+ v) tokenHash ttl.

Definition IndexClaims (tokenHash : string) (claims : CommonClaims) (ttl : Duration) : M S unit :=
  if String.eqb tokenHash EmptyString || (ttl <=? 0) then mret tt else
  _ ← (if String.eqb (cl_JTI claims) EmptyString then mret tt else
       _ ← cache_Set (jtiIndexPrefix +:+ cl_JTI claims) (index_entry [tokenHash]) ttl; mret tt);
  _ ← append_if subIndexPrefix (cl_Subject claims) tokenHash ttl;
  append_if sidIndexPrefix (cl_SessionID claims) tokenHash ttl.

Definition first_err (e1 e2 : option error) : option error :=
  match e1 with Some _ => e1 | None => e2 end.

Fixpoint delete_each (firstErr : option error) (hashes : list string) : M S (option error) :=
  match hashes with
  | [] => mret firstErr
  | hash :: rest => err ← cache_Delete hash; delete_each (first_err firstErr err) rest
  end.

Definition deleteIndexedTokens (key : string) : M S (option error) :=
  hashes ← indexHashes key;
  firstErr ← delete_each None hashes;
  err ← cache_Delete key;
  mret (first_err firstErr err).

(** ** The handler *)

Definition process (event : RevocationEvent) : M S (option error) :=
  if negb (String.eqb (ev_TokenHash event) EmptyString) then cache_Delete (ev_TokenHash event)
  else if negb (String.eqb (ev_JTI event) EmptyString) then
    hash ← lookupIndexHash (jtiIndexPrefix +:+ ev_JTI event);
    match hash with
    | Some h => _ ← cache_Delete (jtiIndexPrefix +:+ ev_JTI event); cache_Delete h
    | None => cache_Delete (ev_JTI event)
    end
  else if negb (String.eqb (ev_SessionID event) EmptyString) then
    deleteIndexedTokens (sidIndexPrefix +:+ ev_SessionID event)
  else if ev_RevokeAll event && negb (String.eqb (ev_Subject event) EmptyString) then
    deleteIndexedTokens (subIndexPrefix +:+ ev_Subject event)
  else mret (Some (errorf "revocation event has no identifiable token reference")).
End Index.

Definition verifyHMACSHA256 (sig body secret : string) : bool :=
  if negb (HasPrefix sig "sha256=") then false else
  match hex_decode (TrimPrefix sig "sha256=") with
  | None => false
  | Some sigBytes => hmac_Equal sigBytes (hmac_sha256 secret body)
  end.

Definition event_names : list string := ["token_hash"; "jti"; "sub"; "sid"; "revoke_all"].
Definition event_set (name raw : string) (j : json) (e : RevocationEvent) : option RevocationEvent :=
  let '(MkEvent h jti sub sid all) := e in
  if String.eqb name "token_hash" then v ← dec_string h j; Some (MkEvent v jti sub sid all)
  else if String.eqb name "jti" then v ← dec_string jti j; Some (MkEvent h v sub sid all)
  else if String.eqb name "sub" then v ← dec_string sub j; Some (MkEvent h jti v sid all)
  else if String.eqb name "sid" then v ← dec_string sid j; Some (MkEvent h jti sub v all)
  else v ← dec_bool all j; Some (MkEvent h jti sub sid v).
Definition event_zero : RevocationEvent :=
  MkEvent EmptyString EmptyString EmptyString EmptyString false.

(** [io.LimitReader(r.Body, 1<<20)]: longer bodies are cut silently. *)
Definition max_body : Z := 1048576.
Definition limit_body (s : string) : string :=
  if Z.of_nat (String.length s) <=? max_body then s else str_take (Z.to_nat max_body) s.

Section Handler.
Context {U : Unicode} {S : Type} `{!Cache S}.

Definition decode_event (body : string) : option RevocationEvent :=
  j ← json_Unmarshal body; dec_struct event_names event_set event_zero j.

(** [RevocationHandler.ServeHTTP] with the webhook secret. *)
Definition RevocationHandler_ServeHTTP (secret : string) (r : Request) (w : Response) : M S Response :=
  if negb (String.eqb (rq_Method r) "POST")
  then mret (http_Error "method not allowed" StatusMethodNotAllowed w) else
  match rq_Body r with
  | None => mret (http_Error "reading request body" StatusBadRequest w)
  | Some all =>
      let body := limit_body all in
      if negb (String.eqb secret EmptyString) &&
         negb (verifyHMACSHA256 (Header_Get (rq_Header r) "X-Hub-Signature-256") body secret)
      then mret (http_Error "invalid webhook signature" StatusUnauthorized w) else
      match decode_event body with
      | None => mret (http_Error "invalid payload" StatusBadRequest w)
      | Some event =>
          err ← process event;
          mret (match err with
                | Some _ => http_Error "internal error" StatusInternalServerError w
                | None => WriteHeader StatusNoContent w
                end)
      end
  end.
End Handler.

(** ** [CachedIntrospector] *)

Section CachedIntrospector.
Context {S : Type} `{!Cache S}.

(** [NewCachedIntrospector]'s default. *)
Definition default_ttl (ttl : Duration) : Duration := if ttl =? 0 then 30 * Second else ttl.

(** Cache the claims of an active token for [ttl], at most until it expires,
    and index them. *)
Definition cache_claims (ttl0 : Duration) (key : string) (claims : CommonClaims) : M S unit :=
  if negb (cl_Active claims) then mret tt else
  ttl ← (if IsZero (cl_ExpiresAt claims) then mret ttl0 else
         now ← Now;
         let remaining := time_Until now (cl_ExpiresAt claims) in
         mret (if remaining <? ttl0 then remaining else ttl0));
  if 0 <? ttl then
    _ ← cache_Set key claims ttl; IndexClaims key claims ttl
  else mret tt.

(** [Introspect] over the inner introspector. *)
Definition CachedIntrospector_Introspect (inner : string -> res CommonClaims) (ttl : Duration)
    (token : string) : M S (res CommonClaims) :=
  let key := HashToken token in
  cached ← cache_Get key;
  match cached with
  | Some claims => mret (Ok claims)
  | None =>
      match inner token with
      | Err e => mret (Err e)
      | Ok claims => _ ← cache_claims ttl key claims; mret (Ok claims)
      end
  end.

Definition Revoke (token : string) : M S unit := _ ← cache_Delete (HashToken token); mret tt.
End CachedIntrospector.

(** ** What a revocation evicts *)

Section Specification.
Context {S : Type} `{!Cache S}.

(** The hashes an index key lists at an instant. *)
Definition listed (now : Time) (key : string) (s : S) : list string :=
  match Cache_Get now key s with Some e => hashes_of e | None => [] end.

(** The cache keys an event must remove, [None] for an event without a
    token reference. *)
Definition evicted (event : RevocationEvent) (now : Time) (s : S) : option (list string) :=
  if negb (String.eqb (ev_TokenHash event) EmptyString) then Some [ev_TokenHash event]
  else if negb (String.eqb (ev_JTI event) EmptyString) then
    Some (match listed now (jtiIndexPrefix +:+ ev_JTI event) s with
          | h :: _ => [jtiIndexPrefix +:+ ev_JTI event; h]
          | [] => [ev_JTI event]
          end)
  else if negb (String.eqb (ev_SessionID event) EmptyString) then
    let k := sidIndexPrefix +:+ ev_SessionID event in Some (k :: listed now k s)
  else if ev_RevokeAll event && negb (String.eqb (ev_Subject event) EmptyString) then
    let k := subIndexPrefix +:+ ev_Subject event in Some (k :: listed now k s)
  else None.
End Specification.

Section Eviction.
Context {S : Type} `{!Cache S} `{!CacheLaws S}.
Implicit Types (w : world S) (s : S).

(** [w'] is [w] after a successful removal of exactly [keys]. *)
Definition removed (keys : list string) w w' : Prop :=
  healthy (w_st w') /\ later w w' /\
  forall now k, Cache_Get now k (w_st w') =
                if decide (k ∈ keys) then None else Cache_Get now k (w_st w).

Lemma cache_Delete_removed key w :
  healthy (w_st w) -> fst (cache_Delete key w) = None /\ removed [key] w (snd (cache_Delete key w)).
Proof.
  intros Hh. unfold cache_Delete, lift, mbind, M_bind, Now. cbn.
  destruct (delete_ok (now_of w) key (w_st w) Hh) as [Hok Hh'].
  pose proof (get_delete_same (now_of w)) as Hsame.
  pose proof (get_delete_other (now_of w)) as Hother. unfold now_of in *.
  specialize (fun now k => Hsame now k (w_st w) Hh).
  specialize (fun now k => Hother now key k (w_st w)).
  specialize (fun now => Hsame now key).
  destruct (Cache_Delete _ key (w_st w)) as [err s']. cbn in *.
  split; [done|]. split; [done|]. split; [split; cbn; [done|lia]|].
  intros now k. cbn. destruct (decide (k ∈ [key])) as [Hk|Hk].
  - apply list_elem_of_singleton in Hk as ->. apply Hsame.
  - apply Hother. intros ->. apply Hk, list_elem_of_singleton. done.
Qed.

Lemma removed_trans ks ks' w1 w2 w3 :
  removed ks w1 w2 -> removed ks' w2 w3 -> removed (ks ++ ks')%list w1 w3.
Proof.
  intros (_ & Hl1 & H1) (Hh & Hl2 & H2). split; [done|]. split; [by etransitivity|].
  intros now k. rewrite H2, H1.
  destruct (decide (k ∈ ks')), (decide (k ∈ ks)), (decide (k ∈ (ks ++ ks')%list)); try done; set_solver.
Qed.

Lemma removed_same ks ks' w w' :
  (forall k, k ∈ ks <-> k ∈ ks') -> removed ks w w' -> removed ks' w w'.
Proof.
  intros Heq (Hh & Hl & H). split; [done|]. split; [done|]. intros now k. rewrite H.
  destruct (decide (k ∈ ks)) as [a|a], (decide (k ∈ ks')) as [b|b]; [done| | |done]; exfalso;
    [exact (b (proj1 (Heq k) a))|exact (a (proj2 (Heq k) b))].
Qed.

Lemma delete_each_removed hs w :
  healthy (w_st w) -> fst (delete_each None hs w) = None /\ removed hs w (snd (delete_each None hs w)).
Proof.
  revert w. induction hs as [|h hs IH]; intros w Hh.
  - split; [done|]. split; [done|]. split; [done|]. intros now k.
    rewrite decide_False; [done|]. apply not_elem_of_nil.
  - destruct (cache_Delete_removed h w Hh) as [Hok Hr].
    cbn [delete_each]. unfold mbind, M_bind. destruct (cache_Delete h w) as [err w1]. cbn in Hok, Hr.
    subst err. cbn [first_err]. destruct (IH w1) as [Hok' Hr']; [apply Hr|].
    split; [done|]. exact (removed_trans [h] hs _ _ _ Hr Hr').
Qed.

(** Reading an index changes nothing but the clock. *)
Lemma indexHashes_run key w :
  indexHashes key w =
  (listed (now_of w) key (w_st w), World (w_now w) (1 + w_tick w)%nat (w_st w)).
Proof. done. Qed.

Lemma deleteIndexedTokens_run key w :
  deleteIndexedTokens key w =
  let '(e1, w2) := delete_each None (listed (now_of w) key (w_st w))
                     (World (w_now w) (1 + w_tick w)%nat (w_st w)) in
  let '(e2, w3) := cache_Delete key w2 in (first_err e1 e2, w3).
Proof.
  unfold deleteIndexedTokens, mbind, M_bind. rewrite indexHashes_run.
  by destruct (delete_each _ _ _).
Qed.

Lemma lookupIndexHash_run key w :
  lookupIndexHash key w =
  (head (listed (now_of w) key (w_st w)), World (w_now w) (1 + w_tick w)%nat (w_st w)).
Proof. done. Qed.

Lemma removed_tick ks w w' :
  removed ks (World (w_now w) (1 + w_tick w)%nat (w_st w)) w' -> removed ks w w'.
Proof. intros (Hh & [Hn Ht] & H). split; [done|]. split; [|done]. split; cbn in *; [done|lia]. Qed.

Lemma deleteIndexedTokens_removed key w :
  healthy (w_st w) ->
  fst (deleteIndexedTokens key w) = None /\
  removed (key :: listed (now_of w) key (w_st w)) w (snd (deleteIndexedTokens key w)).
Proof.
  intros Hh. rewrite deleteIndexedTokens_run.
  set (hs := listed _ _ _). set (w1 := World _ _ _).
  destruct (delete_each_removed hs w1 Hh) as [Hok Hr].
  destruct (delete_each None hs w1) as [err w2]. cbn in Hok, Hr. subst err.
  destruct (cache_Delete_removed key w2) as [Hok' Hr']; [apply Hr|].
  destruct (cache_Delete key w2) as [err w3]. cbn in *. split; [by rewrite Hok'|].
  apply removed_tick. fold w1. eapply removed_same; [|exact (removed_trans _ _ _ _ _ Hr Hr')].
  intros k. set_solver.
Qed.

Lemma process_removed event w :
  healthy (w_st w) ->
  match evicted event (now_of w) (w_st w) with
  | Some keys => fst (process event w) = None /\ removed keys w (snd (process event w))
  | None => is_Some (fst (process event w)) /\ snd (process event w) = w
  end.
Proof.
  intros Hh. unfold evicted, process.
  destruct (negb (String.eqb (ev_TokenHash event) EmptyString)); [by apply cache_Delete_removed|].
  destruct (negb (String.eqb (ev_JTI event) EmptyString)).
  - unfold mbind, M_bind. rewrite lookupIndexHash_run.
    set (hs := listed _ _ _). set (w1 := World _ _ _).
    destruct hs as [|h hs]; cbn [head].
    + destruct (cache_Delete_removed (ev_JTI event) w1 Hh) as [Hok Hr].
      split; [done|]. by apply removed_tick.
    + destruct (cache_Delete_removed (jtiIndexPrefix +:+ ev_JTI event) w1 Hh) as [_ Hr].
      destruct (cache_Delete _ w1) as [err w2]. cbn in Hr.
      destruct (cache_Delete_removed h w2) as [Hok' Hr']; [apply Hr|].
      split; [done|]. apply removed_tick. exact (removed_trans [_] [_] _ _ _ Hr Hr').
  - destruct (negb (String.eqb (ev_SessionID event) EmptyString)); [by apply deleteIndexedTokens_removed|].
    destruct (ev_RevokeAll event && _); [by apply deleteIndexedTokens_removed|].
    split; [by eexists|done].
Qed.
End Eviction.

(** ** Key name spaces *)

Lemma HashToken_hex token : str_forall is_lower_hex (HashToken token) = true.
Proof. apply hex_encode_chars. Qed.

(** A hash never collides with a key that has a colon. *)
Lemma HashToken_no_colon token p q : HashToken token <> p +:+ String ":" q.
Proof.
  intros H. pose proof (HashToken_hex token) as Hh. rewrite H, str_forall_app in Hh.
  apply andb_true_iff in Hh as [_ Hh]. done.
Qed.

Lemma index_keys_disjoint token a b c :
  HashToken token <> jtiIndexPrefix +:+ a /\ HashToken token <> subIndexPrefix +:+ b /\
  HashToken token <> sidIndexPrefix +:+ c /\
  jtiIndexPrefix +:+ a <> subIndexPrefix +:+ b /\ jtiIndexPrefix +:+ a <> sidIndexPrefix +:+ c.
Proof.
  repeat split; try discriminate.
  - apply (HashToken_no_colon token "idx" ("jti:" +:+ a)).
  - apply (HashToken_no_colon token "idx" ("sub:" +:+ b)).
  - apply (HashToken_no_colon token "idx" ("sid:" +:+ c)).
Qed.

#[export] Instance hashes_of_proper : Proper ((≡) ==> (=)) hashes_of.
Proof.
  intros c c' Hc. unfold equiv, claims_equiv in Hc. unfold hashes_of, object_get.
  destruct c as [????? ????? ????? ?? extra ?], c' as [????? ????? ????? ?? extra' ?].
  cbn in *. injection Hc as _ _ _ _ _ _ _ _ _ _ _ _ _ _ _ _ _ Hx _.
  assert (Hl : (fmap json_norm (m ← extra; m !! "hashes") : option goval) =
               fmap json_norm (m ← extra'; m !! "hashes")).
  { destruct extra as [m|], extra' as [m'|]; try done. cbn in *. injection Hx as Hx.
    by rewrite <- !lookup_fmap, Hx. }
  assert (Hs : forall l, omap (fun x => match x with GString s => Some s | _ => None end) (map GString l) = l).
  { induction l as [|x l IH]; [done|]. cbn. by f_equal. }
  destruct (m ← extra; m !! "hashes") as [[]|], (m ← extra'; m !! "hashes") as [[]|]; cbn in Hl;
    try done; injection Hl as Hl; subst; rewrite ?Hs; try done.
  assert (H : omap (fun x => match x with GString s => Some s | _ => None end) (map GString l) =
              omap (fun x => match x with GString s => Some s | _ => None end) (map GString l0)) by (by rewrite Hl).
  by rewrite !Hs in H.
Qed.

Lemma hashes_of_index_entry l : hashes_of (index_entry l) = l.
Proof. done. Qed.

(** ** What caching touches *)

Section Frame.
#[local] Set Default Proof Using "All".
Context {S : Type} `{!Cache S} `{!CacheLaws S}.
Implicit Types (w : world S).

(** [w'] is reached from [w] and differs from it at most on [keys]. *)
Definition touches (keys : list string) w w' : Prop :=
  later w w' /\
  forall now k, k ∉ keys -> Cache_Get now k (w_st w') = Cache_Get now k (w_st w).

Lemma touches_refl ks w : touches ks w w.
Proof. by split. Qed.

Lemma touches_trans ks w1 w2 w3 : touches ks w1 w2 -> touches ks w2 w3 -> touches ks w1 w3.
Proof.
  intros [Hl1 H1] [Hl2 H2]. split; [by etransitivity|].
  intros now k Hk. by rewrite H2, H1.
Qed.

Lemma touches_mono ks ks' w w' : (forall k, k ∈ ks -> k ∈ ks') -> touches ks w w' -> touches ks' w w'.
Proof. intros Hs [Hl H]. split; [done|]. intros now k Hk. apply H. intros Hin. by apply Hk, Hs. Qed.

Lemma cache_Set_touches key c ttl w : touches [key] w (snd (cache_Set key c ttl w)).
Proof.
  unfold cache_Set, lift, mbind, M_bind, Now. cbn.
  pose proof (fun now k => get_set_other (w_now w (w_tick w)) now key k c ttl (w_st w)) as H.
  destruct (Cache_Set _ key c ttl (w_st w)) as [err s']. cbn in *. split.
  - split; cbn; [done|lia].
  - intros now k Hk. cbn. apply H. intros ->. apply Hk. by left.
Qed.

Lemma appendIndexHash_touches key h ttl w : touches [key] w (snd (appendIndexHash key h ttl w)).
Proof.
  unfold appendIndexHash, mbind, M_bind. rewrite indexHashes_run.
  set (hs := listed _ _ _). set (w1 := World _ _ _).
  assert (touches [key] w w1) by (split; [split; cbn; [done|lia]|done]).
  destruct (existsb _ hs); [done|].
  pose proof (cache_Set_touches key (index_entry (hs ++ [h])%list) ttl w1) as Ht.
  destruct (cache_Set _ _ _ w1) as [err w2]. by eapply touches_trans.
Qed.

Lemma append_if_touches prefix v h ttl w :
  touches [prefix +:+ v] w (snd (append_if prefix v h ttl w)).
Proof.
  unfold append_if. destruct (String.eqb v EmptyString); [apply touches_refl|].
  apply appendIndexHash_touches.
Qed.

(** The two list-valued indexes, after the jti index. *)
Definition index_lists (h : string) (c : CommonClaims) (ttl : Duration) : M S unit :=
  _ ← append_if subIndexPrefix (cl_Subject c) h ttl;
  append_if sidIndexPrefix (cl_SessionID c) h ttl.

Lemma index_lists_touches h c ttl w :
  touches [subIndexPrefix +:+ cl_Subject c; sidIndexPrefix +:+ cl_SessionID c] w
          (snd (index_lists h c ttl w)).
Proof.
  unfold index_lists, mbind, M_bind.
  pose proof (append_if_touches subIndexPrefix (cl_Subject c) h ttl w) as H1.
  destruct (append_if subIndexPrefix _ _ _ w) as [u w1].
  eapply touches_trans; (eapply touches_mono; [|first [exact H1|apply append_if_touches]]);
    intros k ->%list_elem_of_singleton; [by left|right; by left].
Qed.

(** [IndexClaims] for claims with a jti. *)
Lemma IndexClaims_run h c ttl w :
  h <> EmptyString -> 0 < ttl -> cl_JTI c <> EmptyString ->
  IndexClaims h c ttl w =
  index_lists h c ttl (snd (cache_Set (jtiIndexPrefix +:+ cl_JTI c) (index_entry [h]) ttl w)).
Proof.
  intros Hh Ht Hj. unfold IndexClaims.
  rewrite (proj2 (String.eqb_neq _ _) Hh), (proj2 (String.eqb_neq _ _) Hj), (proj2 (Z.leb_gt _ _) Ht).
  cbn [orb]. unfold index_lists, mbind, M_bind. by destruct (cache_Set _ _ _ w).
Qed.

(** [IndexClaims] in general touches only the index keys of the claims. *)
Lemma IndexClaims_touches h c ttl w :
  touches [jtiIndexPrefix +:+ cl_JTI c; subIndexPrefix +:+ cl_Subject c;
           sidIndexPrefix +:+ cl_SessionID c] w (snd (IndexClaims h c ttl w)).
Proof.
  assert (Hlists : forall w, touches [jtiIndexPrefix +:+ cl_JTI c; subIndexPrefix +:+ cl_Subject c;
           sidIndexPrefix +:+ cl_SessionID c] w (snd (index_lists h c ttl w))).
  { intros w0. eapply touches_mono; [|apply index_lists_touches]. intros k Hk. by right. }
  unfold IndexClaims. destruct (_ || _); [apply touches_refl|].
  destruct (String.eqb (cl_JTI c) EmptyString).
  - exact (Hlists w).
  - unfold mbind at 1, M_bind at 1. unfold mbind at 1, M_bind at 1.
    pose proof (cache_Set_touches (jtiIndexPrefix +:+ cl_JTI c) (index_entry [h]) ttl w) as Hset.
    destruct (cache_Set _ _ _ w) as [err w1]. cbn [mret M_ret].
    eapply touches_trans; [|exact (Hlists w1)].
    eapply touches_mono; [|exact Hset]. intros k ->%list_elem_of_singleton. by left.
Qed.
End Frame.

(** ** Caching, then revoking *)

Section Effective.
#[local] Set Default Proof Using "All".
Context {S : Type} `{!Cache S} `{!CacheLaws S}.
Implicit Types (w : world S).

(** The two outcomes of [cache_claims]. *)
Lemma cache_claims_cases ttl0 key c w :
  int64_ok ttl0 ->
  (w_st (snd (cache_claims ttl0 key c w)) = w_st w /\ later w (snd (cache_claims ttl0 key c w))) \/
  (cl_Active c = true /\ exists ttl w1, 0 < ttl <= ttl0 /\ w_st w1 = w_st w /\ later w w1 /\
     (IsZero (cl_ExpiresAt c) = false -> ttl <= cl_ExpiresAt c - now_of w /\
        w_tick w1 = (1 + w_tick w)%nat) /\
     snd (cache_claims ttl0 key c w) = snd (IndexClaims key c ttl (snd (cache_Set key c ttl w1)))).
Proof.
  intros Httl0. unfold cache_claims.
  destruct (cl_Active c); cbn [negb]; [|left; split; [done|apply (reflexivity (R := later))]].
  assert (Hgo : forall ttl w1, w_st w1 = w_st w -> later w w1 -> ttl <= ttl0 ->
    (IsZero (cl_ExpiresAt c) = false -> 0 < ttl ->
       ttl <= cl_ExpiresAt c - now_of w /\ w_tick w1 = (1 + w_tick w)%nat) ->
    let r := (if 0 <? ttl then _ ← cache_Set key c ttl; IndexClaims key c ttl else mret tt) w1 in
    (w_st (snd r) = w_st w /\ later w (snd r)) \/
    (true = true /\ exists ttl w1, 0 < ttl <= ttl0 /\ w_st w1 = w_st w /\ later w w1 /\
     (IsZero (cl_ExpiresAt c) = false -> ttl <= cl_ExpiresAt c - now_of w /\
        w_tick w1 = (1 + w_tick w)%nat) /\
     snd r = snd (IndexClaims key c ttl (snd (cache_Set key c ttl w1))))).
  { intros ttl w1 Hst Hl Hle Hexp r. subst r. destruct (Z.ltb_spec 0 ttl) as [Hp|Hp].
    - right. split; [done|]. exists ttl, w1. split; [lia|]. split; [done|]. split; [done|].
      split; [auto|]. unfold mbind, M_bind. by destruct (cache_Set _ _ _ w1).
    - by left. }
  destruct (IsZero (cl_ExpiresAt c)) eqn:Hz.
  - by apply (Hgo ttl0 w).
  - set (remaining := time_Until (w_now w (w_tick w)) (cl_ExpiresAt c)).
    apply (Hgo (if remaining <? ttl0 then remaining else ttl0)
             (World (w_now w) (1 + w_tick w)%nat (w_st w))).
    + done.
    + split; cbn; [done|lia].
    + destruct (Z.ltb_spec remaining ttl0); lia.
    + intros _ Hpos. split; [|done].
      unfold remaining, time_Until, time_Sub, clamp64, now_of, int64_ok, min_int64, max_int64 in *.
      destruct (Z.ltb_spec (Z.max (- 2 ^ 63) (Z.min (2 ^ 63 - 1) (cl_ExpiresAt c - w_now w (w_tick w)))) ttl0); lia.
Qed.

Lemma cache_Set_run key c ttl w :
  snd (cache_Set key c ttl w) =
  World (w_now w) (1 + w_tick w)%nat (snd (Cache_Set (now_of w) key c ttl (w_st w))).
Proof.
  unfold cache_Set, lift, mbind, M_bind, Now, now_of. cbn. by destruct (Cache_Set _ _ _ _ _).
Qed.

(** After caching and indexing, the entry and its jti index are there until
    [ttl] has elapsed, and the entry is gone after that. *)
Lemma cached_and_indexed token c ttl w w2 :
  clock_ok w -> healthy (w_st w) -> storable c -> storable (index_entry [HashToken token]) ->
  cl_JTI c <> EmptyString -> 0 < ttl ->
  let h := HashToken token in
  let w1 := snd (IndexClaims h c ttl (snd (cache_Set h c ttl w))) in
  later w1 w2 -> w_st w2 = w_st w1 ->
  listed (now_of w2) (jtiIndexPrefix +:+ cl_JTI c) (w_st w2) = [h] \/
  forall now, now_of w2 < now -> Cache_Get now h (w_st w2) = None.
Proof.
  intros Hck Hh Hsc Hsi Hj Httl h w1 Hl Hst.
  destruct (index_keys_disjoint token (cl_JTI c) (cl_Subject c) (cl_SessionID c))
    as (D1 & D2 & D3 & D4 & D5).
  set (wa := snd (cache_Set h c ttl w)) in *.
  assert (Hwa : wa = World (w_now w) (1 + w_tick w)%nat (snd (Cache_Set (now_of w) h c ttl (w_st w))))
    by apply cache_Set_run.
  assert (Hhh : h <> EmptyString).
  { subst h. unfold HashToken. intros He. apply (f_equal String.length) in He.
    rewrite hex_encode_length, sha256_length in He. done. }
  set (wb := snd (cache_Set (jtiIndexPrefix +:+ cl_JTI c) (index_entry [h]) ttl wa)).
  assert (Hwb : wb = World (w_now wa) (1 + w_tick wa)%nat
    (snd (Cache_Set (now_of wa) (jtiIndexPrefix +:+ cl_JTI c) (index_entry [h]) ttl (w_st wa))))
    by apply cache_Set_run.
  assert (Hw1 : w1 = snd (index_lists h c ttl wb)) by (unfold w1; by rewrite IndexClaims_run).
  pose proof (index_lists_touches h c ttl wb) as [Hlb Hfb]. rewrite <- Hw1 in Hlb, Hfb.
  assert (Hha : healthy (w_st wa)).
  { rewrite Hwa. cbn. by apply set_ok. }
  assert (Hla : later w wa) by (rewrite Hwa; split; cbn; [done|lia]).
  assert (Hlab : later wa wb) by (rewrite Hwb; split; cbn; [done|lia]).
  assert (Hnow : now_of wa <= now_of w2).
  { apply later_now; [by eapply later_clock|]. etransitivity; [exact Hlab|]. by etransitivity. }
  assert (Hnow0 : now_of w <= now_of wa) by (by apply later_now).
  rewrite Hst. destruct (decide (now_of w2 < now_of wa + ttl)) as [Hlive|Hdead].
  - left. unfold listed. rewrite Hfb.
    + rewrite Hwb. cbn [w_st].
      destruct (get_set_live (now_of wa) (now_of w2) (jtiIndexPrefix +:+ cl_JTI c) (index_entry [h])
                  ttl (w_st wa) Hha Hsi Httl ltac:(lia)) as (c' & -> & Heq).
      by rewrite Heq.
    + intros [H|[H|H%elem_of_nil]%elem_of_cons]%elem_of_cons; done.
  - right. intros now Hnow2. rewrite Hfb.
    + rewrite Hwb. cbn [w_st]. rewrite get_set_other by (by apply not_eq_sym). rewrite Hwa. cbn.
      apply get_set_dead; try done. lia.
    + intros [H|[H|H%elem_of_nil]%elem_of_cons]%elem_of_cons; done.
Qed.
End Effective.

(** ** Theorems *)

(** C30: a revocation event removes exactly what it names.  On a reachable cache,
    an event with a token hash, a jti, a session or a subject to revoke
    entirely succeeds, and afterwards the cache answers every read as before,
    except for the keys of [evicted]: the hash itself, or the index entry and
    the hashes it lists.  An event without any reference fails and changes
    nothing. *)
Theorem process_evicts {S} `{!Cache S} `{!CacheLaws S} (event : RevocationEvent) (w : world S) :
  healthy (w_st w) ->
  match evicted event (now_of w) (w_st w) with
  | Some keys =>
      fst (process event w) = None /\
      forall now k, Cache_Get now k (w_st (snd (process event w))) =
                    if decide (k ∈ keys) then None else Cache_Get now k (w_st w)
  | None => is_Some (fst (process event w)) /\ w_st (snd (process event w)) = w_st w
  end.
Proof.
  intros Hh. pose proof (process_removed event w Hh) as H.
  destruct (evicted _ _ _) as [keys|].
  - destruct H as [Hok (_ & _ & Hr)]. by split.
  - destruct H as [He ->]. by split.
Qed.

(** A world that starts empty, with a clock that advances one second per
    reading. *)
Definition demo_world : world MemoryCache :=
  World (fun n => Z.of_nat n * Second) 0 Memory.NewMemoryCache.
Definition demo_claims : CommonClaims :=
  MkClaims "alice" "https://as" [] "jti-1" (600 * Second) time_zero None "urn:acr:2" []
    "s1" time_zero EmptyString EmptyString [] [] EmptyString [] None true.

Example process_evicts_witness :
  fst (process (MkEvent "abc" EmptyString EmptyString EmptyString false) demo_world) = None.
Proof.
  exact (proj1 (process_evicts (MkEvent "abc" EmptyString EmptyString EmptyString false) demo_world I)).
Defined.

(** Revocation takes effect at once.  When the claims of a token were cached
    on a miss and, later on the same cache, an event with the token's jti is
    processed, no read after it returns the token's claims: the jti index
    always outlives the entry it points to. *)
Theorem revoke_by_jti_effective {S} `{!Cache S} `{!CacheLaws S} ttl0 token claims (w w2 : world S) :
  clock_ok w -> healthy (w_st w) -> int64_ok ttl0 ->
  storable claims -> storable (index_entry [HashToken token]) ->
  cl_JTI claims <> EmptyString ->
  Cache_Get (now_of w) (HashToken token) (w_st w) = None ->
  let w1 := snd (cache_claims ttl0 (HashToken token) claims w) in
  later w1 w2 -> w_st w2 = w_st w1 -> healthy (w_st w2) ->
  let event := MkEvent EmptyString (cl_JTI claims) EmptyString EmptyString false in
  forall now, now_of w2 < now ->
    Cache_Get now (HashToken token) (w_st (snd (process event w2))) = None.
Proof.
  intros Hck Hh Httl Hsc Hsi Hj Hmiss w1 Hl Hst Hh2 event now Hnow.
  pose proof (process_removed event w2 Hh2) as Hp.
  assert (Hev : evicted event (now_of w2) (w_st w2) =
    Some (match listed (now_of w2) (jtiIndexPrefix +:+ cl_JTI claims) (w_st w2) with
          | h :: _ => [jtiIndexPrefix +:+ cl_JTI claims; h]
          | [] => [cl_JTI claims]
          end)).
  { unfold evicted, event. cbn [ev_TokenHash ev_JTI]. by rewrite (proj2 (String.eqb_neq _ _) Hj). }
  rewrite Hev in Hp. clear Hev. destruct Hp as (_ & _ & _ & Hp). rewrite Hp. case_decide as Hk; [done|].
  destruct (cache_claims_cases ttl0 (HashToken token) claims w Httl) as
    [[Hsame Hl1]|(_ & ttl & wa & Ht & Hsta & Hla & _ & Heq)].
  - rewrite Hst. unfold w1. rewrite Hsame. apply (get_expired (now_of w)); [|done].
    enough (now_of w <= now_of w2) by lia. apply later_now; [done|]. by etransitivity.
  - fold w1 in Heq. rewrite <- Hsta in Hh. unfold w1 in *.
    destruct (cached_and_indexed token claims ttl wa w2) as [Hlist|Hdead]; try done.
    + by eapply later_clock.
    + lia.
    + by rewrite <- Heq.
    + by rewrite <- Heq.
    + exfalso. rewrite Hlist in Hk. apply Hk. right. by left.
    + by apply Hdead.
Qed.

Example revoke_by_jti_effective_witness :
  let w1 := snd (cache_claims (30 * Second) (HashToken "tok") demo_claims demo_world) in
  Cache_Get (10 * Second) (HashToken "tok") (w_st w1) = Some demo_claims /\
  Cache_Get (10 * Second) (HashToken "tok")
    (w_st (snd (process (MkEvent EmptyString "jti-1" EmptyString EmptyString false) w1))) = None.
Proof.
  split; [vm_compute; reflexivity|].
  apply (revoke_by_jti_effective (30 * Second) "tok" demo_claims demo_world).
  - intros i j Hij. unfold demo_world, Second. cbn. lia.
  - exact I.
  - vm_compute. split; discriminate.
  - exact I.
  - exact I.
  - discriminate.
  - reflexivity.
  - reflexivity.
  - reflexivity.
  - exact I.
  - vm_compute. reflexivity.
Defined.

(** What [CachedIntrospector] answers and what it keeps.  A hit returns the
    cached claims without asking the authorization server and changes nothing.
    On a miss the answer is the server's; errors and inactive tokens leave the
    cache alone; and the entry of a token with an expiry is never read back
    after that expiry plus the time the process spent between the two clock
    readings that clamp and store it. *)
Theorem CachedIntrospector_sound {S} `{!Cache S} `{!CacheLaws S} inner ttl token (w : world S) :
  clock_ok w -> healthy (w_st w) -> int64_ok ttl ->
  let '(r, w') := CachedIntrospector_Introspect inner ttl token w in
  match Cache_Get (now_of w) (HashToken token) (w_st w), inner token with
  | Some c, _ => r = Ok c /\ w_st w' = w_st w
  | None, Err e => r = Err e /\ w_st w' = w_st w
  | None, Ok c =>
      r = Ok c /\ (cl_Active c = false -> w_st w' = w_st w) /\
      (storable c -> IsZero (cl_ExpiresAt c) = false ->
       let drift := w_now w (2 + w_tick w)%nat - w_now w (1 + w_tick w)%nat in
       forall now, cl_ExpiresAt c + drift < now -> now_of w <= now ->
         Cache_Get now (HashToken token) (w_st w') = None)
  end.
Proof.
  intros Hck Hh Httl. unfold CachedIntrospector_Introspect, mbind, M_bind.
  assert (Hg : cache_Get (HashToken token) w =
    (Cache_Get (now_of w) (HashToken token) (w_st w), World (w_now w) (1 + w_tick w)%nat (w_st w))) by done.
  rewrite Hg. set (w0 := World _ _ _).
  destruct (Cache_Get (now_of w) _ _) as [c|] eqn:Hmiss; [done|].
  destruct (inner token) as [c|e]; [|done].
  pose proof (cache_claims_cases ttl (HashToken token) c w0 Httl) as Hc.
  assert (Hina : cl_Active c = false -> snd (cache_claims ttl (HashToken token) c w0) = w0).
  { intros Ha. unfold cache_claims. by rewrite Ha. }
  destruct (cache_claims _ _ _ w0) as [u w']. cbn [snd mret M_ret] in *.
  split; [done|]. split; [intros Ha; by rewrite Hina|]. intros Hsc Hexp now Hnow Hnow0.
  destruct Hc as [[Hsame _]|(_ & t & wa & Ht & Hsta & Hla & Hclamp & Heq)].
  - rewrite Hsame. by apply (get_expired (now_of w)).
  - destruct (Hclamp Hexp) as [Hle Htick].
    pose proof (IndexClaims_touches (HashToken token) c t (snd (cache_Set (HashToken token) c t wa)))
      as [_ Hf]. rewrite <- Heq in Hf.
    destruct (index_keys_disjoint token (cl_JTI c) (cl_Subject c) (cl_SessionID c))
      as (D1 & D2 & D3 & _).
    rewrite Hf by (intros [H|[H|[H|H%elem_of_nil]%elem_of_cons]%elem_of_cons]%elem_of_cons; done).
    rewrite cache_Set_run. cbn [w_st]. apply get_set_dead; [by rewrite Hsta|done|lia|].
    unfold now_of in *. destruct Hla as [Hn _]. rewrite Htick, Hn. cbn [w0 w_now w_tick] in *. 
    replace (1 + (1 + w_tick w))%nat with (2 + w_tick w)%nat by lia. lia.
Qed.

Example CachedIntrospector_sound_witness :
  Cache_Get (602 * Second) (HashToken "tok")
    (w_st (snd (CachedIntrospector_Introspect (fun _ => Ok demo_claims) (3600 * Second) "tok" demo_world))) = None.
Proof.
  assert (H := CachedIntrospector_sound (fun _ => Ok demo_claims) (3600 * Second) "tok" demo_world).
  specialize (H ltac:(intros i j Hij; unfold demo_world, Second; cbn; lia) I
                ltac:(vm_compute; split; discriminate)).
  destruct (CachedIntrospector_Introspect _ _ _ demo_world) as [r w'] eqn:E.
  destruct H as (_ & _ & H). apply H; [exact I|reflexivity|..]; cbn; unfold Second; lia.
Defined.

(** ** The webhook gate *)

Lemma verifyHMACSHA256_spec sig body secret :
  verifyHMACSHA256 sig body secret = true <->
  exists hex, sig = "sha256=" +:+ hex /\ hex_decode hex = Some (hmac_sha256 secret body).
Proof.
  unfold verifyHMACSHA256. destruct (HasPrefix sig "sha256=") eqn:Hp; cbn [negb].
  - apply HasPrefix_spec in Hp as [hex ->]. rewrite TrimPrefix_app. split.
    + intros H. exists hex. split; [done|]. destruct (hex_decode hex) as [b|]; [|done].
      by apply hmac_Equal_spec in H as ->.
    + intros (hex' & Heq & Hd). apply str_app_inj_l in Heq as <-. rewrite Hd. by apply hmac_Equal_spec.
  - split; [done|]. intros (hex & -> & _). by rewrite HasPrefix_app in Hp.
Qed.

(** C37: only authentic webhooks reach the cache.  With a secret configured, the
    handler touches the cache only for a POST whose [X-Hub-Signature-256] header
    is "sha256=" and the hexadecimal HMAC-SHA256 of the (at most 1 MiB of the)
    body under the secret, and whose body decodes to an event; then it does
    what [process] does, and answers 204 on success and 500 on failure.  Every
    other request is answered 405, 400 or 401 and leaves the cache alone. *)
Theorem webhook_authentic {U : Unicode} {S} `{!Cache S} secret r w (s : world S) :
  secret <> EmptyString -> rs_Status w = None ->
  let '(resp, s') := RevocationHandler_ServeHTTP secret r w s in
  let authentic body :=
    rq_Method r = "POST" /\
    exists all hex, rq_Body r = Some all /\ body = limit_body all /\
      Header_Get (rq_Header r) "X-Hub-Signature-256" = "sha256=" +:+ hex /\
      hex_decode hex = Some (hmac_sha256 secret body) in
  (exists body event, authentic body /\ decode_event body = Some event /\
     s' = snd (process event s) /\
     rs_Status resp = Some (match fst (process event s) with
                            | None => StatusNoContent | Some _ => StatusInternalServerError end)) \/
  (s' = s /\ (forall body event, authentic body -> decode_event body <> Some event) /\
   exists code, rs_Status resp = Some code /\
     code ∈ [StatusMethodNotAllowed; StatusBadRequest; StatusUnauthorized]).
Proof.
  intros Hsec Hw. unfold RevocationHandler_ServeHTTP.
  destruct (String.eqb_spec (rq_Method r) "POST") as [Hm|Hm]; cbn [negb].
  2: { cbn. right. split; [done|]. split; [intros body event [Hx _]; by destruct (Hm Hx)|].
       eexists. split; [by rewrite Hw|set_solver]. }
  destruct (rq_Body r) as [all|] eqn:Hb.
  2: { cbn. right. split; [done|]. split; [by intros body event (_ & ? & ? & Hx & _); discriminate Hx|].
       eexists. split; [by rewrite Hw|set_solver]. }
  rewrite (proj2 (String.eqb_neq _ _) Hsec). cbn [negb andb].
  destruct (verifyHMACSHA256 _ _ _) eqn:Hv; cbn [negb].
  2: { cbn. right. split; [done|]. split.
       - intros body event (_ & all' & hex & [= <-] & -> & Hh & Hd) _.
         rewrite (proj2 (verifyHMACSHA256_spec _ _ _) (ex_intro _ hex (conj Hh Hd))) in Hv. done.
       - eexists. split; [by rewrite Hw|set_solver]. }
  apply verifyHMACSHA256_spec in Hv as (hex & Hh & Hd).
  destruct (decode_event (limit_body all)) as [event|] eqn:He.
  - unfold mbind, M_bind. destruct (process event s) as [err s'] eqn:Hproc. cbn [mret M_ret].
    left. exists (limit_body all), event. split; [split; [done|]; eauto 10|]. split; [done|].
    rewrite Hproc. split; [done|]. destruct err; cbn; by rewrite Hw.
  - cbn [mret M_ret]. right. split; [done|]. split.
    + intros body event (_ & all' & hex' & [= <-] & -> & _) Hx. rewrite He in Hx. discriminate Hx.
    + eexists. split; [cbn; by rewrite Hw|set_solver].
Qed.

Definition demo_webhook : Request :=
  MkRequest "POST" "/webhook/revoke" "" "/webhook/revoke" "/webhook/revoke" "gw" true "10.0.0.9:1"
    (Header_Set ∅ "X-Hub-Signature-256" "sha256=00") [] (Some "{}").

Example webhook_authentic_witness :
  rs_Status (fst (RevocationHandler_ServeHTTP (U := unicode_min) "secret" demo_webhook empty_response demo_world))
    = Some StatusUnauthorized /\
  snd (RevocationHandler_ServeHTTP (U := unicode_min) "secret" demo_webhook empty_response demo_world) = demo_world.
Proof.
  split; [vm_compute; reflexivity|].
  assert (H := webhook_authentic (U := unicode_min) "secret" demo_webhook empty_response demo_world
                 ltac:(discriminate) eq_refl).
  destruct (RevocationHandler_ServeHTTP _ _ _ demo_world) as [resp s'].
  destruct H as [(body & event & (_ & all & hex & Hb & _ & Hh & Hd) & _)|[Hs _]]; [|exact Hs].
  exfalso. injection Hb as <-. vm_compute in Hh. injection Hh as <-.
  apply (f_equal (fmap String.length)) in Hd. cbn [fmap option_fmap option_map] in Hd.
  rewrite hmac_sha256_length in Hd. discriminate Hd.
Defined.
