(* ===== verification/Dpop.v ===== *)
(** * DPoP proofs: [pkg/core/token/dpop.go]

    Parsing and signature verification of proof JWTs, the JWK thumbprint,
    proof validation, jti replay detection over a [Cache], server nonces, and
    the key binding of access tokens.  Signature primitives are the class
    [Signatures]; every reading of the clock is a [Now]. *)

From S2P Require Import Prelude GoString GoTime Encoding Crypto Json TextLemmas TimeText Http Rar Claims Effects Cache Revocation.

Definition ErrDPoPReplay : error := sentinel "token.ErrDPoPReplay" "dpop proof replay detected".
Definition ErrDPoPNonceRequired : error := sentinel "token.ErrDPoPNonceRequired" "dpop nonce required".
Definition ErrDPoPMissingATH : error :=
  sentinel "token.ErrDPoPMissingATH" "dpop proof missing ath (access token hash) claim".

(** ** Nonces *)

Record NonceProvider := MkNonce { np_secret : string; np_window : Duration }.

Definition NewNonceProvider (secret : string) (window : Duration) : NonceProvider :=
  MkNonce secret (if window <=? 0 then 5 * Minute else window).

Definition forWindow (n : NonceProvider) (w : Z) : string :=
  RawURLEncode (hmac_sha256 (np_secret n) (fmt_d w)).

(** [time.Now().UnixNano() / int64(n.window)]: Go division truncates. *)
Definition window_of (n : NonceProvider) (now : Time) : Z := Z.quot (UnixNano now) (np_window n).

Definition Current_at (n : NonceProvider) (now : Time) : string := forWindow n (window_of n now).

Definition Valid_at (n : NonceProvider) (now : Time) (nonce : string) : bool :=
  let w := window_of n now in
  hmac_Equal nonce (forWindow n w) || hmac_Equal nonce (forWindow n (wrap64 (w - 1))).

Definition Nonce_Current {S} (n : NonceProvider) : M S string := now ← Now; mret (Current_at n now).
Definition Nonce_Valid {S} (n : NonceProvider) (nonce : string) : M S bool :=
  if String.eqb nonce EmptyString then mret false else now ← Now; mret (Valid_at n now nonce).

(** ** Configuration and proofs *)

Record DPoPConfig := MkDPoPConfig {
  dc_MaxAge : Duration;
  dc_RequireHTTPS : bool;
  dc_Nonce : option NonceProvider
}.
Definition DefaultDPoPConfig : DPoPConfig := MkDPoPConfig (60 * Second) true None.

Record DPoPProof := MkProof {
  pf_Algorithm : string;
  pf_JWK : option (gmap string goval);
  pf_JTI : string;
  pf_HTM : string;
  pf_HTU : string;
  pf_IAT : Time;
  pf_ATH : string;
  pf_Nonce : string
}.

(** [s, _ := jwk[k].(string)] *)
Definition jwk_string (jwk : option (gmap string goval)) (k : string) : string :=
  default EmptyString (as_string (object_get jwk k)).

(** [thumbprint_members] is sorted, as [sort.Strings] leaves it. *)
Definition thumbprint_members (kty : string) : option (list string) :=
  if String.eqb kty "EC" then Some ["crv"; "kty"; "x"; "y"]
  else if String.eqb kty "RSA" then Some ["e"; "kty"; "n"]
  else if String.eqb kty "OKP" then Some ["crv"; "kty"; "x"]
  else None.

Section Thumbprint.
Context {U : Unicode}.

(** The loop over the members, from the [i]-th on. *)
Fixpoint thumbprint_body (jwk : option (gmap string goval)) (first : bool) (members : list string)
    : res string :=
  match members with
  | [] => Ok "}"
  | m :: rest =>
      let v := jwk_string jwk m in
      if String.eqb v EmptyString
      then Err (errorf ("JWK missing required member " +:+ Quote m +:+ " for thumbprint")) else
      let? tl := thumbprint_body jwk false rest in
      Ok ((if first then EmptyString else ",") +:+ json_quote m +:+ ":" +:+ json_quote v +:+ tl)
  end.

Definition JWKThumbprint (jwk : option (gmap string goval)) : res string :=
  let kty := jwk_string jwk "kty" in
  match thumbprint_members kty with
  | None => Err (errorf ("unsupported JWK kty for thumbprint: " +:+ Quote kty))
  | Some members =>
      let? body := thumbprint_body jwk true members in
      Ok (RawURLEncode (sha256 ("{" +:+ body)))
  end.

Definition Thumbprint (p : DPoPProof) : res string := JWKThumbprint (pf_JWK p).

(** [VerifyDPoPBinding]; [None] is nil. *)
Definition VerifyDPoPBinding (proof : DPoPProof) (claims : CommonClaims) : option error :=
  match cl_Confirmation claims with
  | None => Some (errorf "access token is not DPoP-bound (no cnf.jkt claim)")
  | Some cnf =>
      if String.eqb (cnf_JKT cnf) EmptyString
      then Some (errorf "access token is not DPoP-bound (no cnf.jkt claim)") else
      match Thumbprint proof with
      | Err e => Some (errorw "computing proof JWK thumbprint" e)
      | Ok thumb => if negb (hmac_Equal thumb (cnf_JKT cnf)) then Some ErrDPoPBindingMismatch else None
      end
  end.
End Thumbprint.

(** ** Keys *)

Inductive PublicKey :=
| EcdsaKey (c : curve) (x y : Z)
| RsaKey (n e : Z).

Section Keys.
Context {U : Unicode}.

Definition b64_error : error := errorf "illegal base64 data".

Definition curve_of (crv : string) : option curve :=
  if String.eqb crv "P-256" then Some P256
  else if String.eqb crv "P-384" then Some P384
  else if String.eqb crv "P-521" then Some P521
  else None.

Definition ecKeyFromJWK (jwk : option (gmap string goval)) : res PublicKey :=
  let crv := jwk_string jwk "crv" in
  let xStr := jwk_string jwk "x" in
  let yStr := jwk_string jwk "y" in
  if String.eqb xStr EmptyString || String.eqb yStr EmptyString
  then Err (errorf "EC JWK missing x or y") else
  match RawURLDecode xStr with
  | None => Err (errorw "decoding EC x" b64_error)
  | Some xBytes =>
  match RawURLDecode yStr with
  | None => Err (errorw "decoding EC y" b64_error)
  | Some yBytes =>
  match curve_of crv with
  | None => Err (errorf ("unsupported EC curve: " +:+ Quote crv))
  | Some c =>
      let x := SetBytes xBytes in
      let y := SetBytes yBytes in
      if negb (IsOnCurve c x y)
      then Err (errorf ("EC point is not on curve " +:+ crv)) else Ok (EcdsaKey c x y)
  end end end.

(** [int(new(big.Int).SetBytes(b).Int64())]: the low 64 bits. *)
Definition rsaKeyFromJWK (jwk : option (gmap string goval)) : res PublicKey :=
  let nStr := jwk_string jwk "n" in
  let eStr := jwk_string jwk "e" in
  if String.eqb nStr EmptyString || String.eqb eStr EmptyString
  then Err (errorf "RSA JWK missing n or e") else
  match RawURLDecode nStr with
  | None => Err (errorw "decoding RSA n" b64_error)
  | Some nBytes =>
  match RawURLDecode eStr with
  | None => Err (errorw "decoding RSA e" b64_error)
  | Some eBytes =>
      let n := SetBytes nBytes in
      let e := wrap64 (SetBytes eBytes) in
      if e <=? 0 then Err (errorf "invalid RSA exponent") else Ok (RsaKey n e)
  end end.

Definition PublicKeyFromJWK (jwk : option (gmap string goval)) : res PublicKey :=
  let kty := jwk_string jwk "kty" in
  if String.eqb kty "EC" then ecKeyFromJWK jwk
  else if String.eqb kty "RSA" then rsaKeyFromJWK jwk
  else Err (errorf ("unsupported JWK kty: " +:+ Quote kty)).
End Keys.

(** ** Signatures *)

Section Verify.
Context {U : Unicode} {Sig : Signatures}.

Definition verifyECDSA (c : curve) (hash : sha2) (key : PublicKey) (input sig : string) : option error :=
  match key with
  | EcdsaKey kc x y =>
      let digest := sha_sum hash input in
      let byteLen := Z.to_nat ((curve_BitSize c + 7) / 8) in
      if negb (Nat.eqb (String.length sig) (2 * byteLen))
      then Some (errorf ("ECDSA signature length " +:+ fmt_d (Z.of_nat (String.length sig)) +:+
                         ", expected " +:+ fmt_d (Z.of_nat (2 * byteLen)))) else
      let r := SetBytes (str_take byteLen sig) in
      let s := SetBytes (str_drop byteLen sig) in
      if negb (ecdsa_Verify kc x y digest r s)
      then Some (errorf "ECDSA signature verification failed") else None
  | RsaKey _ _ => Some (errorf ("expected *ecdsa.PublicKey for " +:+ curve_Name c))
  end.

Definition verifyRSAPKCS1v15 (hash : sha2) (key : PublicKey) (input sig : string) : option error :=
  match key with
  | RsaKey n e =>
      if rsa_Verify n e hash (sha_sum hash input) sig then None
      else Some (errorf "crypto/rsa: verification error")
  | EcdsaKey _ _ _ => Some (errorf "expected *rsa.PublicKey")
  end.

Definition verifyJWTSignature (alg : string) (key : PublicKey) (input sig : string) : option error :=
  if String.eqb alg "ES256" then verifyECDSA P256 SHA256 key input sig
  else if String.eqb alg "ES384" then verifyECDSA P384 SHA384 key input sig
  else if String.eqb alg "ES512" then verifyECDSA P521 SHA512 key input sig
  else if String.eqb alg "RS256" then verifyRSAPKCS1v15 SHA256 key input sig
  else if String.eqb alg "RS384" then verifyRSAPKCS1v15 SHA384 key input sig
  else if String.eqb alg "RS512" then verifyRSAPKCS1v15 SHA512 key input sig
  else Some (errorf ("unsupported algorithm: " +:+ Quote alg)).
End Verify.

(** ** Parsing a proof *)

Record proof_header := MkProofHeader {
  ph_Alg : string;
  ph_Typ : string;
  ph_JWK : option (gmap string goval)
}.
Record proof_payload := MkProofPayload {
  pp_JTI : string;
  pp_HTM : string;
  pp_HTU : string;
  pp_IAT : Z;
  pp_ATH : string;
  pp_Nonce : string
}.

Definition header_set (name raw : string) (j : json) (h : proof_header) : option proof_header :=
  let '(MkProofHeader alg typ jwk) := h in
  if String.eqb name "alg" then v ← dec_string alg j; Some (MkProofHeader v typ jwk)
  else if String.eqb name "typ" then v ← dec_string typ j; Some (MkProofHeader alg v jwk)
  else v ← dec_object jwk j; Some (MkProofHeader alg typ v).

Definition payload_set (name raw : string) (j : json) (p : proof_payload) : option proof_payload :=
  let '(MkProofPayload jti htm htu iat ath nonce) := p in
  if String.eqb name "jti" then v ← dec_string jti j; Some (MkProofPayload v htm htu iat ath nonce)
  else if String.eqb name "htm" then v ← dec_string htm j; Some (MkProofPayload jti v htu iat ath nonce)
  else if String.eqb name "htu" then v ← dec_string htu j; Some (MkProofPayload jti htm v iat ath nonce)
  else if String.eqb name "iat" then v ← dec_int64 iat j; Some (MkProofPayload jti htm htu v ath nonce)
  else if String.eqb name "ath" then v ← dec_string ath j; Some (MkProofPayload jti htm htu iat v nonce)
  else v ← dec_string nonce j; Some (MkProofPayload jti htm htu iat ath v).

Section Parse.
Context {U : Unicode}.

Definition decode_header (b : string) : option proof_header :=
  j ← json_Unmarshal b;
  dec_struct ["alg"; "typ"; "jwk"] header_set (MkProofHeader EmptyString EmptyString None) j.
Definition decode_payload (b : string) : option proof_payload :=
  j ← json_Unmarshal b;
  dec_struct ["jti"; "htm"; "htu"; "iat"; "ath"; "nonce"] payload_set
    (MkProofPayload EmptyString EmptyString EmptyString 0 EmptyString EmptyString) j.

Definition parseDPoPJWT (jwt : string) : res DPoPProof :=
  match Split jwt "." with
  | [p0; p1; p2] =>
      match RawURLDecode p0 with
      | None => Err (errorw "decoding header" b64_error)
      | Some headerBytes =>
      match RawURLDecode p1 with
      | None => Err (errorw "decoding payload" b64_error)
      | Some payloadBytes =>
      match decode_header headerBytes with
      | None => Err (errorw "parsing header" json_error)
      | Some header =>
      if negb (String.eqb (ph_Typ header) "dpop+jwt")
      then Err (errorf ("invalid DPoP typ: " +:+ Quote (ph_Typ header))) else
      match decode_payload payloadBytes with
      | None => Err (errorw "parsing payload" json_error)
      | Some payload =>
          Ok (MkProof (ph_Alg header) (ph_JWK header) (pp_JTI payload) (pp_HTM payload)
                (pp_HTU payload) (time_Unix (pp_IAT payload)) (pp_ATH payload) (pp_Nonce payload))
      end end end end
  | _ => Err (errorf "invalid JWT format")
  end.

Context {Sig : Signatures}.

Definition verifyDPoPSignature (jwt : string) (proof : DPoPProof) : option error :=
  let parts := Split jwt "." in
  match PublicKeyFromJWK (pf_JWK proof) with
  | Err e => Some (errorw "extracting public key from JWK" e)
  | Ok pubKey =>
      let signingInput := nth 0 parts EmptyString +:+ "." +:+ nth 1 parts EmptyString in
      match RawURLDecode (nth 2 parts EmptyString) with
      | None => Some (errorw "decoding signature" b64_error)
      | Some sigBytes => verifyJWTSignature (pf_Algorithm proof) pubKey signingInput sigBytes
      end
  end.
End Parse.

(** ** Validation *)

Definition hashTokenForDPoP (token : string) : string := RawURLEncode (sha256 token).

Section Validate.
Context {U : Unicode} {Sig : Signatures}.

Definition htuMatches (htu : string) (r : Request) : bool :=
  let scheme := if rq_TLS r then "https" else "http" in
  let requestBase := scheme +:+ "://" +:+ rq_Host r +:+ rq_Path r in
  let htuBase := nth 0 (Split htu "?") EmptyString in
  let htuBase := nth 0 (Split htuBase "#") EmptyString in
  EqualFold htuBase requestBase.

Definition ValidateDPoP {S} (r : Request) (accessToken : string) (cfg : DPoPConfig)
    : M S (res DPoPProof) :=
  let dpopHeader := Header_Get (rq_Header r) "DPoP" in
  if String.eqb dpopHeader EmptyString then mret (Err (errorf "missing DPoP proof header")) else
  match parseDPoPJWT dpopHeader with
  | Err e => mret (Err (errorw "parsing DPoP proof" e))
  | Ok proof =>
  match verifyDPoPSignature dpopHeader proof with
  | Some e => mret (Err (errorw "DPoP signature verification failed" e))
  | None =>
  if negb (EqualFold (pf_HTM proof) (rq_Method r))
  then mret (Err (errorf ("DPoP htm " +:+ Quote (pf_HTM proof) +:+ " does not match request method " +:+
                          Quote (rq_Method r)))) else
  if negb (EqualFold (pf_HTU proof) (rq_URL r)) && negb (htuMatches (pf_HTU proof) r)
  then mret (Err (errorf ("DPoP htu " +:+ Quote (pf_HTU proof) +:+ " does not match request URI " +:+
                          Quote (rq_URL r)))) else
  now1 ← Now;
  let age := time_Since now1 (pf_IAT proof) in
  if (0 <? dc_MaxAge cfg) && (dc_MaxAge cfg <? age)
  then mret (Err (errorf ("DPoP proof is too old: " +:+ Duration_String (Duration_Round age Second) +:+
                          " (max " +:+ Duration_String (dc_MaxAge cfg) +:+ ")"))) else
  now2 ← Now;
  if time_After (pf_IAT proof) (time_Add now2 (5 * Second))
  then mret (Err (errorf "DPoP proof issued in the future")) else
  if String.eqb (pf_ATH proof) EmptyString then mret (Err ErrDPoPMissingATH) else
  if negb (String.eqb (pf_ATH proof) (hashTokenForDPoP accessToken))
  then mret (Err ErrDPoPBindingMismatch) else
  match dc_Nonce cfg with
  | None => mret (Ok proof)
  | Some n =>
      valid ← Nonce_Valid n (pf_Nonce proof);
      mret (if valid : bool then Ok proof else Err ErrDPoPNonceRequired)
  end
  end end.

Definition dpopJTIPrefix : string := "dpop:jti:".

(** [NewDPoPValidator]: the configuration it keeps. *)
Definition NewDPoPValidator (cfg : DPoPConfig) : DPoPConfig :=
  MkDPoPConfig (if dc_MaxAge cfg <=? 0 then 60 * Second else dc_MaxAge cfg)
    (dc_RequireHTTPS cfg) (dc_Nonce cfg).

(** [DPoPValidator.Validate] over the replay cache. *)
Definition Validate {S} `{!Cache S} (cfg : DPoPConfig) (r : Request) (accessToken : string)
    : M S (res DPoPProof) :=
  v ← ValidateDPoP r accessToken cfg;
  match v with
  | Err e => mret (Err e)
  | Ok proof =>
      if String.eqb (pf_JTI proof) EmptyString then mret (Err (errorf "dpop proof missing jti claim")) else
      let key := dpopJTIPrefix +:+ pf_JTI proof in
      seen ← cache_Get key;
      match seen with
      | Some _ => mret (Err ErrDPoPReplay)
      | None => _ ← cache_Set key empty_claims (dc_MaxAge cfg); mret (Ok proof)
      end
  end.
End Validate.

(** ** The acceptance conditions *)

Section Acceptance.
Context {U : Unicode} {Sig : Signatures}.

(** What [ValidateDPoP] checks, at the three readings of the clock. *)
Record proof_ok (r : Request) (token : string) (cfg : DPoPConfig) (now1 now2 now3 : Time)
    (p : DPoPProof) : Prop := {
  po_parsed : parseDPoPJWT (Header_Get (rq_Header r) "DPoP") = Ok p;
  po_signed : verifyDPoPSignature (Header_Get (rq_Header r) "DPoP") p = None;
  po_method : EqualFold (pf_HTM p) (rq_Method r) = true;
  po_uri : EqualFold (pf_HTU p) (rq_URL r) = true \/ htuMatches (pf_HTU p) r = true;
  po_fresh : 0 < dc_MaxAge cfg -> time_Since now1 (pf_IAT p) <= dc_MaxAge cfg;
  po_past : pf_IAT p <= now2 + 5 * Second;
  po_token : pf_ATH p = hashTokenForDPoP token;
  po_nonce : match dc_Nonce cfg with
             | None => True
             | Some n => pf_Nonce p <> EmptyString /\ Valid_at n now3 (pf_Nonce p) = true
             end
}.

(** The readings of one validation, and the number of them before the cache
    is read. *)
Definition reading {S} (w : world S) (k : nat) : Time := w_now w (k + w_tick w)%nat.
Definition readings (cfg : DPoPConfig) : nat := match dc_Nonce cfg with None => 2 | Some _ => 3 end.

Lemma hashTokenForDPoP_not_empty token : hashTokenForDPoP token <> EmptyString.
Proof.
  unfold hashTokenForDPoP. intros H. apply (f_equal String.length) in H.
  unfold RawURLEncode in H. rewrite b64_encode_length_raw, sha256_length in H. done.
Qed.

(** The checks of the proof's age, [age] being a reading of the clock less
    [iat], and the one of its future. *)
Lemma fresh_check cfg now p :
  (0 <? dc_MaxAge cfg) && (dc_MaxAge cfg <? time_Since now (pf_IAT p)) = false <->
  (0 < dc_MaxAge cfg -> time_Since now (pf_IAT p) <= dc_MaxAge cfg).
Proof. rewrite andb_false_iff, !Z.ltb_ge. split; [lia|]. destruct (Z.le_gt_cases (dc_MaxAge cfg) 0); [auto|right; lia]. Qed.

Lemma past_check now p :
  time_After (pf_IAT p) (time_Add now (5 * Second)) = false <-> pf_IAT p <= now + 5 * Second.
Proof. apply Z.ltb_ge. Qed.

(** The last check, on the nonce. *)
Definition nonce_ok (cfg : DPoPConfig) (now : Time) (p : DPoPProof) : Prop :=
  match dc_Nonce cfg with
  | None => True
  | Some n => pf_Nonce p <> EmptyString /\ Valid_at n now (pf_Nonce p) = true
  end.

Lemma check_nonce {S} cfg p (w : world S) :
  let '(v, w') :=
    (match dc_Nonce cfg with
     | None => mret (Ok p)
     | Some n => valid ← Nonce_Valid n (pf_Nonce p); mret (if valid : bool then Ok p else Err ErrDPoPNonceRequired)
     end) w in
  (nonce_ok cfg (now_of w) p /\ v = Ok p /\ w' = World (w_now w) (readings cfg - 2 + w_tick w)%nat (w_st w)) \/
  (~ nonce_ok cfg (now_of w) p /\ (exists e, v = Err e) /\ w_st w' = w_st w).
Proof.
  unfold nonce_ok, readings. destruct (dc_Nonce cfg) as [n|]; [|left; by destruct w].
  unfold Nonce_Valid. destruct (String.eqb_spec (pf_Nonce p) EmptyString) as [He|He].
  { right. rewrite He. split; [by intros [[] _]|]. split; [by eexists|done]. }
  unfold mbind, M_bind, Now. cbn [mret M_ret w_now w_tick w_st]. unfold now_of.
  destruct (Valid_at n _ (pf_Nonce p)) eqn:Hv; [by left|]. right.
  split; [by intros [_ [=]]|]. split; [by eexists|done].
Qed.

Ltac rejected_here :=
  right; split; [|split; [eexists; reflexivity|reflexivity]].

Lemma ValidateDPoP_spec {S} r token cfg (w : world S) :
  let '(v, w') := ValidateDPoP r token cfg w in
  (exists p, proof_ok r token cfg (reading w 0) (reading w 1) (reading w 2) p /\
     v = Ok p /\ w' = World (w_now w) (readings cfg + w_tick w)%nat (w_st w)) \/
  ((forall p, ~ proof_ok r token cfg (reading w 0) (reading w 1) (reading w 2) p) /\
   (exists e, v = Err e) /\ w_st w' = w_st w).
Proof.
  unfold ValidateDPoP.
  destruct (String.eqb_spec (Header_Get (rq_Header r) "DPoP") EmptyString) as [Hh|Hh].
  { rejected_here. intros p [Hp _ _ _ _ _ _ _]. rewrite Hh in Hp. discriminate Hp. }
  destruct (parseDPoPJWT _) as [p|e] eqn:Hparse.
  2: { rejected_here. intros p [Hp _ _ _ _ _ _ _]. congruence. }
  assert (Hpeq : forall q n1 n2 n3, proof_ok r token cfg n1 n2 n3 q -> q = p)
    by (intros q n1 n2 n3 [Hq _ _ _ _ _ _ _]; congruence).
  assert (Hno : forall n1 n2 n3, ~ proof_ok r token cfg n1 n2 n3 p ->
                forall q, ~ proof_ok r token cfg n1 n2 n3 q).
  { intros n1 n2 n3 Hn q Hq. pose proof (Hpeq _ _ _ _ Hq) as ->. done. }
  destruct (verifyDPoPSignature _ p) as [e|] eqn:Hsig.
  { rejected_here. apply Hno. intros [_ H _ _ _ _ _ _]. congruence. }
  destruct (EqualFold (pf_HTM p) (rq_Method r)) eqn:Hm; cbn [negb].
  2: { rejected_here. apply Hno. intros [_ _ H _ _ _ _ _]. congruence. }
  destruct (negb (EqualFold (pf_HTU p) (rq_URL r)) && negb (htuMatches (pf_HTU p) r)) eqn:Hu.
  { rejected_here. apply Hno. intros [_ _ _ H _ _ _ _].
    b2p. destruct H; congruence. }
  assert (Huri : EqualFold (pf_HTU p) (rq_URL r) = true \/ htuMatches (pf_HTU p) r = true).
  { apply andb_false_iff in Hu as [Hu|Hu]; b2p; auto. }
  unfold mbind, M_bind, Now at 1. cbv beta iota zeta.
  destruct ((0 <? dc_MaxAge cfg) && _) eqn:Hage.
  { rejected_here. apply Hno. intros [_ _ _ _ H _ _ _]. apply fresh_check in H. exact (eq_true_false_abs _ Hage H). }
  rewrite fresh_check in Hage. unfold Now at 1. cbv beta iota zeta. cbn [w_now w_tick w_st].
  destruct (time_After _ _) eqn:Hpast.
  { rejected_here. apply Hno. intros [_ _ _ _ _ H _ _]. apply past_check in H. exact (eq_true_false_abs _ Hpast H). }
  rewrite past_check in Hpast.
  destruct (String.eqb_spec (pf_ATH p) EmptyString) as [Ha|Ha].
  { rejected_here. apply Hno. intros [_ _ _ _ _ _ H _].
    rewrite Ha in H. by apply (hashTokenForDPoP_not_empty token). }
  destruct (String.eqb_spec (pf_ATH p) (hashTokenForDPoP token)) as [Hath|Hath]; cbn [negb].
  2: { rejected_here. apply Hno. by intros [_ _ _ _ _ _ H _]. }
  cbn [w_now w_tick w_st].
  pose proof (check_nonce cfg p (World (w_now w) (1 + (1 + w_tick w)) (w_st w))) as Hn.
  unfold mbind, M_bind in Hn |- *. cbn [w_now w_tick w_st] in Hn.
  lazymatch goal with |- let '(_, _) := ?x in _ => destruct x as [v w'] end.
  destruct Hn as [(Hn & -> & ->)|(Hn & He & Hs)].
  - left. exists p. split; [by split|]. split; [done|]. f_equal. unfold readings. cbn [w_tick]. destruct (dc_Nonce cfg); lia.
  - right. split; [|done]. apply Hno. by intros [_ _ _ _ _ _ _ H].
Qed.

Lemma ValidateDPoP_later {S} r token cfg (w : world S) : later w (ValidateDPoP r token cfg w).2.
Proof.
  unfold ValidateDPoP, Nonce_Valid, mbind, M_bind, Now, mret, M_ret.
  repeat case_match; simplify_eq/=; split; cbn; (done || lia).
Qed.
End Acceptance.

Section Validator.
Context {U : Unicode} {Sig : Signatures} {S : Type} `{!Cache S}.

Definition jti_key (p : DPoPProof) : string := dpopJTIPrefix +:+ pf_JTI p.

Lemma Validate_cases cfg r token (w : world S) :
  let '(v, w') := Validate cfg r token w in
  let n := readings cfg in
  (exists p, proof_ok r token cfg (reading w 0) (reading w 1) (reading w 2) p /\
     pf_JTI p <> EmptyString /\ Cache_Get (reading w n) (jti_key p) (w_st w) = None /\
     v = Ok p /\
     w' = World (w_now w) (2 + n + w_tick w)%nat
            (snd (Cache_Set (reading w (1 + n)) (jti_key p) empty_claims (dc_MaxAge cfg) (w_st w)))) \/
  ((forall p, proof_ok r token cfg (reading w 0) (reading w 1) (reading w 2) p ->
      pf_JTI p <> EmptyString -> Cache_Get (reading w n) (jti_key p) (w_st w) <> None) /\
   (exists e, v = Err e) /\ w_st w' = w_st w).
Proof.
  unfold Validate, mbind at 1, M_bind at 1. pose proof (ValidateDPoP_spec r token cfg w) as Hs.
  destruct (ValidateDPoP r token cfg w) as [v w1].
  destruct Hs as [(p & Hok & -> & ->)|(Hno & (e & ->) & Hst)].
  2: { right. split; [|split; [by eexists|done]]. intros p Hp. by destruct (Hno p). }
  assert (Huniq : forall q n1 n2 n3, proof_ok r token cfg n1 n2 n3 q -> q = p).
  { intros q n1 n2 n3 [Hq _ _ _ _ _ _ _]. destruct Hok. congruence. }
  destruct (String.eqb_spec (pf_JTI p) EmptyString) as [Hj|Hj].
  { right. split; [|split; [by eexists|done]]. intros q Hq Hqj. by rewrite (Huniq q _ _ _ Hq) in Hqj. }
  unfold mbind at 1, M_bind at 1.
  assert (Hg : cache_Get (dpopJTIPrefix +:+ pf_JTI p) (World (w_now w) (readings cfg + w_tick w)%nat (w_st w)) =
    (Cache_Get (reading w (readings cfg)) (jti_key p) (w_st w),
     World (w_now w) (1 + (readings cfg + w_tick w))%nat (w_st w))) by done.
  rewrite Hg. destruct (Cache_Get _ (jti_key p) _) as [c|] eqn:Hseen.
  - right. split; [|split; [by eexists|done]]. intros q Hq _. rewrite (Huniq q _ _ _ Hq), Hseen. discriminate.
  - unfold mbind, M_bind, cache_Set, lift, Now. unfold mbind, M_bind. cbn [w_now w_tick w_st].
    fold (jti_key p).
    destruct (Cache_Set (w_now w (1 + (readings cfg + w_tick w))%nat) (jti_key p) empty_claims
                (dc_MaxAge cfg) (w_st w)) as [err s'] eqn:Hset.
    left. exists p. split; [done|]. split; [done|]. split; [done|]. split; [done|].
    change (reading w (1 + readings cfg)) with (w_now w (1 + (readings cfg + w_tick w))%nat).
    by rewrite Hset.
Qed.
End Validator.

(** C11: [DPoPValidator.Validate] accepts exactly the good proofs.  It returns a
    proof if and only if the DPoP header parses to it with type [dpop+jwt],
    its signature verifies under its own JWK, method and URI match the
    request, it is fresh and not from the future, it commits to this access
    token, it carries a valid nonce when one is required, and its jti is not
    empty and not remembered.  Then its jti is remembered for [MaxAge]; in
    every other case the answer is an error and the cache is unchanged. *)
Theorem Validate_accepts {U : Unicode} {Sig : Signatures} {S} `{!Cache S} cfg r token (w : world S) p :
  let n := readings cfg in
  let '(v, w') := Validate cfg r token w in
  (v = Ok p <->
   proof_ok r token cfg (reading w 0) (reading w 1) (reading w 2) p /\
   pf_JTI p <> EmptyString /\
   Cache_Get (reading w n) (dpopJTIPrefix +:+ pf_JTI p) (w_st w) = None) /\
  (w_st w' = match v with
             | Ok q => snd (Cache_Set (reading w (1 + n)) (dpopJTIPrefix +:+ pf_JTI q) empty_claims
                              (dc_MaxAge cfg) (w_st w))
             | Err _ => w_st w
             end).
Proof.
  intros n. pose proof (Validate_cases cfg r token w) as Hc. fold n in Hc.
  destruct (Validate cfg r token w) as [v w'].
  destruct Hc as [(q & Hok & Hj & Hseen & -> & ->)|(Hno & (e & ->) & Hst)].
  - split; [|done]. split; [by intros [= <-]|]. intros ([Hp _ _ _ _ _ _ _] & _).
    destruct Hok as [Hq _ _ _ _ _ _ _]. congruence.
  - split; [|done]. split; [done|]. intros (Hp & Hj & Hs). by destruct (Hno p Hp Hj).
Qed.

(** ** No replay *)

Section NoReplay.
Context {U : Unicode} {Sig : Signatures} {S : Type} `{!Cache S} `{!CacheLaws S}.
Variable cfg : DPoPConfig.
Hypothesis Hstorable : storable empty_claims.
Hypothesis Hage : 0 < dc_MaxAge cfg < max_int64.

(** What may go on between two uses of the validator, its cache being shared:
    time passes, entries of other keys are written or deleted, expired ones
    are dropped, and proofs are validated, those with the jti of [key]
    included. *)
Inductive meanwhile (key : string) : world S -> world S -> Prop :=
| meanwhile_wait w w' : later w w' -> w_st w' = w_st w -> meanwhile key w w'
| meanwhile_set w k c ttl :
    k <> key -> storable c -> 0 < ttl -> meanwhile key w (cache_Set k c ttl w).2
| meanwhile_delete w k : k <> key -> meanwhile key w (cache_Delete k w).2
| meanwhile_drop w s :
    healthy s -> (forall k now, now_of w <= now -> Cache_Get now k s = Cache_Get now k (w_st w)) ->
    meanwhile key w (World (w_now w) (w_tick w) s)
| meanwhile_validate w r token : meanwhile key w (Validate cfg r token w).2.

(** The key is in the cache until [t]. *)
Record remembered (key : string) (t : Time) (w : world S) : Prop := {
  re_clock : clock_ok w;
  re_healthy : healthy (w_st w);
  re_until now : now_of w <= now < t -> Cache_Get now key (w_st w) <> None
}.

Lemma now_of_reading (w : world S) k : clock_ok w -> now_of w <= reading w k.
Proof. intros Hck. unfold now_of, reading. apply Hck. lia. Qed.

Lemma remembered_later key t (w w' : world S) :
  later w w' -> healthy (w_st w') ->
  (forall now, now_of w <= now < t -> now_of w' <= now -> Cache_Get now key (w_st w') <> None) ->
  remembered key t w -> remembered key t w'.
Proof.
  intros Hl Hh Hg [Hck _ _]. split; [by eapply later_clock|done|]. intros now Hn.
  pose proof (later_now w w' Hck Hl). apply Hg; lia.
Qed.

(** A write that begins in time, of this key for the validator's [MaxAge] or
    of another. *)
Lemma remembered_set key t (w w' : world S) k c ttl ts :
  later w w' -> now_of w <= ts <= now_of w' -> w_st w' = snd (Cache_Set ts k c ttl (w_st w)) ->
  storable c -> 0 < ttl -> (k = key -> t <= ts + ttl) -> remembered key t w -> remembered key t w'.
Proof.
  intros Hl Hts Hst Hc Httl Hk Hr. pose proof Hr as [Hck Hh Hu]. eapply remembered_later; [exact Hl| | |exact Hr]; rewrite Hst.
  - by apply set_ok.
  - intros now Hn Hn'. destruct (decide (k = key)) as [->|Hne].
    + destruct (get_set_live ts now key c ttl (w_st w) Hh Hc Httl) as (c' & -> & _); [specialize (Hk eq_refl); lia|done].
    + rewrite get_set_other by done. by apply Hu.
Qed.

Lemma Validate_later r token (w : world S) : later w (Validate cfg r token w).2.
Proof.
  unfold Validate, mbind at 1, M_bind at 1. pose proof (ValidateDPoP_later r token cfg w) as Hl.
  destruct (ValidateDPoP r token cfg w) as [v w1]. cbn [snd] in Hl.
  destruct v as [p|e]; [|exact Hl]. etransitivity; [exact Hl|]. cbv beta.
  destruct (String.eqb _ _); [done|].
  unfold cache_Get, cache_Set, gets, lift, Now, mret, M_ret, mbind, M_bind. cbn [w_now w_tick w_st].
  repeat case_match; simplify_eq/=; split; cbn; (done || lia).
Qed.

Lemma meanwhile_later key (w w' : world S) : meanwhile key w w' -> later w w'.
Proof.
  intros []; [done|..|apply Validate_later]; unfold cache_Set, cache_Delete, lift, Now, mbind, M_bind; cbn [w_now w_tick w_st].
  - destruct (Cache_Set _ _ _ _ _). split; cbn; [done|lia].
  - destruct (Cache_Delete _ _ _). split; cbn; [done|lia].
  - done.
Qed.

Lemma meanwhile_remembered key t (w w' : world S) :
  meanwhile key w w' -> t <= now_of w + dc_MaxAge cfg -> remembered key t w -> remembered key t w'.
Proof using All.
  intros Hm Ht Hr. pose proof Hr as [Hck Hh Hu].
  destruct Hm as [w w' Hl Hst|w k c ttl Hk Hc Httl|w k Hk|w s Hs Hg|w r token].
  - apply (remembered_later key t w); [done|by rewrite Hst| |done]. intros now Hn _. rewrite Hst. by apply Hu.
  - assert (E : (cache_Set k c ttl w).2 = World (w_now w) (1 + w_tick w)%nat (snd (Cache_Set (now_of w) k c ttl (w_st w)))).
    { unfold cache_Set, lift, Now, mbind, M_bind. cbn [w_now w_tick w_st]. by destruct (Cache_Set _ _ _ _ _). }
    rewrite E. apply (remembered_set key t w _ k c ttl (now_of w)); [split; cbn; [done|lia]| |done|done|done|done|done].
    split; [done|]. unfold now_of. cbn. apply Hck. lia.
  - assert (E : (cache_Delete k w).2 = World (w_now w) (1 + w_tick w)%nat (snd (Cache_Delete (now_of w) k (w_st w)))).
    { unfold cache_Delete, lift, Now, mbind, M_bind. cbn [w_now w_tick w_st]. by destruct (Cache_Delete _ _ _). }
    rewrite E. apply (remembered_later key t w); [split; cbn; [done|lia]|by apply delete_ok| |done].
    cbn. intros now Hn _. rewrite get_delete_other by done. by apply Hu.
  - apply (remembered_later key t w); [by split|done| |done]. cbn. intros now Hn Hn'. rewrite Hg by done. by apply Hu.
  - pose proof (Validate_cases cfg r token w) as Hv. pose proof (Validate_later r token w) as Hl.
    destruct (Validate cfg r token w) as [v w']. cbn [snd] in *.
    destruct Hv as [(p & _ & _ & _ & _ & ->)|(_ & _ & Hst)].
    + apply (remembered_set key t w _ (jti_key p) empty_claims (dc_MaxAge cfg) (reading w (1 + readings cfg)));
        [done| |done|done|lia| |done].
      * split; [by apply now_of_reading|]. unfold now_of, reading. cbn. apply Hck. lia.
      * intros _. pose proof (now_of_reading w (1 + readings cfg) Hck). lia.
    + apply (remembered_later key t w); [done|by rewrite Hst| |done]. intros now Hn _. rewrite Hst. by apply Hu.
Qed.

Lemma meanwhiles_remembered key t (w w' : world S) :
  rtc (meanwhile key) w w' -> t <= now_of w + dc_MaxAge cfg -> remembered key t w ->
  remembered key t w'.
Proof using All.
  induction 1 as [w|w w1 w2 Hm _ IH]; [done|]. intros Ht Hr. apply IH; [|by apply (meanwhile_remembered key t w w1)].
  pose proof (later_now w w1 (re_clock _ _ _ Hr) (meanwhile_later _ _ _ Hm)). lia.
Qed.
End NoReplay.

(** C16: No replay.  After a proof was accepted, and whatever else is done with
    the validator and its cache since (other proofs are validated, entries of
    other keys written and deleted, expired ones dropped), presenting the same
    DPoP header again, for any request and token, is refused: while its jti is
    remembered it is a replay, and afterwards the proof is too old.  The
    operations come one after the other, nothing flushes the cache or deletes
    the jti, and the proof is not dated in the future: it was issued before its
    first validation by more than the second one takes from its first reading
    of the clock to the look at the cache.  (A proof dated up to five seconds
    ahead is accepted too, and can outlive the memory of its jti.) *)
Theorem DPoP_no_replay {U : Unicode} {Sig : Signatures} {S} `{!Cache S} `{!CacheLaws S}
    cfg r r2 token token2 p (w w1 w2 : world S) :
  clock_ok w -> healthy (w_st w) -> storable empty_claims ->
  0 < dc_MaxAge cfg < max_int64 ->
  Validate cfg r token w = (Ok p, w1) ->
  rtc (meanwhile cfg (jti_key p)) w1 w2 ->
  Header_Get (rq_Header r2) "DPoP" = Header_Get (rq_Header r) "DPoP" ->
  pf_IAT p + (reading w2 (readings cfg) - reading w2 0) < now_of w ->
  exists e, fst (Validate cfg r2 token2 w2) = Err e.
Proof.
  intros Hck Hh Hsto Hage H1 Hm Hhdr Hiat.
  pose proof (Validate_cases cfg r token w) as Hc. rewrite H1 in Hc.
  destruct Hc as [(q & Hok & Hj & _ & Hq & Hw1)|(_ & (e & He) & _)]; [|done]. injection Hq as <-.
  set (n := readings cfg) in *. set (ts := reading w (1 + n)) in *.
  assert (Hts : now_of w <= ts <= now_of w1).
  { split; [by apply now_of_reading|]. subst w1 ts. unfold now_of, reading. cbn. apply Hck. lia. }
  assert (Hrem : remembered (jti_key p) (ts + dc_MaxAge cfg) w1).
  { subst w1. split; [done|cbn; apply set_ok; (done || lia)|]. cbn [w_st]. intros now Hnow.
    destruct (get_set_live ts now (jti_key p) empty_claims (dc_MaxAge cfg) (w_st w)) as (c & -> & _); (done || lia). }
  apply (meanwhiles_remembered cfg Hsto Hage _ _ _ _ Hm) in Hrem; [|lia].
  pose proof (Validate_cases cfg r2 token2 w2) as Hc2. destruct (Validate cfg r2 token2 w2) as [v w3].
  destruct Hc2 as [(q & Hok2 & _ & Hseen & -> & _)|(_ & (e & ->) & _)]; [exfalso|by exists e].
  assert (q = p) as -> by (destruct Hok as [Hp _ _ _ _ _ _ _], Hok2 as [Hp2 _ _ _ _ _ _ _]; rewrite Hhdr, Hp in Hp2; congruence).
  destruct Hok2 as [_ _ _ _ Hfresh _ _ _]. specialize (Hfresh ltac:(lia)).
  apply time_Since_le in Hfresh; [|unfold int64_ok, min_int64, max_int64 in *; lia|lia].
  destruct Hrem as [Hck2 _ Hu]. apply (Hu (reading w2 n)); [|done].
  split; [by apply now_of_reading|]. lia.
Qed.

(** The cleaning of the memory cache is one of the things that may go on. *)
Lemma cleanup_meanwhile {U : Unicode} {Sig : Signatures} cfg key (w : world MemoryCache) :
  meanwhile cfg key w (World (w_now w) (w_tick w) (Memory.cleanup (now_of w) (w_st w))).
Proof. apply meanwhile_drop; [done|]. intros k now Hnow. by apply cleanup_equiv. Qed.

(** ** Signatures *)

Definition is_ES (alg : string) : Prop := alg ∈ ["ES256"; "ES384"; "ES512"].
Definition is_RS (alg : string) : Prop := alg ∈ ["RS256"; "RS384"; "RS512"].

(** Only asymmetric signatures under a well-formed key are accepted.  When
    [verifyDPoPSignature] succeeds, the algorithm is one of the six ES and RS
    names (never "none" or an HMAC), the key type agrees with it, an EC key is
    a point of its curve, an RSA exponent is positive, and the primitive
    accepted the decoded third segment over the first two. *)
Theorem proof_signature_sound {U : Unicode} {Sig : Signatures} jwt p :
  verifyDPoPSignature jwt p = None ->
  exists key sig hash,
    PublicKeyFromJWK (pf_JWK p) = Ok key /\
    RawURLDecode (nth 2 (Split jwt ".") EmptyString) = Some sig /\
    let input := nth 0 (Split jwt ".") EmptyString +:+ "." +:+ nth 1 (Split jwt ".") EmptyString in
    match key with
    | EcdsaKey c x y =>
        is_ES (pf_Algorithm p) /\ jwk_string (pf_JWK p) "kty" = "EC" /\ IsOnCurve c x y = true /\
        exists rr ss, ecdsa_Verify c x y (sha_sum hash input) rr ss = true
    | RsaKey n e =>
        is_RS (pf_Algorithm p) /\ jwk_string (pf_JWK p) "kty" = "RSA" /\ 0 < e /\
        rsa_Verify n e hash (sha_sum hash input) sig = true
    end.
Proof.
  unfold verifyDPoPSignature. destruct (PublicKeyFromJWK (pf_JWK p)) as [key|e] eqn:Hkey; [|done].
  destruct (RawURLDecode _) as [sig|]; [|done].
  set (input := nth 0 _ _ +:+ _). intros Hv.
  assert (Hk : match key with
               | EcdsaKey c x y => jwk_string (pf_JWK p) "kty" = "EC" /\ IsOnCurve c x y = true
               | RsaKey n e => jwk_string (pf_JWK p) "kty" = "RSA" /\ 0 < e end).
  { revert Hkey. unfold PublicKeyFromJWK, ecKeyFromJWK, rsaKeyFromJWK.
    destruct (String.eqb_spec (jwk_string (pf_JWK p) "kty") "EC") as [->|_];
      [|destruct (String.eqb_spec (jwk_string (pf_JWK p) "kty") "RSA") as [->|_]; [|done]].
    - destruct (_ || _); [done|]. destruct (RawURLDecode _); [|done].
      destruct (RawURLDecode _); [|done]. destruct (curve_of _) as [c|]; [|done].
      destruct (IsOnCurve _ _ _) eqn:Hc; [|done]. by intros [= <-].
    - destruct (_ || _); [done|]. destruct (RawURLDecode _); [|done].
      destruct (RawURLDecode _); [|done]. destruct (Z.leb_spec (wrap64 (SetBytes s0)) 0); [done|].
      by intros [= <-]. }
  assert (Hdispatch : exists h c, (is_ES (pf_Algorithm p) /\ verifyECDSA c h key input sig = None) \/
                                  (is_RS (pf_Algorithm p) /\ verifyRSAPKCS1v15 h key input sig = None)).
  { revert Hv. unfold verifyJWTSignature, is_ES, is_RS.
    repeat (match goal with |- context [String.eqb (pf_Algorithm p) ?a] =>
              destruct (String.eqb_spec (pf_Algorithm p) a) as [->|_] end;
            [intros Hv; first [eexists _, _; left; split; [|exact Hv]; set_solver
                              |eexists _, P256; right; split; [|exact Hv]; set_solver]|]).
    done. }
  destruct Hdispatch as (h & c & [[Halg Hec]|[Halg Hrsa]]).
  - destruct key as [kc x y|n e]; [|done]. exists (EcdsaKey kc x y), sig, h.
    split; [done|]. split; [done|]. destruct Hk as [Hk1 Hk2]. split; [done|]. split; [done|]. split; [done|].
    unfold verifyECDSA in Hec. destruct (negb (Nat.eqb _ _)); [done|].
    destruct (ecdsa_Verify _ _ _ _ _ _) eqn:E; [|done]. eauto.
  - destruct key as [kc x y|n e]; [done|]. exists (RsaKey n e), sig, h.
    split; [done|]. split; [done|]. destruct Hk as [Hk1 Hk2]. split; [done|]. split; [done|]. split; [done|].
    unfold verifyRSAPKCS1v15 in Hrsa. by destruct (rsa_Verify _ _ _ _ _).
Qed.

(** ** Nonces live between one and two windows *)

Lemma window_of_div n now : 0 <= now -> int64_ok now -> 0 < np_window n -> window_of n now = now / np_window n.
Proof.
  intros Hn Hi Hw. unfold window_of, UnixNano. rewrite wrap64_id by done.
  rewrite Z.quot_div_nonneg by lia. done.
Qed.

(** The lifetime of a server nonce.  The nonce that [Current] returns at
    [t] is accepted by [Valid], on every instance that shares secret and
    window, until at least one window after [t]; and whatever [Valid] accepts
    at [now] is the value [Current] had at some instant less than two windows
    before [now] (instants from 1970 to 2262). *)
Theorem nonce_lifetime n t now nonce :
  0 < np_window n -> np_window n <= t -> t <= now -> int64_ok now ->
  (now <= t + np_window n -> Valid_at n now (Current_at n t) = true) /\
  (Valid_at n now nonce = true ->
   exists t', now - 2 * np_window n < t' <= now /\ nonce = Current_at n t').
Proof.
  intros Hw Ht Hle Hnow.
  assert (Hti : int64_ok t) by (unfold int64_ok in *; unfold min_int64 in *; lia).
  assert (Hq : 1 <= now / np_window n) by (apply Z.div_le_lower_bound; lia).
  assert (Hprev : wrap64 (window_of n now - 1) = now / np_window n - 1).
  { rewrite window_of_div by (done || lia). apply wrap64_id.
    pose proof (Z.div_le_upper_bound now (np_window n) now Hw ltac:(nia)).
    unfold int64_ok, min_int64 in *. lia. }
  unfold Valid_at, Current_at. rewrite Hprev, !window_of_div by (done || lia).
  split.
  - intros Hwin. apply orb_true_iff. rewrite !hmac_Equal_spec.
    assert (t / np_window n = now / np_window n \/ t / np_window n = now / np_window n - 1) as [-> | ->];
      [|by left|by right].
    pose proof (Z.div_le_mono t now (np_window n) Hw Hle).
    pose proof (Z.div_le_mono now (t + 1 * np_window n) (np_window n) Hw ltac:(lia)) as Hup.
    rewrite Z.div_add in Hup by lia. lia.
  - pose proof (Z.div_mod now (np_window n) ltac:(lia)) as Hdm.
    pose proof (Z.mod_pos_bound now (np_window n) Hw).
    rewrite orb_true_iff, !hmac_Equal_spec. intros [-> | ->].
    + exists now. split; [lia|]. by rewrite window_of_div by (done || lia).
    + exists (now - np_window n). split; [lia|].
      rewrite window_of_div; [|lia| |done].
      * f_equal. replace (now - np_window n) with (now + (-1) * np_window n) by lia.
        rewrite Z.div_add by lia. lia.
      * unfold int64_ok, min_int64 in *. lia.
Qed.

Definition demo_nonces : NonceProvider := NewNonceProvider "nonce-secret" 0.

Example nonce_lifetime_witness :
  Valid_at demo_nonces (1700000300 * Second) (Current_at demo_nonces (1700000000 * Second)) = true.
Proof.
  apply (nonce_lifetime demo_nonces (1700000000 * Second) (1700000300 * Second) EmptyString);
    vm_compute; try reflexivity; try (split; discriminate); discriminate.
Defined.

(** ** The thumbprint identifies the key *)

Lemma Ok_inj {A} (a b : A) : Ok a = Ok b -> a = b.
Proof. congruence. Qed.

Section ThumbprintBinding.
Context {U : Unicode}.

(** The members of two keys that serialize alike. *)
Lemma thumbprint_body_inj j1 j2 ms first b :
  (forall m, m ∈ ms -> is_ascii (jwk_string j1 m) = true /\ is_ascii (jwk_string j2 m) = true) ->
  thumbprint_body j1 first ms = Ok b -> thumbprint_body j2 first ms = Ok b ->
  forall m, m ∈ ms -> jwk_string j1 m = jwk_string j2 m.
Proof.
  revert first b. induction ms as [|m ms IH]; intros first b Hasc H1 H2 m' Hin; [by apply elem_of_nil in Hin|].
  cbn [thumbprint_body] in H1, H2.
  destruct (String.eqb (jwk_string j1 m) EmptyString); [done|].
  destruct (String.eqb (jwk_string j2 m) EmptyString); [done|].
  destruct (thumbprint_body j1 false ms) as [t1|] eqn:E1; [|done].
  destruct (thumbprint_body j2 false ms) as [t2|] eqn:E2; [|done].
  rewrite <- H1 in H2. apply Ok_inj in H2.
  apply str_app_inj_l, str_app_inj_l, str_app_inj_l in H2.
  rewrite !json_quote_eq, !str_app_cons, !str_app_assoc in H2. injection H2 as H2.
  destruct (Hasc m ltac:(by left)) as [A1 A2].
  set (f := (1 + String.length (jwk_string j1 m) + String.length (jwk_string j2 m))%nat).
  pose proof (parse_str_json_escape (jwk_string j1 m) t1 f A1 ltac:(lia)) as P1.
  pose proof (parse_str_json_escape (jwk_string j2 m) t2 f A2 ltac:(lia)) as P2.
  change (str1 dquote +:+ t1) with (String dquote t1) in H2.
  change (str1 dquote +:+ t2) with (String dquote t2) in H2.
  rewrite <- H2, P2 in P1. injection P1 as Hm Ht. 
  apply elem_of_cons in Hin as [->|Hin]; [done|].
  apply (IH false t1); try done.
  - intros m0 Hm0. apply Hasc. by right.
  - by rewrite E2, Ht.
Qed.

Lemma thumbprint_kty j b :
  JWKThumbprint j = Ok b ->
  exists ms body, thumbprint_members (jwk_string j "kty") = Some ms /\
    thumbprint_body j true ms = Ok body /\ b = RawURLEncode (sha256 ("{" +:+ body)).
Proof.
  unfold JWKThumbprint. destruct (thumbprint_members _) as [ms|]; [|done].
  destruct (thumbprint_body j true ms) as [body|] eqn:E; [|done]. intros [= <-]. eauto.
Qed.

Lemma RawURLEncode_inj s t : RawURLEncode s = RawURLEncode t -> s = t.
Proof.
  intros H. apply (f_equal RawURLDecode) in H. unfold RawURLDecode, RawURLEncode in H.
  rewrite !b64_decode_encode in H. by injection H.
Qed.
End ThumbprintBinding.

Definition sha256_collision : Prop := exists s t, s <> t /\ sha256 s = sha256 t.

(** Key binding.  If [VerifyDPoPBinding] accepts a proof for a token whose
    [cnf.jkt] is the thumbprint of a key [jwk] of the same type, then the
    proof's key has the same required members as [jwk] (coordinates, modulus,
    exponent, curve), or SHA-256 has a collision.  Optional members of the JWK
    play no role. *)
Theorem VerifyDPoPBinding_same_key {U : Unicode} p claims jwk thumb ms :
  JWKThumbprint jwk = Ok thumb ->
  cl_Confirmation claims = Some (MkConfirmation thumb) ->
  jwk_string (pf_JWK p) "kty" = jwk_string jwk "kty" ->
  thumbprint_members (jwk_string jwk "kty") = Some ms ->
  (forall m, m ∈ ms -> is_ascii (jwk_string (pf_JWK p) m) = true /\ is_ascii (jwk_string jwk m) = true) ->
  VerifyDPoPBinding p claims = None ->
  (forall m, m ∈ ms -> jwk_string (pf_JWK p) m = jwk_string jwk m) \/ sha256_collision.
Proof.
  intros Hthumb Hcnf Hkty Hms Hasc. unfold VerifyDPoPBinding. rewrite Hcnf. cbn [cnf_JKT].
  destruct (String.eqb thumb EmptyString); [done|]. unfold Thumbprint.
  destruct (JWKThumbprint (pf_JWK p)) as [tp|] eqn:Htp; [|done].
  destruct (hmac_Equal tp thumb) eqn:He; [|done]. intros _.
  apply hmac_Equal_spec in He as ->.
  apply thumbprint_kty in Hthumb as (ms1 & b1 & M1 & B1 & ->).
  apply thumbprint_kty in Htp as (ms2 & b2 & M2 & B2 & Heq).
  rewrite Hkty, Hms in M2. rewrite Hms in M1. injection M1 as <-. injection M2 as <-.
  apply RawURLEncode_inj in Heq.
  destruct (decide (b1 = b2)) as [->|Hne].
  - left. intros m Hm. by apply (thumbprint_body_inj _ _ ms true b2).
  - right. exists ("{" +:+ b1), ("{" +:+ b2). split; [|done]. intros H. by injection H.
Qed.

(** ** Concrete proofs *)

(** The base point of P-256 as a public key, and a primitive that accepts. *)
Definition demo_jwk : option (gmap string goval) :=
  Some (list_to_map [("kty", GString "EC"); ("crv", GString "P-256");
    ("x", GString "axfR8uEsQkf4vOblY6RA8ncDfYEt6zOg9KE5RdiYwpY");
    ("y", GString "T-NC4v4af5uO5-tKfA-eFivOM1drMV7Oy7ZAaDe_UfU"); ("kid", GString "k1")]).

Definition accept_all : Signatures :=
  {| ecdsa_Verify _ _ _ _ _ _ := true; rsa_Verify _ _ _ _ _ := true |}.

Definition demo_jwt (iat : Z) (token : string) : string :=
  let jwk := json_object [("kty", json_quote "EC"); ("crv", json_quote "P-256");
    ("x", json_quote "axfR8uEsQkf4vOblY6RA8ncDfYEt6zOg9KE5RdiYwpY");
    ("y", json_quote "T-NC4v4af5uO5-tKfA-eFivOM1drMV7Oy7ZAaDe_UfU")] in
  RawURLEncode (json_object [("alg", json_quote "ES256"); ("typ", json_quote "dpop+jwt"); ("jwk", jwk)])
  +:+ "." +:+
  RawURLEncode (json_object [("jti", json_quote "j-1"); ("htm", json_quote "POST");
    ("htu", json_quote "https://bank.example/api/pay"); ("iat", fmt_d iat);
    ("ath", json_quote (hashTokenForDPoP token))])
  +:+ "." +:+ RawURLEncode (Repeat "ab" 32).

Definition demo_dpop_request : Request :=
  MkRequest "POST" "/api/pay" "" "/api/pay" "/api/pay" "bank.example" true "10.0.0.1:999"
    (Header_Set ∅ "DPoP" (demo_jwt 1000 "tok")) [] (Some EmptyString).

Definition dpop_world : world MemoryCache :=
  World (fun n => (1010 + Z.of_nat n) * Second) 0 Memory.NewMemoryCache.

(** Refused on the second try, and again after a token was cached. *)
Example DPoP_no_replay_witness :
  let run := Validate (U := unicode_min) (Sig := accept_all) DefaultDPoPConfig demo_dpop_request "tok" in
  let w1 := (run dpop_world).2 in
  let w2 := (cache_Set "token-hash" empty_claims (30 * Second) (run w1).2).2 in
  is_ok (run dpop_world).1 = true /\ exists e, (run w2).1 = Err e.
Proof.
  intros run w1 w2. split; [vm_compute; reflexivity|].
  destruct (run dpop_world) as [[p|e] w1'] eqn:E; [|exfalso; vm_compute in E; discriminate E].
  apply (DPoP_no_replay (U := unicode_min) (Sig := accept_all) DefaultDPoPConfig demo_dpop_request demo_dpop_request
           "tok" "tok" p dpop_world w1 w2).
  - intros i j Hij. unfold dpop_world, Second. cbn. lia.
  - exact I.
  - exact I.
  - vm_compute. split; reflexivity.
  - exact E.
  - apply (rtc_l _ w1 (run w1).2); [apply meanwhile_validate|]. apply rtc_once, meanwhile_set.
    + vm_compute in E. injection E as <- _. vm_compute. discriminate.
    + exact I.
    + reflexivity.
  - reflexivity.
  - vm_compute in E. injection E as <- <-. vm_compute. reflexivity.
Defined.

Example proof_signature_sound_witness :
  match parseDPoPJWT (U := unicode_min) (demo_jwt 1000 "tok") with
  | Ok p => exists key sig, PublicKeyFromJWK (U := unicode_min) (pf_JWK p) = Ok key /\
      RawURLDecode (nth 2 (Split (demo_jwt 1000 "tok") ".") EmptyString) = Some sig
  | Err _ => False
  end.
Proof.
  destruct (parseDPoPJWT (U := unicode_min) (demo_jwt 1000 "tok")) as [p|e] eqn:E;
    [|vm_compute in E; discriminate E].
  destruct (proof_signature_sound (U := unicode_min) (Sig := accept_all) (demo_jwt 1000 "tok") p)
    as (key & sig & hash & H1 & H2 & _).
  - vm_compute in E. injection E as <-. vm_compute. reflexivity.
  - exists key, sig. by split.
Defined.

Definition demo_proof : DPoPProof :=
  MkProof "ES256" demo_jwk "j-1" "POST" "https://bank.example/api/pay" 0 "" "".

Example VerifyDPoPBinding_same_key_witness :
  let p := demo_proof in
  match JWKThumbprint (U := unicode_min) demo_jwk with
  | Ok thumb =>
      (forall m, m ∈ ["crv"; "kty"; "x"; "y"] -> jwk_string (pf_JWK p) m = jwk_string demo_jwk m) \/
      sha256_collision
  | Err _ => False
  end.
Proof.
  intros p. destruct (JWKThumbprint (U := unicode_min) demo_jwk) as [thumb|e] eqn:E;
    [|vm_compute in E; discriminate E].
  set (claims := MkClaims "" "" [] "" 0 0 (Some (MkConfirmation thumb)) "" [] "" 0 "" "" [] [] "" [] None true).
  apply (VerifyDPoPBinding_same_key (U := unicode_min) p claims demo_jwk thumb).
  - exact E.
  - reflexivity.
  - reflexivity.
  - reflexivity.
  - intros m Hm. repeat (apply elem_of_cons in Hm as [->|Hm]; [split; vm_compute; reflexivity|]).
    destruct (not_elem_of_nil m Hm).
  - unfold VerifyDPoPBinding, Thumbprint. cbn [cl_Confirmation claims cnf_JKT pf_JWK p demo_proof].
    rewrite E. destruct (String.eqb_spec thumb EmptyString) as [->|_]; [vm_compute in E; discriminate E|].
    by rewrite (proj2 (hmac_Equal_spec thumb thumb) eq_refl).
Defined.
