(* ===== verification/Concurrent.v ===== *)
(** * Requests in parallel: the token cache under interleaving

    [net/http] runs every request on a goroutine of its own.  The operations
    of [MemoryCache] hold its lock and are atomic; what is built from several
    of them (the cached introspection of [cache.go], the index and the webhook
    of [revocation.go], the replay check of [dpop.go]) is not.  Here those
    routines are programs of atomic operations, which a pool of goroutines
    interleaves; run alone, they are the routines of [Revocation] and [Dpop]. *)

From S2P Require Import Prelude GoString GoTime Encoding Crypto Json TextLemmas TimeText Http Rar Claims Effects Cache Revocation Dpop.
Open Scope Z_scope.

(** ** Programs of atomic operations *)

Inductive prog (A : Type) : Type :=
| Ret (a : A)
| ReadClock (k : Time -> prog A)
| CacheGet (key : string) (k : option CommonClaims -> prog A)
| CacheSet (key : string) (c : CommonClaims) (ttl : Duration) (k : option error -> prog A)
| CacheDelete (key : string) (k : option error -> prog A)
| Ask (token : string) (k : res CommonClaims -> prog A).
Arguments Ret {A} _.
Arguments ReadClock {A} _.
Arguments CacheGet {A} _ _.
Arguments CacheSet {A} _ _ _ _.
Arguments CacheDelete {A} _ _.
Arguments Ask {A} _ _.

Fixpoint prog_bind {A B} (f : A -> prog B) (p : prog A) : prog B :=
  match p with
  | Ret a => f a
  | ReadClock k => ReadClock (fun t => prog_bind f (k t))
  | CacheGet key k => CacheGet key (fun r => prog_bind f (k r))
  | CacheSet key c ttl k => CacheSet key c ttl (fun e => prog_bind f (k e))
  | CacheDelete key k => CacheDelete key (fun e => prog_bind f (k e))
  | Ask tok k => Ask tok (fun r => prog_bind f (k r))
  end.
#[export] Instance prog_ret : MRet prog := @Ret.
#[export] Instance prog_mbind : MBind prog := fun A B f p => prog_bind f p.

(** *** The routines *)

Definition p_get (key : string) : prog (option CommonClaims) := CacheGet key Ret.
Definition p_set (key : string) (c : CommonClaims) (ttl : Duration) : prog (option error) := CacheSet key c ttl Ret.
Definition p_delete (key : string) : prog (option error) := CacheDelete key Ret.

Definition p_indexHashes (key : string) : prog (list string) :=
  entry ← p_get key; mret (match entry with Some e => hashes_of e | None => [] end).

Definition p_appendIndexHash (key tokenHash : string) (ttl : Duration) : prog unit :=
  hashes ← p_indexHashes key;
  if existsb (fun h => String.eqb h tokenHash) hashes then mret tt else
  _ ← p_set key (index_entry (hashes ++ [tokenHash])) ttl;
  mret tt.

Definition p_append_if (prefix v tokenHash : string) (ttl : Duration) : prog unit :=
  if String.eqb v EmptyString then mret tt else p_appendIndexHash (prefix +:+ v) tokenHash ttl.

Definition p_IndexClaims (tokenHash : string) (claims : CommonClaims) (ttl : Duration) : prog unit :=
  if String.eqb tokenHash EmptyString || (ttl <=? 0) then mret tt else
  _ ← (if String.eqb (cl_JTI claims) EmptyString then mret tt else
       _ ← p_set (jtiIndexPrefix +:+ cl_JTI claims) (index_entry [tokenHash]) ttl; mret tt);
  _ ← p_append_if subIndexPrefix (cl_Subject claims) tokenHash ttl;
  p_append_if sidIndexPrefix (cl_SessionID claims) tokenHash ttl.

Definition p_cache_claims (ttl0 : Duration) (key : string) (claims : CommonClaims) : prog unit :=
  if negb (cl_Active claims) then mret tt else
  ttl ← (if IsZero (cl_ExpiresAt claims) then mret ttl0 else
         ReadClock (fun now =>
           let remaining := time_Until now (cl_ExpiresAt claims) in
           mret (if remaining <? ttl0 then remaining else ttl0)));
  if 0 <? ttl then _ ← p_set key claims ttl; p_IndexClaims key claims ttl else mret tt.

(** [CachedIntrospector.Introspect] *)
Definition p_introspect (ttl : Duration) (token : string) : prog (res CommonClaims) :=
  cached ← p_get (HashToken token);
  match cached with
  | Some claims => mret (Ok claims)
  | None =>
      answer ← Ask token Ret;
      match answer with
      | Err e => mret (Err e)
      | Ok claims => _ ← p_cache_claims ttl (HashToken token) claims; mret (Ok claims)
      end
  end.

Fixpoint p_delete_each (firstErr : option error) (hashes : list string) : prog (option error) :=
  match hashes with
  | [] => mret firstErr
  | hash :: rest => err ← p_delete hash; p_delete_each (first_err firstErr err) rest
  end.

Definition p_deleteIndexedTokens (key : string) : prog (option error) :=
  hashes ← p_indexHashes key;
  firstErr ← p_delete_each None hashes;
  err ← p_delete key;
  mret (first_err firstErr err).

(** [RevocationHandler.process] *)
Definition p_process (event : RevocationEvent) : prog (option error) :=
  if negb (String.eqb (ev_TokenHash event) EmptyString) then p_delete (ev_TokenHash event)
  else if negb (String.eqb (ev_JTI event) EmptyString) then
    hashes ← p_indexHashes (jtiIndexPrefix +:+ ev_JTI event);
    match head hashes with
    | Some h => _ ← p_delete (jtiIndexPrefix +:+ ev_JTI event); p_delete h
    | None => p_delete (ev_JTI event)
    end
  else if negb (String.eqb (ev_SessionID event) EmptyString) then
    p_deleteIndexedTokens (sidIndexPrefix +:+ ev_SessionID event)
  else if ev_RevokeAll event && negb (String.eqb (ev_Subject event) EmptyString) then
    p_deleteIndexedTokens (subIndexPrefix +:+ ev_Subject event)
  else mret (Some (errorf "revocation event has no identifiable token reference")).

(** The replay check of [DPoPValidator.Validate], once a proof is valid. *)
Definition p_check_replay (cfg : DPoPConfig) (proof : DPoPProof) : prog (res DPoPProof) :=
  let key := dpopJTIPrefix +:+ pf_JTI proof in
  seen ← p_get key;
  match seen with
  | Some _ => mret (Err ErrDPoPReplay)
  | None => _ ← p_set key empty_claims (dc_MaxAge cfg); mret (Ok proof)
  end.

(** ** Run alone *)

Section Run.
Context {S : Type} `{!Cache S}.
(** The answers of the authorization server. *)
Variable inner : string -> res CommonClaims.

Fixpoint run {A} (p : prog A) : M S A :=
  match p with
  | Ret a => mret a
  | ReadClock k => now ← Now; run (k now)
  | CacheGet key k => r ← cache_Get key; run (k r)
  | CacheSet key c ttl k => e ← cache_Set key c ttl; run (k e)
  | CacheDelete key k => e ← cache_Delete key; run (k e)
  | Ask tok k => run (k (inner tok))
  end.

Lemma M_bind_ext {A B} (m m' : M S A) (f f' : A -> M S B) w :
  (forall w, m w = m' w) -> (forall a w, f a w = f' a w) -> mbind f m w = mbind f' m' w.
Proof. intros Hm Hf. unfold mbind, M_bind. rewrite Hm. destruct (m' w) as [a w']. apply Hf. Qed.

Lemma M_bind_assoc {A B C} (m : M S A) (f : A -> M S B) (g : B -> M S C) w :
  mbind g (mbind f m) w = mbind (fun a => mbind g (f a)) m w.
Proof. unfold mbind, M_bind. by destruct (m w). Qed.

Lemma run_bind {A B} (f : A -> prog B) p w : run (p ≫= f) w = (run p ≫= fun a => run (f a)) w.
Proof.
  revert w. induction p as [a|k IH|key k IH|key c ttl k IH|key k IH|tok k IH]; intros w; cbn [run];
    [done|..|apply IH]; rewrite M_bind_assoc; apply M_bind_ext; try done; intros; apply IH.
Qed.

(** Match a program with the routine it stands for, call by call. *)
Ltac run_same :=
  repeat first
    [ done
    | rewrite run_bind; apply M_bind_ext; intros
    | match goal with |- context [if ?b then _ else _] => destruct b end
    | match goal with |- context [match ?x with Some _ => _ | None => _ end] => destruct x end ].

Lemma run_get key w : run (p_get key) w = cache_Get key w.
Proof. cbn [p_get run]. unfold mbind, M_bind, mret, M_ret. by destruct (cache_Get key w). Qed.
Lemma run_set key c ttl w : run (p_set key c ttl) w = cache_Set key c ttl w.
Proof. cbn [p_set run]. unfold mbind, M_bind, mret, M_ret. by destruct (cache_Set key c ttl w). Qed.
Lemma run_delete key w : run (p_delete key) w = cache_Delete key w.
Proof. cbn [p_delete run]. unfold mbind, M_bind, mret, M_ret. by destruct (cache_Delete key w). Qed.
#[local] Hint Resolve run_get run_set run_delete : core.

Lemma run_indexHashes key w : run (p_indexHashes key) w = indexHashes key w.
Proof. unfold p_indexHashes, indexHashes. run_same; auto. Qed.
#[local] Hint Resolve run_indexHashes : core.

Lemma run_append_if prefix v h ttl w : run (p_append_if prefix v h ttl) w = append_if prefix v h ttl w.
Proof. unfold p_append_if, append_if, p_appendIndexHash, appendIndexHash. run_same; auto. Qed.
#[local] Hint Resolve run_append_if : core.

Lemma run_IndexClaims h c ttl w : run (p_IndexClaims h c ttl) w = IndexClaims h c ttl w.
Proof. unfold p_IndexClaims, IndexClaims. run_same; auto. Qed.
#[local] Hint Resolve run_IndexClaims : core.

Lemma run_cache_claims ttl key c w : run (p_cache_claims ttl key c) w = cache_claims ttl key c w.
Proof.
  unfold p_cache_claims, cache_claims. destruct (negb _); [done|]. rewrite run_bind.
  apply M_bind_ext; [intros w0; by destruct (IsZero _)|]. intros; run_same; auto.
Qed.
#[local] Hint Resolve run_cache_claims : core.

Lemma run_delete_each err hs w : run (p_delete_each err hs) w = delete_each err hs w.
Proof. revert err w. induction hs as [|h hs IH]; intros; cbn [p_delete_each delete_each]; run_same; auto. Qed.
#[local] Hint Resolve run_delete_each : core.

Lemma run_deleteIndexedTokens key w : run (p_deleteIndexedTokens key) w = deleteIndexedTokens key w.
Proof. unfold p_deleteIndexedTokens, deleteIndexedTokens. run_same; auto. Qed.
#[local] Hint Resolve run_deleteIndexedTokens : core.

Lemma run_introspect ttl tok w : run (p_introspect ttl tok) w = CachedIntrospector_Introspect inner ttl tok w.
Proof.
  unfold p_introspect, CachedIntrospector_Introspect. rewrite run_bind. apply M_bind_ext; [auto|].
  intros [c|] w0; [done|]. rewrite run_bind. cbn [run]. unfold mbind at 1, M_bind at 1, mret at 1, M_ret at 1.
  destruct (inner tok); run_same; auto.
Qed.

Lemma run_process ev w : run (p_process ev) w = process ev w.
Proof.
  unfold p_process, process, lookupIndexHash.
  destruct (negb _); [auto|]. destruct (negb _).
  - rewrite run_bind, M_bind_assoc. apply M_bind_ext; [auto|]. intros hs w0.
    unfold mbind at 2, M_bind at 2, mret at 1, M_ret at 1. destruct (head hs); run_same; auto.
  - run_same; auto.
Qed.

Lemma run_Validate {U : Unicode} {Sig : Signatures} cfg r tok w :
  Validate cfg r tok w =
  (v ← ValidateDPoP r tok cfg;
   match v with
   | Err e => mret (Err e)
   | Ok proof =>
       if String.eqb (pf_JTI proof) EmptyString then mret (Err (errorf "dpop proof missing jti claim"))
       else run (p_check_replay cfg proof)
   end) w.
Proof.
  unfold Validate. apply M_bind_ext; [done|]. intros [p|e] w0; [|done]. destruct (String.eqb _ _); [done|].
  unfold p_check_replay. rewrite run_bind. apply M_bind_ext; [intros; by rewrite run_get|].
  intros [c|] w1; [done|]. rewrite run_bind. apply M_bind_ext; [intros; by rewrite run_set|done].
Qed.
End Run.

(** The programs that are interleaved are the routines.  Run alone, over
    any cache, the program of the cached introspection behaves as
    [CachedIntrospector_Introspect], that of a webhook as [process], and a
    proof is validated by [ValidateDPoP] followed by the replay check. *)
Theorem programs_are_routines {U : Unicode} {Sig : Signatures} {S} `{!Cache S} (inner : string -> res CommonClaims) (w : world S) :
  (forall ttl tok, run inner (p_introspect ttl tok) w = CachedIntrospector_Introspect inner ttl tok w) /\
  (forall ev, run inner (p_process ev) w = process ev w) /\
  (forall cfg r tok, Validate cfg r tok w =
     (v ← ValidateDPoP r tok cfg;
      match v with
      | Err e => mret (Err e)
      | Ok proof =>
          if String.eqb (pf_JTI proof) EmptyString then mret (Err (errorf "dpop proof missing jti claim"))
          else run inner (p_check_replay cfg proof)
      end) w).
Proof.
  split; [intros; apply run_introspect|]. split; [intros; apply run_process|]. intros. apply run_Validate.
Qed.

(** ** Pools of goroutines *)

(** What a goroutine ends with. *)
Inductive event :=
| Introspected (token : string) (r : res CommonClaims)
| Processed (err : option error)
| Proved (r : res DPoPProof).

Abbreviation thread := (prog event) (only parsing).
Abbreviation memory := (world MemoryCache) (only parsing).

Definition introspect_thread (ttl : Duration) (tok : string) : thread :=
  r ← p_introspect ttl tok; mret (Introspected tok r).
Definition webhook_thread (ev : RevocationEvent) : thread := e ← p_process ev; mret (Processed e).
Definition replay_thread (cfg : DPoPConfig) (proof : DPoPProof) : thread :=
  r ← p_check_replay cfg proof; mret (Proved r).

Section Pool.
(** What the authorization server may answer about a token, at the [n]-th
    reading of the clock. *)
Variable provider : nat -> string -> res CommonClaims -> Prop.

(** One atomic operation. *)
Inductive pstep {A} : prog A -> memory -> prog A -> memory -> Prop :=
| step_clock k w : pstep (ReadClock k) w (k (Now w).1) (Now w).2
| step_get key k w : pstep (CacheGet key k) w (k (cache_Get key w).1) (cache_Get key w).2
| step_set key c ttl k w : pstep (CacheSet key c ttl k) w (k (cache_Set key c ttl w).1) (cache_Set key c ttl w).2
| step_delete key k w : pstep (CacheDelete key k) w (k (cache_Delete key w).1) (cache_Delete key w).2
| step_ask tok k w r : provider (w_tick w) tok r -> pstep (Ask tok k) w (k r) w.

Lemma memory_get_run key w :
  cache_Get key w = (Memory.Get (now_of w) key (w_st w), World (w_now w) (1 + w_tick w) (w_st w)).
Proof. done. Qed.
Lemma memory_set_run key c ttl w :
  cache_Set key c ttl w = (None, World (w_now w) (1 + w_tick w) (Memory.Set_ (now_of w) key c ttl (w_st w)).2).
Proof. done. Qed.
Lemma memory_delete_run key w :
  cache_Delete key w = (None, World (w_now w) (1 + w_tick w) (Memory.Delete (now_of w) key (w_st w)).2).
Proof. done. Qed.

(** What the gateway starts: introspections, webhook deliveries, replay
    checks of proofs. *)
Inductive started : thread -> Prop :=
| start_introspect ttl tok : started (introspect_thread ttl tok)
| start_webhook ev : started (webhook_thread ev)
| start_replay cfg proof : started (replay_thread cfg proof).

Definition sweep (w : memory) : memory :=
  World (w_now w) (1 + w_tick w) (Memory.cleanup (now_of w) (w_st w)).

(** A goroutine moves, a request arrives, or [cleanupLoop] goes round. *)
Inductive pool_step : memory * list thread -> memory * list thread -> Prop :=
| pool_move w ts i p p' w' :
    ts !! i = Some p -> pstep p w p' w' -> pool_step (w, ts) (w', <[i := p']> ts)
| pool_start w ts p : started p -> pool_step (w, ts) (w, (ts ++ [p])%list)
| pool_sweep w ts : pool_step (w, ts) (sweep w, ts).

Definition pool_reaches := rtc pool_step.

(** ** Reasoning about one goroutine at a time

    A rely-guarantee logic: a goroutine relies on what reads ([rd]) and the
    authorization server ([an]) may yield, guarantees what it writes ([wr]),
    and ends in [Q].  The keys with a colon, of indexes and proofs, are free
    for all. *)
Section Logic.
Variable rd : string -> option CommonClaims -> Prop.
Variable wr : string -> CommonClaims -> Prop.
Variable an : string -> res CommonClaims -> Prop.
Hypothesis wr_free : forall p q c, wr (p +:+ String ":" q) c.

Fixpoint good {A} (Q : A -> Prop) (p : prog A) : Prop :=
  match p with
  | Ret a => Q a
  | ReadClock k => forall t, good Q (k t)
  | CacheGet key k => forall r, rd key r -> good Q (k r)
  | CacheSet key c ttl k => wr key c /\ forall e, good Q (k e)
  | CacheDelete key k => forall e, good Q (k e)
  | Ask tok k => forall r, an tok r -> good Q (k r)
  end.

Lemma good_bind {A B} (f : A -> prog B) Q p : good (fun a => good Q (f a)) p -> good Q (p ≫= f).
Proof.
  unfold mbind, prog_mbind. induction p as [a|k IH|key k IH|key c ttl k IH|key k IH|tok k IH];
    cbn [good prog_bind]; intros H; [exact H|eauto..]. destruct H. eauto.
Qed.

Lemma good_mono {A} (Q Q' : A -> Prop) p : (forall a, Q a -> Q' a) -> good Q p -> good Q' p.
Proof.
  intros HQ. induction p as [a|k IH|key k IH|key c ttl k IH|key k IH|tok k IH];
    cbn [good]; intros H; eauto. destruct H. eauto.
Qed.

Lemma good_seq {A B} (f : A -> prog B) Q p :
  good (fun _ => True) p -> (forall a, good Q (f a)) -> good Q (p ≫= f).
Proof. intros Hp Hf. apply good_bind. eapply good_mono; [|exact Hp]. intros a _. apply Hf. Qed.

Lemma good_set key c ttl : wr key c -> good (fun _ => True) (p_set key c ttl).
Proof. by split. Qed.

Lemma wr_index v c :
  wr (jtiIndexPrefix +:+ v) c /\ wr (subIndexPrefix +:+ v) c /\ wr (sidIndexPrefix +:+ v) c /\ wr (dpopJTIPrefix +:+ v) c.
Proof using wr_free.
  repeat split; [apply (wr_free "idx" ("jti:" +:+ v))|apply (wr_free "idx" ("sub:" +:+ v))
                |apply (wr_free "idx" ("sid:" +:+ v))|apply (wr_free "dpop" ("jti:" +:+ v))].
Qed.

Lemma good_append_if prefix v h ttl :
  (forall c, wr (prefix +:+ v) c) -> good (fun _ => True) (p_append_if prefix v h ttl).
Proof.
  intros Hw. unfold p_append_if, p_appendIndexHash. destruct (String.eqb _ _); [done|].
  apply good_seq; [by cbn|]. intros hs. destruct (existsb _ _); [done|]. by apply good_seq; [apply good_set|].
Qed.

Lemma good_IndexClaims h c ttl : good (fun _ => True) (p_IndexClaims h c ttl).
Proof using wr_free.
  unfold p_IndexClaims. destruct (_ || _); [done|]. apply good_seq.
  - destruct (String.eqb _ _); [done|]. apply good_seq; [|done]. apply good_set, wr_index.
  - intros _. apply good_seq; [|intros _]; apply good_append_if; intros; apply wr_index.
Qed.

Lemma good_cache_claims ttl key c :
  (cl_Active c = true -> wr key c) -> good (fun _ => True) (p_cache_claims ttl key c).
Proof using wr_free.
  intros Hw. unfold p_cache_claims. destruct (cl_Active c); [|done]. cbn [negb].
  apply good_seq; [by destruct (IsZero _)|]. intros ttl'. destruct (0 <? ttl'); [|done].
  apply good_seq; [by apply good_set, Hw|]. intros _. apply good_IndexClaims.
Qed.

Lemma good_p_introspect (Q : res CommonClaims -> Prop) ttl tok :
  (forall c, rd (HashToken tok) (Some c) -> Q (Ok c)) ->
  (forall r, an tok r -> Q r) ->
  (forall c, an tok (Ok c) -> cl_Active c = true -> wr (HashToken tok) c) ->
  good Q (p_introspect ttl tok).
Proof using wr_free.
  intros Hr Ha Hw. unfold p_introspect. apply good_bind. cbn [p_get good].
  intros [c|] Hc; cbn [good]; [by apply Hr|]. apply good_bind. cbn [good]. intros [c|e] Hp; [|by apply Ha].
  apply good_seq; [apply good_cache_claims; auto|]. intros _. by apply Ha.
Qed.

Lemma good_introspect Q ttl tok :
  (forall c, rd (HashToken tok) (Some c) -> Q (Introspected tok (Ok c))) ->
  (forall r, an tok r -> Q (Introspected tok r)) ->
  (forall c, an tok (Ok c) -> cl_Active c = true -> wr (HashToken tok) c) ->
  good Q (introspect_thread ttl tok).
Proof using wr_free.
  intros Hr Ha Hw. unfold introspect_thread. apply good_bind.
  by apply good_p_introspect.
Qed.

Lemma good_delete_each err hs : good (fun _ => True) (p_delete_each err hs).
Proof. revert err. induction hs as [|h hs IH]; intros err; [done|]. cbn. intros e. apply IH. Qed.

Lemma good_deleteIndexedTokens key : good (fun _ => True) (p_deleteIndexedTokens key).
Proof.
  unfold p_deleteIndexedTokens. apply good_seq; [by cbn|]. intros hs.
  apply good_seq; [apply good_delete_each|]. by cbn.
Qed.

Lemma good_process ev : good (fun _ => True) (p_process ev).
Proof.
  unfold p_process. destruct (negb _); [done|]. destruct (negb _).
  { apply good_seq; [by cbn|]. intros hs. by destruct (head hs). }
  destruct (negb _); [apply good_deleteIndexedTokens|]. destruct (_ && _); [apply good_deleteIndexedTokens|done].
Qed.

Lemma good_webhook (Q : event -> Prop) ev : (forall e, Q (Processed e)) -> good Q (webhook_thread ev).
Proof. intros HQ. unfold webhook_thread. apply good_seq; [apply good_process|exact HQ]. Qed.

(** The replay check ends with the proof it was given. *)
Lemma good_check_replay (Q : res DPoPProof -> Prop) cfg proof :
  Q (Ok proof) -> (forall e, Q (Err e)) -> good Q (p_check_replay cfg proof).
Proof using wr_free.
  intros Hok Herr. unfold p_check_replay. apply good_bind. cbn [p_get good]. intros [c|] _; [by apply Herr|].
  apply good_seq; [|done]. apply good_set, wr_index.
Qed.

Lemma good_replay (Q : event -> Prop) cfg proof : (forall r, Q (Proved r)) -> good Q (replay_thread cfg proof).
Proof using wr_free. intros HQ. unfold replay_thread. apply good_bind. apply good_check_replay; intros; apply HQ. Qed.

(** What one operation does, if the state meets what the goroutine relies
    on. *)
Lemma pstep_good {A} (Q : A -> Prop) p w p' w' :
  pstep p w p' w' -> good Q p ->
  (forall key, rd key (Memory.Get (now_of w) key (w_st w))) ->
  (forall tok r, provider (w_tick w) tok r -> an tok r) ->
  good Q p' /\ (w_tick w <= w_tick w')%nat /\
  (w_st w' = w_st w \/
   exists key, w_st w' = (Memory.Delete (now_of w) key (w_st w)).2 \/
     exists c ttl, wr key c /\ w_st w' = (Memory.Set_ (now_of w) key c ttl (w_st w)).2).
Proof.
  intros Hs. destruct Hs as [k w|key k w|key c ttl k w|key k w|tok k w r Hr]; intros Hg Hrd Han; cbn [good] in Hg.
  - split; [apply Hg|]. split; [cbn; lia|by left].
  - rewrite memory_get_run. split; [by apply Hg|]. split; [cbn; lia|by left].
  - rewrite memory_set_run. destruct Hg as [Hk Hg]. split; [apply Hg|]. split; [cbn; lia|]. right. exists key. right. by exists c, ttl.
  - rewrite memory_delete_run. split; [apply Hg|]. split; [cbn; lia|]. right. exists key. by left.
  - split; [|split; [done|by left]]. apply Hg. by apply Han.
Qed.
End Logic.

Lemma good_weaken {A} (rd rd' : string -> option CommonClaims -> Prop) (wr wr' : string -> CommonClaims -> Prop)
    (an an' : string -> res CommonClaims -> Prop) (Q Q' : A -> Prop) p :
  (forall k r, rd' k r -> rd k r) -> (forall k c, wr k c -> wr' k c) -> (forall t r, an' t r -> an t r) ->
  (forall a, Q a -> Q' a) -> good rd wr an Q p -> good rd' wr' an' Q' p.
Proof.
  intros Hr Hw Ha HQ. induction p as [a|k IH|key k IH|key c ttl k IH|key k IH|tok k IH];
    cbn [good]; intros H; eauto. destruct H. eauto.
Qed.

(** ** Where cached claims come from

    [tracked] selects keys that are hashes of tokens, [since] a reading of
    the clock: what is cached for a tracked key was answered, active, for a
    token of that hash at [since] or later. *)
Definition answered (since : nat) (tok : string) (r : res CommonClaims) : Prop :=
  exists n, (since <= n)%nat /\ provider n tok r.
Definition genuine (since : nat) (key : string) (c : CommonClaims) : Prop :=
  exists tok, HashToken tok = key /\ answered since tok (Ok c).

Section Genuine.
Variable tracked : string -> Prop.
Variable since : nat.
Hypothesis tracked_hash : forall key, tracked key -> exists tok, key = HashToken tok.

Definition cached_ok (key : string) (c : CommonClaims) : Prop :=
  tracked key -> genuine since key c /\ cl_Active c = true.
Definition read_ok (key : string) (r : option CommonClaims) : Prop := forall c, r = Some c -> cached_ok key c.
Definition ends_ok (ev : event) : Prop :=
  forall tok r, ev = Introspected tok r -> tracked (HashToken tok) ->
  match r with Ok c => genuine since (HashToken tok) c | Err _ => answered since tok r end.

Abbreviation thread_ok := (good read_ok cached_ok (answered since) ends_ok) (only parsing).

Lemma cached_ok_free p q c : cached_ok (p +:+ String ":" q) c.
Proof using tracked_hash. intros (tok & Hk)%tracked_hash. symmetry in Hk. by apply (HashToken_no_colon tok p q) in Hk. Qed.

Lemma started_ok p : started p -> thread_ok p.
Proof using tracked_hash.
  intros [ttl tok|ev|cfg proof].
  - apply good_introspect; [apply cached_ok_free|..].
    + intros c Hc tok' r [= -> <-] Ht. by apply (Hc c eq_refl).
    + intros [c|e] Ha tok' r' [= -> <-] Ht; [by exists tok'|exact Ha].
    + intros c Ha Hact Ht. split; [|done]. by exists tok.
  - by apply good_webhook.
  - apply good_replay; [apply cached_ok_free|done].
Qed.

Definition pool_ok (s : memory * list thread) : Prop :=
  (forall key e, mc_entries (w_st s.1) !! key = Some e -> cached_ok key (me_claims e)) /\
  (since <= w_tick s.1)%nat /\ Forall thread_ok s.2.

Lemma read_ok_memory w key :
  (forall key e, mc_entries (w_st w) !! key = Some e -> cached_ok key (me_claims e)) ->
  read_ok key (Memory.Get (now_of w) key (w_st w)).
Proof.
  intros Hc c. unfold Memory.Get. destruct (mc_entries (w_st w) !! key) as [e|] eqn:E; [|done].
  destruct (time_After _ _); [done|]. intros [= <-]. by apply Hc.
Qed.

Lemma pool_step_ok s s' : pool_step s s' -> pool_ok s -> pool_ok s'.
Proof using tracked_hash.
  intros Hs (Hc & Hn & Hf). destruct Hs as [w ts i p p' w' Hi Hp|w ts p Hp|w ts]; cbn [fst snd] in *.
  - destruct (pstep_good _ _ _ _ _ _ _ _ Hp (proj1 (Forall_lookup _ _) Hf i p Hi)) as (Hg & Ht & Hst).
    + intros key. by apply read_ok_memory.
    + intros tok r Hr. by exists (w_tick w).
    + split; [|split; [cbn; lia|by apply Forall_insert]]. cbn [fst snd].
      destruct Hst as [->|(key & [->|(c & ttl & Hw & ->)])]; [exact Hc|..]; intros key' e.
      * cbn. intros [_ E]%lookup_delete_Some. by apply (Hc key').
      * cbn. intros [[-> <-]|[_ E]]%lookup_insert_Some; [exact Hw|by apply (Hc key')].
  - split; [done|]. split; [done|]. apply Forall_app. split; [done|]. constructor; [by apply started_ok|done].
  - split; [|split; [cbn; lia|done]]. intros key e. cbn. intros [E _]%map_lookup_filter_Some. by apply (Hc key).
Qed.

Lemma pool_reaches_ok s s' : pool_reaches s s' -> pool_ok s -> pool_ok s'.
Proof using tracked_hash. induction 1; eauto using pool_step_ok. Qed.
End Genuine.

(** A goroutine, at any point of its work, that does not introspect a token
    with the hash of [tok]. *)
Inductive other_than (tok : string) : thread -> Prop :=
| other_introspect ttl tok' : HashToken tok' <> HashToken tok -> other_than tok (introspect_thread ttl tok')
| other_webhook ev : other_than tok (webhook_thread ev)
| other_replay cfg proof : other_than tok (replay_thread cfg proof).
Definition moves (p p' : thread) : Prop := exists w w', pstep p w p' w'.
Definition elsewhere (tok : string) (p : thread) : Prop := exists p0, other_than tok p0 /\ rtc moves p0 p.

Definition keeps_off (tok : string) : thread -> Prop :=
  good (fun _ _ => True) (fun key _ => key <> HashToken tok) (fun _ _ => True)
       (fun ev => forall tok' r, ev = Introspected tok' r -> HashToken tok' <> HashToken tok).

Lemma other_keeps_off tok p : other_than tok p -> keeps_off tok p.
Proof.
  assert (Hfree : forall p q (c : CommonClaims), p +:+ String ":" q <> HashToken tok).
  { intros p' q _ H. symmetry in H. by apply (HashToken_no_colon tok p' q) in H. }
  intros [ttl tok' Hne|ev|cfg proof].
  - apply good_introspect; [exact Hfree|..].
    + by intros c _ t r [= <- _].
    + by intros r' _ t r [= <- _].
    + done.
  - by apply good_webhook.
  - by apply good_replay.
Qed.

Lemma moves_keeps_off tok p p' : rtc moves p p' -> keeps_off tok p -> keeps_off tok p'.
Proof.
  induction 1 as [|p p1 p2 (w & w' & Hs) _ IH]; [done|]. intros H. apply IH.
  by destruct (pstep_good _ _ _ _ _ _ _ _ Hs H) as (Hg & _).
Qed.

Lemma elsewhere_ok tok since p :
  elsewhere tok p ->
  good (read_ok (eq (HashToken tok)) since) (cached_ok (eq (HashToken tok)) since) (answered since)
       (ends_ok (eq (HashToken tok)) since) p.
Proof.
  intros (p0 & Ho & Hm). pose proof (moves_keeps_off tok _ _ Hm (other_keeps_off _ _ Ho)) as H.
  eapply good_weaken; [..|exact H]; [done| |done|].
  - intros k c Hk Heq. by symmetry in Heq.
  - intros ev Hev tok' r E Heq. symmetry in Heq. by apply (Hev tok' r E) in Heq.
Qed.
End Pool.

(** ** Theorems *)

(** C18: Parallel requests share only what the provider answered.  However
    introspections, webhook deliveries, replay checks and cleanups interleave,
    from an empty cache: the claims cached for a token are active claims the
    provider answered for a token with the same hash, and an introspection
    ends with claims the provider answered for such a token, or with an error
    it answered for this very token. *)
Theorem interleaved_introspection_genuine (provider : nat -> string -> res CommonClaims -> Prop) w w' ts :
  mc_entries (w_st w) = ∅ -> pool_reaches provider (w, []) (w', ts) ->
  (forall tok now c, Cache_Get now (HashToken tok) (w_st w') = Some c ->
     cl_Active c = true /\ exists tok' n, HashToken tok' = HashToken tok /\ provider n tok' (Ok c)) /\
  (forall i tok r, ts !! i = Some (Ret (Introspected tok r)) ->
     match r with
     | Ok c => exists tok' n, HashToken tok' = HashToken tok /\ provider n tok' (Ok c)
     | Err e => exists n, provider n tok (Err e)
     end).
Proof.
  intros Hempty Hr. pose (tracked := fun key => exists tok, key = HashToken tok).
  destruct (pool_reaches_ok provider tracked 0 (fun _ H => H) _ _ Hr) as (Hc & _ & Hf).
  { split; [|split; [cbn; lia|constructor]]. cbn. intros key e. by rewrite Hempty, lookup_empty. }
  cbn [fst snd] in *. split.
  - intros tok now c. change (Memory.Get now (HashToken tok) (w_st w') = Some c -> cl_Active c = true /\ exists tok' n, HashToken tok' = HashToken tok /\ provider n tok' (Ok c)).
    unfold Memory.Get.
    destruct (mc_entries (w_st w') !! HashToken tok) as [e|] eqn:E; [|done]. destruct (time_After _ _); [done|].
    intros [= <-]. destruct (Hc _ e E (ex_intro _ tok eq_refl)) as [(tok' & Hh & n & _ & Hp) Ha].
    split; [done|]. by exists tok', n.
  - intros i tok r Hi. pose proof (proj1 (Forall_lookup _ _) Hf i _ Hi) as Hev. cbn [good] in Hev.
    specialize (Hev tok r eq_refl (ex_intro _ tok eq_refl)). destruct r as [c|e].
    + destruct Hev as (tok' & Hh & n & _ & Hp). by exists tok', n.
    + destruct Hev as (n & _ & Hp). by exists n.
Qed.

(** C20: A revocation is final once no introspection of the token is under
    way.  When the cache holds nothing for a token and the goroutines at work
    then are webhooks, replay checks and introspections of other tokens, at
    any point of their work, then whatever happens in parallel afterwards
    every introspection of the token ends with what the provider answered
    after that moment. *)
Theorem revocation_final_when_quiet (provider : nat -> string -> res CommonClaims -> Prop) tok w ts w' ts' i tok' r :
  mc_entries (w_st w) !! HashToken tok = None -> Forall (elsewhere provider tok) ts ->
  pool_reaches provider (w, ts) (w', ts') ->
  ts' !! i = Some (Ret (Introspected tok' r)) -> HashToken tok' = HashToken tok ->
  exists tok2 n, HashToken tok2 = HashToken tok /\ (w_tick w <= n)%nat /\ provider n tok2 r.
Proof.
  intros Hnone Hts Hr Hi Heq.
  destruct (pool_reaches_ok provider (eq (HashToken tok)) (w_tick w) ltac:(intros key <-; by exists tok) _ _ Hr)
    as (_ & _ & Hf).
  { split; [|split; [done|]]; cbn [fst snd].
    - intros key e Hk <-. by rewrite Hnone in Hk.
    - eapply Forall_impl; [exact Hts|]. intros p. apply elsewhere_ok. }
  pose proof (proj1 (Forall_lookup _ _) Hf i _ Hi) as Hev. cbn [good] in Hev.
  specialize (Hev tok' r eq_refl (eq_sym Heq)). destruct r as [c|e].
  - destruct Hev as (tok2 & Hh & n & Hn & Hp). exists tok2, n. split; [congruence|done].
  - destruct Hev as (n & Hn & Hp). by exists tok', n.
Qed.

(** ** Termination *)

(** At most [n] operations to the end. *)
Fixpoint ops_le {A} (n : nat) (p : prog A) {struct p} : Prop :=
  match p with
  | Ret _ => True
  | ReadClock k => match n with O => False | S m => forall t, ops_le m (k t) end
  | CacheGet _ k => match n with O => False | S m => forall r, ops_le m (k r) end
  | CacheSet _ _ _ k | CacheDelete _ k => match n with O => False | S m => forall e, ops_le m (k e) end
  | Ask _ k => match n with O => False | S m => forall r, ops_le m (k r) end
  end.

Lemma ops_le_more {A} n m (p : prog A) : (n <= m)%nat -> ops_le n p -> ops_le m p.
Proof.
  revert n m. induction p as [a|k IH|key k IH|key c ttl k IH|key k IH|tok k IH]; intros [|n] [|m] Hle;
    cbn [ops_le]; try done; try lia; intros H x; (eapply IH; [|apply H]; lia).
Qed.

Lemma ops_le_bind {A B} n m (p : prog A) (f : A -> prog B) :
  ops_le n p -> (forall a, ops_le m (f a)) -> ops_le (n + m) (p ≫= f).
Proof.
  intros Hp Hf. unfold mbind, prog_mbind. revert n Hp.
  induction p as [a|k IH|key k IH|key c ttl k IH|key k IH|tok k IH]; intros n Hp; cbn [ops_le prog_bind] in *;
    [apply (ops_le_more m); [lia|apply Hf]|..]; destruct n as [|n]; try done; intros x; by apply IH.
Qed.

Lemma ops_append_if prefix v h ttl : ops_le 2 (p_append_if prefix v h ttl).
Proof. unfold p_append_if. destruct (String.eqb _ _); [done|]. cbn. intros r. by destruct (existsb _ _). Qed.

(** One read, one question, the clock, the entry and at most five operations
    for the indexes. *)
Lemma ops_p_introspect ttl tok : ops_le 9 (p_introspect ttl tok).
Proof.
  unfold p_introspect. change 9%nat with (1 + 8)%nat. apply ops_le_bind; [by cbn|]. intros [c|]; [done|].
  change 8%nat with (1 + 7)%nat. apply ops_le_bind; [by cbn|]. intros [c|e]; [|done].
  change 7%nat with (7 + 0)%nat. apply ops_le_bind; [|done].
  unfold p_cache_claims. destruct (negb _); [done|]. change 7%nat with (1 + 6)%nat. apply ops_le_bind.
  { by destruct (IsZero _). }
  intros ttl'. destruct (0 <? ttl'); [|done]. change 6%nat with (1 + 5)%nat. apply ops_le_bind; [by cbn|]. intros _.
  unfold p_IndexClaims. destruct (_ || _); [done|]. change 5%nat with (1 + 4)%nat. apply ops_le_bind.
  { by destruct (String.eqb _ _). }
  intros _. change 4%nat with (2 + 2)%nat. apply ops_le_bind; [apply ops_append_if|]. intros _. apply ops_append_if.
Qed.

Lemma ops_introspect ttl tok : ops_le 9 (introspect_thread ttl tok).
Proof.
  unfold introspect_thread. change 9%nat with (9 + 0)%nat. apply ops_le_bind; [apply ops_p_introspect|done].
Qed.

Lemma ops_check_replay cfg proof : ops_le 2 (p_check_replay cfg proof).
Proof. unfold p_check_replay. by intros [c|]. Qed.

Lemma moves_ops provider n p p' : moves provider p p' -> ops_le n p -> exists m, n = S m /\ ops_le m p'.
Proof.
  intros (w & w' & Hs). destruct Hs; destruct n as [|m]; cbn [ops_le]; try done; intros Hx; exists m; eauto.
Qed.

(** Every goroutine ends.  Whatever the others do between its operations,
    no introspection, webhook delivery or replay check goes on for ever or
    waits for another one: at each point it has ended or can make its next
    operation, in any state of the cache; and an introspection ends after at
    most nine operations. *)
Theorem goroutines_finish (provider : nat -> string -> res CommonClaims -> Prop) p :
  (forall n tok, exists r, provider n tok r) -> started p ->
  (~ exists f : nat -> prog event, f 0%nat = p /\ forall n, moves provider (f n) (f (S n))) /\
  (forall p' w, rtc (moves provider) p p' -> (exists ev, p' = Ret ev) \/ exists p2 w2, pstep provider p' w p2 w2) /\
  (forall ttl tok n p', p = introspect_thread ttl tok -> nsteps (moves provider) n p p' -> (n <= 9)%nat).
Proof.
  intros Htotal _. split; [|split].
  - assert (Hwf : forall q, Acc (fun x y => moves provider y x) q).
    { induction q as [a|k IH|key k IH|key c ttl k IH|key k IH|tok k IH]; constructor; intros q' (w & w' & Hs);
        inversion Hs; subst; apply IH. }
    intros (f & Hf & Hm). clear Hf. assert (H : forall q, Acc (fun x y => moves provider y x) q -> forall n, q = f n -> False).
    { induction 1 as [q _ IH]. intros n ->. exact (IH _ (Hm n) (S n) eq_refl). }
    exact (H (f 0%nat) (Hwf _) 0%nat eq_refl).
  - intros p' w _. destruct p' as [a|k|key k|key c ttl k|key k|tok k]; [left; by eexists|right..].
    + eexists _, _. apply step_clock.
    + eexists _, _. apply step_get.
    + eexists _, _. apply step_set.
    + eexists _, _. apply step_delete.
    + destruct (Htotal (w_tick w) tok) as [r Hr]. eexists _, _. by apply step_ask.
  - intros ttl tok n p' -> Hn. pose proof (ops_introspect ttl tok) as Hops. revert Hn Hops.
    generalize (introspect_thread ttl tok) as q. generalize 9%nat as b. clear. intros b q Hn. revert b.
    induction Hn as [q|n q q1 q2 Hm _ IH]; intros b Hb; [lia|].
    destruct (moves_ops _ _ _ _ Hm Hb) as (m & -> & Hm'). pose proof (IH m Hm'). lia.
Qed.

Lemma pool_reaches_trans provider s1 s2 s3 :
  pool_reaches provider s1 s2 -> pool_reaches provider s2 s3 -> pool_reaches provider s1 s3.
Proof. unfold pool_reaches. intros H1 H2. by transitivity s2. Qed.

(** ** Schedules

    An executable scheduler: each number moves that goroutine by one
    operation, with the answers of a function. *)
Section Schedule.
Variable answers : nat -> string -> res CommonClaims.
Definition by_answers (n : nat) (tok : string) (r : res CommonClaims) : Prop := r = answers n tok.

Definition op_exec (p : prog event) (w : world MemoryCache) : option (prog event * world MemoryCache) :=
  match p with
  | Ret _ => None
  | ReadClock k => let '(t, w') := Now w in Some (k t, w')
  | CacheGet key k => let '(r, w') := cache_Get key w in Some (k r, w')
  | CacheSet key c ttl k => let '(e, w') := cache_Set key c ttl w in Some (k e, w')
  | CacheDelete key k => let '(e, w') := cache_Delete key w in Some (k e, w')
  | Ask tok k => Some (k (answers (w_tick w) tok), w)
  end.

Fixpoint exec (schedule : list nat) (s : world MemoryCache * list (prog event)) : world MemoryCache * list (prog event) :=
  match schedule with
  | [] => s
  | i :: rest =>
      exec rest
        (match s.2 !! i ≫= (fun p => op_exec p s.1) with
         | Some (p', w') => (w', <[i := p']> s.2)
         | None => s
         end)
  end.

Lemma op_exec_step p w p' w' : op_exec p w = Some (p', w') -> pstep by_answers p w p' w'.
Proof.
  destruct p as [a|k|key k|key c ttl k|key k|tok k]; cbn [op_exec]; [done|..].
  - intros [= <- <-]. apply (step_clock _ k w).
  - intros [= <- <-]. apply (step_get _ key k w).
  - intros [= <- <-]. apply (step_set _ key c ttl k w).
  - intros [= <- <-]. apply (step_delete _ key k w).
  - intros [= <- <-]. by apply step_ask.
Qed.

Lemma exec_reaches schedule s : pool_reaches by_answers s (exec schedule s).
Proof.
  revert s. induction schedule as [|i rest IH]; intros s; [apply rtc_refl|]. cbn [exec].
  destruct (s.2 !! i ≫= _) as [[p' w']|] eqn:E; [|apply IH].
  eapply rtc_l; [|apply IH]. destruct s as [w ts]. cbn [fst snd] in *.
  destruct (ts !! i) as [p|] eqn:Hi; [|done]. cbn in E. eapply pool_move; [exact Hi|by apply op_exec_step].
Qed.

Lemma start_reaches ps w ts : Forall started ps -> pool_reaches by_answers (w, ts) (w, (ts ++ ps)%list).
Proof.
  revert ts. induction ps as [|p ps IH]; intros ts Hps; [rewrite app_nil_r; apply rtc_refl|].
  apply Forall_cons_1 in Hps as [Hp Hps]. eapply rtc_l; [by apply pool_start|].
  replace (ts ++ p :: ps)%list with ((ts ++ [p]) ++ ps)%list by (by rewrite <- app_assoc). by apply IH.
Qed.
End Schedule.

Section Races.
(** The provider takes a token of Alice's back at the second reading of the
    clock. *)
Definition race_claims (active : bool) : CommonClaims :=
  MkClaims "alice" "https://as" [] EmptyString time_zero time_zero None EmptyString [] EmptyString time_zero
    EmptyString EmptyString [] [] EmptyString [] None active.
Definition race_answers (n : nat) (tok : string) : res CommonClaims := Ok (race_claims (n <? 2)%nat).
Definition race_world : world MemoryCache := World (fun _ => 1000 * Second) 0 Memory.NewMemoryCache.
Definition revoke_tok : RevocationEvent := MkEvent (HashToken "tok") EmptyString EmptyString EmptyString false.
Definition race_started : list (prog event) := [introspect_thread (30 * Second) "tok"; webhook_thread revoke_tok].
(** The first goroutine misses the cache and is answered; the webhook
    deletes; the first goroutine stores its answer. *)
Definition race_revoked := exec race_answers [0; 0; 1]%nat (race_world, race_started).
Definition race_stale :=
  exec race_answers [0; 0; 0; 0; 0; 2]%nat (race_revoked.1, (race_revoked.2 ++ [introspect_thread (30 * Second) "tok"])%list).

(** A revocation can be overtaken.  An introspection that was answered before
    the webhook's deletion stores its answer after it: although the webhook
    has returned without an error and the provider says inactive from then
    on, an introspection started afterwards is answered active. *)
Lemma revocation_overtaken :
  pool_reaches (by_answers race_answers) (race_world, []) race_revoked /\
  race_revoked.2 !! 1%nat = Some (Ret (Processed None)) /\
  (forall n r, (w_tick race_revoked.1 <= n)%nat -> by_answers race_answers n "tok" r -> r = Ok (race_claims false)) /\
  pool_reaches (by_answers race_answers) race_revoked race_stale /\
  race_stale.2 !! 2%nat = Some (Ret (Introspected "tok" (Ok (race_claims true)))).
Proof.
  split; [|split; [vm_compute; reflexivity|split; [|split; [|vm_compute; reflexivity]]]].
  - eapply pool_reaches_trans; [apply (start_reaches _ race_started)|apply exec_reaches].
    repeat constructor.
  - intros n r Hn ->. unfold race_answers. replace (w_tick race_revoked.1) with 2%nat in Hn by (vm_compute; reflexivity).
    by destruct (Nat.ltb_spec n 2); [lia|].
  - eapply pool_reaches_trans; [|apply exec_reaches]. rewrite (surjective_pairing race_revoked) at 1.
    apply start_reaches. repeat constructor.
Qed.

(** Two goroutines can accept the same proof: both look before either of them
    remembers it. *)
Lemma proof_accepted_twice (cfg : DPoPConfig) (proof : DPoPProof) :
  exists s, pool_reaches (by_answers race_answers) (race_world, []) s /\
    s.2 = [Ret (Proved (Ok proof)); Ret (Proved (Ok proof))].
Proof.
  exists (exec race_answers [0; 1; 0; 1]%nat (race_world, [replay_thread cfg proof; replay_thread cfg proof])).
  split; [|reflexivity].
  eapply pool_reaches_trans; [apply (start_reaches _ [replay_thread cfg proof; replay_thread cfg proof])|apply exec_reaches].
  repeat constructor.
Qed.

Definition two_tokens : list (prog event) :=
  [introspect_thread (30 * Second) "tok-a"; introspect_thread (30 * Second) "tok-b"].
Definition revoke_alice : RevocationEvent := MkEvent EmptyString EmptyString "alice" EmptyString true.
Definition always_active (n : nat) (tok : string) : res CommonClaims := Ok (race_claims true).
(** Both store their token and read the index before either writes it. *)
Definition both_cached := exec always_active [0; 0; 0; 1; 1; 1; 0; 1; 0; 1]%nat (race_world, two_tokens).
Definition alice_revoked := exec always_active [2; 2; 2; 2]%nat (both_cached.1, (both_cached.2 ++ [webhook_thread revoke_alice])%list).

(** An index can lose a token: [appendIndexHash] reads, then writes.  Two
    tokens of a subject introspected in parallel leave one of them out of the
    index, and revoking all of the subject's tokens leaves it cached. *)
Lemma index_update_lost :
  pool_reaches (by_answers always_active) (race_world, []) alice_revoked /\
  alice_revoked.2 = [Ret (Introspected "tok-a" (Ok (race_claims true))); Ret (Introspected "tok-b" (Ok (race_claims true)));
                     Ret (Processed None)] /\
  Cache_Get (1000 * Second) (HashToken "tok-a") (w_st alice_revoked.1) = Some (race_claims true).
Proof.
  split; [|split; vm_compute; reflexivity].
  assert (H : pool_reaches (by_answers always_active) (race_world, two_tokens) both_cached) by exact (exec_reaches _ _ _).
  eapply pool_reaches_trans; [apply (start_reaches _ two_tokens); repeat constructor|].
  eapply pool_reaches_trans; [exact H|]. unfold alice_revoked. clear H. generalize both_cached as s. intros [w ts].
  eapply pool_reaches_trans; [|exact (exec_reaches _ _ _)]. apply start_reaches. repeat constructor.
Qed.

Example goroutines_finish_witness :
  ~ exists f : nat -> prog event, f 0%nat = introspect_thread (30 * Second) "tok" /\
      forall n, moves (by_answers race_answers) (f n) (f (S n)).
Proof.
  refine (proj1 (goroutines_finish (by_answers race_answers) (introspect_thread (30 * Second) "tok") _ _)).
  - intros n tok. by exists (race_answers n tok).
  - constructor.
Defined.

Example interleaved_introspection_genuine_witness :
  exists tok' n, HashToken tok' = HashToken "tok" /\ by_answers race_answers n tok' (Ok (race_claims true)).
Proof.
  refine (proj2 (interleaved_introspection_genuine (by_answers race_answers) race_world race_stale.1 race_stale.2 eq_refl _)
    2%nat "tok" (Ok (race_claims true)) _); [|vm_compute; reflexivity].
  rewrite <- surjective_pairing. eapply pool_reaches_trans; apply revocation_overtaken.
Defined.

(** After a quiet moment: the webhook alone, then an introspection. *)
Definition quiet_revoked := exec race_answers [0]%nat (race_world, [webhook_thread revoke_tok]).
Definition quiet_asked :=
  exec race_answers [1; 1; 1; 1; 1]%nat (quiet_revoked.1, (quiet_revoked.2 ++ [introspect_thread (30 * Second) "tok"])%list).
Example revocation_final_when_quiet_witness :
  quiet_asked.2 !! 1%nat = Some (Ret (Introspected "tok" (Ok (race_claims false)))) /\
  exists tok2 n, HashToken tok2 = HashToken "tok" /\ (w_tick quiet_revoked.1 <= n)%nat /\
    by_answers race_answers n tok2 (Ok (race_claims false)).
Proof.
  assert (Hlast : quiet_asked.2 !! 1%nat = Some (Ret (Introspected "tok" (Ok (race_claims false)))))
    by (vm_compute; reflexivity).
  split; [exact Hlast|].
  refine (revocation_final_when_quiet (by_answers race_answers) "tok" quiet_revoked.1 quiet_revoked.2
    quiet_asked.1 quiet_asked.2 1%nat "tok" (Ok (race_claims false)) _ _ _ Hlast eq_refl).
  - vm_compute. reflexivity.
  - constructor; [|constructor]. exists (webhook_thread revoke_tok). split; [constructor|].
    eapply rtc_l; [|apply rtc_refl]. exists race_world, quiet_revoked.1.
    apply (op_exec_step race_answers). vm_compute. reflexivity.
  - rewrite <- (surjective_pairing quiet_asked). eapply pool_reaches_trans; [|apply exec_reaches].
    apply start_reaches. repeat constructor.
Defined.
End Races.
