(* ===== verification/TokenExchange.v ===== *)
(** * Token exchange: [pkg/core/tokenexchange/exchange.go]

    The RFC 8693 client: the form it posts, the answers it takes apart, and
    the check of a response.  The HTTP exchange is a parameter. *)

From S2P Require Import Prelude GoString GoTime Encoding Json TextLemmas TimeText Http Url Rar.
Open Scope Z_scope.

Definition TokenTypeAccessToken : string := "urn:ietf:params:oauth:token-type:access_token".
Definition TokenTypeRefreshToken : string := "urn:ietf:params:oauth:token-type:refresh_token".
Definition TokenTypeIDToken : string := "urn:ietf:params:oauth:token-type:id_token".
Definition TokenTypeJWT : string := "urn:ietf:params:oauth:token-type:jwt".
Definition TokenTypeSAML1 : string := "urn:ietf:params:oauth:token-type:saml1".
Definition TokenTypeSAML2 : string := "urn:ietf:params:oauth:token-type:saml2".
Definition grant_token_exchange : string := "urn:ietf:params:oauth:grant-type:token-exchange".

Record ExchangeRequest := MkExchange {
  xq_GrantType : string;
  xq_SubjectToken : string;
  xq_SubjectTokenType : string;
  xq_ActorToken : string;
  xq_ActorTokenType : string;
  xq_RequestedTokenType : string;
  xq_Resource : string;
  xq_Audience : string;
  xq_Scope : string;
  xq_ClientID : string;
  xq_ClientSecret : string
}.

Record ExchangeResponse := MkExchanged {
  xr_AccessToken : string;
  xr_IssuedTokenType : string;
  xr_TokenType : string;
  xr_ExpiresIn : Z;
  xr_Scope : string;
  xr_RefreshToken : string
}.

Record ExchangeError := MkExchangeError { xe_Code : string; xe_Description : string }.

(** [NewClient]: the endpoint; the HTTP client is the parameter below. *)
Record Client := MkClient { xc_endpoint : string }.
Definition NewClient (tokenEndpoint : string) : Client := MkClient tokenEndpoint.

(** [if v != "" { form.Set(k, v) }] *)
Definition set_if (k v : string) (form : Values) : Values :=
  if String.eqb v EmptyString then form else Values_Set form k v.
Definition or_default (v d : string) : string := if String.eqb v EmptyString then d else v.

Definition exchange_form (req : ExchangeRequest) : Values :=
  let form := Values_Set ∅ "grant_type" grant_token_exchange in
  let form := Values_Set form "subject_token" (xq_SubjectToken req) in
  let form := Values_Set form "subject_token_type" (xq_SubjectTokenType req) in
  let form := if String.eqb (xq_ActorToken req) EmptyString then form
              else Values_Set (Values_Set form "actor_token" (xq_ActorToken req))
                     "actor_token_type" (or_default (xq_ActorTokenType req) TokenTypeAccessToken) in
  let form := Values_Set form "requested_token_type" (or_default (xq_RequestedTokenType req) TokenTypeAccessToken) in
  set_if "scope" (xq_Scope req) (set_if "audience" (xq_Audience req) (set_if "resource" (xq_Resource req) form)).

Section Exchange.
Context {U : Unicode}.

Definition ExchangeError_Error (e : ExchangeError) : string :=
  if negb (String.eqb (xe_Description e) EmptyString)
  then "token exchange error " +:+ Quote (xe_Code e) +:+ ": " +:+ xe_Description e
  else "token exchange error " +:+ Quote (xe_Code e).

Definition response_names : list string :=
  ["access_token"; "issued_token_type"; "token_type"; "expires_in"; "scope"; "refresh_token"].

Definition response_set (name raw : string) (j : json) (r : ExchangeResponse) : option ExchangeResponse :=
  let '(MkExchanged access issued ty exp scope refresh) := r in
  if String.eqb name "access_token" then v ← dec_string access j; Some (MkExchanged v issued ty exp scope refresh)
  else if String.eqb name "issued_token_type" then v ← dec_string issued j; Some (MkExchanged access v ty exp scope refresh)
  else if String.eqb name "token_type" then v ← dec_string ty j; Some (MkExchanged access issued v exp scope refresh)
  else if String.eqb name "expires_in" then v ← dec_int64 exp j; Some (MkExchanged access issued ty v scope refresh)
  else if String.eqb name "scope" then v ← dec_string scope j; Some (MkExchanged access issued ty exp v refresh)
  else v ← dec_string refresh j; Some (MkExchanged access issued ty exp scope v).

Definition error_set (name raw : string) (j : json) (e : ExchangeError) : option ExchangeError :=
  let '(MkExchangeError code desc) := e in
  if String.eqb name "error" then v ← dec_string code j; Some (MkExchangeError v desc)
  else v ← dec_string desc j; Some (MkExchangeError code v).

Definition decode_response (body : string) : option ExchangeResponse :=
  j ← json_Decode body;
  dec_struct response_names response_set
    (MkExchanged EmptyString EmptyString EmptyString 0 EmptyString EmptyString) j.
Definition decode_error (body : string) : option ExchangeError :=
  j ← json_Decode body; dec_struct ["error"; "error_description"] error_set (MkExchangeError EmptyString EmptyString) j.

(** The exchange: endpoint, encoded form and Basic credentials ([None] without
    a client id) to status and body; [http.NewRequestWithContext]'s error. *)
Context (http_post : string -> string -> option (string * string) -> res (Z * string)).
Context (new_request : string -> option error).

Definition basic_auth (req : ExchangeRequest) : option (string * string) :=
  if String.eqb (xq_ClientID req) EmptyString then None else Some (xq_ClientID req, xq_ClientSecret req).

Definition Exchange (c : Client) (req : ExchangeRequest) : res ExchangeResponse :=
  if String.eqb (xq_SubjectToken req) EmptyString then Err (errorf "SubjectToken is required") else
  if String.eqb (xq_SubjectTokenType req) EmptyString then Err (errorf "SubjectTokenType is required") else
  match new_request (xc_endpoint c) with
  | Some e => Err (errorw "building exchange request" e)
  | None =>
  match http_post (xc_endpoint c) (Values_Encode (exchange_form req)) (basic_auth req) with
  | Err e => Err (errorw "token exchange request" e)
  | Ok (status, body) =>
      if negb (status =? StatusOK) then
        match decode_error body with
        | Some errResp =>
            if negb (String.eqb (xe_Code errResp) EmptyString)
            then Err (errorf (ExchangeError_Error errResp))
            else Err (errorf ("token endpoint returned " +:+ fmt_d status))
        | None => Err (errorf ("token endpoint returned " +:+ fmt_d status))
        end
      else
        match decode_response body with
        | None => Err (errorw "decoding token exchange response" json_error)
        | Some tokenResp => Ok tokenResp
        end
  end end.
End Exchange.

Definition Exchange_Validate (r : ExchangeResponse) : option error :=
  if String.eqb (xr_AccessToken r) EmptyString then Some (errorf "response missing access_token")
  else if String.eqb (xr_IssuedTokenType r) EmptyString then Some (errorf "response missing issued_token_type")
  else if String.eqb (xr_TokenType r) EmptyString then Some (errorf "response missing token_type")
  else None.

(** ** What the endpoint receives *)

(** The parameters a request stands for, by name. *)
Definition exchange_param (req : ExchangeRequest) (name : string) : option string :=
  let opt v := if String.eqb v EmptyString then None else Some v in
  if String.eqb name "grant_type" then Some grant_token_exchange
  else if String.eqb name "subject_token" then Some (xq_SubjectToken req)
  else if String.eqb name "subject_token_type" then Some (xq_SubjectTokenType req)
  else if String.eqb name "actor_token" then opt (xq_ActorToken req)
  else if String.eqb name "actor_token_type" then
    if String.eqb (xq_ActorToken req) EmptyString then None
    else Some (or_default (xq_ActorTokenType req) TokenTypeAccessToken)
  else if String.eqb name "requested_token_type" then Some (or_default (xq_RequestedTokenType req) TokenTypeAccessToken)
  else if String.eqb name "resource" then opt (xq_Resource req)
  else if String.eqb name "audience" then opt (xq_Audience req)
  else if String.eqb name "scope" then opt (xq_Scope req)
  else None.

Lemma lookup_set_if k v k' (form : Values) :
  set_if k v form !! k' =
  (if String.eqb k' k && negb (String.eqb v EmptyString) then Some [v] else form !! k').
Proof.
  unfold set_if, Values_Set. destruct (String.eqb v EmptyString); [by rewrite andb_false_r|].
  rewrite andb_true_r. destruct (String.eqb_spec k' k) as [->|Hne].
  - by rewrite lookup_insert_eq.
  - by rewrite lookup_insert_ne.
Qed.

Lemma lookup_Set k v k' (form : Values) :
  Values_Set form k v !! k' = if String.eqb k' k then Some [v] else form !! k'.
Proof.
  unfold Values_Set. destruct (String.eqb_spec k' k) as [->|Hne]; [apply lookup_insert_eq|].
  by rewrite lookup_insert_ne.
Qed.

Lemma exchange_form_lookup req name :
  exchange_form req !! name = (fun v => [v]) <$> exchange_param req name.
Proof.
  unfold exchange_form, exchange_param. rewrite !lookup_set_if, lookup_Set.
  repeat match goal with
  | |- context [String.eqb name ?s] => destruct (String.eqb_spec name s) as [->|?]; [cbn -[String.eqb]|]
  end;
  destruct (String.eqb (xq_ActorToken req) EmptyString) eqn:Ha;
  destruct (String.eqb (xq_Scope req) EmptyString) eqn:Hs;
  destruct (String.eqb (xq_Audience req) EmptyString) eqn:Hu;
  destruct (String.eqb (xq_Resource req) EmptyString) eqn:Hr; cbn [andb negb];
  rewrite ?lookup_Set; cbn; try done;
  repeat match goal with H : name <> ?s |- _ => apply String.eqb_neq in H; rewrite ?H end; try done.
Qed.

Lemma exchange_form_has_values req : has_values (exchange_form req).
Proof.
  intros k l. rewrite exchange_form_lookup. destruct (exchange_param req k); [|done].
  intros [= <-]. done.
Qed.

(** C39: [Exchange] succeeds exactly when the endpoint grants the exchange.  It
    returns a response if and only if a subject token and its type are given,
    the request can be built, and the endpoint answers 200 with a body that
    decodes to that response; what the endpoint reads from the posted form
    are exactly the parameters of RFC 8693 the request stands for, with their
    defaults, and nothing else. *)
Theorem Exchange_correct {U : Unicode} http_post new_request c req r :
  let form := Values_Encode (exchange_form req) in
  (Exchange http_post new_request c req = Ok r <->
     xq_SubjectToken req <> EmptyString /\ xq_SubjectTokenType req <> EmptyString /\
     new_request (xc_endpoint c) = None /\
     exists body, http_post (xc_endpoint c) form (basic_auth req) = Ok (StatusOK, body) /\
       decode_response body = Some r) /\
  exists params, ParseQuery form = (params, None) /\
    forall name, params !! name = (fun v => [v]) <$> exchange_param req name.
Proof.
  cbv zeta. split.
  2: { exists (exchange_form req). split; [|intros; apply exchange_form_lookup].
       apply ParseQuery_encode_values, exchange_form_has_values. }
  unfold Exchange.
  destruct (String.eqb_spec (xq_SubjectToken req) EmptyString) as [?|Ht]; [naive_solver|].
  destruct (String.eqb_spec (xq_SubjectTokenType req) EmptyString) as [?|Hty]; [naive_solver|].
  destruct (new_request (xc_endpoint c)) as [e|]; [naive_solver|].
  destruct (http_post _ _ _) as [[status body]|e]; [|naive_solver].
  destruct (Z.eqb_spec status StatusOK) as [->|Hs]; cbn [negb].
  - destruct (decode_response body) as [r'|] eqn:Hd; naive_solver.
  - split; [by repeat case_match|]. intros (_ & _ & _ & body' & [= ? ?] & _). done.
Qed.

(** [Validate] accepts the responses with the members RFC 8693 requires. *)
Lemma Exchange_Validate_spec r :
  Exchange_Validate r = None <->
  xr_AccessToken r <> EmptyString /\ xr_IssuedTokenType r <> EmptyString /\ xr_TokenType r <> EmptyString.
Proof.
  unfold Exchange_Validate.
  destruct (String.eqb_spec (xr_AccessToken r) EmptyString); [naive_solver|].
  destruct (String.eqb_spec (xr_IssuedTokenType r) EmptyString); [naive_solver|].
  destruct (String.eqb_spec (xr_TokenType r) EmptyString); naive_solver.
Qed.

Definition demo_exchange : ExchangeRequest :=
  MkExchange EmptyString "subject" TokenTypeAccessToken "actor" EmptyString EmptyString EmptyString "api" "read"
    "client" "secret".

(** [Exchange] does not call it: an empty object is a success. *)
Lemma Exchange_unvalidated :
  exists r, Exchange (U := unicode_min) (fun _ _ _ => Ok (StatusOK, "{}")) (fun _ => None)
              (NewClient "https://as/token") demo_exchange = Ok r /\
            Exchange_Validate r <> None.
Proof. eexists. split; [vm_compute; reflexivity|]. discriminate. Qed.

Example exchange_form_ex :
  Values_Encode (exchange_form demo_exchange) =
  "actor_token=actor&actor_token_type=urn%3Aietf%3Aparams%3Aoauth%3Atoken-type%3Aaccess_token&audience=api&grant_type=urn%3Aietf%3Aparams%3Aoauth%3Agrant-type%3Atoken-exchange&requested_token_type=urn%3Aietf%3Aparams%3Aoauth%3Atoken-type%3Aaccess_token&scope=read&subject_token=subject&subject_token_type=urn%3Aietf%3Aparams%3Aoauth%3Atoken-type%3Aaccess_token".
Proof. vm_compute. reflexivity. Qed.
