(* ===== verification/Pkce.v ===== *)
(** * PKCE: [pkg/core/pkce/pkce.go] (RFC 7636) *)

From S2P Require Import Prelude GoString GoTime Encoding Crypto Json TextLemmas.

(** [Method] is a string type. *)
Definition MethodS256 : string := "S256".
Definition MethodPlain : string := "plain".
Definition MinVerifierLength : Z := 43.
Definition MaxVerifierLength : Z := 128.

(** [GenerateVerifier] on the 96 bytes of [rand.Read], [None] when it fails. *)
Definition GenerateVerifier (rand : option string) : res string :=
  match rand with
  | None => Err (errorw "generating PKCE verifier" (errorf "rand"))
  | Some b =>
      let v := RawURLEncode b in
      Ok (if MaxVerifierLength <? Z.of_nat (String.length v)
          then str_take (Z.to_nat MaxVerifierLength) v else v)
  end.

Definition S256Challenge (verifier : string) : string := RawURLEncode (sha256 verifier).

(** [secureEqual]: the loop accumulates the xor of all byte pairs. *)
Definition secureEqual (a b : string) : bool :=
  if negb (Nat.eqb (String.length a) (String.length b)) then false else
  foldl (fun diff p => Z.lor diff (Z.lxor (byte_val p.1) (byte_val p.2))) 0
    (combine (str_bytes a) (str_bytes b)) =? 0.

Definition allowed : string :=
  "ABCDEFGHIJKLMNOPQRSTUVWXYZabcdefghijklmnopqrstuvwxyz0123456789-._~".

(** [strings.ContainsRune(allowed, r)]; [allowed] is ASCII. *)
Definition allowed_rune (r : Z) : bool := existsb (fun c => byte_val c =? r) (str_bytes allowed).

Section WithUnicode.
Context {U : Unicode}.

(** The loop of [validateVerifier], from the byte position [i]. *)
Fixpoint validate_runes (i : Z) (l : list (Z * string)) : option error :=
  match l with
  | [] => None
  | (c, b) :: l' =>
      if negb (allowed_rune c)
      then Some (errorf ("PKCE: code_verifier contains invalid character " +:+ QuoteRune c +:+
                         " at position " +:+ fmt_d i))
      else validate_runes (i + Z.of_nat (String.length b)) l'
  end.

Definition validateVerifier (v : string) : option error :=
  let n := Z.of_nat (String.length v) in
  if n <? MinVerifierLength
  then Some (errorf ("PKCE: code_verifier too short (" +:+ fmt_d n +:+ " < " +:+
                     fmt_d MinVerifierLength +:+ ")"))
  else if MaxVerifierLength <? n
  then Some (errorf ("PKCE: code_verifier too long (" +:+ fmt_d n +:+ " > " +:+
                     fmt_d MaxVerifierLength +:+ ")"))
  else validate_runes 0 (runes v).

Definition Verify (verifier challenge method : string) : option error :=
  match validateVerifier verifier with
  | Some e => Some e
  | None =>
      if String.eqb method MethodS256 then
        if negb (secureEqual (S256Challenge verifier) challenge)
        then Some (errorf "PKCE: code_verifier does not match code_challenge") else None
      else if String.eqb method MethodPlain then
        if negb (secureEqual verifier challenge)
        then Some (errorf "PKCE: code_verifier does not match code_challenge (plain)") else None
      else Some (errorf ("PKCE: unsupported code_challenge_method " +:+ Quote method))
  end.

Definition ValidateMethod (method : string) (allowPlain : bool) : option error :=
  if String.eqb method MethodS256 then None
  else if String.eqb method MethodPlain then
    if allowPlain then None
    else Some (errorf "PKCE: 'plain' code_challenge_method is not permitted; use S256")
  else Some (errorf ("PKCE: unsupported code_challenge_method " +:+ Quote method)).
End WithUnicode.

(** RFC 7636, appendix B. *)
Example S256Challenge_rfc :
  S256Challenge "dBjftJeZ4CVP-mB92K27uhbUJU1p1r_wW1gFWFOEjXk" =
  "E9Melhoa2OwvFrEMTJguCHaoeK1t8URWbuGJSstw-cM".
Proof. vm_compute. reflexivity. Qed.

(** ** Specification: the characters and the length of RFC 7636, section 4.1 *)

Definition is_unreserved (c : ascii) : bool :=
  let b := byte_val c in
  in_range 65 90 b || in_range 97 122 b || in_range 48 57 b ||
  (b =? 45) || (b =? 46) || (b =? 95) || (b =? 126).

Definition verifier_ok (v : string) : Prop :=
  43 <= Z.of_nat (String.length v) <= 128 /\ str_forall is_unreserved v = true.

(** ** Lemmas *)

Lemma lor_ge a b : 0 <= b -> a <= Z.lor a b.
Proof.
  intros Hb. assert (Z.lor a b = a + Z.ldiff b a) as ->.
  { rewrite Z.add_nocarry_lxor.
    - apply Z.bits_inj. intros n.
      rewrite Z.lor_spec, Z.lxor_spec, Z.ldiff_spec. by destruct (Z.testbit a n), (Z.testbit b n).
    - apply Z.bits_inj. intros n.
      rewrite Z.land_spec, Z.ldiff_spec, Z.bits_0. by destruct (Z.testbit a n), (Z.testbit b n). }
  assert (0 <= Z.ldiff b a) by (apply Z.ldiff_nonneg; by left). lia.
Qed.

Lemma shiftl_ge a n : 2 <= a -> 0 <= n -> 2 * 2 ^ n <= Z.shiftl a n.
Proof. intros Ha Hn. rewrite Z.shiftl_mul_pow2 by done. pose proof (Z.pow_pos_nonneg 2 n). nia. Qed.

Lemma shiftl_ge1 a n : 2 <= a * 2 -> 0 <= n -> 2 ^ n <= Z.shiftl a n.
Proof. intros Ha Hn. rewrite Z.shiftl_mul_pow2 by done. pose proof (Z.pow_pos_nonneg 2 n). nia. Qed.

(** A fact about a byte, checked on the 256 of them. *)
Lemma byte_masked k (p : Z -> bool) (f : Z -> Z) :
  0 <= k < 256 -> forallb (fun z => implb (p z) (2 <=? f z)) (map Z.of_nat (seq 0 256)) = true ->
  p k = true -> 2 <= f k.
Proof.
  intros Hk Hall Hp. pose proof (forall_below 256 (fun z => implb (p z) (2 <=? f z)) Hall k Hk) as H.
  cbv beta in H. rewrite Hp in H. by apply Z.leb_le in H.
Qed.

Lemma land_pos z m : 0 <= m -> 0 <= Z.land z m.
Proof. intros Hm. apply Z.land_nonneg. by right. Qed.

#[local] Hint Resolve land_pos : core.
#[local] Hint Extern 1 (0 <= Z.shiftl _ _) => apply Z.shiftl_nonneg : core.
#[local] Hint Extern 1 (0 <= Z.lor _ _) => apply Z.lor_nonneg : core.
#[local] Hint Extern 1 (0 <= Zpos _) => done : core.

(** A sequence of two, three or four bytes that the decoder accepts stands
    for a rune above 127: overlong forms are refused by the ranges. *)
Lemma two_bytes_ge b x :
  0 <= b < 256 -> in_range 194 223 b = true -> 0 <= x ->
  128 <= Z.lor (Z.shiftl (Z.land b 31) 6) x.
Proof.
  intros Hb R Hx.
  pose proof (byte_masked b (in_range 194 223) (fun z => Z.land z 31) Hb ltac:(vm_compute; reflexivity) R) as H.
  pose proof (shiftl_ge _ 6 H ltac:(lia)). pose proof (lor_ge (Z.shiftl (Z.land b 31) 6) x Hx). lia.
Qed.

Lemma lead_ge b lo hi m n x :
  0 <= b < 256 -> in_range lo hi b = true ->
  forallb (fun z => implb (in_range lo hi z) (2 <=? Z.land z m * 2)) (map Z.of_nat (seq 0 256)) = true ->
  7 <= n -> 0 <= x -> 128 <= Z.lor (Z.shiftl (Z.land b m) n) x.
Proof.
  intros Hb R Hall Hn Hx. pose proof (byte_masked b (in_range lo hi) (fun z => Z.land z m * 2) Hb Hall R) as H.
  pose proof (shiftl_ge1 _ n H ltac:(lia)). pose proof (lor_ge (Z.shiftl (Z.land b m) n) x Hx).
  pose proof (Z.pow_le_mono_r 2 7 n ltac:(lia) Hn). lia.
Qed.

Lemma second_ge b lo n y x :
  0 <= b < 256 -> in_range lo 191 b = true ->
  forallb (fun z => implb (in_range lo 191 z) (2 <=? Z.land z 63)) (map Z.of_nat (seq 0 256)) = true ->
  6 <= n -> 0 <= y -> 0 <= x -> 128 <= Z.lor y (Z.lor (Z.shiftl (Z.land b 63) n) x).
Proof.
  intros Hb R Hall Hn Hy Hx.
  pose proof (byte_masked b (in_range lo 191) (fun z => Z.land z 63) Hb Hall R) as H.
  pose proof (shiftl_ge _ n H ltac:(lia)). pose proof (lor_ge (Z.shiftl (Z.land b 63) n) x Hx).
  pose proof (lor_ge (Z.lor (Z.shiftl (Z.land b 63) n) x) y Hy).
  rewrite Z.lor_comm. pose proof (Z.pow_le_mono_r 2 6 n ltac:(lia) Hn). lia.
Qed.

(** A rune below 128 is one byte, itself. *)
Lemma decode_rune_small c s :
  fst (decode_rune (String c s)) < 128 -> decode_rune (String c s) = (byte_val c, 1%nat).
Proof.
  pose proof (byte_val_range c) as Hc. cbn [decode_rune].
  destruct (Z.ltb_spec (byte_val c) 128) as [|H128]; [done|].
  destruct s as [|c1 s1]; [done|]. pose proof (byte_val_range c1) as Hc1.
  destruct (in_range 194 223 (byte_val c)) eqn:R2.
  { destruct (in_range 128 191 (byte_val c1)); [|done]. cbn [fst]. intros H. exfalso.
    pose proof (two_bytes_ge _ (Z.land (byte_val c1) 63) Hc R2 ltac:(auto)). lia. }
  destruct (negb _) eqn:R3; [done|]. apply negb_false_iff, andb_true_iff in R3 as [R3 R3'].
  destruct s1 as [|c2 s2]; [done|]. destruct (negb _); [done|].
  assert (R : forall lo hi, lo <= byte_val c <= hi -> in_range lo hi (byte_val c) = true).
  { intros lo hi H. unfold in_range. by rewrite andb_true_iff, !Z.leb_le. }
  unfold in_range in R3. b2p.
  destruct (Z.ltb_spec (byte_val c) 240) as [H240|H240]; cbn [fst].
  - intros Hlt. exfalso. revert Hlt. apply Z.le_ngt.
    destruct (Z.eqb_spec (byte_val c) 224) as [E|E].
    + rewrite E in R3'. apply (second_ge _ 160); [done|done|vm_compute; reflexivity|lia|auto|auto].
    + apply (lead_ge _ 225 239); [done|apply R; lia|vm_compute; reflexivity|lia|auto].
  - destruct s2 as [|c3 s3]; [done|]. destruct (negb _); [done|]. cbn [fst].
    intros Hlt. exfalso. revert Hlt. apply Z.le_ngt.
    destruct (Z.eqb_spec (byte_val c) 240) as [E|E].
    + rewrite E in R3'. cbn in R3'. apply (second_ge _ 144); [done|done|vm_compute; reflexivity|lia|auto|auto].
    + apply (lead_ge _ 241 244); [done|apply R; lia|vm_compute; reflexivity|lia|auto 8].
Qed.

Lemma allowed_rune_small r : allowed_rune r = true -> r < 128.
Proof.
  unfold allowed_rune. rewrite existsb_exists. intros (c & Hin & Hc). b2p. subst r.
  assert (H : forallb (fun c => byte_val c <? 128) (str_bytes allowed) = true) by reflexivity.
  rewrite forallb_forall in H. apply Z.ltb_lt. by apply H.
Qed.

Lemma allowed_rune_byte c : allowed_rune (byte_val c) = is_unreserved c.
Proof. destruct c as [[] [] [] [] [] [] [] []]; reflexivity. Qed.

Section Proofs.
Context {U : Unicode}.

Lemma validate_runes_spec i s :
  validate_runes i (runes s) = None <-> str_forall is_unreserved s = true.
Proof.
  unfold runes. revert i. induction s as [|c s IH]; intros i; [done|].
  change (runes_fuel (String.length (String c s)) (String c s)) with
    (let '(r, w) := decode_rune (String c s) in
     (r, str_take w (String c s)) :: runes_fuel (String.length s) (str_drop w (String c s))).
  assert (Hsplit : str_forall is_unreserved (String c s) = is_unreserved c && str_forall is_unreserved s) by done.
  rewrite Hsplit, <- allowed_rune_byte.
  destruct (allowed_rune (fst (decode_rune (String c s)))) eqn:Ha.
  - pose proof (decode_rune_small c s (allowed_rune_small _ Ha)) as Hd. rewrite Hd in *.
    cbn [fst] in Ha. cbn [validate_runes]. rewrite Ha. cbn [negb andb str_drop]. apply IH.
  - destruct (decode_rune (String c s)) as [r w] eqn:Hd. cbn [fst] in Ha. cbn [validate_runes].
    rewrite Ha. split; [done|]. intros [Hb _]%andb_true_iff.
    rewrite decode_rune_ascii in Hd by (by apply allowed_rune_small). congruence.
Qed.

Lemma validateVerifier_spec v : validateVerifier v = None <-> verifier_ok v.
Proof.
  unfold validateVerifier, verifier_ok, MinVerifierLength, MaxVerifierLength.
  destruct (Z.ltb_spec (Z.of_nat (String.length v)) 43); [split; [done|lia]|].
  destruct (Z.ltb_spec 128 (Z.of_nat (String.length v))); [split; [done|lia]|].
  rewrite validate_runes_spec. split; [done|by intros [_ ?]].
Qed.
End Proofs.

Lemma secureEqual_spec a b : secureEqual a b = true <-> a = b.
Proof.
  unfold secureEqual. destruct (Nat.eqb_spec (String.length a) (String.length b)) as [Hl|Hl]; cbn [negb].
  2: { split; [done|by intros ->]. }
  assert (Hgen : forall l k d, List.length l = List.length k -> 0 <= d ->
    (foldl (fun diff p => Z.lor diff (Z.lxor (byte_val p.1) (byte_val p.2))) d (combine l k) =? 0) = true <->
    d = 0 /\ l = k).
  { induction l as [|x l IH]; intros [|y k] d Hlen Hd; try done; cbn [combine foldl fst snd].
    - rewrite Z.eqb_eq. naive_solver.
    - rewrite IH; [|by injection Hlen|].
      + rewrite Z.lor_eq_0_iff, Z.lxor_eq_0_iff. split; [|naive_solver].
        intros ((-> & Hxy%byte_val_inj) & ->). by subst.
      + apply Z.lor_nonneg. split; [done|]. apply Z.lxor_nonneg.
        pose proof (byte_val_range x). pose proof (byte_val_range y). lia. }
  rewrite Hgen; [|by rewrite !length_str_bytes|lia].
  split; [intros [_ H]; by apply str_bytes_inj|by intros ->].
Qed.

(** C38: [Verify] is RFC 7636.  It accepts exactly the verifiers of 43 to 128
    unreserved characters whose challenge equals the base64url SHA-256 of the
    verifier (method S256) or the verifier itself (plain); no other method is
    accepted.  The constant-time comparison is equality. *)
Theorem Verify_correct {U : Unicode} verifier challenge method :
  Verify verifier challenge method = None <->
  verifier_ok verifier /\
  ((method = "S256" /\ challenge = RawURLEncode (sha256 verifier)) \/
   (method = "plain" /\ challenge = verifier)).
Proof.
  unfold Verify. destruct (validateVerifier verifier) as [e|] eqn:Hv.
  { split; [done|]. intros [Hok _]. apply validateVerifier_spec in Hok. congruence. }
  apply validateVerifier_spec in Hv. unfold MethodS256, MethodPlain.
  destruct (String.eqb_spec method "S256") as [->|Hm].
  - destruct (secureEqual (S256Challenge verifier) challenge) eqn:He; cbn [negb].
    + apply secureEqual_spec in He. unfold S256Challenge in He. naive_solver.
    + split; [done|]. intros [_ [[_ Hc]|[? _]]]; [|done]. exfalso.
      rewrite (proj2 (secureEqual_spec _ _)) in He; [done|]. by rewrite Hc.
  - destruct (String.eqb_spec method "plain") as [->|Hp]; [|naive_solver].
    destruct (secureEqual verifier challenge) eqn:He; cbn [negb].
    + apply secureEqual_spec in He as <-. naive_solver.
    + split; [done|]. intros [_ [[? _]|[_ ->]]]; [done|]. exfalso.
      rewrite (proj2 (secureEqual_spec _ _)) in He; done.
Qed.

Lemma b64_char_unreserved c : is_b64 c = true -> is_unreserved c = true.
Proof. destruct c as [[] [] [] [] [] [] [] []]; vm_compute; done. Qed.

(** What the client generates, the server accepts.  From any 96 random
    bytes [GenerateVerifier] makes a verifier of 128 characters that, against
    its own S256 challenge, passes [Verify]. *)
Theorem GenerateVerifier_verifies {U : Unicode} rand :
  String.length rand = 96%nat ->
  exists v, GenerateVerifier (Some rand) = Ok v /\ String.length v = 128%nat /\
    Verify v (S256Challenge v) MethodS256 = None.
Proof.
  intros Hlen.
  assert (Hl : String.length (RawURLEncode rand) = 128%nat).
  { unfold RawURLEncode. by rewrite b64_encode_length_raw, Hlen. }
  exists (RawURLEncode rand). unfold GenerateVerifier. rewrite Hl. cbn [Z.of_nat].
  split; [done|]. split; [done|].
  unfold Verify. rewrite (proj2 (validateVerifier_spec _)).
  - cbn. by rewrite (proj2 (secureEqual_spec _ _)).
  - split; [rewrite Hl; lia|]. apply str_forall_spec. intros c Hc.
    apply b64_char_unreserved. by destruct (b64_encode_chars false rand c Hc) as [?|[? _]].
Qed.

Example GenerateVerifier_verifies_witness :
  exists v, GenerateVerifier (Some (Repeat "abc" 32)) = Ok v /\ String.length v = 128%nat /\
    Verify (U := unicode_min) v (S256Challenge v) MethodS256 = None.
Proof. apply (GenerateVerifier_verifies (U := unicode_min) (Repeat "abc" 32)). reflexivity. Defined.
