(* ===== verification/Fapi.v ===== *)
(** * FAPI 2.0: [pkg/core/fapi] ([par.go], [profile.go])

    The pushed authorization request client, with the HTTP exchange as a
    parameter, and the resource-server profile over the [TokenClaims]
    interface, which [CommonClaims] implements. *)

From S2P Require Import Prelude GoString GoTime Encoding Json TextLemmas TimeText Http Url ServeMux UrlParse Rar Claims Effects.

(** ** [par.go]: requests *)

Record PARRequest := MkPARRequest {
  par_ResponseType : string;
  par_ClientID : string;
  par_RedirectURI : string;
  par_Scope : string;
  par_State : string;
  par_Nonce : string;
  par_CodeChallenge : string;
  par_CodeChallengeMethod : string;
  par_Resource : string;
  par_AuthorizationDetails : string;
  par_ClientSecret : string
}.

Record PARResponse := MkPARResponse { pr_RequestURI : string; pr_ExpiresIn : Z }.
Record PARError := MkPARError { pe_Code : string; pe_Description : string }.

Section Requests.
Context {U : Unicode}.

Definition PARError_Error (e : PARError) : string :=
  if negb (String.eqb (pe_Description e) EmptyString)
  then "PAR error " +:+ Quote (pe_Code e) +:+ ": " +:+ pe_Description e
  else "PAR error " +:+ Quote (pe_Code e).

Definition validatePARRequest (req : PARRequest) : option error :=
  if String.eqb (par_ClientID req) EmptyString
  then Some (errorf "FAPI 2.0: client_id is required") else
  if String.eqb (par_RedirectURI req) EmptyString
  then Some (errorf "FAPI 2.0: redirect_uri is required") else
  if negb (String.eqb (par_ResponseType req) "code")
  then Some (errorf ("FAPI 2.0: response_type must be 'code', got " +:+ Quote (par_ResponseType req))) else
  if String.eqb (par_Nonce req) EmptyString
  then Some (errorf "FAPI 2.0: nonce is required") else
  if String.eqb (par_State req) EmptyString
  then Some (errorf "FAPI 2.0: state is required") else
  if String.eqb (par_CodeChallenge req) EmptyString
  then Some (errorf "FAPI 2.0: PKCE code_challenge is required") else
  if negb (String.eqb (par_CodeChallengeMethod req) "S256")
  then Some (errorf ("FAPI 2.0: code_challenge_method must be 'S256', got " +:+
                     Quote (par_CodeChallengeMethod req)))
  else None.
End Requests.

(** [url.Values] with one value per key. *)
Definition buildPARForm (req : PARRequest) : gmap string string :=
  let form := ∅ in
  let form := <["response_type" := par_ResponseType req]> form in
  let form := <["client_id" := par_ClientID req]> form in
  let form := <["redirect_uri" := par_RedirectURI req]> form in
  let form := <["scope" := par_Scope req]> form in
  let form := <["state" := par_State req]> form in
  let form := <["nonce" := par_Nonce req]> form in
  let form := <["code_challenge" := par_CodeChallenge req]> form in
  let form := <["code_challenge_method" := par_CodeChallengeMethod req]> form in
  let form := if negb (String.eqb (par_Resource req) EmptyString)
              then <["resource" := par_Resource req]> form else form in
  if negb (String.eqb (par_AuthorizationDetails req) EmptyString)
  then <["authorization_details" := par_AuthorizationDetails req]> form else form.

Definition par_response_set (name raw : string) (j : json) (r : PARResponse) : option PARResponse :=
  let '(MkPARResponse uri exp) := r in
  if String.eqb name "request_uri" then v ← dec_string uri j; Some (MkPARResponse v exp)
  else v ← dec_int64 exp j; Some (MkPARResponse uri v).

Definition par_error_set (name raw : string) (j : json) (r : PARError) : option PARError :=
  let '(MkPARError code desc) := r in
  if String.eqb name "error" then v ← dec_string code j; Some (MkPARError v desc)
  else v ← dec_string desc j; Some (MkPARError code v).

Definition StatusCreated : Z := 201.

(** [PARClient]: its endpoint; the HTTP client it posts with is a parameter of
    [Push]. *)
Record PARClient := MkPARClient { pc_endpoint : string }.
Definition NewPARClient (parEndpoint : string) : PARClient := MkPARClient parEndpoint.

Section Push.
Context {U : Unicode}.
(** The exchange: URL, form and Basic credentials ([None] without a client id)
    to status and body; and [http.NewRequestWithContext] on the endpoint. *)
Context (http_post : string -> gmap string string -> option (string * string) -> res (Z * string)).
Context (new_request : string -> option error).

(** [PARClient.Push] *)
Definition Push (c : PARClient) (req : PARRequest) : res PARResponse :=
  match validatePARRequest req with
  | Some e => Err e
  | None =>
  match new_request (pc_endpoint c) with
  | Some e => Err (errorw "building PAR request" e)
  | None =>
  let auth := if negb (String.eqb (par_ClientID req) EmptyString)
              then Some (par_ClientID req, par_ClientSecret req) else None in
  match http_post (pc_endpoint c) (buildPARForm req) auth with
  | Err e => Err (errorw "PAR request" e)
  | Ok (status, body) =>
      if negb (status =? StatusCreated) && negb (status =? StatusOK) then
        match j ← json_Decode body;
              dec_struct ["error"; "error_description"] par_error_set
                (MkPARError EmptyString EmptyString) j with
        | Some parErr =>
            if negb (String.eqb (pe_Code parErr) EmptyString)
            then Err (errorf (PARError_Error parErr))
            else Err (errorf ("PAR endpoint returned " +:+ fmt_d status))
        | None => Err (errorf ("PAR endpoint returned " +:+ fmt_d status))
        end
      else
        match j ← json_Decode body;
              dec_struct ["request_uri"; "expires_in"] par_response_set
                (MkPARResponse EmptyString 0) j with
        | None => Err (errorw "decoding PAR response" json_error)
        | Some parResp =>
            if String.eqb (pr_RequestURI parResp) EmptyString
            then Err (errorf "PAR response missing request_uri") else Ok parResp
        end
  end end end.
End Push.

(** ** [par.go]: the authorization URL *)

Section AuthorizationURL.
Context {U : Unicode} (bracketed : string -> res string).

Definition AuthorizationURL (authEndpoint clientID requestURI : string) : res string :=
  match url_Parse bracketed authEndpoint with
  | Err e => Err (errorw "invalid authorization endpoint" e)
  | Ok u =>
      let q := (ParseQuery (u_RawQuery u)).1 in
      let q := Values_Set q "client_id" clientID in
      let q := Values_Set q "request_uri" requestURI in
      Ok (url_String (set_RawQuery (Values_Encode q) u))
  end.

Lemma endpoint_set_RawQuery u v :
  endpoint u -> u_ForceQuery u = false -> endpoint (set_RawQuery (Values_Encode v) u).
Proof.
  intros [] Hf. split; try done; cbn [u_RawQuery u_ForceQuery set_RawQuery]; [|congruence].
  eapply str_forall_weaken; [|apply Values_Encode_bytes]. intros c.
  destruct c as [[] [] [] [] [] [] [] []]; vm_compute; (reflexivity || discriminate).
Qed.

(** The user agent is sent to the endpoint, and the authorization server reads
    from the query the client and the request, and whatever else the endpoint
    had. *)
Lemma AuthorizationURL_query u clientID requestURI :
  endpoint u -> u_ForceQuery u = false ->
  exists s q, AuthorizationURL (url_String u) clientID requestURI = Ok s /\
    url_Parse bracketed s = Ok (set_RawQuery (Values_Encode q) u) /\
    ParseQuery (Values_Encode q) = (q, None) /\
    Values_Get q "client_id" = clientID /\ Values_Get q "request_uri" = requestURI /\
    forall k, k <> "client_id" -> k <> "request_uri" -> q !! k = (ParseQuery (u_RawQuery u)).1 !! k.
Proof.
  intros Hu Hf. unfold AuthorizationURL. rewrite url_Parse_String by done. eexists _, _. split; [done|].
  split; [by apply url_Parse_String, endpoint_set_RawQuery|].
  split; [apply ParseQuery_Encode_Set2|]. unfold Values_Get, Values_Set. repeat split.
  - by rewrite lookup_insert_ne, lookup_insert_eq by done.
  - by rewrite lookup_insert_eq.
  - intros k H1 H2. by rewrite !lookup_insert_ne by done.
Qed.
End AuthorizationURL.

(** ** [par.go]: validation settings *)

Record ValidationConfig := MkValidation {
  vc_RequireDPoP : bool;
  vc_RequireRequestURI : bool;
  vc_AllowedResponseTypes : list string
}.
Definition DefaultFAPI2Config : ValidationConfig := MkValidation true true ["code"].

Section ResponseType.
Context {U : Unicode}.

Definition ValidateResponseType (responseType : string) (cfg : ValidationConfig) : option error :=
  let allowed := if bool_decide (vc_AllowedResponseTypes cfg = []) then ["code"]
                 else vc_AllowedResponseTypes cfg in
  if existsb (EqualFold responseType) allowed then None
  else Some (errorf ("FAPI 2.0: response_type " +:+ Quote responseType +:+
                     " not allowed; permitted: " +:+ Join allowed ", ")).
End ResponseType.

(** ** [profile.go] *)

Definition FAPIMaxAuthAge : Duration := 60 * Second.

Record ProfileError := MkProfileError { pf_Requirement : string; pf_Detail : string }.
Definition ProfileError_Error (e : ProfileError) : string :=
  "FAPI 2.0 profile violation [" +:+ pf_Requirement e +:+ "]: " +:+ pf_Detail e.

(** The interface [TokenClaims]; [GetAuthAge] may read the clock. *)
Class TokenClaims (C : Type) := {
  tc_HasDPoP : C -> bool;
  tc_HasPARRequestURI : C -> bool;
  tc_GetAuthAge : forall S, C -> M S Duration;
  tc_GetNonce : C -> string
}.
Arguments tc_GetAuthAge {C _ S} _.

(** [CommonClaims.AuthAge] with the clock of the process. *)
Definition AuthAge_now {S} (c : CommonClaims) : M S Duration :=
  if IsZero (cl_AuthTime c) then mret (AuthAge time_zero c)
  else now ← Now; mret (AuthAge now c).

#[export] Instance common_token_claims : TokenClaims CommonClaims := {|
  tc_HasDPoP := HasDPoP;
  tc_HasPARRequestURI := HasPARRequestURI;
  tc_GetAuthAge S := AuthAge_now;
  tc_GetNonce := GetNonce
|}.

Section Profile.
Context {C : Type} `{!TokenClaims C}.

Definition ValidateRequest {S} (claims : C) (cfg : ValidationConfig) : M S (option ProfileError) :=
  if vc_RequireDPoP cfg && negb (tc_HasDPoP claims)
  then mret (Some (MkProfileError "DPoP" "token must be DPoP-bound; missing DPoP proof")) else
  if vc_RequireRequestURI cfg && negb (tc_HasPARRequestURI claims)
  then mret (Some (MkProfileError "PAR"
                     "authorization must be initiated via Pushed Authorization Request")) else
  if String.eqb (tc_GetNonce claims) EmptyString
  then mret (Some (MkProfileError "nonce" "token must contain a nonce claim")) else
  authAge ← tc_GetAuthAge claims;
  mret (if (0 <? authAge) && (FAPIMaxAuthAge <? authAge)
        then Some (MkProfileError "auth_time"
                     ("authentication is too old (" +:+ Duration_String (Duration_Round authAge Second) +:+
                      " > " +:+ Duration_String FAPIMaxAuthAge +:+ " max)"))
        else None).

(** [peer_certificates]: a TLS connection with client certificates. *)
Definition ValidateTokenBinding (peer_certificates : bool) (claims : C) (allowMTLS : bool)
    : option ProfileError :=
  if tc_HasDPoP claims then None
  else if allowMTLS && peer_certificates then None
  else Some (MkProfileError "token-binding"
               "token must be sender-constrained via DPoP or mTLS certificate").
End Profile.

(** ** Theorems *)

Lemma ValidateRequest_state {S} (c : CommonClaims) cfg (w : world S) :
  later w (snd (ValidateRequest c cfg w)) /\ w_st (snd (ValidateRequest c cfg w)) = w_st w.
Proof.
  unfold ValidateRequest. cbn [tc_HasDPoP tc_HasPARRequestURI tc_GetNonce tc_GetAuthAge common_token_claims].
  destruct (_ && _); [done|]. destruct (_ && _); [done|].
  destruct (String.eqb (GetNonce c) EmptyString); [done|].
  unfold AuthAge_now, mbind, M_bind. destruct (IsZero (cl_AuthTime c)); [done|].
  cbn. split; [split; cbn; [done|lia]|done].
Qed.

(** The profile check.  [ValidateRequest] accepts the claims exactly when
    the token is DPoP-bound and comes from a pushed request, where the
    configuration demands it, carries a nonce, and the authentication, if its
    time is known, is at most 60 seconds old. *)
Theorem ValidateRequest_correct {S} (c : CommonClaims) cfg (w : world S) :
  fst (ValidateRequest c cfg w) = None <->
  (vc_RequireDPoP cfg = true -> HasDPoP c = true) /\
  (vc_RequireRequestURI cfg = true -> HasPARRequestURI c = true) /\
  GetNonce c <> EmptyString /\
  (cl_AuthTime c <> time_zero -> now_of w - cl_AuthTime c <= FAPIMaxAuthAge).
Proof.
  unfold ValidateRequest. cbn [tc_HasDPoP tc_HasPARRequestURI tc_GetNonce tc_GetAuthAge common_token_claims].
  destruct (vc_RequireDPoP cfg), (HasDPoP c); cbn [andb negb]; try (split; [done|naive_solver]);
  destruct (vc_RequireRequestURI cfg), (HasPARRequestURI c); cbn [andb negb];
    try (split; [done|naive_solver]);
  (destruct (String.eqb_spec (GetNonce c) EmptyString) as [Hn|Hn]; [split; [done|naive_solver]|]);
  unfold AuthAge_now, mbind, M_bind, AuthAge, IsZero;
  (destruct (Z.eqb_spec (cl_AuthTime c) time_zero) as [Hz|Hz]; cbn [mret M_ret Now fst];
   [split; [done|done]|]);
  fold (now_of w);
  assert (Hage : (0 <? time_Since (now_of w) (cl_AuthTime c)) &&
          (FAPIMaxAuthAge <? time_Since (now_of w) (cl_AuthTime c)) = false <->
          now_of w - cl_AuthTime c <= FAPIMaxAuthAge) by
    (unfold time_Since, time_Sub, clamp64, min_int64, max_int64, FAPIMaxAuthAge, Second in *;
     rewrite andb_false_iff, !Z.ltb_ge; lia);
  (destruct ((0 <? _) && _); [split; [done|intros (_ & _ & _ & H); by apply Hage in H]
                             |split; [intros _; naive_solver|done]]).
Qed.

(** A token normalised from introspection never satisfies the profile:
    [introToCommonClaims] leaves [Extra] empty, so no nonce is ever found,
    whatever the authorization server answers and whatever is configured. *)
Theorem introspected_token_never_fapi {U : Unicode} {S} http_post new_request icfg token c cfg (w : world S) :
  Introspect http_post new_request icfg token = Ok c ->
  is_Some (fst (ValidateRequest c cfg w)).
Proof.
  unfold Introspect. destruct (new_request _); [done|].
  destruct (http_post _ _) as [[status body]|e]; [|done].
  destruct (negb _); [done|]. destruct (decode_intro body) as [intro|]; [|done].
  intros [= <-].
  destruct (fst (ValidateRequest (introToCommonClaims intro) cfg w)) eqn:E; [by eexists|].
  exfalso. apply ValidateRequest_correct in E as (_ & _ & Hn & _). exact (Hn eq_refl).
Qed.

Example introspected_token_never_fapi_witness :
  let body := json_object [("active", json_bool true); ("sub", json_quote "alice"); ("nonce", json_quote "n")] in
  exists c, Introspect (U := unicode_min) (fun _ _ => Ok (200, body)) (fun _ => None)
              (MkIntrospectorConfig "https://as" "id" "secret" 0) "tok" = Ok c /\
    is_Some (fst (ValidateRequest c (MkValidation false false []) (World (fun _ => 0) 0 tt))).
Proof.
  intros body.
  destruct (Introspect (U := unicode_min) (fun _ _ => Ok (200, body)) (fun _ => None)
              (MkIntrospectorConfig "https://as" "id" "secret" 0) "tok") as [c|e] eqn:E;
    [|vm_compute in E; discriminate E].
  exists c. split; [reflexivity|].
  exact (introspected_token_never_fapi (U := unicode_min) _ _ _ _ c (MkValidation false false [])
           (World (fun _ => 0) 0 tt) E).
Defined.

(** Pushed requests.  When [Push] returns a [request_uri], the request had
    every mandatory FAPI parameter (client, redirect URI, response type code,
    nonce, state, an S256 challenge), the exchange was made with the endpoint and exactly
    the form of [buildPARForm] under the client's credentials, the server answered
    200 or 201, and the [request_uri] is not empty; an invalid request is
    never sent. *)
Theorem Push_sound {U : Unicode} http_post new_request c req resp :
  Push http_post new_request c req = Ok resp ->
  par_ClientID req <> EmptyString /\ par_RedirectURI req <> EmptyString /\
  par_ResponseType req = "code" /\ par_Nonce req <> EmptyString /\ par_State req <> EmptyString /\
  par_CodeChallenge req <> EmptyString /\ par_CodeChallengeMethod req = "S256" /\
  pr_RequestURI resp <> EmptyString /\
  exists status body,
    http_post (pc_endpoint c) (buildPARForm req) (Some (par_ClientID req, par_ClientSecret req)) = Ok (status, body) /\
    (status = StatusOK \/ status = StatusCreated) /\
    buildPARForm req !! "code_challenge" = Some (par_CodeChallenge req) /\
    buildPARForm req !! "code_challenge_method" = Some "S256" /\
    buildPARForm req !! "state" = Some (par_State req) /\
    buildPARForm req !! "nonce" = Some (par_Nonce req) /\
    buildPARForm req !! "redirect_uri" = Some (par_RedirectURI req) /\
    buildPARForm req !! "client_id" = Some (par_ClientID req).
Proof.
  unfold Push. destruct (validatePARRequest req) as [e|] eqn:Hv; [done|].
  unfold validatePARRequest in Hv.
  destruct (String.eqb_spec (par_ClientID req) EmptyString) as [|Hc]; [done|].
  destruct (String.eqb_spec (par_RedirectURI req) EmptyString) as [|Hr]; [done|].
  destruct (String.eqb_spec (par_ResponseType req) "code") as [Ht|]; [|done].
  destruct (String.eqb_spec (par_Nonce req) EmptyString) as [|Hn]; [done|].
  destruct (String.eqb_spec (par_State req) EmptyString) as [|Hs]; [done|].
  destruct (String.eqb_spec (par_CodeChallenge req) EmptyString) as [|Hcc]; [done|].
  destruct (String.eqb_spec (par_CodeChallengeMethod req) "S256") as [Hm|]; [|done].
  cbn [negb]. destruct (new_request _); [done|].
  destruct (http_post _ _ _) as [[status body]|e] eqn:Hpost; [|done].
  destruct (_ && _) eqn:Hst.
  { intros H. repeat case_match; discriminate H. }
  destruct (_ ≫= _) as [pr|]; [|done].
  destruct (String.eqb_spec (pr_RequestURI pr) EmptyString) as [|Hu]; [done|]. intros [= <-].
  repeat (split; [done|]). exists status, body. split; [done|]. split.
  { apply andb_false_iff in Hst as [Hst|Hst]; b2p; auto. }
  unfold buildPARForm.
  destruct (negb (String.eqb (par_Resource req) EmptyString)),
           (negb (String.eqb (par_AuthorizationDetails req) EmptyString));
    repeat split; repeat (rewrite lookup_insert_ne by done); by rewrite lookup_insert_eq, ?Hm.
Qed.

Definition demo_par : PARRequest :=
  MkPARRequest "code" "client" "https://app/cb" "openid" "st" "no" "chal" "S256" "" "" "sec".

Example Push_sound_witness :
  par_CodeChallengeMethod demo_par = "S256" /\
  buildPARForm demo_par !! "state" = Some "st".
Proof.
  assert (H := Push_sound (U := unicode_min)
    (fun _ _ _ => Ok (201, json_object [("request_uri", json_quote "urn:x"); ("expires_in", fmt_d 60)]))
    (fun _ => None) (NewPARClient "https://as/par") demo_par (MkPARResponse "urn:x" 60)
    ltac:(vm_compute; reflexivity)).
  split; [apply H|]. by destruct H as (_ & _ & _ & _ & _ & _ & _ & _ & s & b & _ & _ & _ & _ & Hs & _).
Defined.
