(* ===== verification/Providers.v ===== *)
(** * Identity providers: [pkg/providers]

    The [Provider] interface, the generic OIDC adapter with its discovery
    state, and the Auth0 and Keycloak wrappers.  HTTP exchanges are
    parameters. *)

From S2P Require Import Prelude GoString GoTime Encoding Json TextLemmas TimeText Http Rar Claims.

(** The interface as a record of operations on a provider state [P]. *)
Class Provider (P : Type) := {
  pv_Introspect : P -> string -> res CommonClaims;
  pv_JWKS : P -> res string;
  pv_RefreshConfig : P -> option error * P;
  pv_Name : P -> string;
  pv_Issuer : P -> string
}.

Record OIDCDiscovery := MkDiscovery {
  od_Issuer : string;
  od_AuthorizationEndpoint : string;
  od_TokenEndpoint : string;
  od_IntrospectionEndpoint : string;
  od_JWKSUri : string;
  od_UserinfoEndpoint : string;
  od_SupportedACRValues : list string;
  od_SupportedAMRValues : list string;
  od_ScopesSupported : list string
}.

Definition discovery_names : list string :=
  ["issuer"; "authorization_endpoint"; "token_endpoint"; "introspection_endpoint"; "jwks_uri";
   "userinfo_endpoint"; "acr_values_supported"; "amr_values_supported"; "scopes_supported"].

Definition discovery_set (name raw : string) (j : json) (d : OIDCDiscovery) : option OIDCDiscovery :=
  let '(MkDiscovery iss auth tok intro jwks user acr amr scopes) := d in
  if String.eqb name "issuer" then v ← dec_string iss j;
    Some (MkDiscovery v auth tok intro jwks user acr amr scopes)
  else if String.eqb name "authorization_endpoint" then v ← dec_string auth j;
    Some (MkDiscovery iss v tok intro jwks user acr amr scopes)
  else if String.eqb name "token_endpoint" then v ← dec_string tok j;
    Some (MkDiscovery iss auth v intro jwks user acr amr scopes)
  else if String.eqb name "introspection_endpoint" then v ← dec_string intro j;
    Some (MkDiscovery iss auth tok v jwks user acr amr scopes)
  else if String.eqb name "jwks_uri" then v ← dec_string jwks j;
    Some (MkDiscovery iss auth tok intro v user acr amr scopes)
  else if String.eqb name "userinfo_endpoint" then v ← dec_string user j;
    Some (MkDiscovery iss auth tok intro jwks v acr amr scopes)
  else if String.eqb name "acr_values_supported" then v ← dec_strings acr j;
    Some (MkDiscovery iss auth tok intro jwks user v amr scopes)
  else if String.eqb name "amr_values_supported" then v ← dec_strings amr j;
    Some (MkDiscovery iss auth tok intro jwks user acr v scopes)
  else v ← dec_strings scopes j;
    Some (MkDiscovery iss auth tok intro jwks user acr amr v).

Definition discovery_zero : OIDCDiscovery :=
  MkDiscovery EmptyString EmptyString EmptyString EmptyString EmptyString EmptyString [] [] [].

(** ** [generic/adapter.go] *)

Record GenericConfig := MkGenericConfig {
  gc_DiscoveryURL : string;
  gc_ClientID : string;
  gc_ClientSecret : string
}.

(** [ga_discovery] and [ga_introspector] are set together by [RefreshConfig]. *)
Record Adapter := MkAdapter {
  ga_cfg : GenericConfig;
  ga_discovery : option OIDCDiscovery;
  ga_introspector : option IntrospectorConfig
}.

Module Generic.
Definition New (cfg : GenericConfig) : Adapter := MkAdapter cfg None None.
Definition Name (a : Adapter) : string := "generic-oidc".


Definition Issuer (a : Adapter) : string :=
  match ga_discovery a with Some d => od_Issuer d | None => EmptyString end.

Section Http.
Context {U : Unicode}.
(** GET of a URL: the status is not looked at, only the body; the error of
    building the request, of making it. *)
Context (http_get : string -> res string).
Context (http_post : IntrospectorConfig -> list (string * string) -> res (Z * string)).
Context (new_request : string -> option error).

Definition RefreshConfig (a : Adapter) : option error * Adapter :=
  match new_request (gc_DiscoveryURL (ga_cfg a)) with
  | Some e => (Some (errorw "building discovery request" e), a)
  | None =>
  match http_get (gc_DiscoveryURL (ga_cfg a)) with
  | Err e => (Some (errorw "fetching discovery document" e), a)
  | Ok body =>
  match j ← json_Decode body; dec_struct discovery_names discovery_set discovery_zero j with
  | None => (Some (errorw "decoding discovery document" json_error), a)
  | Some doc =>
      let introspector := NewIntrospector
        (MkIntrospectorConfig (od_IntrospectionEndpoint doc) (gc_ClientID (ga_cfg a))
           (gc_ClientSecret (ga_cfg a)) 0) in
      (None, MkAdapter (ga_cfg a) (Some doc) (Some introspector))
  end end end.

Definition Introspect (a : Adapter) (rawToken : string) : res CommonClaims :=
  match ga_introspector a with
  | None => Err (errorf "provider not initialized: call RefreshConfig first")
  | Some intro => Claims.Introspect http_post new_request intro rawToken
  end.

Definition JWKS (a : Adapter) : res string :=
  let unavailable := Err (errorf "JWKS URI not available, call RefreshConfig first") in
  match ga_discovery a with
  | None => unavailable
  | Some disc =>
      if String.eqb (od_JWKSUri disc) EmptyString then unavailable else
      match new_request (od_JWKSUri disc) with
      | Some e => Err e
      | None =>
          let? body := http_get (od_JWKSUri disc) in
          match json_Decode body with
          | None => Err json_error
          | Some _ => Ok body
          end
      end
  end.

#[export] Instance generic_provider : Provider Adapter := {|
  pv_Introspect := Introspect;
  pv_JWKS := JWKS;
  pv_RefreshConfig := RefreshConfig;
  pv_Name := Name;
  pv_Issuer := Issuer
|}.
End Http.
End Generic.

(** ** The wrappers: a generic adapter with a name and a discovery URL of
    their own *)

(** [auth0/adapter.go] *)
Module Auth0.
Record Config := MkConfig {
  cfg_Domain : string;
  cfg_ClientID : string;
  cfg_ClientSecret : string;
  cfg_Audience : string
}.

Record Adapter := MkAdapter { a0_inner : Providers.Adapter; a0_cfg : Config }.

Definition New (cfg : Config) : Adapter :=
  MkAdapter (Generic.New (MkGenericConfig ("https://" +:+ cfg_Domain cfg +:+ "/.well-known/openid-configuration")
    (cfg_ClientID cfg) (cfg_ClientSecret cfg))) cfg.
Definition Name (a : Adapter) : string := "auth0".
Definition Issuer (a : Adapter) : string := Generic.Issuer (a0_inner a).

Section Http.
Context {U : Unicode}.
Context (http_get : string -> res string).
Context (http_post : IntrospectorConfig -> list (string * string) -> res (Z * string)).
Context (new_request : string -> option error).

Definition RefreshConfig (a : Adapter) : option error * Adapter :=
  let '(err, inner) := Generic.RefreshConfig http_get new_request (a0_inner a) in
  (err, MkAdapter inner (a0_cfg a)).
Definition Introspect (a : Adapter) (rawToken : string) : res CommonClaims :=
  Generic.Introspect http_post new_request (a0_inner a) rawToken.
Definition JWKS (a : Adapter) : res string := Generic.JWKS http_get new_request (a0_inner a).

#[export] Instance auth0_provider : Provider Adapter := {|
  pv_Introspect := Introspect;
  pv_JWKS := JWKS;
  pv_RefreshConfig := RefreshConfig;
  pv_Name := Name;
  pv_Issuer := Issuer
|}.
End Http.
End Auth0.

(** [keycloak/adapter.go] *)
Module Keycloak.
Record Config := MkConfig {
  cfg_BaseURL : string;
  cfg_Realm : string;
  cfg_ClientID : string;
  cfg_ClientSecret : string
}.

Record Adapter := MkAdapter { kc_inner : Providers.Adapter; kc_cfg : Config }.

Definition New (cfg : Config) : Adapter :=
  MkAdapter (Generic.New (MkGenericConfig (cfg_BaseURL cfg +:+ "/realms/" +:+ cfg_Realm cfg +:+ "/.well-known/openid-configuration")
    (cfg_ClientID cfg) (cfg_ClientSecret cfg))) cfg.
Definition Name (a : Adapter) : string := "keycloak".
Definition Issuer (a : Adapter) : string := Generic.Issuer (kc_inner a).

Section Http.
Context {U : Unicode}.
Context (http_get : string -> res string).
Context (http_post : IntrospectorConfig -> list (string * string) -> res (Z * string)).
Context (new_request : string -> option error).

Definition RefreshConfig (a : Adapter) : option error * Adapter :=
  let '(err, inner) := Generic.RefreshConfig http_get new_request (kc_inner a) in
  (err, MkAdapter inner (kc_cfg a)).
Definition Introspect (a : Adapter) (rawToken : string) : res CommonClaims :=
  Generic.Introspect http_post new_request (kc_inner a) rawToken.
Definition JWKS (a : Adapter) : res string := Generic.JWKS http_get new_request (kc_inner a).

#[export] Instance keycloak_provider : Provider Adapter := {|
  pv_Introspect := Introspect;
  pv_JWKS := JWKS;
  pv_RefreshConfig := RefreshConfig;
  pv_Name := Name;
  pv_Issuer := Issuer
|}.
End Http.
End Keycloak.

(** ** The adapter's lifecycle *)

(** The states [RefreshConfig] produces from a new adapter, whatever the network
    answers each time. *)
Inductive adapter_reach {U : Unicode} (a0 : Adapter) : Adapter -> Prop :=
| reach_new : adapter_reach a0 a0
| reach_refresh http_get new_request a :
    adapter_reach a0 a -> adapter_reach a0 (snd (Generic.RefreshConfig http_get new_request a)).

(** An adapter fails closed before discovery and stays consistent after it.
    In every reachable state of a new adapter the configuration is unchanged,
    and either no discovery ever succeeded, [Issuer] is empty and [Introspect]
    is an error, or a document was decoded, [Issuer] is its issuer, and tokens
    are sent to the introspection endpoint of that same document with the
    configured credentials.  A failed refresh keeps the previous state. *)
Theorem adapter_consistent {U : Unicode} a0 a :
  ga_discovery a0 = None -> ga_introspector a0 = None ->
  adapter_reach a0 a ->
  ga_cfg a = ga_cfg a0 /\
  ((ga_discovery a = None /\ Generic.Issuer a = EmptyString /\
    forall post nr token, exists e, Generic.Introspect post nr a token = Err e) \/
   (exists doc, ga_discovery a = Some doc /\ Generic.Issuer a = od_Issuer doc /\
    forall post nr token, Generic.Introspect post nr a token =
      Claims.Introspect post nr
        (MkIntrospectorConfig (od_IntrospectionEndpoint doc) (gc_ClientID (ga_cfg a0))
           (gc_ClientSecret (ga_cfg a0)) (5 * Second)) token)).
Proof.
  intros Hd Hi Hr. induction Hr as [|get nr a Hr IH].
  - split; [done|]. left. split; [done|]. unfold Generic.Issuer, Generic.Introspect.
    rewrite Hd, Hi. split; [done|]. intros. by eexists.
  - unfold Generic.RefreshConfig.
    destruct (nr _); [exact IH|]. destruct (get _) as [body|e]; [|exact IH].
    destruct (_ ≫= _) as [doc|]; [|exact IH]. cbn [snd ga_cfg].
    destruct IH as (-> & _). split; [done|]. right. exists doc.
    split; [done|]. split; [done|]. done.
Qed.

Example adapter_consistent_witness :
  let cfg := MkGenericConfig "https://as/.well-known/openid-configuration" "id" "secret" in
  let doc := json_object [("issuer", json_quote "https://as");
                          ("introspection_endpoint", json_quote "https://as/introspect")] in
  let a := snd (Generic.RefreshConfig (U := unicode_min) (fun _ => Ok doc) (fun _ => None) (Generic.New cfg)) in
  Generic.Issuer a = "https://as" /\ ga_cfg a = cfg.
Proof.
  intros cfg doc a. split; [vm_compute; reflexivity|].
  apply (adapter_consistent (U := unicode_min) (Generic.New cfg) a); [reflexivity|reflexivity|].
  apply (reach_refresh (U := unicode_min)). apply reach_new.
Defined.

(** The state of an adapter after refreshes whose requests were answered as
    listed. *)
Definition refreshes {A} (refresh : (string -> res string) -> A -> option error * A)
    (answers : list (string -> res string)) (a : A) : A :=
  foldl (fun a get => (refresh get a).2) a answers.

Lemma wrapper_refreshes {A} (inner : A -> Adapter) refresh generic answers a :
  (forall get a, inner (refresh get a).2 = (generic get (inner a)).2) ->
  inner (refreshes refresh answers a) = refreshes generic answers (inner a).
Proof.
  intros H. unfold refreshes. revert a. induction answers as [|g l IH]; intros a; [done|].
  cbn [foldl]. by rewrite IH, H.
Qed.

Section Wrappers.
Context {U : Unicode} (nr : string -> option error).
Context (get : string -> res string) (post : IntrospectorConfig -> list (string * string) -> res (Z * string)).
Let generic_after answers a := refreshes (fun g => Generic.RefreshConfig g nr) answers a.

(** The wrappers are their generic adapter: after any refreshes, tokens and
    keys are asked for exactly as the generic adapter of the provider's
    discovery URL and credentials would. *)
Lemma Auth0_wraps answers cfg :
  let a := refreshes (fun g => Auth0.RefreshConfig g nr) answers (Auth0.New cfg) in
  let i := generic_after answers (Auth0.a0_inner (Auth0.New cfg)) in
  (forall t, Auth0.Introspect post nr a t = Generic.Introspect post nr i t) /\
  Auth0.JWKS get nr a = Generic.JWKS get nr i /\ Auth0.Issuer a = Generic.Issuer i.
Proof.
  intros a i. unfold Auth0.Introspect, Auth0.JWKS, Auth0.Issuer. subst a i generic_after.
  rewrite (wrapper_refreshes Auth0.a0_inner _ (fun g => Generic.RefreshConfig g nr)); [done|].
  intros g a. unfold Auth0.RefreshConfig. by destruct (Generic.RefreshConfig _ _ _).
Qed.

Lemma Keycloak_wraps answers cfg :
  let a := refreshes (fun g => Keycloak.RefreshConfig g nr) answers (Keycloak.New cfg) in
  let i := generic_after answers (Keycloak.kc_inner (Keycloak.New cfg)) in
  (forall t, Keycloak.Introspect post nr a t = Generic.Introspect post nr i t) /\
  Keycloak.JWKS get nr a = Generic.JWKS get nr i /\ Keycloak.Issuer a = Generic.Issuer i.
Proof.
  intros a i. unfold Keycloak.Introspect, Keycloak.JWKS, Keycloak.Issuer. subst a i generic_after.
  rewrite (wrapper_refreshes Keycloak.kc_inner _ (fun g => Generic.RefreshConfig g nr)); [done|].
  intros g a. unfold Keycloak.RefreshConfig. by destruct (Generic.RefreshConfig _ _ _).
Qed.
End Wrappers.
