(* ===== verification/Middleware.v ===== *)
(** * Framework middleware: [pkg/middleware] ([stdlib], [gin], [echo], [grpc])

    Four adapters put the same checks in front of an application: bearer
    token, DPoP proof, provider, policy.  The frameworks' contexts are classes
    of the calls the adapters make on them ([GinContext], [EchoContext], the
    gRPC metadata), with what is used of their behaviour as law classes; the
    standard library's handler works on [Request] and [Response].  The
    reference definition [judge] is what all four are compared with.

    Since [Engine.Evaluate] never returns an error, the branches that handle
    one are not reachable and have no counterpart here. *)

From S2P Require Import Prelude GoString GoTime Encoding Crypto Json TextLemmas Http Rar Matcher Policy StepUp Claims Effects Cache Dpop Fapi Providers.
Open Scope Z_scope.

(** The four packages declare the same [Config]. *)
Record MwConfig (P : Type) := MkMwConfig {
  mc_Provider : P;
  mc_PolicyEngine : option Engine;
  mc_Realm : string;
  mc_EnableDPoP : bool
}.
Arguments MkMwConfig {P} _ _ _ _.
Arguments mc_Provider {P} _.
Arguments mc_PolicyEngine {P} _.
Arguments mc_Realm {P} _.
Arguments mc_EnableDPoP {P} _.

(** A value of type [interface{}] as the contexts carry it: the claims, or a
    value of another type. *)
Inductive any := AnyClaims (c : CommonClaims) | AnyOther.

(** [context.Context]: the values attached to it, latest first; a key is the
    name of its type with its value. *)
Abbreviation GoContext := (list (string * any)) (only parsing).
Definition WithValue (ctx : GoContext) (key : string) (v : any) : GoContext := (key, v) :: ctx.
Definition ctx_Value (ctx : GoContext) (key : string) : option any :=
  snd <$> List.find (fun kv => String.eqb kv.1 key) ctx.

(** [v.( *token.CommonClaims)], with the second result as an option. *)
Definition as_claims (v : option any) : option CommonClaims :=
  match v with Some (AnyClaims c) => Some c | _ => None end.

Section Adapters.
Context {U : Unicode} {Sig : Signatures} {P : Type} `{!Provider P}.
(** The n-th draw of [crypto/rand]; the state counts the draws. *)
Context (rand : nat -> string).

(** [sm.BeginChallenge(r, challenge)] *)
Definition sm_BeginChallenge (r : Request) (challenge : StepUpChallenge) : M nat FlowState :=
  n ← gets id;
  _ ← put (1 + n)%nat;
  now1 ← Now;
  now2 ← Now;
  mret (BeginChallenge (rand n) now1 now2 r challenge).

(** The request to the policy engine, built alike in the four adapters. *)
Definition engine_request (method path : string) (claims : CommonClaims) (age : Duration) : PolicyRequest :=
  MkPolicyRequest method path (cl_ACR claims) (cl_AMR claims) (cl_Scopes claims) age
    (cl_AuthorizationDetails claims).

(** The error of [token.ValidateDPoP], when DPoP is enabled. *)
Definition dpop_error (cfg : MwConfig P) (r : Request) (rawToken : string) : M nat (option error) :=
  if mc_EnableDPoP cfg then
    v ← ValidateDPoP r rawToken DefaultDPoPConfig;
    mret (match v with Ok _ => None | Err e => Some e end)
  else mret None.

(** ** [stdlib/middleware.go] *)

(** The handler answered, or called [next] with the writer and a context. *)
Inductive std_outcome := Answered (w : Response) | Passed (w : Response) (ctx : GoContext).

Definition stdlib_claimsKey : string := "stdlib.contextKey(0)".

Definition stdlib_Middleware (cfg : MwConfig P) (w : Response) (r : Request) (ctx : GoContext)
    : M nat std_outcome :=
  match ExtractBearerToken (Header_Get (rq_Header r) "Authorization") with
  | Err _ =>
      mret (Answered (WriteChallenge (MkChallenge EmptyString 0 ErrCodeInvalidToken
              "missing or invalid bearer token" (mc_Realm cfg)) w))
  | Ok rawToken =>
  dpopErr ← dpop_error cfg r rawToken;
  match dpopErr with
  | Some e =>
      mret (Answered (WriteChallenge (MkChallenge EmptyString 0 ErrCodeInvalidToken
              ("DPoP validation failed: " +:+ err_text e) (mc_Realm cfg)) w))
  | None =>
  let inactive := Answered (WriteChallenge (MkChallenge EmptyString 0 ErrCodeInvalidToken
                    "token inactive or validation failed" (mc_Realm cfg)) w) in
  match pv_Introspect (mc_Provider cfg) rawToken with
  | Err _ => mret inactive
  | Ok claims =>
  if negb (cl_Active claims) then mret inactive else
  let next := Passed w (WithValue ctx stdlib_claimsKey (AnyClaims claims)) in
  match mc_PolicyEngine cfg with
  | None => mret next
  | Some engine =>
      age ← AuthAge_now claims;
      let result := Evaluate engine (engine_request (rq_Method r) (rq_Path r) claims age) in
      if negb (pr_Allowed result) then
        let stepErr := NewInsufficientACRError (pr_RequiredACR result) (pr_RequiredMaxAge result) in
        let challenge := NewStepUpChallenge stepErr (mc_Realm cfg) in
        _ ← sm_BeginChallenge r challenge;
        mret (Answered (WriteChallenge challenge w))
      else mret next
  end end end end.

Definition stdlib_ClaimsFromContext (ctx : GoContext) : option CommonClaims :=
  as_claims (ctx_Value ctx stdlib_claimsKey).
End Adapters.

(** ** [gin/middleware.go] *)

(** The calls on a [*gin.Context]. *)
Class GinContext (C : Type) := {
  gin_Request : C -> Request;
  gin_GetHeader : C -> string -> string;
  gin_Header : string -> string -> C -> C;
  gin_AbortWithStatusJSON : Z -> list (string * string) -> C -> C;
  gin_Set : string -> any -> C -> C;
  gin_Get : C -> string -> option any
}.

(** Returning without [c.Next()] leaves the rest of the chain to gin, which
    runs it unless the context was aborted. *)
Inductive gin_outcome (C : Type) := GinReturned (c : C) | GinNext (c : C).
Arguments GinReturned {C} _.
Arguments GinNext {C} _.

Definition mw_claimsKey : string := "iam_claims".

Section Gin.
Context {U : Unicode} {Sig : Signatures} {P : Type} `{!Provider P} {C : Type} `{!GinContext C}.
Context (rand : nat -> string).

(** The [gin.H] of the bodies. *)
Definition error_body (errCode desc : string) : list (string * string) :=
  [("error", errCode); ("error_description", desc)].

Definition gin_issueChallenge (c : C) (realm errCode desc acrValues : string) (maxAge : Z) : C :=
  let ch := MkChallenge acrValues maxAge errCode desc realm in
  gin_AbortWithStatusJSON StatusUnauthorized (error_body errCode desc)
    (gin_Header "WWW-Authenticate" (WWWAuthenticateHeader ch) c).

Definition gin_Middleware (cfg : MwConfig P) (c : C) : M nat (gin_outcome C) :=
  let refuse desc := GinReturned (gin_issueChallenge c (mc_Realm cfg) ErrCodeInvalidToken desc EmptyString 0) in
  match ExtractBearerToken (gin_GetHeader c "Authorization") with
  | Err _ => mret (refuse "missing or invalid bearer token")
  | Ok rawToken =>
  dpopErr ← dpop_error cfg (gin_Request c) rawToken;
  match dpopErr with
  | Some e => mret (refuse ("DPoP validation failed: " +:+ err_text e))
  | None =>
  match pv_Introspect (mc_Provider cfg) rawToken with
  | Err _ => mret (refuse "token inactive or validation failed")
  | Ok claims =>
  if negb (cl_Active claims) then mret (refuse "token inactive or validation failed") else
  let next := GinNext (gin_Set mw_claimsKey (AnyClaims claims) c) in
  match mc_PolicyEngine cfg with
  | None => mret next
  | Some engine =>
      age ← AuthAge_now claims;
      let r := gin_Request c in
      let result := Evaluate engine (engine_request (rq_Method r) (rq_Path r) claims age) in
      if negb (pr_Allowed result) then
        let stepErr := NewInsufficientACRError (pr_RequiredACR result) (pr_RequiredMaxAge result) in
        let challenge := NewStepUpChallenge stepErr (mc_Realm cfg) in
        _ ← sm_BeginChallenge rand r challenge;
        mret (GinReturned
          (gin_AbortWithStatusJSON StatusUnauthorized
             (error_body (ch_Error challenge) (ch_ErrorDescription challenge))
             (gin_Header "WWW-Authenticate" (WWWAuthenticateHeader challenge) c)))
      else mret next
  end end end end.

Definition gin_ClaimsFromContext (c : C) : option CommonClaims := as_claims (gin_Get c mw_claimsKey).
End Gin.

(** ** [echo/middleware.go] *)

(** The calls on an [echo.Context]; [echo_SetHeader] is
    [c.Response().Header().Set], and [echo_Get] answers [None] for nil. *)
Class EchoContext (C : Type) := {
  echo_Request : C -> Request;
  echo_SetHeader : string -> string -> C -> C;
  echo_JSON : Z -> list (string * string) -> C -> option error * C;
  echo_Set : string -> any -> C -> C;
  echo_Get : C -> string -> option any
}.

(** The handler returned an error value, or [next(c)]. *)
Inductive echo_outcome (C : Type) := EchoReturned (e : option error) (c : C) | EchoNext (c : C).
Arguments EchoReturned {C} _ _.
Arguments EchoNext {C} _.

Section Echo.
Context {U : Unicode} {Sig : Signatures} {P : Type} `{!Provider P} {C : Type} `{!EchoContext C}.
Context (rand : nat -> string).

Definition echoChallenge (c : C) (realm errCode desc acrValues : string) (maxAge : Z) : echo_outcome C :=
  let ch := MkChallenge acrValues maxAge errCode desc realm in
  let '(e, c') := echo_JSON StatusUnauthorized (error_body errCode desc)
                    (echo_SetHeader "WWW-Authenticate" (WWWAuthenticateHeader ch) c) in
  EchoReturned e c'.

Definition echo_Middleware (cfg : MwConfig P) (c : C) : M nat (echo_outcome C) :=
  let refuse desc := echoChallenge c (mc_Realm cfg) ErrCodeInvalidToken desc EmptyString 0 in
  let r := echo_Request c in
  match ExtractBearerToken (Header_Get (rq_Header r) "Authorization") with
  | Err _ => mret (refuse "missing or invalid bearer token")
  | Ok rawToken =>
  dpopErr ← dpop_error cfg r rawToken;
  match dpopErr with
  | Some e => mret (refuse ("DPoP validation failed: " +:+ err_text e))
  | None =>
  match pv_Introspect (mc_Provider cfg) rawToken with
  | Err _ => mret (refuse "token inactive or validation failed")
  | Ok claims =>
  if negb (cl_Active claims) then mret (refuse "token inactive or validation failed") else
  let next := EchoNext (echo_Set mw_claimsKey (AnyClaims claims) c) in
  match mc_PolicyEngine cfg with
  | None => mret next
  | Some engine =>
      age ← AuthAge_now claims;
      let result := Evaluate engine (engine_request (rq_Method r) (rq_Path r) claims age) in
      if negb (pr_Allowed result) then
        let stepErr := NewInsufficientACRError (pr_RequiredACR result) (pr_RequiredMaxAge result) in
        let challenge := NewStepUpChallenge stepErr (mc_Realm cfg) in
        _ ← sm_BeginChallenge rand r challenge;
        mret (echoChallenge c (mc_Realm cfg) (ch_Error challenge) (ch_ErrorDescription challenge)
                (ch_ACRValues challenge) (ch_MaxAge challenge))
      else mret next
  end end end end.

Definition echo_ClaimsFromContext (c : C) : option CommonClaims := as_claims (echo_Get c mw_claimsKey).
End Echo.

(** ** [grpc/interceptor.go] *)

(** [codes.Code], and a [*status.Status] error. *)
Inductive Code := Unauthenticated | PermissionDenied.
Record rpc_status := Status { st_code : Code; st_message : string }.

Definition grpc_claimsKey : string := "grpc.contextKey(0)".

Section Grpc.
Context {U : Unicode} {P : Type} `{!Provider P} {MD : Type}.
(** [metadata.FromIncomingContext], [md.Get], and the text of a status error. *)
Context (FromIncomingContext : GoContext -> option MD) (md_Get : MD -> string -> list string).
Context (status_text : rpc_status -> string).

Definition extractBearerFromMetadata (ctx : GoContext) : res string :=
  match FromIncomingContext ctx with
  | None => Err (errorf (status_text (Status Unauthenticated "no metadata")))
  | Some md =>
      match md_Get md "authorization" with
      | [] => ExtractBearerToken EmptyString
      | v :: _ => ExtractBearerToken v
      end
  end.

(** The message of a denial. *)
Definition denial_message (result : PolicyResult) : string :=
  if negb (String.eqb (pr_RequiredACR result) EmptyString)
  then "insufficient authentication context: acr=" +:+ pr_RequiredACR result +:+ " required"
  else if negb (String.eqb (pr_Reason result) EmptyString) then pr_Reason result
  else "access denied".

Definition authenticate (ctx : GoContext) (fullMethod : string) (cfg : MwConfig P)
    : M nat (GoContext * option rpc_status) :=
  match extractBearerFromMetadata ctx with
  | Err e => mret (ctx, Some (Status Unauthenticated ("missing or invalid bearer token: " +:+ err_text e)))
  | Ok rawToken =>
  let inactive := (ctx, Some (Status Unauthenticated "token inactive or validation failed")) in
  match pv_Introspect (mc_Provider cfg) rawToken with
  | Err _ => mret inactive
  | Ok claims =>
  if negb (cl_Active claims) then mret inactive else
  let attached := (WithValue ctx grpc_claimsKey (AnyClaims claims), None) in
  match mc_PolicyEngine cfg with
  | None => mret attached
  | Some engine =>
      age ← AuthAge_now claims;
      let result := Evaluate engine (engine_request "RPC" fullMethod claims age) in
      if negb (pr_Allowed result)
      then mret (ctx, Some (Status PermissionDenied (denial_message result)))
      else mret attached
  end end end.

(** The interceptors: the status returned, or the arguments of the handler. *)
Definition UnaryInterceptor {Req} (cfg : MwConfig P) (ctx : GoContext) (req : Req) (fullMethod : string)
    : M nat (rpc_status + GoContext * Req) :=
  a ← authenticate ctx fullMethod cfg;
  let '(ctx', err) := a in
  mret (match err with Some st => inl st | None => inr (ctx', req) end).

(** [wrappedStream]: the stream with its [Context] replaced. *)
Record wrappedStream (SS : Type) := MkWrapped { ws_ServerStream : SS; ws_ctx : GoContext }.
Arguments MkWrapped {SS} _ _.
Arguments ws_ctx {SS} _.
Definition wrappedStream_Context {SS} (w : wrappedStream SS) : GoContext := ws_ctx w.

Definition StreamInterceptor {Srv SS} (ss_Context : SS -> GoContext) (cfg : MwConfig P) (srv : Srv) (ss : SS)
    (fullMethod : string) : M nat (rpc_status + Srv * wrappedStream SS) :=
  a ← authenticate (ss_Context ss) fullMethod cfg;
  let '(ctx', err) := a in
  mret (match err with Some st => inl st | None => inr (srv, MkWrapped ss ctx') end).

Definition grpc_ClaimsFromContext (ctx : GoContext) : option CommonClaims :=
  as_claims (ctx_Value ctx grpc_claimsKey).
End Grpc.
Arguments MkWrapped {SS} _ _.
Arguments ws_ServerStream {SS} _.
Arguments ws_ctx {SS} _.

Definition MethodToPath (fullMethod : string) : string := TrimPrefix fullMethod "/".

(** ** The reference: one decision, four renderings *)

(** What becomes of a request, with what the rendering needs. *)
Inductive verdict :=
| Admit (c : CommonClaims)
| NoToken (e : error)
| BadProof (e : error)
| NotActive
| Denied (result : PolicyResult).

Section Reference.
Context {U : Unicode} {Sig : Signatures} {P : Type} `{!Provider P}.

Definition judge (cfg : MwConfig P) (token : res string) (check : string -> M nat (option error))
    (method path : string) : M nat verdict :=
  match token with
  | Err e => mret (NoToken e)
  | Ok rawToken =>
  bad ← check rawToken;
  match bad with
  | Some e => mret (BadProof e)
  | None =>
  match pv_Introspect (mc_Provider cfg) rawToken with
  | Err _ => mret NotActive
  | Ok c =>
  if negb (cl_Active c) then mret NotActive else
  match mc_PolicyEngine cfg with
  | None => mret (Admit c)
  | Some engine =>
      age ← AuthAge_now c;
      let result := Evaluate engine (engine_request method path c age) in
      mret (if pr_Allowed result then Admit c else Denied result)
  end end end end.

Definition http_judge (cfg : MwConfig P) (r : Request) : M nat verdict :=
  judge cfg (ExtractBearerToken (Header_Get (rq_Header r) "Authorization")) (dpop_error cfg r)
    (rq_Method r) (rq_Path r).

(** The challenge an HTTP adapter answers with. *)
Definition challenge_of (realm : string) (v : verdict) : option StepUpChallenge :=
  let refuse desc := Some (MkChallenge EmptyString 0 ErrCodeInvalidToken desc realm) in
  match v with
  | Admit _ => None
  | NoToken _ => refuse "missing or invalid bearer token"
  | BadProof e => refuse ("DPoP validation failed: " +:+ err_text e)
  | NotActive => refuse "token inactive or validation failed"
  | Denied result =>
      Some (NewStepUpChallenge (NewInsufficientACRError (pr_RequiredACR result) (pr_RequiredMaxAge result)) realm)
  end.

(** A denial also begins a flow. *)
Definition begin_if_denied (rand : nat -> string) (realm : string) (r : Request) (v : verdict) : M nat unit :=
  match v, challenge_of realm v with
  | Denied _, Some ch => _ ← sm_BeginChallenge rand r ch; mret tt
  | _, _ => mret tt
  end.

Definition judged (rand : nat -> string) (cfg : MwConfig P) (r : Request) : M nat verdict :=
  v ← http_judge cfg r; _ ← begin_if_denied rand (mc_Realm cfg) r v; mret v.
End Reference.

(** What a client and the application behind an adapter see. *)
Inductive observed :=
| LetThrough (claims : option CommonClaims)
| Refused (status : option Z) (www_authenticate : string).

Definition observe_verdict (realm : string) (v : verdict) : observed :=
  match v, challenge_of realm v with
  | Admit c, _ => LetThrough (Some c)
  | _, Some ch => Refused (Some StatusUnauthorized) (WWWAuthenticateHeader ch)
  | _, None => Refused None EmptyString
  end.

Definition observe_std (o : std_outcome) : observed :=
  match o with
  | Passed _ ctx => LetThrough (stdlib_ClaimsFromContext ctx)
  | Answered w => Refused (rs_Status w) (Header_Get (rs_Header w) "WWW-Authenticate")
  end.

(** What is used of gin: [gin_status] is the status of a response already
    written, and a context that was not aborted goes on to the next handler. *)
Class GinLaws (C : Type) `{!GinContext C} := {
  gin_status : C -> option Z;
  gin_header : C -> string -> string;
  gin_IsAborted : C -> bool;
  gin_GetHeader_request c k : gin_GetHeader c k = Header_Get (rq_Header (gin_Request c)) k;
  gin_Header_header k v c : v <> EmptyString -> gin_header (gin_Header k v c) k = v;
  gin_Header_status k v c : gin_status (gin_Header k v c) = gin_status c;
  gin_Abort_status code b c : gin_status c = None -> gin_status (gin_AbortWithStatusJSON code b c) = Some code;
  gin_Abort_header code b c k :
    k <> "Content-Type" -> gin_header (gin_AbortWithStatusJSON code b c) k = gin_header c k;
  gin_Abort_aborts code b c : gin_IsAborted (gin_AbortWithStatusJSON code b c) = true;
  gin_Get_Set c k v : gin_Get (gin_Set k v c) k = Some v
}.

Definition observe_gin {C} `{GinLaws C} (o : gin_outcome C) : observed :=
  match o with
  | GinNext c => LetThrough (gin_ClaimsFromContext c)
  | GinReturned c =>
      if gin_IsAborted c then Refused (gin_status c) (gin_header c "WWW-Authenticate")
      else LetThrough (gin_ClaimsFromContext c)
  end.

Class EchoLaws (C : Type) `{!EchoContext C} := {
  echo_status : C -> option Z;
  echo_header : C -> string -> string;
  echo_SetHeader_header k v c : echo_header (echo_SetHeader k v c) k = v;
  echo_SetHeader_status k v c : echo_status (echo_SetHeader k v c) = echo_status c;
  echo_JSON_status code b c : echo_status c = None -> echo_status (echo_JSON code b c).2 = Some code;
  echo_JSON_header code b c k :
    k <> "Content-Type" -> echo_header (echo_JSON code b c).2 k = echo_header c k;
  echo_Get_Set c k v : echo_Get (echo_Set k v c) k = Some v
}.

Definition observe_echo {C} `{EchoLaws C} (o : echo_outcome C) : observed :=
  match o with
  | EchoNext c => LetThrough (echo_ClaimsFromContext c)
  | EchoReturned _ c => Refused (echo_status c) (echo_header c "WWW-Authenticate")
  end.

Definition observe_grpc (o : GoContext * option rpc_status) : option CommonClaims :=
  match o with (ctx, None) => grpc_ClaimsFromContext ctx | (_, Some _) => None end.

(** ** The adapters agree *)

Lemma WWWAuthenticateHeader_not_empty ch : WWWAuthenticateHeader ch <> EmptyString.
Proof. unfold WWWAuthenticateHeader. done. Qed.

Section Agreement.
Context {U : Unicode} {Sig : Signatures} {P : Type} `{!Provider P}.
Context (rand : nat -> string).

Lemma observe_WriteChallenge ch w :
  rs_Status w = None ->
  observe_std (Answered (WriteChallenge ch w)) = Refused (Some StatusUnauthorized) (WWWAuthenticateHeader ch).
Proof.
  intros Hw. unfold observe_std, WriteChallenge, SetHeader, WriteHeader, Write.
  cbn [rs_Status rs_Header]. rewrite Hw. cbn [default].
  by rewrite Header_Get_Set_other, Header_Get_Set_same by done.
Qed.

(** Follow an adapter and the reference through the same decisions; [fin]
    closes each outcome. *)
Ltac follow_checks fin :=
  unfold judged, http_judge, judge, mbind, M_bind, mret, M_ret;
  destruct (ExtractBearerToken _) as [raw|e]; [|fin];
  destruct (dpop_error _ _ raw _) as [[e|] st1]; [by fin|];
  destruct (pv_Introspect _ raw) as [cl|e]; [|fin];
  destruct (cl_Active cl); cbn [negb]; [|fin];
  destruct (mc_PolicyEngine _) as [engine|]; [|fin];
  destruct (AuthAge_now cl st1) as [age st2]; cbv zeta;
  destruct (pr_Allowed _) eqn:Hallowed; cbn [negb]; [fin|];
  unfold begin_if_denied, mbind, M_bind, mret, M_ret; cbn [challenge_of];
  destruct (sm_BeginChallenge _ _ _ st2) as [flow st3]; fin.

Lemma stdlib_judged cfg w r ctx st :
  rs_Status w = None ->
  prod_map observe_std id (stdlib_Middleware rand cfg w r ctx st) =
  prod_map (observe_verdict (mc_Realm cfg)) id (judged rand cfg r st).
Proof.
  intros Hw. pose proof (fun ch => observe_WriteChallenge ch w Hw) as Ho.
  unfold stdlib_Middleware.
  follow_checks ltac:(unfold prod_map; cbn [fst snd begin_if_denied]; rewrite ?Ho; reflexivity).
Qed.

Lemma observe_gin_challenge {C} `{GinLaws C} (c : C) realm errCode desc acrValues maxAge :
  gin_status c = None ->
  observe_gin (GinReturned (gin_issueChallenge c realm errCode desc acrValues maxAge)) =
  Refused (Some StatusUnauthorized) (WWWAuthenticateHeader (MkChallenge acrValues maxAge errCode desc realm)).
Proof.
  intros Hc. unfold observe_gin, gin_issueChallenge.
  rewrite gin_Abort_aborts, gin_Abort_status by (by rewrite gin_Header_status).
  by rewrite gin_Abort_header, gin_Header_header by (done || apply WWWAuthenticateHeader_not_empty).
Qed.

Lemma gin_judged {C} `{GinLaws C} cfg (c : C) st :
  gin_status c = None ->
  prod_map observe_gin id (gin_Middleware rand cfg c st) =
  prod_map (observe_verdict (mc_Realm cfg)) id (judged rand cfg (gin_Request c) st).
Proof.
  intros Hc. unfold gin_Middleware. rewrite gin_GetHeader_request.
  pose proof (fun realm code desc acr age => observe_gin_challenge c realm code desc acr age Hc) as Ho.
  pose proof (fun v => gin_Get_Set c mw_claimsKey v) as Hget.
  follow_checks ltac:(unfold prod_map; cbn [fst snd begin_if_denied];
    first [by rewrite Ho | by unfold observe_gin, gin_ClaimsFromContext; rewrite Hget
          | exact (f_equal2 pair (Ho _ _ _ _ _) eq_refl)]).
Qed.

Lemma observe_echo_challenge {C} `{EchoLaws C} (c : C) realm errCode desc acrValues maxAge :
  echo_status c = None ->
  observe_echo (echoChallenge c realm errCode desc acrValues maxAge) =
  Refused (Some StatusUnauthorized) (WWWAuthenticateHeader (MkChallenge acrValues maxAge errCode desc realm)).
Proof.
  intros Hc. unfold echoChallenge.
  destruct (echo_JSON _ _ _) as [e c'] eqn:E. unfold observe_echo.
  replace c' with (echo_JSON StatusUnauthorized (error_body errCode desc) (echo_SetHeader "WWW-Authenticate"
    (WWWAuthenticateHeader (MkChallenge acrValues maxAge errCode desc realm)) c)).2 by (by rewrite E).
  rewrite echo_JSON_status by (by rewrite echo_SetHeader_status).
  by rewrite echo_JSON_header, echo_SetHeader_header.
Qed.

Lemma echo_judged {C} `{EchoLaws C} cfg (c : C) st :
  echo_status c = None ->
  prod_map observe_echo id (echo_Middleware rand cfg c st) =
  prod_map (observe_verdict (mc_Realm cfg)) id (judged rand cfg (echo_Request c) st).
Proof.
  intros Hc. unfold echo_Middleware.
  pose proof (fun realm code desc acr age => observe_echo_challenge c realm code desc acr age Hc) as Ho.
  pose proof (fun v => echo_Get_Set c mw_claimsKey v) as Hget.
  follow_checks ltac:(unfold prod_map; cbn [fst snd begin_if_denied];
    first [by rewrite Ho | by unfold observe_echo, echo_ClaimsFromContext; rewrite Hget]).
Qed.
End Agreement.

(** C17: The HTTP adapters are interchangeable.  On the same request, under the
    same clock, the stdlib, gin and echo middlewares let through the same
    requests, attach the same claims, and refuse the others with the same
    status and the same WWW-Authenticate header; they read the clock and the
    random source alike.  (With the frameworks' documented behaviour as
    [GinLaws] and [EchoLaws], for responses nothing was written to yet.) *)
Theorem http_adapters_agree {U : Unicode} {Sig : Signatures} {P G E} `{!Provider P} `{GinLaws G} `{EchoLaws E}
    rand (cfg : MwConfig P) w ctx (g : G) (e : E) st :
  rs_Status w = None -> gin_status g = None -> echo_status e = None ->
  gin_Request g = echo_Request e ->
  let std := prod_map observe_std id (stdlib_Middleware rand cfg w (echo_Request e) ctx st) in
  prod_map observe_gin id (gin_Middleware rand cfg g st) = std /\
  prod_map observe_echo id (echo_Middleware rand cfg e st) = std.
Proof.
  intros Hw Hg He Hr. cbv zeta. by rewrite stdlib_judged, gin_judged, echo_judged, Hr.
Qed.

(** ** Who is let through *)

Section Admission.
Context {U : Unicode} {Sig : Signatures} {P : Type} `{!Provider P}.

(** What an adapter requires at the instant [t]. *)
Record admissible (cfg : MwConfig P) (token : res string) (method path : string)
    (proof_accepted : string -> Prop) (t : Time) (c : CommonClaims) : Prop := {
  ad_token : exists raw, token = Ok raw /\ proof_accepted raw /\ pv_Introspect (mc_Provider cfg) raw = Ok c;
  ad_active : cl_Active c = true;
  ad_policy : forall engine, mc_PolicyEngine cfg = Some engine ->
    pr_Allowed (Evaluate engine (engine_request method path c (AuthAge t c))) = true
}.

Lemma AuthAge_frozen {T} c (st : world T) t :
  frozen st t -> exists st', AuthAge_now c st = (AuthAge t c, st').
Proof.
  intros Hf. unfold AuthAge_now, AuthAge. destruct (IsZero (cl_AuthTime c)); [by exists st|].
  unfold mbind, M_bind, Now, mret, M_ret. rewrite Hf. by eexists.
Qed.

Lemma judge_admits cfg token check method path accepted t c (st : world nat) :
  frozen st t ->
  (forall raw, exists bad st', check raw st = (bad, st') /\ frozen st' t /\ (bad = None <-> accepted raw)) ->
  (judge cfg token check method path st).1 = Admit c <-> admissible cfg token method path accepted t c.
Proof.
  intros Hf Hcheck. unfold judge. destruct token as [raw|e]; [|split; [done|by intros [(? & [= ] & _)]]].
  destruct (Hcheck raw) as (bad & st' & Hc & Hf' & Hbad). unfold mbind, M_bind. rewrite Hc.
  destruct bad as [e|].
  { split; [done|]. intros [(raw' & [= <-] & Ha & _) _ _]. by apply Hbad in Ha. }
  assert (Hacc : accepted raw) by (by apply Hbad).
  destruct (pv_Introspect _ raw) as [cl|e] eqn:Hi.
  2: { split; [done|]. intros [(raw' & [= <-] & _ & Hi') _ _]. congruence. }
  destruct (cl_Active cl) eqn:Hact; cbn [negb].
  2: { split; [done|]. intros [(raw' & [= <-] & _ & Hi') Ha _]. congruence. }
  destruct (mc_PolicyEngine cfg) as [engine|] eqn:He.
  - destruct (AuthAge_frozen cl st' t Hf') as (st2 & ->). cbn [mret M_ret fst].
    destruct (pr_Allowed _) eqn:Hp; split; try done.
    + intros [= <-]. split; [by exists raw|done|]. intros e' He'. congruence.
    + intros [(raw' & [= <-] & _ & Hi') _ _]. congruence.
    + intros [(raw' & [= <-] & _ & Hi') _ Hpol]. assert (cl = c) as -> by congruence. specialize (Hpol _ He). congruence.
  - split.
    + intros [= <-]. split; [by exists raw|done|]. intros e' He'. congruence.
    + intros [(raw' & [= <-] & _ & Hi') _ _]. cbn. congruence.
Qed.

(** The gRPC adapter asks for no proof. *)
Definition no_check : string -> M nat (option error) := fun _ st => (None, st).

(** The proof of possession an HTTP adapter asks for. *)
Definition dpop_accepted (cfg : MwConfig P) (r : Request) (t : Time) (raw : string) : Prop :=
  mc_EnableDPoP cfg = true -> exists p, proof_ok r raw DefaultDPoPConfig t t t p.

Lemma dpop_error_spec cfg r raw t (st : world nat) :
  frozen st t -> exists bad st', dpop_error cfg r raw st = (bad, st') /\ frozen st' t /\
    (bad = None <-> dpop_accepted cfg r t raw).
Proof.
  intros Hf. unfold dpop_error, dpop_accepted.
  destruct (mc_EnableDPoP cfg); [|by eexists _, _].
  unfold mbind, M_bind. pose proof (ValidateDPoP_spec r raw DefaultDPoPConfig st) as Hs.
  pose proof (ValidateDPoP_later r raw DefaultDPoPConfig st) as Hl.
  destruct (ValidateDPoP _ _ _ st) as [v st']. eexists _, st'. split; [reflexivity|].
  split; [by apply (frozen_later st)|]. unfold reading in Hs. rewrite !Hf in Hs.
  destruct Hs as [(p & Hp & -> & _)|(Hno & (e & ->) & _)]; [split; [intros _ _; by exists p|done]|].
  split; [done|]. intros H. destruct (H eq_refl) as (p & Hp). by destruct (Hno p).
Qed.
End Admission.

(** C12: Who the HTTP adapters let through.  At the instant [t], the stdlib
    middleware (and with it the others) passes a request on, with the claims
    [c] attached, if and only if it carries a bearer token whose claims the
    provider answers as [c], active, with a valid DPoP proof for this request
    and token when DPoP is enabled, and the policy engine, when there is one,
    allows [c] on the request's method and path.  Nothing else is asked: not
    that [c] is bound to the key of the proof, nor that the proof is new. *)
Theorem stdlib_admits {U : Unicode} {Sig : Signatures} {P} `{!Provider P} rand (cfg : MwConfig P) w r ctx t c
    (st : world nat) :
  frozen st t -> rs_Status w = None ->
  observe_std (stdlib_Middleware rand cfg w r ctx st).1 = LetThrough (Some c) <->
  admissible cfg (ExtractBearerToken (Header_Get (rq_Header r) "Authorization")) (rq_Method r) (rq_Path r)
    (dpop_accepted cfg r t) t c.
Proof.
  intros Hf Hw. pose proof (f_equal fst (stdlib_judged rand cfg w r ctx st Hw)) as Hj.
  unfold prod_map in Hj. cbn [fst] in Hj. rewrite Hj. clear Hj.
  rewrite <- (judge_admits cfg _ (dpop_error cfg r) _ _ _ t c st Hf (fun raw => dpop_error_spec cfg r raw t st Hf)).
  unfold judged, http_judge, mbind, M_bind, mret, M_ret.
  destruct (judge cfg _ _ _ _ st) as [v st1]. cbn [fst].
  destruct (begin_if_denied _ _ _ v st1) as [? st2]. cbn [fst].
  unfold observe_verdict. destruct v; cbn [challenge_of]; split; (congruence || done).
Qed.

(** ** gRPC *)

Section GrpcProofs.
Context {U : Unicode} {P : Type} `{!Provider P} {MD : Type}.
Context (FromIncomingContext : GoContext -> option MD) (md_Get : MD -> string -> list string).
Context (status_text : rpc_status -> string).

Definition grpc_status_of (v : verdict) : option rpc_status :=
  match v with
  | Admit _ => None
  | NoToken e => Some (Status Unauthenticated ("missing or invalid bearer token: " +:+ err_text e))
  | BadProof _ | NotActive => Some (Status Unauthenticated "token inactive or validation failed")
  | Denied result => Some (Status PermissionDenied (denial_message result))
  end.

Lemma authenticate_judge cfg ctx fullMethod (st : world nat) :
  authenticate FromIncomingContext md_Get status_text ctx fullMethod cfg st =
  (let '(v, st') := judge cfg (extractBearerFromMetadata FromIncomingContext md_Get status_text ctx)
                      no_check "RPC" fullMethod st in
   ((match v with Admit c => WithValue ctx grpc_claimsKey (AnyClaims c) | _ => ctx end, grpc_status_of v), st')).
Proof.
  unfold authenticate, judge, no_check, mbind, M_bind, mret, M_ret.
  destruct (extractBearerFromMetadata _ _ _ ctx) as [raw|e]; [|done].
  destruct (pv_Introspect _ raw) as [c|e]; [|done]. destruct (cl_Active c); [|done]. cbn [negb].
  destruct (mc_PolicyEngine cfg); [|done]. destruct (AuthAge_now c st) as [age st']. cbv zeta.
  destruct (pr_Allowed _); reflexivity.
Qed.
End GrpcProofs.

(** C34: The gRPC interceptors decide as specified.  At the instant [t],
    [authenticate] succeeds with a context from which [ClaimsFromContext]
    reads [c] if and only if the metadata has a bearer token whose claims the
    provider answers as [c], active, and the policy allows [c] the method
    "RPC" on the full method name.  [UnaryInterceptor] runs the handler exactly
    when it succeeds, on the request with that context, and
    [StreamInterceptor], for a stream with the context given, on the stream
    wrapped so that its [Context] is that one; when it fails they return its
    status and run nothing.  Every failure leaves the context as it was, with
    PermissionDenied exactly for a policy denial and Unauthenticated otherwise.
    [EnableDPoP] plays no role. *)
Theorem grpc_authenticate_spec {U : Unicode} {P MD} `{!Provider P} (FromIncomingContext : GoContext -> option MD)
    md_Get status_text (cfg : MwConfig P) ctx fullMethod t (st : world nat) :
  frozen st t ->
  let auth := authenticate FromIncomingContext md_Get status_text ctx fullMethod cfg st in
  let token := extractBearerFromMetadata FromIncomingContext md_Get status_text ctx in
  (forall c, (auth.1.2 = None /\ grpc_ClaimsFromContext auth.1.1 = Some c) <->
             admissible cfg token "RPC" fullMethod (fun _ => True) t c) /\
  (forall req : string,
     (UnaryInterceptor FromIncomingContext md_Get status_text cfg ctx req fullMethod st).1 =
     match auth.1.2 with Some s => inl s | None => inr (auth.1.1, req) end) /\
  (forall (Srv SS : Type) (ss_Context : SS -> GoContext) (srv : Srv) (ss : SS), ss_Context ss = ctx ->
     match (StreamInterceptor FromIncomingContext md_Get status_text ss_Context cfg srv ss fullMethod st).1 with
     | inl s => auth.1.2 = Some s
     | inr (srv', stream) => auth.1.2 = None /\ srv' = srv /\ ws_ServerStream stream = ss /\
                             wrappedStream_Context stream = auth.1.1
     end) /\
  (forall s, auth.1.2 = Some s -> auth.1.1 = ctx /\
     (st_code s = PermissionDenied <->
      exists raw c, token = Ok raw /\ pv_Introspect (mc_Provider cfg) raw = Ok c /\ cl_Active c = true)).
Proof.
  intros Hf. cbv zeta. split; [|split; [|split]].
  - intros c. rewrite authenticate_judge.
    rewrite <- (judge_admits cfg _ no_check _ _ (fun _ => True) t c st Hf).
    2: { intros raw. exists None, st. done. }
    destruct (judge _ _ _ _ _ st) as [v st']. cbn [fst snd].
    destruct v; cbn; split; (congruence || naive_solver).
  - intros req. unfold UnaryInterceptor, mbind, M_bind.
    destruct (authenticate _ _ _ _ _ _ st) as [[ctx' err] st']. cbn. by destruct err.
  - intros Srv SS ss_Context srv ss <-. unfold StreamInterceptor, mbind, M_bind.
    destruct (authenticate _ _ _ _ _ _ st) as [[ctx' err] st']. cbn. by destruct err.
  - intros s. rewrite authenticate_judge. unfold judge, no_check, mbind, M_bind, mret, M_ret.
    destruct (extractBearerFromMetadata _ _ _ ctx) as [raw|e].
    2: { intros [= <-]. split; [done|]. split; [done|]. by intros (? & ? & [= ] & _). }
    destruct (pv_Introspect _ raw) as [c|e] eqn:Hi.
    2: { intros [= <-]. split; [done|]. split; [done|]. intros (? & ? & [= <-] & Hi' & _). congruence. }
    destruct (cl_Active c) eqn:Hact; cbn [negb].
    2: { intros [= <-]. split; [done|]. split; [done|]. intros (? & ? & [= <-] & Hi' & Ha). congruence. }
    destruct (mc_PolicyEngine cfg); [|done]. destruct (AuthAge_now c st) as [age st'].
    cbv zeta. destruct (pr_Allowed _); [done|]. intros [= <-]. split; [done|]. split; [|done].
    intros _. by exists raw, c.
Qed.

(** ** Concrete adapters *)

Lemma MethodToPath_slash method : MethodToPath ("/" +:+ method) = method.
Proof. apply TrimPrefix_app. Qed.

(** A framework context that records what it is told. *)
Record Recorder := MkRecorder {
  rec_request : Request;
  rec_header : gmap string string;
  rec_status : option Z;
  rec_body : list (string * string);
  rec_values : gmap string any;
  rec_aborted : bool
}.
Definition new_recorder (r : Request) : Recorder := MkRecorder r ∅ None [] ∅ false.
Definition rec_set_header (k v : string) (c : Recorder) : Recorder :=
  MkRecorder (rec_request c) (<[k := v]> (rec_header c)) (rec_status c) (rec_body c) (rec_values c) (rec_aborted c).
Definition rec_json (abort : bool) (code : Z) (b : list (string * string)) (c : Recorder) : Recorder :=
  MkRecorder (rec_request c) (<["Content-Type" := "application/json"]> (rec_header c))
    (Some (default code (rec_status c))) b (rec_values c) (abort || rec_aborted c).
Definition rec_set (k : string) (v : any) (c : Recorder) : Recorder :=
  MkRecorder (rec_request c) (rec_header c) (rec_status c) (rec_body c) (<[k := v]> (rec_values c)) (rec_aborted c).

#[export] Instance recorder_gin : GinContext Recorder := {|
  gin_Request := rec_request;
  gin_GetHeader c k := Header_Get (rq_Header (rec_request c)) k;
  gin_Header := rec_set_header;
  gin_AbortWithStatusJSON := rec_json true;
  gin_Set := rec_set;
  gin_Get c k := rec_values c !! k
|}.
#[export] Instance recorder_echo : EchoContext Recorder := {|
  echo_Request := rec_request;
  echo_SetHeader := rec_set_header;
  echo_JSON code b c := (None, rec_json false code b c);
  echo_Set := rec_set;
  echo_Get c k := rec_values c !! k
|}.

#[export, refine] Instance recorder_gin_laws : GinLaws Recorder := {|
  gin_status := rec_status;
  gin_header c k := default EmptyString (rec_header c !! k);
  gin_IsAborted := rec_aborted
|}.
Proof.
  all: intros; cbn; rewrite ?lookup_insert_eq, ?lookup_insert_ne by done; try done.
  by match goal with H : rec_status _ = None |- _ => rewrite H end.
Defined.

#[export, refine] Instance recorder_echo_laws : EchoLaws Recorder := {|
  echo_status := rec_status;
  echo_header c k := default EmptyString (rec_header c !! k)
|}.
Proof.
  all: intros; cbn; rewrite ?lookup_insert_eq, ?lookup_insert_ne by done; try done.
  by match goal with H : rec_status _ = None |- _ => rewrite H end.
Defined.

Section Demo.
#[local] Existing Instance unicode_min.
#[local] Existing Instance accept_all.

(** Alice's token is bound to a key other than that of the demonstration
    proof. *)
Definition bound_claims : CommonClaims :=
  MkClaims "alice" "https://as" [] "j-tok" time_zero time_zero (Some (MkConfirmation "thumbprint-of-alice"))
    "urn:acr:1" [] EmptyString time_zero EmptyString EmptyString [] [] EmptyString [] None true.

(** A provider that knows one token. *)
Record OneToken := MkOneToken { ot_token : string; ot_claims : CommonClaims }.
#[local] Instance one_token_provider : Provider OneToken := {|
  pv_Introspect p t := if String.eqb t (ot_token p) then Ok (ot_claims p) else Err (errorf "unknown token");
  pv_JWKS _ := Ok EmptyString;
  pv_RefreshConfig p := (None, p);
  pv_Name _ := "one";
  pv_Issuer _ := "https://as"
|}.

Definition demo_mw : MwConfig OneToken := MkMwConfig (MkOneToken "tok" bound_claims) None "bank" true.
Definition demo_mw_request : Request :=
  MkRequest "POST" "/api/pay" EmptyString "/api/pay" "/api/pay" "bank.example" true "10.0.0.1:999"
    (Header_Set (Header_Set ∅ "Authorization" "Bearer tok") "DPoP" (demo_jwt 1000 "tok")) [] (Some EmptyString).
Definition mw_world : world nat := World (fun _ => 1010 * Second) 0 0%nat.

Example http_adapters_agree_witness :
  let std := prod_map observe_std id
    (stdlib_Middleware (fun _ => "0123456789abcdef") demo_mw empty_response demo_mw_request [] mw_world) in
  prod_map observe_gin id
    (gin_Middleware (fun _ => "0123456789abcdef") demo_mw (new_recorder demo_mw_request) mw_world) = std /\
  prod_map observe_echo id
    (echo_Middleware (fun _ => "0123456789abcdef") demo_mw (new_recorder demo_mw_request) mw_world) = std.
Proof.
  exact (http_adapters_agree (fun _ => "0123456789abcdef") demo_mw empty_response []
    (new_recorder demo_mw_request) (new_recorder demo_mw_request) mw_world eq_refl eq_refl eq_refl eq_refl).
Defined.

(** The token of someone else's key passes with a proof by one's own. *)
Lemma bound_token_with_other_key :
  observe_std (stdlib_Middleware (fun _ => "0123456789abcdef") demo_mw empty_response demo_mw_request [] mw_world).1 =
    LetThrough (Some bound_claims) /\
  exists p, parseDPoPJWT (demo_jwt 1000 "tok") = Ok p /\
    VerifyDPoPBinding p bound_claims = Some ErrDPoPBindingMismatch.
Proof.
  split; [vm_compute; reflexivity|].
  destruct (parseDPoPJWT (demo_jwt 1000 "tok")) as [p|e] eqn:E; [|vm_compute in E; discriminate E].
  exists p. split; [reflexivity|]. vm_compute in E. injection E as <-. vm_compute. reflexivity.
Qed.

Example stdlib_admits_witness :
  admissible demo_mw (ExtractBearerToken (Header_Get (rq_Header demo_mw_request) "Authorization"))
    (rq_Method demo_mw_request) (rq_Path demo_mw_request)
    (dpop_accepted demo_mw demo_mw_request (1010 * Second)) (1010 * Second) bound_claims.
Proof.
  apply (stdlib_admits (fun _ => "0123456789abcdef") demo_mw empty_response demo_mw_request []
    (1010 * Second) bound_claims mw_world).
  - intros i. reflexivity.
  - reflexivity.
  - vm_compute. reflexivity.
Defined.

Example grpc_authenticate_spec_witness :
  admissible demo_mw (Ok "tok") "RPC" "/bank.Pay/Send" (fun _ => True) (1010 * Second) bound_claims.
Proof.
  apply (proj1 (grpc_authenticate_spec (MD := list string) (fun _ => Some ["Bearer tok"]) (fun md _ => md)
    st_message demo_mw [] "/bank.Pay/Send" (1010 * Second) mw_world (fun _ => eq_refl)) bound_claims).
  split; vm_compute; reflexivity.
Defined.
End Demo.
