(* ===== verification/JwtValidator.v ===== *)
(** * Local JWT validation: [pkg/core/token/jwtvalidator.go]

    The validator keeps the keys of a JWKS endpoint and gives the JWT library
    a key function.  The library is a parameter: a program of type [jwt_call],
    which may ask for the key of a header and read the clock before it
    answers; running it answers its questions with the code's [keyfunc].  What
    is used of its documented behaviour is the class [JwtLibrary]. *)

From S2P Require Import Prelude GoString GoTime Encoding Crypto Json TextLemmas TimeText Http Rar Claims Effects Cache Dpop.
Open Scope Z_scope.

(** ** The JWT library: [golang-jwt/jwt/v5] *)

Inductive ParserOption :=
| WithExpirationRequired
| WithIssuedAt
| WithValidMethods (methods : list string)
| WithIssuer (iss : string)
| WithAudience (aud : string).

(** The members of [jwt.RegisteredClaims]; the dates are pointers. *)
Record RegisteredClaims := MkRegistered {
  rg_Issuer : string;
  rg_Subject : string;
  rg_Audience : list string;
  rg_ExpiresAt : option Time;
  rg_NotBefore : option Time;
  rg_IssuedAt : option Time;
  rg_ID : string
}.

(** [jwtRawClaims]; [rc_RealmAccessRoles] is [RealmAccess.Roles]. *)
Record jwtRawClaims := MkRaw {
  rc_Registered : RegisteredClaims;
  rc_ACR : string;
  rc_AMR : list string;
  rc_SID : string;
  rc_AuthTime : Z;
  rc_Email : string;
  rc_Username : string;
  rc_Scope : string;
  rc_TenantID : string;
  rc_RealmAccessRoles : list string;
  rc_Roles : list string
}.

(** A parsed [*jwt.Token]: its header, its claims when they have the type
    asked for, and its [Valid] flag. *)
Record jwt_token := MkToken {
  jt_Header : option (gmap string goval);
  jt_Claims : option jwtRawClaims;
  jt_Valid : bool
}.

Inductive jwt_call :=
| JwtDone (r : res jwt_token)
| JwtNow (k : Time -> jwt_call)
| JwtKey (header : option (gmap string goval)) (k : res PublicKey -> jwt_call).

(** ** The validator *)

Record JWTValidatorConfig := MkJWTConfig {
  jc_JWKSURL : string;
  jc_CacheTTL : Duration;
  jc_ExpectedIssuer : string;
  jc_ExpectedAudience : string;
  jc_ValidMethods : list string
}.

Definition defaultValidMethods : list string := ["RS256"; "RS384"; "RS512"; "ES256"; "ES384"; "ES512"].

(** [JWTValidator]: the fields fixed at construction. *)
Record JWTValidator := MkJWTValidator {
  jv_jwksURL : string;
  jv_cacheTTL : Duration;
  jv_parseOpts : list ParserOption
}.

(** Its mutable fields, and the number of requests made to the endpoint. *)
Record JWTState := MkJWTState {
  js_keySet : gmap string PublicKey;
  js_fetchedAt : Time;
  js_requests : nat
}.

Definition NewJWTValidator (cfg : JWTValidatorConfig) : JWTValidator * JWTState :=
  let ttl := if jc_CacheTTL cfg =? 0 then 5 * Minute else jc_CacheTTL cfg in
  let methods := if bool_decide (jc_ValidMethods cfg = []) then defaultValidMethods else jc_ValidMethods cfg in
  let opts := [WithExpirationRequired; WithIssuedAt; WithValidMethods methods] in
  let opts := if String.eqb (jc_ExpectedIssuer cfg) EmptyString then opts
              else (opts ++ [WithIssuer (jc_ExpectedIssuer cfg)])%list in
  let opts := if String.eqb (jc_ExpectedAudience cfg) EmptyString then opts
              else (opts ++ [WithAudience (jc_ExpectedAudience cfg)])%list in
  (MkJWTValidator (jc_JWKSURL cfg) ttl opts, MkJWTState ∅ time_zero 0).

(** ** The JWKS document *)

Section Jwks.
Context {U : Unicode}.

(** Into a [[]map[string]interface{}]. *)
Fixpoint dec_object_elems (old : list (option (gmap string goval))) (l : list (string * json))
    : option (list (option (gmap string goval))) :=
  match l with
  | [] => Some []
  | (_, j) :: l' =>
      o ← dec_object (default None (head old)) j;
      r ← dec_object_elems (tail old) l';
      Some (o :: r)
  end.

Definition dec_objects (old : list (option (gmap string goval))) (j : json)
    : option (list (option (gmap string goval))) :=
  match j with
  | JArr l => dec_object_elems old l
  | JNull => Some []
  | _ => None
  end.

(** [json.NewDecoder(resp.Body).Decode(&jwks)] *)
Definition decode_jwks (body : string) : option (list (option (gmap string goval))) :=
  j ← json_Decode body; dec_struct ["keys"] (fun _ _ j old => dec_objects old j) [] j.

(** The loop over the keys: those it cannot use are skipped. *)
Definition collect_keys (jwks : list (option (gmap string goval))) : gmap string PublicKey :=
  foldl (fun keys jwk =>
    match PublicKeyFromJWK jwk with
    | Err _ => keys
    | Ok key => <[jwk_string jwk "kid" := key]> keys
    end) ∅ jwks.

(** ** Operations *)

(** The endpoint: the answer to the n-th request, as status and body; and the
    error of building a request for a URL. *)
Context (http_get : nat -> string -> res (Z * string)) (new_request : string -> option error).
(** [jwt.ParseWithClaims] on its options and the raw token. *)
Context (ParseWithClaims : list ParserOption -> string -> jwt_call).

Definition fetchJWKS (v : JWTValidator) : M JWTState (option error) :=
  match new_request (jv_jwksURL v) with
  | Some e => mret (Some e)
  | None =>
  st ← gets id;
  _ ← put (MkJWTState (js_keySet st) (js_fetchedAt st) (1 + js_requests st));
  match http_get (js_requests st) (jv_jwksURL v) with
  | Err e => mret (Some (errorw ("fetching JWKS from " +:+ jv_jwksURL v) e))
  | Ok (status, body) =>
  if negb (status =? StatusOK) then mret (Some (errorf ("JWKS endpoint returned " +:+ fmt_d status))) else
  match decode_jwks body with
  | None => mret (Some (errorw "decoding JWKS" json_error))
  | Some jwks =>
      now ← Now;
      _ ← modify (fun st => MkJWTState (collect_keys jwks) now (js_requests st));
      mret None
  end end end.

Definition lookupKey (v : JWTValidator) (kid : string) : M JWTState (res PublicKey) :=
  st ← gets id;
  now ← Now;
  let expired := jv_cacheTTL v <? time_Since now (js_fetchedAt st) in
  mret (match js_keySet st !! kid with
        | Some key => if negb expired then Ok key
                      else Err (errorf ("key " +:+ Quote kid +:+ " not found in JWKS cache"))
        | None => Err (errorf ("key " +:+ Quote kid +:+ " not found in JWKS cache"))
        end).

Definition keyfunc (v : JWTValidator) (header : option (gmap string goval)) : M JWTState (res PublicKey) :=
  let kid := jwk_string header "kid" in
  found ← lookupKey v kid;
  match found with
  | Ok key => mret (Ok key)
  | Err _ =>
      fetchErr ← fetchJWKS v;
      match fetchErr with
      | Some e => mret (Err (errorw "fetching JWKS" e))
      | None => lookupKey v kid
      end
  end.

(** The library's program, its questions answered by the validator. *)
Fixpoint run_jwt (v : JWTValidator) (p : jwt_call) : M JWTState (res jwt_token) :=
  match p with
  | JwtDone r => mret r
  | JwtNow k => now ← Now; run_jwt v (k now)
  | JwtKey header k => key ← keyfunc v header; run_jwt v (k key)
  end.

Definition toCommonClaims (r : jwtRawClaims) : CommonClaims :=
  let g := rc_Registered r in
  MkClaims (rg_Subject g) (rg_Issuer g) (rg_Audience g) EmptyString
    (default time_zero (rg_ExpiresAt g)) (default time_zero (rg_IssuedAt g)) None
    (rc_ACR r) (rc_AMR r) (rc_SID r)
    (if rc_AuthTime r =? 0 then time_zero else time_Unix (rc_AuthTime r))
    (rc_Email r) (rc_Username r)
    (if negb (bool_decide (rc_RealmAccessRoles r = [])) then rc_RealmAccessRoles r else rc_Roles r)
    (if String.eqb (rc_Scope r) EmptyString then [] else Fields (rc_Scope r))
    (rc_TenantID r) [] None true.

(** [JWTValidator.Validate] *)
Definition JWT_Validate (v : JWTValidator) (rawToken : string) : M JWTState (res CommonClaims) :=
  parsed ← run_jwt v (ParseWithClaims (jv_parseOpts v) rawToken);
  mret (match parsed with
        | Err e => Err (errorw "jwt validation" e)
        | Ok token =>
            match jt_Claims token with
            | Some raw => if jt_Valid token then Ok (toCommonClaims raw)
                          else Err (errorf "invalid token claims")
            | None => Err (errorf "invalid token claims")
            end
        end).

Definition RefreshKeys (v : JWTValidator) : M JWTState (option error) := fetchJWKS v.
End Jwks.

(** ** What is used of the library *)

(** A run of the library's program: the answers it was given. *)
Inductive jwt_event := EvNow (t : Time) | EvKey (header : option (gmap string goval)) (a : res PublicKey).

Inductive jwt_answers : jwt_call -> list jwt_event -> res jwt_token -> Prop :=
| ja_done r : jwt_answers (JwtDone r) [] r
| ja_now k t evs r : jwt_answers (k t) evs r -> jwt_answers (JwtNow k) (EvNow t :: evs) r
| ja_key header k a evs r :
    jwt_answers (k a) evs r -> jwt_answers (JwtKey header k) (EvKey header a :: evs) r.

(** The signature of a compact token verifies under a key. *)
Definition jwt_signed {U : Unicode} {Sig : Signatures} (alg : string) (key : PublicKey) (raw : string) : Prop :=
  exists sig, RawURLDecode (nth 2 (Split raw ".") EmptyString) = Some sig /\
    verifyJWTSignature alg key
      (nth 0 (Split raw ".") EmptyString +:+ "." +:+ nth 1 (Split raw ".") EmptyString) sig = None.

(** The documented behaviour of [ParseWithClaims]: a token it returns without
    an error was verified under a key its key function answered, with an
    accepted method, and its claims meet the options. *)
Class JwtLibrary {U : Unicode} {Sig : Signatures} (parse : list ParserOption -> string -> jwt_call) := {
  jl_signature opts raw evs tok : jwt_answers (parse opts raw) evs (Ok tok) ->
    exists header key, EvKey header (Ok key) ∈ evs /\
      let alg := jwk_string header "alg" in
      (forall ms, WithValidMethods ms ∈ opts -> alg ∈ ms) /\
      (alg ∈ defaultValidMethods -> jwt_signed alg key raw);
  jl_expiry opts raw evs tok c : jwt_answers (parse opts raw) evs (Ok tok) -> jt_Claims tok = Some c ->
    WithExpirationRequired ∈ opts ->
    exists exp now, rg_ExpiresAt (rc_Registered c) = Some exp /\ EvNow now ∈ evs /\ now < exp;
  jl_issuer opts raw evs tok c iss : jwt_answers (parse opts raw) evs (Ok tok) -> jt_Claims tok = Some c ->
    WithIssuer iss ∈ opts -> rg_Issuer (rc_Registered c) = iss;
  jl_audience opts raw evs tok c aud : jwt_answers (parse opts raw) evs (Ok tok) -> jt_Claims tok = Some c ->
    WithAudience aud ∈ opts -> aud ∈ rg_Audience (rc_Registered c)
}.

(** ** The operations *)

Section Validator.
Context {U : Unicode}.
Context (http_get : nat -> string -> res (Z * string)) (new_request : string -> option error).
Context (ParseWithClaims : list ParserOption -> string -> jwt_call).
Variable v : JWTValidator.

(** What a response contributes, [None] when it is no usable key set. *)
Definition jwks_of (r : res (Z * string)) : option (gmap string PublicKey) :=
  match r with
  | Ok (status, body) => if status =? StatusOK then collect_keys <$> decode_jwks body else None
  | Err _ => None
  end.

(** The key set the n-th request would bring. *)
Definition served_at (n : nat) : option (gmap string PublicKey) :=
  match new_request (jv_jwksURL v) with
  | Some _ => None
  | None => jwks_of (http_get n (jv_jwksURL v))
  end.

(** The requests made by a fetch. *)
Definition requests_of_fetch : nat := match new_request (jv_jwksURL v) with Some _ => 0 | None => 1 end.

Lemma fetchJWKS_spec w :
  match served_at (js_requests (w_st w)) with
  | Some keys =>
      fetchJWKS http_get new_request v w =
      (None, World (w_now w) (1 + w_tick w) (MkJWTState keys (now_of w) (1 + js_requests (w_st w))))
  | None =>
      exists e, fetchJWKS http_get new_request v w =
      (Some e, World (w_now w) (w_tick w)
         (MkJWTState (js_keySet (w_st w)) (js_fetchedAt (w_st w)) (requests_of_fetch + js_requests (w_st w))))
  end.
Proof.
  unfold served_at, fetchJWKS, requests_of_fetch. destruct w as [now tick [ks fa n]].
  destruct (new_request _) as [e|]; [by exists e|].
  unfold mbind, M_bind, gets, put, modify, Now, now_of, mret, M_ret, jwks_of. cbn [w_st w_now w_tick js_requests id].
  destruct (http_get n _) as [[status body]|e]; [|by eexists].
  destruct (status =? StatusOK); cbn [negb]; [|by eexists].
  destruct (decode_jwks body) as [jwks|]; [done|by eexists].
Qed.

(** The key the cache holds for [kid] at [now], unless it has expired. *)
Definition cached_key (st : JWTState) (now : Time) (kid : string) : option PublicKey :=
  if jv_cacheTTL v <? time_Since now (js_fetchedAt st) then None else js_keySet st !! kid.

Lemma lookupKey_spec kid w :
  (lookupKey v kid w).2 = World (w_now w) (1 + w_tick w) (w_st w) /\
  match cached_key (w_st w) (now_of w) kid with
  | Some key => (lookupKey v kid w).1 = Ok key
  | None => exists e, (lookupKey v kid w).1 = Err e
  end.
Proof.
  unfold lookupKey, cached_key, mbind, M_bind, gets, Now, mret, M_ret, now_of. cbn [fst snd w_st id].
  split; [done|]. destruct (_ <? _); cbn [negb]; destruct (js_keySet _ !! kid); by try eexists.
Qed.

(** [keyfunc], branch by branch. *)
Lemma keyfunc_cases header w :
  let kid := jwk_string header "kid" in
  let n := js_requests (w_st w) in
  match cached_key (w_st w) (now_of w) kid with
  | Some key =>
      keyfunc http_get new_request v header w = (Ok key, World (w_now w) (1 + w_tick w) (w_st w))
  | None =>
      match served_at n with
      | Some keys =>
          let st := MkJWTState keys (w_now w (1 + w_tick w)) (1 + n) in
          (keyfunc http_get new_request v header w).2 = World (w_now w) (3 + w_tick w) st /\
          match cached_key st (w_now w (2 + w_tick w)) kid with
          | Some key => (keyfunc http_get new_request v header w).1 = Ok key
          | None => exists e, (keyfunc http_get new_request v header w).1 = Err e
          end
      | None =>
          exists e, keyfunc http_get new_request v header w =
          (Err e, World (w_now w) (1 + w_tick w)
             (MkJWTState (js_keySet (w_st w)) (js_fetchedAt (w_st w)) (requests_of_fetch + n)))
      end
  end.
Proof.
  intros kid n. unfold keyfunc. unfold mbind, M_bind. fold kid.
  pose proof (lookupKey_spec kid w) as [Hw Hk].
  destruct (lookupKey v kid w) as [a w1]. cbn [fst snd] in Hw, Hk. subst w1.
  destruct (cached_key _ _ kid) as [key|]; [by rewrite Hk|]. destruct Hk as [e ->].
  pose proof (fetchJWKS_spec (World (w_now w) (1 + w_tick w) (w_st w))) as Hf. cbn [w_st] in Hf. fold n in Hf.
  destruct (served_at n) as [keys|].
  - rewrite Hf. cbn [w_now w_tick].
    pose proof (lookupKey_spec kid (World (w_now w) (1 + (1 + w_tick w))
      (MkJWTState keys (w_now w (1 + w_tick w)) (1 + n)))) as [Hw Hk].
    unfold now_of in Hw, Hk |- *. cbn [w_now w_tick w_st] in Hw, Hk |- *. by split.
  - destruct Hf as [e' ->]. by eexists.
Qed.

(** ** The key set is the one last served *)

(** The set is empty or that of the latest request that brought one. *)
Definition current (st : JWTState) : Prop :=
  js_keySet st = ∅ \/
  exists n, (n < js_requests st)%nat /\ served_at n = Some (js_keySet st) /\
    forall m, (n < m < js_requests st)%nat -> served_at m = None.

(** At some moment from [w] to [w'], the key is in the current set, which is
    not older than the TTL. *)
Definition usable (w w' : world JWTState) (kid : string) (key : PublicKey) : Prop :=
  exists w1, later w w1 /\ later w1 w' /\ current (w_st w1) /\
    cached_key (w_st w1) (now_of w1) kid = Some key.

Lemma usable_wider w0 w w' w1 kid key : later w0 w -> later w' w1 -> usable w w' kid key -> usable w0 w1 kid key.
Proof. intros H0 H1 (x & Ha & Hb & Hc). exists x. split; [by transitivity w|]. split; [by transitivity w'|done]. Qed.

Lemma later_tick {S} (w : world S) k st : later w (World (w_now w) (k + w_tick w) st).
Proof. split; cbn; [done|lia]. Qed.

Lemma current_fetched keys now n : served_at n = Some keys -> current (MkJWTState keys now (1 + n)).
Proof. intros H. right. exists n. cbn. split; [lia|]. split; [done|]. intros m Hm. lia. Qed.

Lemma current_failed st : served_at (js_requests st) = None -> current st ->
  current (MkJWTState (js_keySet st) (js_fetchedAt st) (requests_of_fetch + js_requests st)).
Proof.
  intros Hf [H|(n & Hn & Hs & Hl)]; [by left|]. right. exists n. cbn.
  unfold requests_of_fetch. destruct (new_request _); cbn; (split; [lia|]; split; [done|]);
    intros m Hm; (destruct (decide (m = js_requests st)) as [->|]; [done|apply Hl; lia]).
Qed.

Lemma fetchJWKS_current w : current (w_st w) ->
  later w (fetchJWKS http_get new_request v w).2 /\ current (w_st (fetchJWKS http_get new_request v w).2).
Proof.
  intros Hc. pose proof (fetchJWKS_spec w) as Hf. destruct (served_at _) as [keys|] eqn:Hs.
  - rewrite Hf. split; [exact (later_tick w 1 _)|by apply current_fetched].
  - destruct Hf as [e ->]. split; [by split|by apply current_failed].
Qed.

Lemma keyfunc_current header w a w' :
  current (w_st w) -> keyfunc http_get new_request v header w = (a, w') ->
  later w w' /\ current (w_st w') /\
  forall key, a = Ok key -> usable w w' (jwk_string header "kid") key.
Proof.
  intros Hc H. pose proof (keyfunc_cases header w) as Hk. cbv zeta in Hk. rewrite H in Hk. clear H.
  destruct (cached_key (w_st w) (now_of w) _) as [key|] eqn:Hkey.
  { injection Hk as -> ->. split; [exact (later_tick w 1 _)|]. split; [done|].
    intros key' [= <-]. exists w. split; [done|]. split; [exact (later_tick w 1 _)|done]. }
  destruct (served_at _) as [keys|] eqn:Hs.
  2: { destruct Hk as [e [= -> ->]]. split; [exact (later_tick w 1 _)|]. split; [by apply current_failed|done]. }
  cbn [fst snd] in Hk. destruct Hk as [-> Hk]. split; [exact (later_tick w 3 _)|].
  split; [by apply current_fetched|]. intros key ->.
  exists (World (w_now w) (2 + w_tick w) (MkJWTState keys (w_now w (1 + w_tick w)) (1 + js_requests (w_st w)))).
  split; [exact (later_tick w 2 _)|]. split; [split; cbn; [done|lia]|]. split; [by apply current_fetched|].
  match type of Hk with match ?o with _ => _ end => destruct o as [k0|] eqn:E end; [|by destruct Hk].
  injection Hk as <-. exact E.
Qed.

(** The library's program reaches its answer, on keys that were usable and on
    readings of the clock. *)
Lemma run_jwt_sound p w r w' :
  current (w_st w) -> run_jwt http_get new_request v p w = (r, w') ->
  later w w' /\ current (w_st w') /\
  exists evs, jwt_answers p evs r /\
    (forall header key, EvKey header (Ok key) ∈ evs -> usable w w' (jwk_string header "kid") key) /\
    (forall t, EvNow t ∈ evs -> exists i, (w_tick w <= i < w_tick w')%nat /\ t = w_now w i).
Proof.
  revert w. induction p as [r0|k IH|header k IH]; intros w Hc H; cbn [run_jwt] in H.
  - injection H as <- <-. split; [done|]. split; [done|]. exists []. split; [constructor|].
    split; intros *; by intros ?%elem_of_nil.
  - unfold mbind, M_bind, Now in H.
    destruct (IH (w_now w (w_tick w)) (World (w_now w) (1 + w_tick w) (w_st w)) Hc H) as (Hl & Hc' & evs & Ha & Hk & Ht).
    pose proof (later_tick w 1 (w_st w)) as Hl0.
    split; [by etransitivity|]. split; [done|]. eexists. split; [constructor; exact Ha|].
    split.
    + intros header key [Hin|Hin]%elem_of_cons; [done|]. by eapply usable_wider, Hk, Hin.
    + intros t [Hin|Hin]%elem_of_cons.
      * injection Hin as ->. exists (w_tick w). destruct Hl as [_ Hl]. cbn in Hl. split; [lia|done].
      * destruct (Ht _ Hin) as (i & Hi & ->). cbn in Hi. exists i. split; [lia|done].
  - unfold mbind, M_bind in H. destruct (keyfunc _ _ _ header w) as [a w1] eqn:Hkf.
    destruct (keyfunc_current header w a w1 Hc Hkf) as (Hl0 & Hc1 & Hu).
    destruct (IH a _ Hc1 H) as (Hl & Hc' & evs & Ha & Hk & Ht).
    split; [by etransitivity|]. split; [done|]. eexists. split; [constructor; exact Ha|]. split.
    + intros h key [Hin|Hin]%elem_of_cons.
      * injection Hin as -> <-. by apply (usable_wider w w w1 w'); [|..|apply Hu].
      * by eapply usable_wider, Hk, Hin.
    + intros t [Hin|Hin]%elem_of_cons; [done|]. destruct (Ht _ Hin) as (i & Hi & ->).
      destruct Hl0 as [Hn0 Hl0]. exists i. split; [lia|by rewrite Hn0].
Qed.

(** The states of a validator in use. *)
Inductive jwt_reachable : JWTState -> Prop :=
| jr_new cfg : v = (NewJWTValidator cfg).1 -> jwt_reachable (NewJWTValidator cfg).2
| jr_validate raw w : jwt_reachable (w_st w) ->
    jwt_reachable (w_st (JWT_Validate http_get new_request ParseWithClaims v raw w).2)
| jr_refresh w : jwt_reachable (w_st w) ->
    jwt_reachable (w_st (RefreshKeys http_get new_request v w).2).

Lemma JWT_Validate_run raw w :
  JWT_Validate http_get new_request ParseWithClaims v raw w =
  (let '(parsed, w') := run_jwt http_get new_request v (ParseWithClaims (jv_parseOpts v) raw) w in
   (match parsed with
    | Err e => Err (errorw "jwt validation" e)
    | Ok token => match jt_Claims token with
                  | Some raw => if jt_Valid token then Ok (toCommonClaims raw)
                                else Err (errorf "invalid token claims")
                  | None => Err (errorf "invalid token claims")
                  end
    end, w')).
Proof. done. Qed.

Lemma reachable_current st : jwt_reachable st -> current st.
Proof.
  induction 1 as [cfg _|raw w _ IH|w _ IH]; [by left| |by apply fetchJWKS_current].
  rewrite JWT_Validate_run. destruct (run_jwt _ _ _ _ w) as [r w'] eqn:H.
  by apply (run_jwt_sound _ _ _ _ IH) in H as (_ & Hc & _).
Qed.
End Validator.

(** C15: A token is accepted only under a current key.  When [Validate] on a
    validator in use accepts a token, its signature verifies, by an accepted
    algorithm, under the key that its header names in the key set of the
    latest successful request to the endpoint, and that set was not older
    than the TTL when it was read; the token has not expired at a reading of
    the clock, and its issuer and audience are those configured.  Without
    configured methods the algorithm is one of the six asymmetric ones. *)
Theorem jwt_validated_sound {U : Unicode} {Sig : Signatures} http_get new_request parse `{!JwtLibrary parse}
    cfg raw c w w' :
  let v := (NewJWTValidator cfg).1 in
  jwt_reachable http_get new_request parse v (w_st w) ->
  JWT_Validate http_get new_request parse v raw w = (Ok c, w') ->
  exists claims header key, c = toCommonClaims claims /\
    usable http_get new_request v w w' (jwk_string header "kid") key /\
    let alg := jwk_string header "alg" in
    alg ∈ (if bool_decide (jc_ValidMethods cfg = []) then defaultValidMethods else jc_ValidMethods cfg) /\
    (alg ∈ defaultValidMethods -> jwt_signed alg key raw) /\
    (exists i, (w_tick w <= i < w_tick w')%nat /\ w_now w i < cl_ExpiresAt c) /\
    (jc_ExpectedIssuer cfg <> EmptyString -> cl_Issuer c = jc_ExpectedIssuer cfg) /\
    (jc_ExpectedAudience cfg <> EmptyString -> jc_ExpectedAudience cfg ∈ cl_Audience c).
Proof.
  intros v Hr H. rewrite JWT_Validate_run in H.
  destruct (run_jwt _ _ _ _ w) as [r w1] eqn:Hrun.
  destruct (run_jwt_sound _ _ _ _ _ _ _ (reachable_current _ _ _ _ _ Hr) Hrun) as (_ & _ & evs & Ha & Hk & Ht).
  destruct r as [tok|e]; [|discriminate H]. destruct (jt_Claims tok) as [claims|] eqn:Hcl; [|discriminate H].
  destruct (jt_Valid tok); [|discriminate H]. injection H as <- <-.
  destruct (jl_signature _ _ _ _ Ha) as (header & key & Hin & Halg & Hsig).
  set (methods := if bool_decide (jc_ValidMethods cfg = []) then defaultValidMethods else jc_ValidMethods cfg) in *.
  assert (Hopts : forall o, o ∈ [WithExpirationRequired; WithIssuedAt; WithValidMethods methods] ->
                  o ∈ jv_parseOpts v).
  { intros o Ho. unfold v, NewJWTValidator. cbn [fst jv_parseOpts]. fold methods. repeat case_match; set_solver. }
  exists claims, header, key. split; [done|]. split; [by apply Hk|]. cbv zeta.
  split; [apply Halg, Hopts; set_solver|]. split; [done|]. split; [|split].
  - destruct (jl_expiry _ _ _ _ _ Ha Hcl) as (exp & now & Hexp & Hnow & Hlt); [apply Hopts; set_solver|].
    destruct (Ht _ Hnow) as (i & Hi & ->). exists i. split; [done|]. cbn. by rewrite Hexp.
  - intros Hne. apply (jl_issuer _ _ _ _ _ _ Ha Hcl). unfold v, NewJWTValidator. cbn [fst jv_parseOpts].
    destruct (String.eqb_spec (jc_ExpectedIssuer cfg) EmptyString); [done|].
    destruct (String.eqb (jc_ExpectedAudience cfg) EmptyString); set_solver.
  - intros Hne. apply (jl_audience _ _ _ _ _ _ Ha Hcl). unfold v, NewJWTValidator. cbn [fst jv_parseOpts].
    destruct (String.eqb_spec (jc_ExpectedAudience cfg) EmptyString); [done|]. set_solver.
Qed.

(** C24: Key rotation is followed.  Whatever the state, if the endpoint's answer
    to the next request has the key of a token's [kid], then [keyfunc] answers
    a key: the one it has cached, without any request, when the cache is
    fresh and has the [kid]; otherwise the one served, with exactly one
    request, as long as less than the TTL passes while it reads it back.  If
    instead that request fails, the error leaves the keys and their age as
    they were, so that tokens under cached keys stay accepted. *)
Theorem keyfunc_rotation {U : Unicode} http_get new_request v header w :
  let kid := jwk_string header "kid" in
  let n := js_requests (w_st w) in
  let run := keyfunc http_get new_request v header w in
  (forall keys key, served_at http_get new_request v n = Some keys -> keys !! kid = Some key ->
     time_Since (w_now w (2 + w_tick w)) (w_now w (1 + w_tick w)) <= jv_cacheTTL v ->
     (run.1 = Ok key /\ js_keySet (w_st run.2) = keys /\ js_requests (w_st run.2) = (1 + n)%nat) \/
     (exists old, cached_key v (w_st w) (now_of w) kid = Some old /\ run.1 = Ok old /\ w_st run.2 = w_st w)) /\
  (served_at http_get new_request v n = None -> cached_key v (w_st w) (now_of w) kid = None ->
     is_ok run.1 = false /\ js_keySet (w_st run.2) = js_keySet (w_st w) /\
     js_fetchedAt (w_st run.2) = js_fetchedAt (w_st w)).
Proof.
  intros kid n run. pose proof (keyfunc_cases http_get new_request v header w) as Hk. cbv zeta in Hk.
  fold kid n run in Hk. split.
  - intros keys key Hs Hkey Httl. rewrite Hs in Hk.
    destruct (cached_key v (w_st w) _ kid) as [old|]; [right; exists old; by rewrite Hk|left].
    destruct Hk as [Hw Hk]. rewrite Hw. unfold cached_key in Hk. cbn [js_fetchedAt js_keySet] in Hk.
    destruct (Z.ltb_spec (jv_cacheTTL v) (time_Since (w_now w (2 + w_tick w)) (w_now w (1 + w_tick w)))); [lia|].
    by rewrite Hkey in Hk.
  - intros Hs Hc. rewrite Hs, Hc in Hk. destruct Hk as [e ->]. done.
Qed.

(** What [toCommonClaims] leaves out: the token's id and its key binding. *)
Lemma toCommonClaims_unbound r :
  cl_JTI (toCommonClaims r) = EmptyString /\ HasDPoP (toCommonClaims r) = false.
Proof. done. Qed.

(** ** A concrete library and endpoint *)

Section Demo.
#[local] Existing Instance unicode_min.
#[local] Existing Instance accept_all.

Definition demo_jwt_header : option (gmap string goval) :=
  Some (list_to_map [("alg", GString "ES256"); ("kid", GString "k1")]).
Definition demo_raw_claims : jwtRawClaims :=
  MkRaw (MkRegistered "https://as" "alice" ["api"] (Some (2000 * Second)) None (Some (1000 * Second)) "j-9")
    "urn:acr:2" ["pwd"] "s-1" 900 "a@example" "alice" "read pay" "acme" [] ["user"].

Definition meets_option (o : ParserOption) : bool :=
  match o with
  | WithValidMethods ms => bool_decide ("ES256" ∈ ms)
  | WithIssuer iss => bool_decide (rg_Issuer (rc_Registered demo_raw_claims) = iss)
  | WithAudience aud => bool_decide (aud ∈ rg_Audience (rc_Registered demo_raw_claims))
  | _ => true
  end.

Definition demo_signed (key : PublicKey) (raw : string) : bool :=
  match RawURLDecode (nth 2 (Split raw ".") EmptyString) with
  | Some sig => match verifyJWTSignature "ES256" key
                   (nth 0 (Split raw ".") EmptyString +:+ "." +:+ nth 1 (Split raw ".") EmptyString) sig with
                | None => true | Some _ => false end
  | None => false
  end.

(** A library that knows one header and one set of claims. *)
Definition demo_parse (opts : list ParserOption) (raw : string) : jwt_call :=
  JwtKey demo_jwt_header (fun a =>
    match a with
    | Err e => JwtDone (Err e)
    | Ok key => JwtNow (fun now => JwtDone
        (if forallb meets_option opts && demo_signed key raw && (now <? 2000 * Second)
         then Ok (MkToken demo_jwt_header (Some demo_raw_claims) true) else Err (errorf "token is invalid")))
    end).

Lemma demo_parse_run opts raw evs tok :
  jwt_answers (demo_parse opts raw) evs (Ok tok) ->
  exists key now, evs = [EvKey demo_jwt_header (Ok key); EvNow now] /\
    tok = MkToken demo_jwt_header (Some demo_raw_claims) true /\
    forallb meets_option opts = true /\ demo_signed key raw = true /\ now < 2000 * Second.
Proof.
  unfold demo_parse. inversion 1 as [| |h k a evs1 r1 H1]; subst.
  destruct a as [key|e]; [|inversion H1]. inversion H1 as [|k1 now evs2 r2 H2|]; subst.
  inversion H2 as [r3 Hr| |]; subst. exists key, now.
  destruct (_ && _) eqn:E; [|discriminate]. b2p. simplify_eq. done.
Qed.

Lemma demo_option opts o : forallb meets_option opts = true -> o ∈ opts -> meets_option o = true.
Proof. rewrite forallb_forall. intros H Hin. apply H. by apply list_elem_of_In. Qed.

#[export] Instance demo_library : JwtLibrary demo_parse.
Proof.
  split.
  - intros opts raw evs tok H. destruct (demo_parse_run _ _ _ _ H) as (key & now & -> & _ & Ho & Hs & _).
    exists demo_jwt_header, key. split; [left|]. cbv zeta.
    change (jwk_string demo_jwt_header "alg") with "ES256". split.
    + intros ms Hin. apply (demo_option _ _ Ho), bool_decide_eq_true_1 in Hin. done.
    + intros _. unfold demo_signed in Hs. unfold jwt_signed. destruct (RawURLDecode _) as [sig|]; [|done].
      exists sig. split; [done|]. by destruct (verifyJWTSignature _ _ _ _).
  - intros opts raw evs tok c H Hc _. destruct (demo_parse_run _ _ _ _ H) as (key & now & -> & -> & _ & _ & Hn).
    injection Hc as <-. exists (2000 * Second), now. split; [done|]. split; [by right; left|done].
  - intros opts raw evs tok c iss H Hc Hin. destruct (demo_parse_run _ _ _ _ H) as (_ & _ & _ & -> & Ho & _).
    injection Hc as <-. by apply (demo_option _ _ Ho), bool_decide_eq_true_1 in Hin.
  - intros opts raw evs tok c aud H Hc Hin. destruct (demo_parse_run _ _ _ _ H) as (_ & _ & _ & -> & Ho & _).
    injection Hc as <-. by apply (demo_option _ _ Ho), bool_decide_eq_true_1 in Hin.
Qed.

Definition demo_jwks : string :=
  "{" +:+ json_quote "keys" +:+ ":[" +:+
  json_object [("kty", json_quote "EC"); ("crv", json_quote "P-256"); ("kid", json_quote "k1");
    ("x", json_quote "axfR8uEsQkf4vOblY6RA8ncDfYEt6zOg9KE5RdiYwpY");
    ("y", json_quote "T-NC4v4af5uO5-tKfA-eFivOM1drMV7Oy7ZAaDe_UfU")] +:+ "]}".
Definition demo_get : nat -> string -> res (Z * string) := fun _ _ => Ok (200, demo_jwks).
Definition demo_jwt_config : JWTValidatorConfig := MkJWTConfig "https://as/jwks" 0 "https://as" "api" [].
Definition demo_validator := NewJWTValidator demo_jwt_config.
Definition demo_jwt_world : world JWTState := World (fun n => (1010 + Z.of_nat n) * Second) 0 demo_validator.2.

Example jwt_validated_sound_witness :
  exists c w', JWT_Validate demo_get (fun _ => None) demo_parse demo_validator.1 (demo_jwt 1000 "tok") demo_jwt_world = (Ok c, w') /\
    cl_Issuer c = "https://as" /\ "api" ∈ cl_Audience c.
Proof.
  assert (Hok : is_ok (JWT_Validate demo_get (fun _ => None) demo_parse demo_validator.1 (demo_jwt 1000 "tok")
                         demo_jwt_world).1 = true) by (vm_compute; reflexivity).
  destruct (JWT_Validate demo_get _ _ _ _ _) as [[c|e] w'] eqn:E; [|discriminate Hok].
  exists c, w'. split; [reflexivity|].
  destruct (jwt_validated_sound demo_get (fun _ => None) demo_parse demo_jwt_config _ c demo_jwt_world w'
    (jr_new _ _ _ _ demo_jwt_config eq_refl) E) as (claims & header & key & _ & _ & _ & _ & _ & Hi & Ha).
  split; [apply Hi|apply Ha]; discriminate.
Defined.

(** The first lookup fetches the key. *)
Example keyfunc_rotation_witness :
  is_ok (keyfunc demo_get (fun _ => None) demo_validator.1 demo_jwt_header demo_jwt_world).1 = true.
Proof.
  destruct (served_at demo_get (fun _ => None) demo_validator.1 0) as [keys|] eqn:Hs; [|vm_compute in Hs; discriminate Hs].
  destruct (keys !! "k1") as [key|] eqn:Hk.
  - destruct (proj1 (keyfunc_rotation demo_get (fun _ => None) demo_validator.1 demo_jwt_header demo_jwt_world)
      keys key Hs Hk) as [[H _]|(old & _ & H & _)].
    + vm_compute. discriminate.
    + rewrite H. reflexivity.
    + rewrite H. reflexivity.
  - exfalso. vm_compute in Hs. injection Hs as <-. vm_compute in Hk. discriminate Hk.
Defined.
End Demo.
