(* ===== verification/TokenFactory.v ===== *)
(** * The token factory of the development kit: [pkg/devkit/tokenfactory/factory.go]

    Claims, the base64url encoder written out in the file, and the JWK and
    JWKS documents of the factory's RSA key.  Key generation and the JWT
    library's signing are parameters. *)

From S2P Require Import Prelude GoString GoTime Encoding Crypto Json JsonText TextLemmas TimeText Http Rar Claims Effects Cache Dpop JwtValidator.
Open Scope Z_scope.

Record TokenOptions := MkTokenOptions {
  to_Subject : string;
  to_Issuer : string;
  to_Audience : list string;
  to_ExpiresIn : Duration;
  to_ACR : string;
  to_AMR : list string;
  to_Scopes : list string;
  to_Roles : list string;
  to_TenantID : string;
  to_SessionID : string;
  to_AuthTime : Time;
  to_Extra : option (gmap string goval)
}.

(** [rsa.PrivateKey]: its public part, and the rest as [K]. *)
Record PrivateKey (K : Type) := MkPrivateKey { rk_N : Z; rk_E : Z; rk_secret : K }.
Arguments MkPrivateKey {K} _ _ _.
Arguments rk_N {K} _.
Arguments rk_E {K} _.

Record Factory (K : Type) := MkFactory { fa_privateKey : PrivateKey K; fa_keyID : string }.
Arguments MkFactory {K} _ _.
Arguments fa_privateKey {K} _.
Arguments fa_keyID {K} _.

(** [New] on the result of [rsa.GenerateKey], and [NewWithKey]. *)
Definition Factory_New {K} (GenerateKey : res (PrivateKey K)) : res (Factory K) :=
  match GenerateKey with
  | Err e => Err (errorw "generating RSA key" e)
  | Ok key => Ok (MkFactory key "devkit-key-1")
  end.
Definition NewWithKey {K} (key : PrivateKey K) (keyID : string) : Factory K := MkFactory key keyID.

(** ** [encodeBase64URL]

    One iteration at index [i], then the loop; its fuel is the length of the
    input. *)
Definition encode_step (b : list Z) (i : nat) : list ascii :=
  let b0 := nth i b 0 in
  let b1 := if (i + 1 <? List.length b)%nat then nth (i + 1) b 0 else 0 in
  let b2 := if (i + 2 <? List.length b)%nat then nth (i + 2) b 0 else 0 in
  ([b64_char (Z.shiftr b0 2); b64_char (Z.lor (Z.shiftl (Z.land b0 3) 4) (Z.shiftr b1 4))] ++
   (if (i + 1 <? List.length b)%nat then [b64_char (Z.lor (Z.shiftl (Z.land b1 15) 2) (Z.shiftr b2 6))] else []) ++
   (if (i + 2 <? List.length b)%nat then [b64_char (Z.land b2 63)] else []))%list.

Fixpoint encode_loop (fuel : nat) (b : list Z) (i : nat) (result : list ascii) : list ascii :=
  match fuel with
  | O => result
  | S f => if (i <? List.length b)%nat then encode_loop f b (i + 3) (result ++ encode_step b i)%list else result
  end.

Definition encodeBase64URL (s : string) : string :=
  let b := map byte_val (str_bytes s) in bytes_str (encode_loop (List.length b) b 0 []).

(** ** The public key *)

(** [big.Int.Bytes]: the big-endian bytes, without leading zeros. *)
Definition byte_count (z : Z) : nat := if z <=? 0 then 0 else Z.to_nat (Z.log2 z / 8 + 1).
Definition big_Bytes (z : Z) : string := bytes_str (map of_byte (be_bytes (byte_count z) z)).

(** The four bytes of the exponent, and the loop that trims them. *)
Definition exponent_bytes (e : Z) : list Z :=
  [Z.land (Z.shiftr e 24) 255; Z.land (Z.shiftr e 16) 255; Z.land (Z.shiftr e 8) 255; Z.land e 255].
Fixpoint trim_zeros (e : list Z) : list Z :=
  match e with
  | b :: ((_ :: _) as e') => if b =? 0 then trim_zeros e' else e
  | _ => e
  end.

(** The JWK as [json.Marshal] is given it: encoded values by key. *)
Definition jwk_members {K} (f : Factory K) : gmap string string :=
  let pub := fa_privateKey f in
  list_to_map
    [("kty", json_quote "RSA"); ("kid", json_quote (fa_keyID f)); ("use", json_quote "sig");
     ("alg", json_quote "RS256"); ("n", json_quote (encodeBase64URL (big_Bytes (rk_N pub))));
     ("e", json_quote (encodeBase64URL (bytes_str (map of_byte (trim_zeros (exponent_bytes (rk_E pub)))))))].

Definition PublicKeyJSON {K} (f : Factory K) : string := json_map (jwk_members f).

(** [json.Marshal] of a value that came from [json.Unmarshal]; a number is
    written as the literal it was read from. *)
Fixpoint marshal_any (v : goval) : string :=
  match v with
  | GNil => "null"
  | GBool b => json_bool b
  | GNumber lit => lit
  | GInt z => fmt_d z
  | GString s => json_quote s
  | GStrings l => json_strings l
  | GSlice l => json_list (map marshal_any l)
  | GMap l => json_map (list_to_map (map (fun kv => (kv.1, marshal_any kv.2)) l))
  end.
Definition marshal_object (m : gmap string goval) : string := json_map (marshal_any <$> m).

(** [JWKS] *)
Definition JWKS_document {K} (f : Factory K) : res string :=
  match j ← json_Unmarshal (PublicKeyJSON f); dec_object None j with
  | None => Err json_error
  | Some keyMap =>
      let entry := match keyMap with Some m => marshal_object m | None => "null" end in
      Ok (json_map (list_to_map [("keys", json_list [entry])]))
  end.

(** ** [Generate] *)

(** [for i, s := range scopes { if i > 0 { scope += " " }; scope += s }] *)
Fixpoint join_from (i : nat) (scope : string) (l : list string) : string :=
  match l with
  | [] => scope
  | s :: l' => join_from (1 + i) ((if (0 <? i)%nat then scope +:+ " " else scope) +:+ s) l'
  end.

Definition option_claims (opts : TokenOptions) (now : Time) : gmap string goval :=
  let set_if (b : bool) k v (m : gmap string goval) := if b then <[k := v]> m else m in
  let m := list_to_map
    [("sub", GString (to_Subject opts)); ("iss", GString (to_Issuer opts));
     ("iat", GInt (time_Unix_sec now));
     ("exp", GInt (time_Unix_sec (time_Add now (to_ExpiresIn opts))));
     ("auth_time", GInt (time_Unix_sec (to_AuthTime opts))); ("active", GBool true)] in
  let m := set_if (negb (bool_decide (to_Audience opts = []))) "aud" (GStrings (to_Audience opts)) m in
  let m := set_if (negb (String.eqb (to_ACR opts) EmptyString)) "acr" (GString (to_ACR opts)) m in
  let m := set_if (negb (bool_decide (to_AMR opts = []))) "amr" (GStrings (to_AMR opts)) m in
  let m := set_if (negb (bool_decide (to_Scopes opts = []))) "scope" (GString (join_from 0 EmptyString (to_Scopes opts))) m in
  let m := set_if (negb (bool_decide (to_Roles opts = []))) "realm_access" (GMap [("roles", GStrings (to_Roles opts))]) m in
  let m := set_if (negb (String.eqb (to_TenantID opts) EmptyString)) "tenant_id" (GString (to_TenantID opts)) m in
  let m := set_if (negb (String.eqb (to_SessionID opts) EmptyString)) "sid" (GString (to_SessionID opts)) m in
  default ∅ (to_Extra opts) ∪ m.

Section Generate.
Context {K St : Type}.
(** [jwt.NewWithClaims] with a method and claims, entries set in its header,
    and [SignedString] with the key. *)
Context (jwt_SignedString : string -> gmap string goval -> gmap string goval -> PrivateKey K -> res string).

Definition Generate (f : Factory K) (opts : TokenOptions) : M St (res string) :=
  let expires := if to_ExpiresIn opts =? 0 then Hour else to_ExpiresIn opts in
  let issuer := if String.eqb (to_Issuer opts) EmptyString then "http://localhost:8080/devkit" else to_Issuer opts in
  auth ← (if IsZero (to_AuthTime opts) then Now else mret (to_AuthTime opts));
  now ← Now;
  let opts := MkTokenOptions (to_Subject opts) issuer (to_Audience opts) expires (to_ACR opts) (to_AMR opts)
                (to_Scopes opts) (to_Roles opts) (to_TenantID opts) (to_SessionID opts) auth (to_Extra opts) in
  mret (jwt_SignedString "RS256" {["kid" := GString (fa_keyID f)]} (option_claims opts now) (fa_privateKey f)).
End Generate.

(** ** The hand-written encoder is RFC 4648's *)

Lemma forall_below2 (m n : nat) (p : Z -> Z -> bool) :
  forallb (fun x => forallb (p (Z.of_nat x)) (map Z.of_nat (seq 0 n))) (seq 0 m) = true ->
  forall x y, 0 <= x < Z.of_nat m -> 0 <= y < Z.of_nat n -> p x y = true.
Proof.
  intros H x y Hx Hy. rewrite forallb_forall in H.
  assert (Hin : In (Z.to_nat x) (seq 0 m)) by (apply in_seq; lia).
  specialize (H _ Hin). rewrite forallb_forall in H. rewrite Z2Nat.id in H by lia.
  apply H. apply in_map_iff. exists (Z.to_nat y). split; [lia|apply in_seq; lia].
Qed.

(** The bit operations on two bytes, as arithmetic. *)
Lemma join_bits (i j : Z) x y :
  (i = 2 /\ j = 4) \/ (i = 4 /\ j = 2) -> 0 <= x < 2 ^ i -> 0 <= y < 2 ^ j ->
  0 <= Z.lor (Z.shiftl x j) y < 64 /\ Z.lor (Z.shiftl x j) y = x * 2 ^ j + y.
Proof.
  intros Hij Hx Hy.
  assert (H : Z.lor (Z.shiftl x j) y = x * 2 ^ j + y).
  { destruct Hij as [[-> ->]|[-> ->]].
    - apply Z.eqb_eq. apply (forall_below2 4 16 (fun x y => Z.lor (Z.shiftl x 4) y =? x * 2 ^ 4 + y)); [reflexivity|lia..].
    - apply Z.eqb_eq. apply (forall_below2 16 4 (fun x y => Z.lor (Z.shiftl x 2) y =? x * 2 ^ 2 + y)); [reflexivity|lia..]. }
  split; [|done]. rewrite H. destruct Hij as [[-> ->]|[-> ->]]; lia.
Qed.

Lemma byte_bits b :
  Z.shiftr b 2 = b / 4 /\ Z.land b 3 = b mod 4 /\ Z.shiftr b 4 = b / 16 /\ Z.land b 15 = b mod 16 /\
  Z.shiftr b 6 = b / 64 /\ Z.land b 63 = b mod 64.
Proof.
  repeat split; rewrite ?Z.shiftr_div_pow2 by lia; try done.
  all: change 3 with (Z.ones 2); change 15 with (Z.ones 4); change 63 with (Z.ones 6);
  by rewrite !Z.land_ones by lia.
Qed.

(** The four digits of a group. *)
Lemma group_digits b0 b1 b2 :
  is_byte b0 -> is_byte b1 -> is_byte b2 ->
  let v := b0 * 65536 + b1 * 256 + b2 in
  Z.shiftr b0 2 = v / 262144 /\
  Z.lor (Z.shiftl (Z.land b0 3) 4) (Z.shiftr b1 4) = v / 4096 mod 64 /\
  Z.lor (Z.shiftl (Z.land b1 15) 2) (Z.shiftr b2 6) = v / 64 mod 64 /\ Z.land b2 63 = v mod 64.
Proof.
  intros H0 H1 H2 v. unfold is_byte in *.
  destruct (byte_bits b0) as (-> & -> & _ & _ & _ & _). destruct (byte_bits b1) as (_ & _ & -> & -> & _ & _).
  destruct (byte_bits b2) as (_ & _ & _ & _ & -> & ->).
  rewrite (proj2 (join_bits 2 4 (b0 mod 4) (b1 / 16) ltac:(auto) ltac:(zlia) ltac:(zlia))).
  rewrite (proj2 (join_bits 4 2 (b1 mod 16) (b2 / 64) ltac:(auto) ltac:(zlia) ltac:(zlia))).
  subst v. repeat split; zlia.
Qed.

Lemma nth_drop {A} (l : list A) i k d : nth k (drop i l) d = nth (i + k) l d.
Proof. revert l. induction i as [|i IH]; intros [|x l]; [done..|by destruct k|apply IH]. Qed.

Lemma encode_step_spec b i :
  Forall is_byte b -> (i < List.length b)%nat ->
  match drop i b with
  | b0 :: b1 :: b2 :: l => encode_step b i = b64_encode_bytes false [b0; b1; b2] /\ drop (i + 3) b = l
  | l => encode_step b i = b64_encode_bytes false l /\ drop (i + 3) b = []
  end.
Proof.
  intros Hb Hi.
  assert (Hnth : forall k, nth (i + k) b 0 = nth k (drop i b) 0) by (intros k; by rewrite nth_drop).
  pose proof (length_drop b i) as Hlen.
  assert (Hd : drop (i + 3) b = drop 3 (drop i b)) by (by rewrite drop_drop).
  assert (Hl : Forall is_byte (drop i b)) by (by apply Forall_drop).
  pose proof (Hnth 0%nat) as H0. rewrite Nat.add_0_r in H0.
  unfold encode_step. rewrite H0, !Hnth, Hd. clear Hb Hnth H0 Hd.
  destruct (drop i b) as [|b0 [|b1 [|b2 l]]]; cbn [List.length] in Hlen; [lia|..];
    repeat match goal with |- context [(?m <? ?n)%nat] => destruct (Nat.ltb_spec m n); [|] end; try lia;
    cbn [nth drop app]; (split; [|done]); rewrite ?Forall_cons in Hl;
    repeat match goal with H : (_ <= _)%nat |- _ => clear H | H : (_ < _)%nat |- _ => clear H end.
  - destruct Hl as [Q0 _]. destruct (group_digits b0 0 0 Q0 ltac:(done) ltac:(done)) as (-> & -> & _ & _).
    cbn [b64_encode_bytes app]. unfold is_byte in Q0. do 2 f_equal; [zlia|f_equal; f_equal; zlia].
  - destruct Hl as (Q0 & Q1 & _). destruct (group_digits b0 b1 0 Q0 Q1 ltac:(done)) as (-> & -> & -> & _).
    cbn [b64_encode_bytes app]. unfold is_byte in Q0, Q1.
    f_equal; [f_equal; zlia|]. f_equal; [f_equal; zlia|]. do 2 f_equal. zlia.
  - destruct Hl as (Q0 & Q1 & Q2 & _). by destruct (group_digits b0 b1 b2 Q0 Q1 Q2) as (-> & -> & -> & ->).
Qed.

Lemma encode_loop_spec fuel b i acc :
  Forall is_byte b -> (List.length b - i <= fuel)%nat ->
  encode_loop fuel b i acc = (acc ++ b64_encode_bytes false (drop i b))%list.
Proof.
  intros Hb. revert i acc. induction fuel as [|f IH]; intros i acc Hf; cbn [encode_loop].
  - rewrite drop_ge by lia. by rewrite app_nil_r.
  - destruct (Nat.ltb_spec i (List.length b)) as [Hi|Hi]; [|rewrite drop_ge by lia; by rewrite app_nil_r].
    rewrite IH by lia. pose proof (encode_step_spec b i Hb Hi) as Hs.
    destruct (drop i b) as [|b0 [|b1 [|b2 l]]]; destruct Hs as [-> ->];
      by rewrite <- ?(assoc_L (++)%list), ?app_nil_r.
Qed.

(** C40: The encoder written out in the factory is base64url.  [encodeBase64URL],
    an index loop over bit operations, computes [base64.RawURLEncoding] on
    every input; its loop ends after one step for each three bytes. *)
Theorem encodeBase64URL_RawURL s : encodeBase64URL s = RawURLEncode s.
Proof.
  unfold encodeBase64URL, RawURLEncode, b64_encode. rewrite encode_loop_spec; [done|apply map_byte_val_ok|lia].
Qed.

(** ** Integers as bytes *)

Lemma be_word_app l x : be_word (l ++ [x]) = be_word l * 256 + x.
Proof. unfold be_word. by rewrite fold_left_app. Qed.

Lemma be_word_cons x l : be_word (x :: l) = x * 256 ^ Z.of_nat (List.length l) + be_word l.
Proof.
  induction l as [|y l IH] using rev_ind; [unfold be_word; cbn; lia|].
  change (x :: l ++ [y])%list with ((x :: l) ++ [y])%list. rewrite !be_word_app, IH, length_app. cbn [List.length].
  replace (Z.of_nat (List.length l + 1)) with (Z.of_nat (List.length l) + 1) by lia.
  rewrite Z.pow_add_r by lia. lia.
Qed.

Lemma be_word_be_bytes n z : be_word (be_bytes n z) = z mod 256 ^ Z.of_nat n.
Proof.
  induction n as [|n IH]; [by rewrite Z.mod_1_r|]. cbn [be_bytes]. rewrite be_word_cons, be_bytes_length, IH.
  rewrite Z.shiftr_div_pow2 by lia. change 255 with (Z.ones 8). rewrite Z.land_ones by lia.
  replace (2 ^ (8 * Z.of_nat n)) with (256 ^ Z.of_nat n) by (rewrite Z.pow_mul_r by lia; done).
  rewrite Nat2Z.inj_succ, Z.pow_succ_r by lia.
  rewrite (Z.mul_comm 256), Z.rem_mul_r by lia. change (2 ^ 8) with 256. lia.
Qed.

Lemma be_bytes_range n z : Forall is_byte (be_bytes n z).
Proof.
  induction n as [|n IH]; [done|]. cbn [be_bytes]. constructor; [|done]. unfold is_byte.
  change 255 with (Z.ones 8). rewrite Z.land_ones by lia. apply Z.mod_pos_bound. lia.
Qed.

Lemma SetBytes_bytes l : Forall is_byte l -> SetBytes (bytes_str (map of_byte l)) = be_word l.
Proof.
  intros Hl. unfold SetBytes. rewrite str_bytes_str, map_map. f_equal.
  induction Hl as [|x l Hx _ IH]; [done|]. cbn [map]. by rewrite IH, byte_val_of_byte.
Qed.

Lemma SetBytes_big_Bytes z : 0 <= z -> SetBytes (big_Bytes z) = z.
Proof.
  intros Hz. unfold big_Bytes. rewrite SetBytes_bytes by apply be_bytes_range.
  rewrite be_word_be_bytes. apply Z.mod_small. split; [done|]. unfold byte_count.
  destruct (Z.leb_spec z 0); [cbn; lia|]. pose proof (Z.log2_spec z ltac:(lia)) as [_ Hlt].
  pose proof (Z.log2_nonneg z). pose proof (Z.div_pos (Z.log2 z) 8).
  rewrite Z2Nat.id by lia. change 256 with (2 ^ 8). rewrite <- Z.pow_mul_r by lia.
  eapply Z.lt_le_trans; [exact Hlt|]. apply Z.pow_le_mono_r; [lia|]. zlia.
Qed.

Lemma trim_zeros_word l : be_word (trim_zeros l) = be_word l.
Proof.
  induction l as [|x l IH]; [done|]. cbn [trim_zeros]. destruct l as [|y l]; [done|].
  destruct (Z.eqb_spec x 0) as [->|_]; [|done]. rewrite IH, (be_word_cons 0). lia.
Qed.

Lemma trim_zeros_bytes l : Forall is_byte l -> Forall is_byte (trim_zeros l).
Proof.
  induction 1 as [|x l Hx Hl IH]; [done|]. cbn [trim_zeros]. destruct l as [|y l]; [by constructor|].
  destruct (x =? 0); [done|by constructor].
Qed.

Lemma exponent_be_bytes e : exponent_bytes e = be_bytes 4 e.
Proof. unfold exponent_bytes. cbn [be_bytes]. by rewrite Z.shiftr_0_r. Qed.

Lemma exponent_read e :
  0 <= e < 2 ^ 32 -> SetBytes (bytes_str (map of_byte (trim_zeros (exponent_bytes e)))) = e.
Proof.
  intros He. rewrite exponent_be_bytes, SetBytes_bytes by apply trim_zeros_bytes, be_bytes_range.
  rewrite trim_zeros_word, be_word_be_bytes. by apply Z.mod_small.
Qed.

(** ** The published key is the factory's *)

Section Jwk.
Context {U : Unicode} {K : Type}.
Variable f : Factory K.

Definition jwk_n : string := encodeBase64URL (big_Bytes (rk_N (fa_privateKey f))).
Definition jwk_e : string :=
  encodeBase64URL (bytes_str (map of_byte (trim_zeros (exponent_bytes (rk_E (fa_privateKey f)))))).

(** The members, in the order of their names. *)
Definition jwk_sorted : list (string * string) :=
  [("alg", "RS256"); ("e", jwk_e); ("kid", fa_keyID f); ("kty", "RSA"); ("n", jwk_n); ("use", "sig")].
Definition jwk_values : gmap string goval := list_to_map (map (fun m => (m.1, GString m.2)) jwk_sorted).

Lemma sorted_six alg e kid kty n use :
  sorted_members (list_to_map [("kty", kty); ("kid", kid); ("use", use); ("alg", alg); ("n", n); ("e", e)]) =
  [("alg", alg); ("e", e); ("kid", kid); ("kty", kty); ("n", n); ("use", use)].
Proof. vm_compute. reflexivity. Qed.

Lemma PublicKeyJSON_text :
  PublicKeyJSON f = json_object (map (fun m => (m.1, json_quote m.2)) jwk_sorted).
Proof. unfold PublicKeyJSON, json_map, jwk_members. rewrite sorted_six. reflexivity. Qed.

Definition quoted_members (l : list (string * string)) : list (string * (string * json)) :=
  map (fun m => (m.1, (json_quote m.2, JStr m.2))) l.

Lemma is_ascii_b64 s : is_ascii (RawURLEncode s) = true.
Proof.
  apply str_forall_spec. intros c [Hc|[[=] _]]%b64_encode_chars. revert Hc.
  destruct c as [[] [] [] [] [] [] [] []]; vm_compute; done.
Qed.

Lemma whole_jwk : is_ascii (fa_keyID f) = true -> whole (PublicKeyJSON f) (JObj (quoted_members jwk_sorted)).
Proof.
  intros Hk. rewrite PublicKeyJSON_text.
  replace (map (fun m => (m.1, json_quote m.2)) jwk_sorted)
    with (map (fun m => (m.1, m.2.1)) (quoted_members jwk_sorted)) by (unfold quoted_members; by rewrite map_map).
  apply whole_object. unfold quoted_members, jwk_sorted. cbn [map fst snd].
  repeat (constructor; [split; [reflexivity|apply whole_reads, whole_quote]|]); try done.
  - unfold jwk_e. rewrite encodeBase64URL_RawURL. apply is_ascii_b64.
  - unfold jwk_n. rewrite encodeBase64URL_RawURL. apply is_ascii_b64.
Qed.

Lemma dec_jwk : dec_object None (JObj (quoted_members jwk_sorted)) = Some (Some jwk_values).
Proof. unfold quoted_members, jwk_values, jwk_sorted. generalize jwk_e jwk_n (fa_keyID f). intros e n k. vm_compute. reflexivity. Qed.

Lemma marshal_jwk : marshal_object jwk_values = PublicKeyJSON f.
Proof. unfold marshal_object, PublicKeyJSON. by f_equal. Qed.

Lemma JWKS_document_text :
  is_ascii (fa_keyID f) = true ->
  JWKS_document f = Ok (json_object [("keys", json_list [PublicKeyJSON f])]).
Proof.
  intros Hk. unfold JWKS_document. pose proof (json_Unmarshal_whole _ _ EmptyString (whole_jwk Hk) eq_refl) as H.
  rewrite str_app_nil_r in H. rewrite H. cbn [mbind option_bind]. rewrite dec_jwk, marshal_jwk. reflexivity.
Qed.

Lemma decode_jwks_document :
  is_ascii (fa_keyID f) = true ->
  decode_jwks (json_object [("keys", json_list [PublicKeyJSON f])]) = Some [Some jwk_values].
Proof.
  intros Hk. set (elems := [(PublicKeyJSON f, JObj (quoted_members jwk_sorted))]).
  assert (Hw : whole (json_object (map (fun m => (m.1, m.2.1)) [("keys", (json_list (map fst elems), JArr elems))]))
                 (JObj [("keys", (json_list (map fst elems), JArr elems))])).
  { apply whole_object. constructor; [|done]. split; [done|]. apply whole_reads, whole_list.
    constructor; [|done]. apply whole_reads. by apply whole_jwk. }
  pose proof (json_Decode_whole _ _ EmptyString Hw) as H. rewrite str_app_nil_r in H.
  unfold decode_jwks. cbn [map fst snd elems] in H. rewrite H. cbn [mbind option_bind dec_struct dec_members].
  unfold match_field. rewrite bool_decide_eq_true_2 by left.
  cbn [dec_objects dec_object_elems head tail default mbind option_bind]. subst elems.
  change (dec_object_elems [] [(PublicKeyJSON f, JObj (quoted_members jwk_sorted))])
    with (o ← dec_object None (JObj (quoted_members jwk_sorted)); r ← dec_object_elems [] []; Some (o :: r)).
  rewrite dec_jwk. done.
Qed.

Lemma jwk_string_values :
  let get := jwk_string (Some jwk_values) in
  get "kty" = "RSA" /\ get "n" = jwk_n /\ get "e" = jwk_e /\ get "kid" = fa_keyID f.
Proof.
  unfold jwk_values, jwk_sorted. generalize jwk_e jwk_n (fa_keyID f). intros e n k.
  repeat split; vm_compute; reflexivity.
Qed.

Lemma RawURLEncode_not_empty s : s <> EmptyString -> String.eqb (RawURLEncode s) EmptyString = false.
Proof.
  intros Hs. apply String.eqb_neq. intros H. apply (f_equal RawURLDecode) in H.
  unfold RawURLDecode, RawURLEncode in H. rewrite b64_decode_encode in H. injection H as H. done.
Qed.

Lemma jwk_key :
  0 < rk_N (fa_privateKey f) -> 0 < rk_E (fa_privateKey f) < 2 ^ 32 ->
  PublicKeyFromJWK (Some jwk_values) = Ok (RsaKey (rk_N (fa_privateKey f)) (rk_E (fa_privateKey f))).
Proof.
  intros Hn He. unfold PublicKeyFromJWK. destruct jwk_string_values as (Hkty & Hgn & Hge & _).
  rewrite Hkty. change (String.eqb "RSA" "EC") with false. change (String.eqb "RSA" "RSA") with true. cbv iota.
  unfold rsaKeyFromJWK. rewrite Hgn, Hge. unfold jwk_n, jwk_e. rewrite !encodeBase64URL_RawURL.
  pose proof (SetBytes_big_Bytes (rk_N (fa_privateKey f)) ltac:(lia)) as HN.
  pose proof (exponent_read (rk_E (fa_privateKey f)) ltac:(lia)) as HE.
  rewrite !RawURLEncode_not_empty.
  - cbn [orb]. unfold RawURLDecode, RawURLEncode. rewrite !b64_decode_encode.
    rewrite HN, HE, wrap64_id by (unfold int64_ok, min_int64, max_int64; lia).
    by destruct (Z.leb_spec (rk_E (fa_privateKey f)) 0); [lia|].
  - intros Hx. rewrite Hx in HE. cbn in HE. lia.
  - intros Hx. rewrite Hx in HN. cbn in HN. lia.
Qed.
End Jwk.

(** The keys the factory publishes are the keys the validator reads.  The
    JWKS document of a factory, served at the validator's endpoint, becomes
    exactly one entry: the factory's key id with its RSA modulus and exponent
    (key ids in ASCII, positive modulus, exponent below 2^32). *)
Theorem JWKS_roundtrip {U : Unicode} {K} (f : Factory K) :
  is_ascii (fa_keyID f) = true -> 0 < rk_N (fa_privateKey f) -> 0 < rk_E (fa_privateKey f) < 2 ^ 32 ->
  exists doc jwks, JWKS_document f = Ok doc /\ decode_jwks doc = Some jwks /\
    collect_keys jwks = {[fa_keyID f := RsaKey (rk_N (fa_privateKey f)) (rk_E (fa_privateKey f))]}.
Proof.
  intros Hk Hn He. eexists _, _. split; [by apply JWKS_document_text|].
  split; [by apply decode_jwks_document|]. unfold collect_keys. cbn [foldl].
  rewrite jwk_key by done. by destruct (jwk_string_values f) as (_ & _ & _ & ->).
Qed.

Definition demo_factory : Factory unit := MkFactory (MkPrivateKey (3233 * 65537 * 1000003) 65537 tt) "devkit-key-1".

Example JWKS_roundtrip_witness :
  exists doc jwks, JWKS_document demo_factory = Ok doc /\ decode_jwks (U := unicode_min) doc = Some jwks /\
    collect_keys (U := unicode_min) jwks = {["devkit-key-1" := RsaKey (3233 * 65537 * 1000003) 65537]}.
Proof. exact (JWKS_roundtrip (U := unicode_min) demo_factory eq_refl eq_refl (conj eq_refl eq_refl)). Defined.

Example PublicKeyJSON_ex :
  PublicKeyJSON demo_factory =
  json_object [("alg", json_quote "RS256"); ("e", json_quote "AQAB"); ("kid", json_quote "devkit-key-1");
    ("kty", json_quote "RSA"); ("n", json_quote "wLSQ1tAj"); ("use", json_quote "sig")].
Proof. vm_compute. reflexivity. Qed.
