(* ===== verification/LocalAS.v ===== *)
(** * The local authorization server: [pkg/devkit/localas/server.go]

    Issuing, introspecting and revoking tokens, behind its multiplexer; and
    the server as the introspector of [introspect.go] sees it.  Key
    generation, JWT signing and the listener are parameters. *)

From S2P Require Import Prelude GoString GoTime Encoding Crypto Json JsonText TextLemmas TimeText Http Url Form ServeMux Rar Claims Effects Cache Dpop JwtValidator TokenFactory.
Open Scope Z_scope.

Record tokenEntry := MkTokenEntry {
  te_raw : string;
  te_subject : string;
  te_scopes : list string;
  te_acr : string;
  te_expiresAt : Time;
  te_revoked : bool
}.

(** [ls_httpSrv] says that [httpSrv] is set. *)
Record Server (K : Type) := MkServer {
  ls_factory : Factory K;
  ls_tokens : gmap string tokenEntry;
  ls_issuer : string;
  ls_httpSrv : bool
}.
Arguments MkServer {K} _ _ _ _.
Arguments ls_factory {K} _.
Arguments ls_tokens {K} _.
Arguments ls_issuer {K} _.
Arguments ls_httpSrv {K} _.

(** [New], on the result of generating a key. *)
Definition LocalAS_New {K} (GenerateKey : res (PrivateKey K)) : res (Server K) :=
  match Factory_New GenerateKey with
  | Err e => Err (errorw "creating token factory" e)
  | Ok factory => Ok (MkServer factory ∅ EmptyString false)
  end.

(** [Start], on the address of the listener: the base URL. *)
Definition LocalAS_Start {K} (listen : res string) (s : Server K) : res string * Server K :=
  match listen with
  | Err e => (Err (errorw "listening" e), s)
  | Ok addr => let issuer := "http://" +:+ addr in (Ok issuer, MkServer (ls_factory s) (ls_tokens s) issuer true)
  end.

(** [Stop], on what shutting the HTTP server down answers. *)
Definition LocalAS_Stop {K} (Shutdown : option error) (s : Server K) : option error :=
  if ls_httpSrv s then Shutdown else None.

Definition set_tokens {K} (tokens : gmap string tokenEntry) (s : Server K) : Server K :=
  MkServer (ls_factory s) tokens (ls_issuer s) (ls_httpSrv s).

Definition joinScopes (scopes : list string) : string := join_from 0 EmptyString scopes.

Definition as_writeJSON (members : gmap string string) (w : Response) : Response :=
  Write (json_map members +:+ str1 "010") (SetHeader "Content-Type" "application/json" w).

Definition set_issuer (opts : TokenOptions) (iss : string) : TokenOptions :=
  MkTokenOptions (to_Subject opts) iss (to_Audience opts) (to_ExpiresIn opts) (to_ACR opts) (to_AMR opts)
    (to_Scopes opts) (to_Roles opts) (to_TenantID opts) (to_SessionID opts) (to_AuthTime opts) (to_Extra opts).

Section LocalAS.
Context {U : Unicode} {K : Type}.
Context (jwt_SignedString : string -> gmap string goval -> gmap string goval -> PrivateKey K -> res string).

(** [IssueToken]; reading the clock to date the entry comes after signing. *)
Definition IssueToken (opts : TokenOptions) : M (Server K) (res string) :=
  s ← gets (fun s => s);
  let opts := if String.eqb (to_Issuer opts) EmptyString then set_issuer opts (ls_issuer s) else opts in
  raw ← Generate jwt_SignedString (ls_factory s) opts;
  match raw with
  | Err e => mret (Err e)
  | Ok raw =>
      now ← Now;
      _ ← modify (fun s => set_tokens (<[raw := MkTokenEntry raw (to_Subject opts) (to_Scopes opts) (to_ACR opts)
                                                  (time_Add now (to_ExpiresIn opts)) false]> (ls_tokens s)) s);
      mret (Ok raw)
  end.

Definition handleDiscovery (w : Response) (r : Request) : M (Server K) Response :=
  base ← gets ls_issuer;
  mret (as_writeJSON (list_to_map
    [("issuer", json_quote base);
     ("authorization_endpoint", json_quote (base +:+ "/authorize"));
     ("token_endpoint", json_quote (base +:+ "/token"));
     ("introspection_endpoint", json_quote (base +:+ "/introspect"));
     ("revocation_endpoint", json_quote (base +:+ "/revoke"));
     ("jwks_uri", json_quote (base +:+ "/jwks"));
     ("response_types_supported", json_strings ["code"]);
     ("grant_types_supported", json_strings ["authorization_code"; "client_credentials"; "password"]);
     ("acr_values_supported", json_strings ["urn:mace:incommon:iap:bronze"; "urn:mace:incommon:iap:silver"; "urn:mace:incommon:iap:gold"]);
     ("subject_types_supported", json_strings ["public"]);
     ("id_token_signing_alg_values_supported", json_strings ["RS256"])]) w).

Definition handleJWKS (w : Response) (r : Request) : M (Server K) Response :=
  factory ← gets ls_factory;
  mret (match JWKS_document factory with
        | Err _ => http_Error "error generating JWKS" StatusInternalServerError w
        | Ok jwks => Write jwks (SetHeader "Content-Type" "application/json" w)
        end).

Definition not_post (w : Response) : Response := http_Error "method not allowed" StatusMethodNotAllowed w.

Definition handleToken (w : Response) (r : Request) : M (Server K) Response :=
  if negb (String.eqb (rq_Method r) "POST") then mret (not_post w) else
  let sub := FormValue r "username" in
  let sub := if String.eqb sub EmptyString then "test-user" else sub in
  let acr := FormValue r "acr_values" in
  let acr := if String.eqb acr EmptyString then "urn:mace:incommon:iap:bronze" else acr in
  raw ← IssueToken (MkTokenOptions sub EmptyString [] Hour acr [] ["openid"; "profile"] [] EmptyString EmptyString
                      time_zero None);
  mret (match raw with
        | Err _ => http_Error "error issuing token" StatusInternalServerError w
        | Ok raw => as_writeJSON (list_to_map
            [("access_token", json_quote raw); ("token_type", json_quote "Bearer"); ("expires_in", fmt_d 3600)]) w
        end).

Definition inactive_reply (w : Response) : Response := as_writeJSON {["active" := json_bool false]} w.

Definition active_members (entry : tokenEntry) (iss : string) : gmap string string :=
  list_to_map
    [("active", json_bool true); ("sub", json_quote (te_subject entry));
     ("scope", json_quote (joinScopes (te_scopes entry))); ("acr", json_quote (te_acr entry));
     ("exp", fmt_d (time_Unix_sec (te_expiresAt entry))); ("iss", json_quote iss)].

Definition handleIntrospect (w : Response) (r : Request) : M (Server K) Response :=
  if negb (String.eqb (rq_Method r) "POST") then mret (not_post w) else
  let raw := FormValue r "token" in
  s ← gets (fun s => s);
  match ls_tokens s !! raw with
  | None => mret (inactive_reply w)
  | Some entry =>
      if te_revoked entry then mret (inactive_reply w) else
      now ← Now;
      mret (if time_After now (te_expiresAt entry) then inactive_reply w
            else as_writeJSON (active_members entry (ls_issuer s)) w)
  end.

(** [entry.revoked = true] through the pointer in the map. *)
Definition revoke_entry (e : tokenEntry) : tokenEntry :=
  MkTokenEntry (te_raw e) (te_subject e) (te_scopes e) (te_acr e) (te_expiresAt e) true.

Definition handleRevoke (w : Response) (r : Request) : M (Server K) Response :=
  if negb (String.eqb (rq_Method r) "POST") then mret (not_post w) else
  let raw := FormValue r "token" in
  _ ← modify (fun s => set_tokens (alter revoke_entry raw (ls_tokens s)) s);
  mret (WriteHeader StatusOK w).

Inductive as_route := RouteDiscovery | RouteJWKS | RouteToken | RouteIntrospect | RouteRevokeToken.

(** The routes of [Start]. *)
Definition as_mux : list (Pattern as_route) :=
  Handle "/revoke" RouteRevokeToken (Handle "/introspect" RouteIntrospect (Handle "/token" RouteToken
    (Handle "/jwks" RouteJWKS (Handle "/.well-known/openid-configuration" RouteDiscovery [])))).

Definition as_handler (h : as_route) : Response -> Request -> M (Server K) Response :=
  match h with
  | RouteDiscovery => handleDiscovery
  | RouteJWKS => handleJWKS
  | RouteToken => handleToken
  | RouteIntrospect => handleIntrospect
  | RouteRevokeToken => handleRevoke
  end.

Definition as_ServeHTTP (w : Response) (i : Incoming) : M (Server K) reply :=
  match mux_reply i w (mux_find as_mux i) with
  | inl rep => mret rep
  | inr h => w' ← as_handler h w (in_Request i); mret (Wrote w')
  end.

Fixpoint as_serve_all (l : list Incoming) : M (Server K) (list reply) :=
  match l with
  | [] => mret []
  | i :: l' => rep ← as_ServeHTTP empty_response i; reps ← as_serve_all l'; mret (rep :: reps)
  end.
End LocalAS.

(** ** The server as the introspector sees it *)

(** [Request.SetBasicAuth]: the value of the header, in standard base64. *)
Definition std_char (c : ascii) : ascii :=
  if Ascii.eqb c "-" then "+"%char else if Ascii.eqb c "_" then "/"%char else c.
Definition StdEncode (s : string) : string := bytes_str (map std_char (str_bytes (URLEncode s))).
Definition basic_credentials (user password : string) : string := "Basic " +:+ StdEncode (user +:+ ":" +:+ password).

Section Client.
Context {U : Unicode} {K : Type}.
Context (jwt_SignedString : string -> gmap string goval -> gmap string goval -> PrivateKey K -> res string).
Implicit Types (w : world (Server K)) (e : tokenEntry).

Abbreviation serve := (as_ServeHTTP jwt_SignedString) (only parsing).

(** The request [Introspector.Introspect] sends. *)
Definition posted_values (form : list (string * string)) : gmap string (list string) :=
  foldl (fun m kv => Values_Set m kv.1 kv.2) ∅ form.
Definition client_request (cfg : IntrospectorConfig) (form : list (string * string)) : Incoming :=
  let h := Header_Set ∅ "Content-Type" "application/x-www-form-urlencoded" in
  let h := Header_Set h "Authorization" (basic_credentials (ic_ClientID cfg) (ic_ClientSecret cfg)) in
  MkIncoming (MkRequest "POST" "/introspect" EmptyString "/introspect" "/introspect" "127.0.0.1" false
    "127.0.0.1:40000" h [] (Some (Values_Encode (posted_values form)))) EmptyString true.

(** The exchange with the server in [w]. *)
Definition as_exchange w (cfg : IntrospectorConfig) (form : list (string * string)) : res (Z * string) :=
  match (serve empty_response (client_request cfg form) w).1 with
  | Wrote rw => Ok (default StatusOK (rs_Status rw), rs_Body rw)
  | Redirected _ _ _ => Err (errorf "redirected")
  end.

Definition entry_live w e : bool := negb (te_revoked e) && negb (time_After (now_of w) (te_expiresAt e)).

(** The claims of a registered token. *)
Definition entry_claims (iss : string) e : CommonClaims :=
  let exp := te_expiresAt e / Second in
  MkClaims (te_subject e) iss [] EmptyString (if 0 <? exp then time_Unix exp else time_zero) time_zero None
    (te_acr e) [] EmptyString time_zero EmptyString EmptyString [] (te_scopes e) EmptyString [] None true.

(** Text the JSON encoder and [strings.Fields] leave alone, and an expiry in
    the range of [int64]. *)
Record plain_entry (iss : string) e : Prop := {
  pl_iss : is_ascii iss = true;
  pl_subject : is_ascii (te_subject e) = true;
  pl_acr : is_ascii (te_acr e) = true;
  pl_scopes : Forall word (te_scopes e);
  pl_exp : int64_ok (te_expiresAt e / Second)
}.

Lemma posted_token tok : posted_values (introspect_form tok) !! "token" = Some [tok].
Proof. by unfold posted_values, introspect_form; cbn. Qed.

Lemma posted_has_values tok : has_values (posted_values (introspect_form tok)).
Proof. by apply has_values_Set, has_values_Set, has_values_empty. Qed.

Lemma as_mux_introspect i :
  rq_Path (in_Request i) = "/introspect" -> in_RawPath i = EmptyString ->
  rq_RequestURI (in_Request i) <> "*" -> mux_find as_mux i = MuxFound RouteIntrospect.
Proof.
  intros Hp Hraw Hu. unfold mux_find. rewrite Hp, Hraw. apply String.eqb_neq in Hu. rewrite Hu.
  by destruct (String.eqb (rq_Method (in_Request i)) "CONNECT").
Qed.

(** What the server answers to the introspector. *)
Lemma exchange_reply w cfg tok :
  Z.of_nat (String.length (Values_Encode (posted_values (introspect_form tok)))) <= maxFormSize ->
  as_exchange w cfg (introspect_form tok) =
  Ok (200, (match ls_tokens (w_st w) !! tok with
            | Some e => if entry_live w e then json_map (active_members e (ls_issuer (w_st w)))
                        else json_map {["active" := json_bool false]}
            | None => json_map {["active" := json_bool false]}
            end) +:+ str1 "010").
Proof.
  intros Hs. unfold as_exchange, as_ServeHTTP. rewrite as_mux_introspect by done. cbn [mux_reply as_handler].
  assert (Hf : FormValue (in_Request (client_request cfg (introspect_form tok))) "token" = tok).
  { apply (FormValue_posted _ (posted_values (introspect_form tok))).
    - split; [reflexivity| |reflexivity|exact Hs].
      unfold client_request. cbn [in_Request rq_Header]. rewrite Header_Get_Set_other by (vm_compute; discriminate).
      apply Header_Get_Set_same.
    - apply posted_has_values.
    - apply posted_token. }
  unfold handleIntrospect. cbn [client_request in_Request rq_Method] in Hf |- *.
  change (String.eqb "POST" "POST") with true. cbn [negb]. rewrite Hf.
  unfold mbind, M_bind, gets. cbn [w_st]. unfold entry_live.
  destruct (ls_tokens (w_st w) !! tok) as [e|]; [|reflexivity].
  destruct (te_revoked e); [reflexivity|]. cbn [Now negb andb]. unfold now_of, mret, M_ret.
  by destruct (time_After _ _).
Qed.

Lemma decode_inactive : decode_intro (json_map {["active" := json_bool false]} +:+ str1 "010") = Some intro_zero.
Proof. vm_compute. reflexivity. Qed.

Lemma joinScopes_Join l : joinScopes l = Join l " ".
Proof.
  unfold joinScopes. destruct l as [|s l]; [done|]. cbn [join_from]. change ((0 <? 0)%nat) with false. cbv iota.
  cbn [append]. assert (H : forall l i acc, (0 < i)%nat ->
    join_from i acc l = match l with [] => acc | _ => acc +:+ " " +:+ Join l " " end).
  { clear. induction l as [|s l IH]; intros i acc Hi; [done|]. cbn [join_from].
    destruct (Nat.ltb_spec 0 i); [|lia]. rewrite IH by lia. destruct l as [|s2 l].
    - cbn [Join]. by rewrite <- str_app_assoc.
    - change (Join (s :: s2 :: l) " ") with (s +:+ " " +:+ Join (s2 :: l) " "). by rewrite !str_app_assoc. }
  rewrite H by lia. by destruct l.
Qed.

(** The members as they are written. *)
Definition active_sorted (iss : string) e : list (string * (string * json)) :=
  [("acr", (json_quote (te_acr e), JStr (te_acr e))); ("active", (json_bool true, JBool true));
   ("exp", (fmt_d (te_expiresAt e / Second), JNum (fmt_d (te_expiresAt e / Second))));
   ("iss", (json_quote iss, JStr iss));
   ("scope", (json_quote (Join (te_scopes e) " "), JStr (Join (te_scopes e) " ")));
   ("sub", (json_quote (te_subject e), JStr (te_subject e)))].

Lemma sorted_active (active sub scope acr exp iss : string) :
  sorted_members (list_to_map [("active", active); ("sub", sub); ("scope", scope); ("acr", acr); ("exp", exp); ("iss", iss)]) =
  [("acr", acr); ("active", active); ("exp", exp); ("iss", iss); ("scope", scope); ("sub", sub)].
Proof. vm_compute. reflexivity. Qed.

Lemma decode_active iss e :
  plain_entry iss e ->
  decode_intro (json_map (active_members e iss) +:+ str1 "010") =
  Some (MkIntro true (te_subject e) iss (te_expiresAt e / Second) 0 0 (te_acr e) [] (Join (te_scopes e) " ")
          EmptyString EmptyString EmptyString EmptyString [] None []).
Proof.
  intros [Hi Hsub Hacr Hsc Hexp]. unfold decode_intro, json_map, active_members.
  rewrite sorted_active, joinScopes_Join. unfold time_Unix_sec.
  assert (Hj : is_ascii (Join (te_scopes e) " ") = true).
  { clear -Hsc. induction Hsc as [|s l (Hs & _) Hl IH]; [done|]. destruct l as [|s2 l]; [done|].
    change (Join (s :: s2 :: l) " ") with (s +:+ " " +:+ Join (s2 :: l) " "). by rewrite !is_ascii_app, Hs, IH. }
  assert (Hw : whole (json_object (map (fun m => (m.1, m.2.1)) (active_sorted iss e))) (JObj (active_sorted iss e))).
  { apply whole_object. unfold active_sorted.
    repeat (constructor; [split; [reflexivity|cbn [fst snd];
      first [by apply reads_fmt_d|by apply whole_reads, whole_quote|by apply whole_reads, whole_bool]]|]). done. }
  pose proof (json_Decode_whole _ _ (str1 "010") Hw) as Hd. unfold active_sorted at 1 in Hd. cbn [map fst snd] in Hd.
  rewrite Hd. cbn [mbind option_bind dec_struct]. unfold active_sorted.
  pose proof (parse_int_fmt_d _ Hexp) as Hp. revert Hp.
  generalize (fmt_d (te_expiresAt e / Second)), (te_expiresAt e / Second), (Join (te_scopes e) " "), (te_subject e), (te_acr e).
  intros lit z sc sub acr Hp. cbn [dec_members].
  rewrite !match_field_exact by (repeat first [apply list_elem_of_here|apply list_elem_of_further]).
  unfold intro_set, intro_zero.
  cbn [String.eqb Ascii.eqb Bool.eqb dec_string dec_bool dec_int64 mbind option_bind]. by rewrite Hp.
Qed.

(** The answer of the introspector for a token. *)
Definition registered_claims w tok : CommonClaims :=
  match ls_tokens (w_st w) !! tok with
  | Some e => if entry_live w e then entry_claims (ls_issuer (w_st w)) e else empty_claims
  | None => empty_claims
  end.
Definition token_fits tok : Prop :=
  Z.of_nat (String.length (Values_Encode (posted_values (introspect_form tok)))) <= maxFormSize.

Lemma introspect_registered w new_request cfg tok :
  new_request (ic_Endpoint cfg) = None -> token_fits tok ->
  (forall e, ls_tokens (w_st w) !! tok = Some e -> entry_live w e = true -> plain_entry (ls_issuer (w_st w)) e) ->
  Introspect (as_exchange w) new_request cfg tok = Ok (registered_claims w tok).
Proof.
  intros Hn Hs Hpl. unfold Introspect, registered_claims. rewrite Hn, (exchange_reply w cfg tok Hs).
  change (negb (200 =? StatusOK)) with false. cbv iota.
  destruct (ls_tokens (w_st w) !! tok) as [e|]; [|by rewrite decode_inactive].
  destruct (entry_live w e) eqn:Hlive; [|by rewrite decode_inactive].
  rewrite (decode_active _ e (Hpl e eq_refl Hlive)). f_equal. unfold introToCommonClaims, entry_claims.
  cbn [ir_Sub ir_Iss ir_Aud ir_JTI ir_Exp ir_IAT ir_AuthTime ir_Cnf ir_ACR ir_AMR ir_Username ir_Scope
    ir_AuthorizationDetails ir_Active]. f_equal. pose proof (pl_scopes _ _ (Hpl e eq_refl Hlive)) as Hw. clear Hpl.
  by apply Fields_scope.
Qed.

(** ** What requests do to an entry *)

Lemma IssueToken_entry opts w raw w' :
  IssueToken jwt_SignedString opts w = (Ok raw, w') ->
  exists n, (w_tick w <= n < w_tick w')%nat /\ w_now w' = w_now w /\ ls_issuer (w_st w') = ls_issuer (w_st w) /\
    ls_tokens (w_st w') = <[raw := MkTokenEntry raw (to_Subject opts) (to_Scopes opts) (to_ACR opts)
                                     (time_Add (w_now w n) (to_ExpiresIn opts)) false]> (ls_tokens (w_st w)).
Proof.
  unfold IssueToken, Generate, gets, Now, modify, mbind, M_bind, mret, M_ret.
  destruct (IsZero _); cbn; destruct (jwt_SignedString _ _ _ _) as [raw'|e]; try done; cbn;
    intros [= <- <-]; cbn; eexists; (split; [|split; [done|split; [done|]]]); cbn;
    try (destruct (String.eqb (to_Issuer opts) EmptyString); reflexivity); lia.
Qed.

(** A request that reaches a handler with a POST has its path. *)
Lemma as_route_path i h :
  mux_find as_mux i = MuxFound h -> rq_Method (in_Request i) = "POST" ->
  rq_Path (in_Request i) =
    match h with
    | RouteDiscovery => "/.well-known/openid-configuration"
    | RouteJWKS => "/jwks"
    | RouteToken => "/token"
    | RouteIntrospect => "/introspect"
    | RouteRevokeToken => "/revoke"
    end.
Proof.
  intros (_ & Hclean & p & Hp & <- & Hs)%mux_find_found Hpost.
  destruct Hclean as [Hc|Hclean]; [congruence|].
  pose proof (EscapedPath_unescape (rq_Path (in_Request i)) (in_RawPath i)) as Hun.
  unfold as_mux, Handle in Hp. cbn [app] in Hp.
  repeat (apply elem_of_cons in Hp as [->|Hp];
    [unfold matches_segs in Hs; cbn -[path_segments EscapedPath] in Hs; by rewrite (literal_path _ _ _ Hclean Hun Hs)|]).
  by apply not_elem_of_nil in Hp.
Qed.

(** The request neither issues a token nor revokes [tok]. *)
Definition leaves_alone (tok : string) (i : Incoming) : Prop :=
  rq_Path (in_Request i) <> "/token" /\
  (rq_Path (in_Request i) = "/revoke" -> FormValue (in_Request i) "token" <> tok).

Definition same_server w w' : Prop :=
  later w w' /\ ls_issuer (w_st w') = ls_issuer (w_st w).

Lemma same_server_refl w : same_server w w.
Proof. by split. Qed.

Lemma gets_ret {A B} (f : Server K -> A) (g : A -> B) w : ((a ← gets f; mret (g a)) : M _ _) w = (g (f (w_st w)), w).
Proof. done. Qed.

Lemma serve_entry tok rw i w rep w' :
  serve rw i w = (rep, w') -> rq_Path (in_Request i) <> "/token" ->
  same_server w w' /\
  (ls_tokens (w_st w') !! tok = ls_tokens (w_st w) !! tok \/
   rq_Path (in_Request i) = "/revoke" /\ FormValue (in_Request i) "token" = tok /\
   ls_tokens (w_st w') !! tok = revoke_entry <$> ls_tokens (w_st w) !! tok).
Proof.
  unfold as_ServeHTTP, mux_reply. intros H Htok.
  assert (Hsame : forall w2 (Q : Prop), w_st w2 = w_st w -> later w w2 -> same_server w w2 /\
    (ls_tokens (w_st w2) !! tok = ls_tokens (w_st w) !! tok \/ Q)).
  { intros w2 Q Hst Hl. split; [split; [done|by rewrite Hst]|left; by rewrite Hst]. }
  destruct (mux_find as_mux i) as [|path query| |h] eqn:Hm; try (injection H as _ <-; by apply Hsame).
  unfold mbind, M_bind in H. destruct (as_handler _ _ _ _ _) as [rw' w1] eqn:Hh. injection H as _ <-.
  destruct h; cbn [as_handler] in Hh.
  - unfold handleDiscovery in Hh. rewrite gets_ret in Hh. apply (f_equal snd) in Hh. cbn [snd] in Hh.
    subst w1. by apply Hsame.
  - unfold handleJWKS in Hh. rewrite gets_ret in Hh. apply (f_equal snd) in Hh. cbn [snd] in Hh.
    subst w1. by apply Hsame.
  - unfold handleToken in Hh. destruct (String.eqb_spec (rq_Method (in_Request i)) "POST") as [Hp|_].
    + by rewrite (as_route_path i _ Hm Hp) in Htok.
    + injection Hh as _ <-. by apply Hsame.
  - unfold handleIntrospect, gets, Now, mbind, M_bind in Hh. cbn -[FormValue String.eqb] in Hh.
    destruct (negb _); [injection Hh as _ <-; by apply Hsame|].
    destruct (ls_tokens (w_st w) !! FormValue (in_Request i) "token") as [e|]; [|injection Hh as _ <-; by apply Hsame].
    destruct (te_revoked e); injection Hh as _ <-; apply Hsame; try done. split; cbn; [done|lia].
  - unfold handleRevoke, modify, mbind, M_bind in Hh.
    destruct (String.eqb_spec (rq_Method (in_Request i)) "POST") as [Hp|_]; cbn [negb] in Hh; [|injection Hh as _ <-; by apply Hsame].
    injection Hh as _ <-. split; [by split|]. cbn -[FormValue].
    destruct (decide (FormValue (in_Request i) "token" = tok)) as [<-|Hne].
    + right. split; [exact (as_route_path i _ Hm Hp)|]. by rewrite lookup_alter_eq.
    + left. by rewrite lookup_alter_ne.
Qed.

Lemma same_server_trans w1 w2 w3 : same_server w1 w2 -> same_server w2 w3 -> same_server w1 w3.
Proof. intros [H1 E1] [H2 E2]. split; [by etransitivity|congruence]. Qed.

Lemma serve_all_entry tok l w :
  (forall i, i ∈ l -> rq_Path (in_Request i) <> "/token") ->
  let w' := (as_serve_all jwt_SignedString l w).2 in
  same_server w w' /\
  (ls_tokens (w_st w') !! tok = ls_tokens (w_st w) !! tok \/
   (exists i, i ∈ l /\ rq_Path (in_Request i) = "/revoke" /\ FormValue (in_Request i) "token" = tok) /\
   ls_tokens (w_st w') !! tok = revoke_entry <$> ls_tokens (w_st w) !! tok).
Proof.
  revert w. induction l as [|i l IH]; intros w Hl; [split; [by split|by left]|].
  cbn [as_serve_all]. unfold mbind, M_bind, mret, M_ret. destruct (serve empty_response i w) as [rep w1] eqn:H1.
  specialize (IH w1 ltac:(intros j Hj; apply Hl; by right)).
  destruct (as_serve_all jwt_SignedString l w1) as [reps w2]. cbn [snd] in IH |- *.
  destruct (serve_entry tok _ _ _ _ _ H1 ltac:(apply Hl; by left)) as [S1 E1]. destruct IH as [S2 E2].
  split; [by eapply same_server_trans|].
  destruct E1 as [E1|(P1 & F1 & E1)]; destruct E2 as [E2|((j & Hj & P2 & F2) & E2)].
  - left. by rewrite E2, E1.
  - right. split; [exists j; split; [by right|done]|]. by rewrite E2, E1.
  - right. split; [exists i; split; [by left|done]|]. by rewrite E2, E1.
  - right. split; [exists i; split; [by left|done]|]. rewrite E2, E1.
    by destruct (ls_tokens (w_st w) !! tok).
Qed.

(** C26: An issued token introspects as what it was issued for, until it
    expires.  After [IssueToken] returns a token, and whatever requests the
    server handles in between that neither issue a token nor revoke this one,
    the introspector asking this server gets an active answer with the
    subject, scopes and assurance level the token was issued with, and the
    issuer of the server (also when the token was issued with another), up to
    the lifetime after a moment during the call; later it gets an inactive
    one.  (ASCII texts, scopes without spaces, times in the range of int64, a
    form within the size limit.) *)
Theorem issued_token_introspects opts w0 raw w1 l w2 new_request cfg :
  IssueToken jwt_SignedString opts w0 = (Ok raw, w1) ->
  (forall i, i ∈ l -> leaves_alone raw i) -> w2 = (as_serve_all jwt_SignedString l w1).2 ->
  new_request (ic_Endpoint cfg) = None -> token_fits raw ->
  is_ascii (ls_issuer (w_st w0)) = true -> is_ascii (to_Subject opts) = true -> is_ascii (to_ACR opts) = true ->
  Forall word (to_Scopes opts) -> (forall n, int64_ok (time_Add (w_now w0 n) (to_ExpiresIn opts) / Second)) ->
  exists n, (w_tick w0 <= n < w_tick w1)%nat /\
    let t := time_Add (w_now w0 n) (to_ExpiresIn opts) in
    Introspect (as_exchange w2) new_request cfg raw =
    Ok (if now_of w2 <=? t
        then MkClaims (to_Subject opts) (ls_issuer (w_st w0)) [] EmptyString
               (if 0 <? t / Second then time_Unix (t / Second) else time_zero) time_zero None
               (to_ACR opts) [] EmptyString time_zero EmptyString EmptyString [] (to_Scopes opts) EmptyString [] None true
        else empty_claims).
Proof.
  intros Hi Hl -> Hn Hf Hiss Hsub Hacr Hsc Hexp.
  destruct (IssueToken_entry _ _ _ _ Hi) as (n & Hb & Hnow & Hi1 & Htok). exists n. split; [done|]. cbv zeta.
  destruct (serve_all_entry raw l w1) as [[_ Hi2] Hent]; [intros i Hin; by apply Hl|].
  assert (He : ls_tokens (w_st (as_serve_all jwt_SignedString l w1).2) !! raw =
    Some (MkTokenEntry raw (to_Subject opts) (to_Scopes opts) (to_ACR opts)
            (time_Add (w_now w0 n) (to_ExpiresIn opts)) false)).
  { destruct Hent as [->|((i & Hin & Hp & Hv) & _)]; [by rewrite Htok, lookup_insert_eq|].
    by destruct (Hl i Hin) as [_ H]; destruct (H Hp). }
  rewrite introspect_registered; [|done|done|].
  - unfold registered_claims. rewrite He. unfold entry_live, time_After. cbn [te_revoked te_expiresAt negb andb].
    rewrite Z.ltb_antisym, negb_involutive. rewrite Hi2, Hi1. by destruct (_ <=? _).
  - intros e [= <-]%(eq_trans (eq_sym He)) _. rewrite Hi2, Hi1.
    split; [exact Hiss|exact Hsub|exact Hacr|exact Hsc|exact (Hexp n)].
Qed.

(** C36: A revoked token stays inactive.  Once a revocation request for a
    token is answered, the introspector gets an inactive answer for it
    however the server is used afterwards, as long as no new token is
    issued. *)
Theorem revoked_token_inactive tok i w l w2 new_request cfg :
  rq_Method (in_Request i) = "POST" -> rq_Path (in_Request i) = "/revoke" -> in_RawPath i = EmptyString ->
  rq_RequestURI (in_Request i) <> "*" -> FormValue (in_Request i) "token" = tok ->
  (forall j, j ∈ l -> rq_Path (in_Request j) <> "/token") ->
  w2 = (as_serve_all jwt_SignedString l (serve empty_response i w).2).2 ->
  new_request (ic_Endpoint cfg) = None -> token_fits tok ->
  (serve empty_response i w).1 = Wrote (WriteHeader StatusOK empty_response) /\
  Introspect (as_exchange w2) new_request cfg tok = Ok empty_claims.
Proof.
  intros Hm Hp Hraw Hu Hv Hl -> Hn Hf.
  assert (Hroute : mux_find as_mux i = MuxFound RouteRevokeToken).
  { unfold mux_find. rewrite Hp, Hraw. apply String.eqb_neq in Hu. rewrite Hu.
    by destruct (String.eqb (rq_Method (in_Request i)) "CONNECT"). }
  assert (Hs : exists w1, serve empty_response i w = (Wrote (WriteHeader StatusOK empty_response), w1) /\
    ls_tokens (w_st w1) !! tok = revoke_entry <$> ls_tokens (w_st w) !! tok).
  { unfold as_ServeHTTP. rewrite Hroute. cbn [mux_reply as_handler]. unfold handleRevoke. rewrite Hm, Hv.
    eexists. split; [reflexivity|]. cbn. by rewrite lookup_alter_eq. }
  destruct Hs as (w1 & -> & He1). split; [done|]. cbn [snd].
  destruct (serve_all_entry tok l w1 Hl) as [_ Hent].
  assert (Hdead : forall e, ls_tokens (w_st (as_serve_all jwt_SignedString l w1).2) !! tok = Some e -> te_revoked e = true).
  { intros e He. destruct (ls_tokens (w_st w) !! tok) as [e0|]; cbn in He1;
      destruct Hent as [E|(_ & E)]; rewrite E, He1 in He; cbn in He; by simplify_eq. }
  rewrite introspect_registered; [|done|done|].
  - unfold registered_claims.
    destruct (ls_tokens (w_st (as_serve_all jwt_SignedString l w1).2) !! tok) as [e|]; [|done].
    unfold entry_live. by rewrite (Hdead e eq_refl).
  - intros e He. unfold entry_live. by rewrite (Hdead e He).
Qed.

(** Tokens carry nothing that tells two issues apart: within one second the
    same options give the same token, and issuing it again undoes its
    revocation. *)
Lemma reissue_revives opts w w' t raw w1 w1' :
  frozen w t -> frozen w' t -> ls_factory (w_st w') = ls_factory (w_st w) -> ls_issuer (w_st w') = ls_issuer (w_st w) ->
  IssueToken jwt_SignedString opts w = (Ok raw, w1) ->
  (IssueToken jwt_SignedString opts w').1 = Ok raw /\
  (te_revoked <$> ls_tokens (w_st (IssueToken jwt_SignedString opts w').2) !! raw) = Some false.
Proof.
  intros Hf Hf' Hfa His H.
  assert (Hsame : (IssueToken jwt_SignedString opts w').1 = (IssueToken jwt_SignedString opts w).1).
  { unfold IssueToken, Generate, gets, Now, modify, mbind, M_bind, mret, M_ret. cbn [w_st w_now w_tick].
    rewrite Hfa, His. destruct (IsZero _); cbn [w_st w_now w_tick]; rewrite !(Hf _), !(Hf' _);
      by destruct (jwt_SignedString _ _ _ _). }
  rewrite H in Hsame. split; [exact Hsame|].
  destruct (IssueToken jwt_SignedString opts w') as [r w2] eqn:E. cbn [fst snd] in *. subst r.
  destruct (IssueToken_entry _ _ _ _ E) as (n & _ & _ & _ & ->). by rewrite lookup_insert_eq.
Qed.

(** [IssueToken] registers the lifetime it was asked for, while [Generate]
    replaces a lifetime of zero by an hour: such a token is inactive as soon
    as the clock moves. *)
Lemma zero_lifetime_inactive opts w raw w1 :
  to_ExpiresIn opts = 0 -> IssueToken jwt_SignedString opts w = (Ok raw, w1) ->
  clock_ok w -> (forall i, (w_tick w <= i)%nat -> w_now w i < w_now w (1 + i)) ->
  registered_claims w1 raw = empty_claims.
Proof.
  intros H0 H Hc Hm. destruct (IssueToken_entry _ _ _ _ H) as (n & [Hn Hn'] & Hnow & _ & Ht).
  unfold registered_claims. rewrite Ht, lookup_insert_eq. unfold entry_live, time_After, time_Add, now_of.
  cbn [te_revoked te_expiresAt negb andb]. rewrite H0, Z.add_0_r, Hnow.
  pose proof (Hm n Hn). pose proof (Hc (1 + n)%nat (w_tick w1) ltac:(lia)).
  by destruct (Z.ltb_spec (w_now w n) (w_now w (w_tick w1))); [|lia].
Qed.
End Client.

(** ** A token and its revocation *)

Section Demo.
#[local] Existing Instance unicode_min.

Definition demo_sign (alg : string) (header claims : gmap string goval) (key : PrivateKey unit) : res string :=
  Ok ("h." +:+ default "" (as_string (claims !! "sub")) +:+ ".s").
Definition demo_as_world : world (Server unit) :=
  World (fun _ => 1000 * Second) 0 (MkServer demo_factory ∅ "http://127.0.0.1:4711" true).
Definition demo_options : TokenOptions :=
  MkTokenOptions "alice" "" [] Hour "urn:mace:incommon:iap:silver" [] ["openid"; "pay"] [] "" "" time_zero None.
Definition demo_as_request (path body : string) : Incoming :=
  MkIncoming (MkRequest "POST" path "" path path "127.0.0.1" false "127.0.0.1:40000"
    (Header_Set ∅ "Content-Type" "application/x-www-form-urlencoded") [] (Some body)) "" true.
Definition demo_introspector : IntrospectorConfig := MkIntrospectorConfig "http://127.0.0.1:4711/introspect" "c" "s" Second.

Definition demo_others : list Incoming := [demo_as_request "/revoke" "token=other"; demo_as_request "/jwks" ""].
Definition demo_issued := IssueToken demo_sign demo_options demo_as_world.
Definition demo_later := (as_serve_all demo_sign demo_others demo_issued.2).2.

Example issued_token_introspects_witness :
  demo_issued.1 = Ok "h.alice.s" /\
  exists c, Introspect (as_exchange demo_sign demo_later) (fun _ => None) demo_introspector "h.alice.s" = Ok c /\
    cl_Active c = true /\ cl_Subject c = "alice" /\ cl_Scopes c = ["openid"; "pay"].
Proof.
  split; [vm_compute; reflexivity|].
  destruct (issued_token_introspects demo_sign demo_options demo_as_world "h.alice.s" demo_issued.2
    demo_others demo_later (fun _ => None) demo_introspector) as (n & Hn & H).
  - unfold demo_issued. vm_compute. reflexivity.
  - intros i Hi. unfold demo_others in Hi. rewrite !elem_of_cons, elem_of_nil in Hi.
    destruct Hi as [->|[->|[]]]; (split; [vm_compute; discriminate|]); intros Hp; vm_compute in Hp |- *; discriminate.
  - reflexivity.
  - reflexivity.
  - vm_compute. discriminate.
  - reflexivity.
  - reflexivity.
  - reflexivity.
  - repeat (apply Forall_cons_2; [split; [reflexivity|split; [discriminate|reflexivity]]|]). constructor.
  - intros n. vm_compute. split; discriminate.
  - cbv zeta in H. change (w_now demo_as_world n) with (1000 * Second) in H.
    replace (now_of demo_later <=? _) with true in H by (vm_compute; reflexivity).
    eexists. split; [exact H|]. repeat split; reflexivity.
Defined.

Example revoked_token_inactive_witness :
  let i := demo_as_request "/revoke" "token=h.alice.s" in
  let w := (as_serve_all demo_sign demo_others (as_ServeHTTP demo_sign empty_response i demo_issued.2).2).2 in
  registered_claims demo_issued.2 "h.alice.s" <> empty_claims /\
  Introspect (as_exchange demo_sign w) (fun _ => None) demo_introspector "h.alice.s" = Ok empty_claims.
Proof.
  split; [vm_compute; discriminate|].
  refine (proj2 (revoked_token_inactive demo_sign "h.alice.s" (demo_as_request "/revoke" "token=h.alice.s")
    demo_issued.2 demo_others _ (fun _ => None) demo_introspector _ _ _ _ _ _ _ _ _)).
  - reflexivity.
  - reflexivity.
  - reflexivity.
  - vm_compute. discriminate.
  - vm_compute. reflexivity.
  - intros j Hj. unfold demo_others in Hj. rewrite !elem_of_cons, elem_of_nil in Hj.
    destruct Hj as [->|[->|[]]]; vm_compute; discriminate.
  - reflexivity.
  - reflexivity.
  - vm_compute. discriminate.
Defined.
End Demo.
