(* ===== verification/ClaimsMapper.v ===== *)
(** * Provider claims: [pkg/providers/claims_mapper.go]

    The normalisation of a map of raw claims.  Go iterates over a map in an
    unspecified order, so the operations that do so take the order as a list
    of the map's members. *)

From Stdlib Require Import DecimalString DecimalPos.
From S2P Require Import Prelude GoString GoTime Encoding Json TextLemmas TimeText Http Rar Claims Effects Cache Dpop JwtValidator TokenFactory.
Open Scope Z_scope.

Abbreviation RawClaims := (gmap string goval) (only parsing).

(** ** Numbers: [int64(v)] of a [float64]

    A literal is [m * 10 ^ e]; its double is the nearest one with 53
    significant bits, ties to even; the conversion drops the fraction. *)
Definition literal_parts (lit : string) : bool * Z * Z :=
  let '(neg, lit) := match lit with String "-" r => (true, r) | _ => (false, lit) end in
  let '(ip, r) := span is_digit lit in
  let '(fp, r) := match r with String "." r' => span is_digit r' | _ => (EmptyString, r) end in
  let exp := match r with
             | String _ (String "+" r') => default 0 (dec_nat r')
             | String _ (String "-" r') => - default 0 (dec_nat r')
             | String _ r' => default 0 (dec_nat r')
             | EmptyString => 0
             end in
  (neg, default 0 (dec_nat (ip +:+ fp)), exp - Z.of_nat (String.length fp)).

Definition round_half_even (n d : Z) : Z :=
  let q := n / d in
  let r := n mod d in
  if 2 * r <? d then q else if d <? 2 * r then q + 1 else if Z.even q then q else q + 1.

(** The integer part of the double nearest to [n / d], for [0 < n] and [0 < d]. *)
Definition double_trunc (n d : Z) : Z :=
  let p := if n <? d then 53 else 52 - Z.log2 (n / d) in
  if 0 <=? p then round_half_even (n * 2 ^ p) d / 2 ^ p
  else round_half_even n (d * 2 ^ (- p)) * 2 ^ (- p).

Definition literal_trunc (lit : string) : Z :=
  let '(neg, m, e) := literal_parts lit in
  let t := if m =? 0 then 0
           else if 0 <=? e then double_trunc (m * 10 ^ e) 1
           else if Z.of_nat (String.length lit) <? - e then 0
           else double_trunc m (10 ^ (- e)) in
  if neg then - t else t.

Section Mapper.
(** What the conversion gives when the double is outside [int64], which the
    language leaves to the implementation. *)
Context (int64_out_of_range : string -> Z).

Definition int64_of_float (lit : string) : Z :=
  let t := literal_trunc lit in
  if (min_int64 <=? t) && (t <=? max_int64) then t else int64_out_of_range lit.

Definition stringClaim (raw : RawClaims) (key : string) : string := default EmptyString (as_string (raw !! key)).

Definition unixTimeClaim (raw : RawClaims) (key : string) : Time :=
  match raw !! key with
  | Some (GNumber lit) => time_Unix (int64_of_float lit)
  | Some (GInt z) => time_Unix z
  | _ => time_zero
  end.

Definition toStringSlice (v : goval) : list string :=
  match v with
  | GSlice l => omap (fun item => match item with GString s => Some s | _ => None end) l
  | GStrings l => l
  | GString s => [s]
  | _ => []
  end.

Fixpoint firstNonEmpty (vals : list string) : string :=
  match vals with
  | [] => EmptyString
  | v :: vals' => if negb (String.eqb v EmptyString) then v else firstNonEmpty vals'
  end.

(** [strings.Contains(k, "/roles") || strings.HasSuffix(k, "roles")] *)
Definition role_key (k : string) : bool := Contains k "/roles" || HasSuffix k "roles".

(** The members of a JSON object held in a [GMap]: a later duplicate wins. *)
Definition map_get (l : list (string * goval)) (k : string) : option goval :=
  snd <$> List.find (fun kv => String.eqb kv.1 k) (rev l).

Definition extractRoles (order : list (string * goval)) (raw : RawClaims) : list string :=
  let rest :=
    match List.find (fun kv => role_key kv.1) order with
    | Some (_, v) => toStringSlice v
    | None => match raw !! "roles" with Some roles => toStringSlice roles | None => [] end
    end in
  match raw !! "realm_access" with
  | Some (GMap ra) => match map_get ra "roles" with Some roles => toStringSlice roles | None => rest end
  | _ => rest
  end.

Definition known : list string :=
  ["sub"; "iss"; "aud"; "exp"; "iat"; "auth_time"; "acr"; "amr"; "sid"; "email"; "preferred_username";
   "username"; "nickname"; "scope"; "active"; "tenant_id"; "tid"; "org_id"].

(** The loop that fills [Extra]. *)
Definition extra_claims (order : list (string * goval)) : gmap string goval :=
  foldl (fun extra kv => if bool_decide (kv.1 ∈ known) then extra else <[kv.1 := kv.2]> extra) ∅ order.

(** [MapToCommon]; [order1] and [order2] are the orders of its two loops. *)
Definition MapToCommon {S} (order1 order2 : list (string * goval)) (raw : RawClaims) : M S CommonClaims :=
  let expires := unixTimeClaim raw "exp" in
  active ← (match raw !! "active" with
            | Some (GBool b) => mret b
            | _ => if IsZero expires then mret true else now ← Now; mret (time_Before now expires)
            end);
  mret (MkClaims (stringClaim raw "sub") (stringClaim raw "iss")
    (match raw !! "aud" with Some aud => toStringSlice aud | None => [] end) EmptyString
    expires (unixTimeClaim raw "iat") None (stringClaim raw "acr")
    (match raw !! "amr" with Some amr => toStringSlice amr | None => [] end)
    (stringClaim raw "sid") (unixTimeClaim raw "auth_time") (stringClaim raw "email")
    (firstNonEmpty [stringClaim raw "preferred_username"; stringClaim raw "username"; stringClaim raw "nickname"])
    (extractRoles order1 raw)
    (match raw !! "scope" with
     | Some (GString scope) => if negb (String.eqb scope EmptyString) then Fields scope else []
     | _ => []
     end)
    (firstNonEmpty [stringClaim raw "tenant_id"; stringClaim raw "tid"; stringClaim raw "org_id"])
    [] (Some (extra_claims order2)) active).
End Mapper.

Example literal_trunc_ex :
  literal_trunc "1700000000" = 1700000000 /\ literal_trunc "1.7e9" = 1700000000 /\
  literal_trunc "9007199254740993" = 9007199254740992 /\ literal_trunc "-2.9" = -2 /\
  literal_trunc "0.99999999999999999999" = 1 /\ literal_trunc "9.223372036854775807e18" = 2 ^ 63 /\
  literal_trunc "1e-30" = 0.
Proof. repeat split; vm_compute; reflexivity. Qed.

(** ** An integer literal keeps its value up to 2^53 *)

Lemma span_digits s : str_forall is_digit s = true -> span is_digit s = (s, EmptyString).
Proof.
  intros H. rewrite <- (str_app_nil_r s) at 1. by apply span_app.
Qed.

Lemma round_half_even_exact n d : 0 < d -> round_half_even (n * d) d = n.
Proof.
  intros Hd. unfold round_half_even. rewrite Z.mod_mul, Z.div_mul by lia.
  by destruct (Z.ltb_spec (2 * 0) d); [|lia].
Qed.

Lemma double_trunc_integer n : 0 < n -> n <= 2 ^ 53 -> double_trunc n 1 = n.
Proof.
  intros Hn Hb. unfold double_trunc. destruct (Z.ltb_spec n 1); [lia|]. rewrite Z.div_1_r.
  assert (Hl : Z.log2 n <= 53) by (rewrite <- (Z.log2_pow2 53) by lia; by apply Z.log2_le_mono).
  pose proof (Z.log2_nonneg n).
  destruct (Z.leb_spec 0 (52 - Z.log2 n)) as [Hp|Hp].
  - rewrite <- (Z.mul_1_r (n * 2 ^ _)), round_half_even_exact by lia. rewrite Z.div_mul; [done|].
    pose proof (Z.pow_pos_nonneg 2 (52 - Z.log2 n)). lia.
  - assert (Z.log2 n = 53) as Hl2 by lia.
    assert (n = 2 ^ 53) as ->.
    { pose proof (Z.log2_spec n Hn) as [Hlo _]. rewrite Hl2 in Hlo. lia. }
    reflexivity.
Qed.

Lemma dec_acc_uint u p :
  dec_acc (Zpos p) (NilEmpty.string_of_uint u) = Some (Zpos (Pos.of_uint_acc u p)).
Proof.
  revert p. induction u as [|u IH|u IH|u IH|u IH|u IH|u IH|u IH|u IH|u IH|u IH]; intros p; [done|..];
    cbn [NilEmpty.string_of_uint dec_acc Pos.of_uint_acc];
    match goal with |- context [is_digit ?c] => change (is_digit c) with true; cbv iota end;
    rewrite <- IH; f_equal;
    match goal with |- context [byte_val ?c] => let v := eval vm_compute in (byte_val c) in change (byte_val c) with v end;
    lia.
Qed.

Lemma dec_nat_uint u : dec_nat (NilEmpty.string_of_uint u) = Some (Z.of_N (Pos.of_uint u)).
Proof.
  unfold dec_nat. induction u as [|u IH|u IH|u IH|u IH|u IH|u IH|u IH|u IH|u IH|u IH]; [done|exact IH|..];
    cbn [NilEmpty.string_of_uint dec_acc Pos.of_uint];
    match goal with |- context [is_digit ?c] => change (is_digit c) with true; cbv iota end;
    match goal with |- dec_acc ?z _ = _ => let v := eval vm_compute in z in change z with v end;
    apply dec_acc_uint.
Qed.

Lemma fmt_d_pos p :
  fmt_d (Zpos p) = NilEmpty.string_of_uint (Pos.to_uint p) /\ NilEmpty.string_of_uint (Pos.to_uint p) <> EmptyString.
Proof.
  unfold fmt_d, Z.to_int, NilZero.string_of_int. pose proof (DecimalPos.Unsigned.to_uint_nonnil p) as Hn.
  by destruct (Pos.to_uint p).
Qed.

Lemma literal_parts_fmt_d p : literal_parts (fmt_d (Zpos p)) = (false, Zpos p, 0).
Proof.
  destruct (fmt_d_pos p) as [-> Hne]. pose proof (string_of_uint_digits (Pos.to_uint p)) as Hd.
  unfold literal_parts. set (s := NilEmpty.string_of_uint (Pos.to_uint p)) in *.
  assert (Hs : (match s with String "-" r => (true, r) | _ => (false, s) end) = (false, s)).
  { destruct s as [|c s']; [done|]. unfold str_forall in Hd. cbn [str_bytes forallb] in Hd.
    apply andb_true_iff in Hd as [Hc _]. revert Hc. by destruct c as [[] [] [] [] [] [] [] []]. }
  rewrite Hs, span_digits by done. cbv iota. rewrite str_app_nil_r. unfold s.
  rewrite dec_nat_uint, DecimalPos.Unsigned.of_to. done.
Qed.

Lemma literal_trunc_fmt_d z : 0 <= z <= 2 ^ 53 -> literal_trunc (fmt_d z) = z.
Proof.
  intros Hz. destruct z as [|p|p]; [reflexivity| |lia]. unfold literal_trunc. rewrite literal_parts_fmt_d.
  cbn [Z.eqb Z.leb Z.compare]. rewrite Z.pow_0_r, Z.mul_1_r, double_trunc_integer by lia. done.
Qed.

Lemma int64_of_float_fmt_d oor z : 0 <= z <= 2 ^ 53 -> int64_of_float oor (fmt_d z) = z.
Proof.
  intros Hz. unfold int64_of_float. rewrite literal_trunc_fmt_d by done.
  rewrite (proj2 (Z.leb_le _ _)), (proj2 (Z.leb_le _ _)); [done|unfold max_int64; lia|unfold min_int64; lia].
Qed.

(** ** What becomes of each claim *)

(** [order] lists the members of the map. *)
Definition lists (order : list (string * goval)) (raw : gmap string goval) : Prop := order ≡ₚ map_to_list raw.

Lemma extra_claims_fold order acc :
  foldl (fun extra kv => if bool_decide (kv.1 ∈ known) then extra else <[kv.1 := kv.2]> extra) acc order =
  foldl (fun (m : gmap string goval) kv => <[kv.1 := kv.2]> m) acc
    (List.filter (fun kv => negb (bool_decide (kv.1 ∈ known))) order).
Proof.
  revert acc. induction order as [|kv order IH]; intros acc; [done|]. cbn [foldl List.filter].
  rewrite IH. by destruct (bool_decide _).
Qed.

Lemma extra_claims_lookup order raw k :
  lists order raw -> extra_claims order !! k = if bool_decide (k ∈ known) then None else raw !! k.
Proof.
  intros Hp. unfold extra_claims.
  assert (Hnd : NoDup order.*1) by (rewrite Hp; apply NoDup_fst_map_to_list).
  assert (Hraw : forall v, (k, v) ∈ order <-> raw !! k = Some v) by (intros v; rewrite Hp; apply elem_of_map_to_list).
  enough (H : forall (acc : gmap string goval), NoDup order.*1 -> foldl (fun extra kv =>
      if bool_decide (kv.1 ∈ known) then extra else <[kv.1 := kv.2]> extra) acc order !! k =
      if bool_decide (k ∈ known) then acc !! k
      else match list_to_map (M := gmap string goval) order !! k with Some v => Some v | None => acc !! k end).
  { rewrite H by done. rewrite lookup_empty. destruct (bool_decide _); [done|].
    replace (list_to_map order) with raw; [by destruct (raw !! k)|].
    rewrite <- (list_to_map_to_list raw). symmetry. by apply list_to_map_proper. }
  clear. induction order as [|[k' v'] order IH]; intros acc Hnd.
  - cbn. by destruct (bool_decide _).
  - cbn [fmap list_fmap fst] in Hnd. apply NoDup_cons in Hnd as [Hk Hnd]. cbn [foldl fst snd].
    rewrite IH by done. cbn [list_to_map foldr uncurry fst snd].
    destruct (decide (k = k')) as [<-|Hne].
    + rewrite lookup_insert_eq, (not_elem_of_list_to_map_1 order k Hk).
      destruct (bool_decide (k ∈ known)); [done|]. by rewrite lookup_insert_eq.
    + rewrite lookup_insert_ne by done. destruct (bool_decide (k' ∈ known)); [done|].
      by rewrite lookup_insert_ne.
Qed.

(** The keys that the second source of roles looks at. *)
Definition role_keys (raw : gmap string goval) : list string := List.filter role_key (map_to_list raw).*1.

Definition realm_roles (raw : gmap string goval) : option goval :=
  match raw !! "realm_access" with Some (GMap ra) => map_get ra "roles" | _ => None end.

Lemma extractRoles_cases order raw :
  lists order raw ->
  match realm_roles raw with
  | Some roles => extractRoles order raw = toStringSlice roles
  | None =>
      (role_keys raw = [] /\ extractRoles order raw = []) \/
      exists k v, k ∈ role_keys raw /\ raw !! k = Some v /\ extractRoles order raw = toStringSlice v
  end.
Proof.
  intros Hp. unfold realm_roles, extractRoles.
  set (rest := match List.find (fun kv => role_key kv.1) order with
               | Some (_, v) => toStringSlice v | None => _ end).
  assert (Hrest : (role_keys raw = [] /\ rest = []) \/
    exists k v, k ∈ role_keys raw /\ raw !! k = Some v /\ rest = toStringSlice v).
  { subst rest. destruct (List.find _ order) as [[k v]|] eqn:Hf.
    - right. apply List.find_some in Hf as [Hin Hk]. cbn [fst] in Hk. exists k, v.
      apply list_elem_of_In in Hin. rewrite Hp in Hin.
      split; [|split; [by apply elem_of_map_to_list|done]].
      unfold role_keys. apply list_elem_of_In, filter_In. split; [|done].
      apply list_elem_of_In. apply list_elem_of_fmap. by exists (k, v).
    - left. assert (Hnone : forall k v, raw !! k = Some v -> role_key k = false).
      { intros k v Hkv. apply (List.find_none _ _ Hf (k, v)). apply list_elem_of_In.
        rewrite Hp. by apply elem_of_map_to_list. }
      split.
      + unfold role_keys. destruct (List.filter _ _) as [|k l] eqn:E; [done|]. exfalso.
        assert (Hin : In k (List.filter role_key (map_to_list raw).*1)) by (rewrite E; by left).
        apply filter_In in Hin as [Hin Hk]. apply list_elem_of_In, list_elem_of_fmap in Hin as ([k' v] & -> & Hkv).
        apply elem_of_map_to_list in Hkv. cbn [fst] in Hk. rewrite (Hnone _ _ Hkv) in Hk. discriminate Hk.
      + destruct (raw !! "roles") as [v|] eqn:Hr; [|done]. apply Hnone in Hr. by vm_compute in Hr. }
  destruct (raw !! "realm_access") as [[]|]; try exact Hrest. by destruct (map_get l "roles").
Qed.

(** The mapping of raw claims.  Whatever the iteration order, every claim
    either has its own field or is kept under its name in [Extra], none is in
    both or lost; claims without an [active] flag are active exactly until
    they expire; the roles come from [realm_access.roles] when that is there,
    otherwise from one of the claims whose name ends in "roles" or contains
    "/roles" (the same for every order when there is at most one), and are
    empty when there is none: the branch for a plain "roles" claim after them
    is never reached. *)
Theorem MapToCommon_partition {S} oor order1 order2 (raw : gmap string goval) (w : world S) :
  lists order1 raw -> lists order2 raw ->
  let c := (MapToCommon oor order1 order2 raw w).1 in
  (forall k, object_get (cl_Extra c) k = if bool_decide (k ∈ known) then None else raw !! k) /\
  (cl_Active c = match raw !! "active" with
                 | Some (GBool b) => b
                 | _ => IsZero (cl_ExpiresAt c) || (now_of w <? cl_ExpiresAt c)
                 end) /\
  match realm_roles raw with
  | Some roles => cl_Roles c = toStringSlice roles
  | None => (role_keys raw = [] /\ cl_Roles c = []) \/
            exists k v, k ∈ role_keys raw /\ raw !! k = Some v /\ cl_Roles c = toStringSlice v
  end.
Proof.
  intros H1 H2 c. pose proof (extractRoles_cases order1 raw H1) as Hr.
  assert (Hf : cl_Extra c = Some (extra_claims order2) /\ cl_Roles c = extractRoles order1 raw /\
    cl_ExpiresAt c = unixTimeClaim oor raw "exp" /\
    cl_Active c = match raw !! "active" with
                  | Some (GBool b) => b
                  | _ => IsZero (unixTimeClaim oor raw "exp") || (now_of w <? unixTimeClaim oor raw "exp")
                  end).
  { unfold c, MapToCommon, mbind, M_bind, Now, mret, M_ret.
    destruct (raw !! "active") as [[]|]; try (split; [done|]; split; [done|]; split; [done|]);
      try done; by destruct (IsZero _). }
  destruct Hf as (-> & -> & -> & ->). split; [|split; [done|exact Hr]].
  intros k. unfold object_get. cbn [mbind option_bind]. by apply extra_claims_lookup.
Qed.

(** Two role-like claims: the roles depend on the order. *)
Lemma extractRoles_order_dependent :
  exists raw order1 order2, lists order1 raw /\ lists order2 raw /\
    extractRoles order1 raw <> extractRoles order2 raw.
Proof.
  set (o := [("https://a/roles", GStrings ["admin"]); ("roles", GStrings ["user"])]).
  exists (list_to_map o), o, (rev o). unfold lists.
  rewrite map_to_list_to_map by (apply (bool_decide_eq_true_1 _); vm_compute; reflexivity).
  split; [done|]. split; [symmetry; apply reverse_Permutation || apply Permutation_rev|]. vm_compute. discriminate.
Qed.

Definition demo_raw : gmap string goval :=
  list_to_map [("sub", GString "alice"); ("exp", GNumber "1700000000"); ("roles", GSlice [GString "user"; GNil]);
    ("department", GString "r&d")].

Example MapToCommon_partition_witness :
  let c := (MapToCommon (fun _ => 0) (map_to_list demo_raw) (map_to_list demo_raw) demo_raw
              (World (fun _ => 1600000000 * Second) 0 tt)).1 in
  object_get (cl_Extra c) "department" = Some (GString "r&d") /\ cl_Active c = true.
Proof.
  intros c. destruct (MapToCommon_partition (fun _ => 0) (map_to_list demo_raw) (map_to_list demo_raw) demo_raw
    (World (fun _ => 1600000000 * Second) 0 tt) (reflexivity _) (reflexivity _)) as (He & Ha & _).
  split; [exact (He "department")|]. refine (eq_trans Ha _). vm_compute. reflexivity.
Defined.

(** ** From the factory's claims to the common ones *)

Lemma lookup_if (b : bool) k (v : goval) (m : gmap string goval) k' :
  (if b then <[k := v]> m else m) !! k' = if bool_decide (k = k') && b then Some v else m !! k'.
Proof.
  destruct b; [|by rewrite andb_false_r]. rewrite andb_true_r.
  destruct (decide (k = k')) as [<-|Hne].
  - by rewrite lookup_insert_eq, bool_decide_eq_true_2.
  - by rewrite lookup_insert_ne, bool_decide_eq_false_2.
Qed.

Lemma join_from_succ i acc l : join_from (S i) acc l = acc +:+ foldr (fun s r => " " +:+ s +:+ r) EmptyString l.
Proof.
  revert i acc. induction l as [|s l IH]; intros i acc; cbn [join_from foldr]; [by rewrite str_app_nil_r|].
  change (0 <? S i)%nat with true. cbv iota. rewrite IH. by rewrite !str_app_assoc.
Qed.

Lemma join_from_Join l : join_from 0 EmptyString l = Join l " ".
Proof.
  destruct l as [|s l]; [done|]. cbn [join_from]. change (0 <? 0)%nat with false. cbv iota.
  cbn [Nat.add]. rewrite join_from_succ. cbn [String.append]. revert s.
  induction l as [|s' l IH]; intros s; cbn [foldr]; [apply str_app_nil_r|].
  change (Join (s :: s' :: l) " ") with (s +:+ " " +:+ Join (s' :: l) " "). by rewrite <- IH.
Qed.

(** Options whose dates are between 1970 and the limit of exact doubles. *)
Definition datable (opts : TokenOptions) (now : Time) : Prop :=
  forall t, t ∈ [time_Add now (to_ExpiresIn opts); to_AuthTime opts] -> 0 <= time_Unix_sec t <= 2 ^ 53.

(** The claims as they arrive: after the JSON of the token. *)
Definition on_the_wire (m : gmap string goval) : gmap string goval := json_norm <$> m.

Lemma toStringSlice_strings l : toStringSlice (json_norm (GStrings l)) = l.
Proof. cbn [json_norm toStringSlice]. induction l as [|s l IH]; [done|]. cbn in *. by rewrite IH. Qed.

(** The claims signed for options without extra ones, by name. *)
Definition claim_of (opts : TokenOptions) (now : Time) (k : string) : option goval :=
  let given (b : bool) v := if b then None else Some v in
  if String.eqb k "sub" then Some (GString (to_Subject opts))
  else if String.eqb k "iss" then Some (GString (to_Issuer opts))
  else if String.eqb k "iat" then Some (GInt (time_Unix_sec now))
  else if String.eqb k "exp" then Some (GInt (time_Unix_sec (time_Add now (to_ExpiresIn opts))))
  else if String.eqb k "auth_time" then Some (GInt (time_Unix_sec (to_AuthTime opts)))
  else if String.eqb k "active" then Some (GBool true)
  else if String.eqb k "aud" then given (bool_decide (to_Audience opts = [])) (GStrings (to_Audience opts))
  else if String.eqb k "acr" then given (String.eqb (to_ACR opts) EmptyString) (GString (to_ACR opts))
  else if String.eqb k "amr" then given (bool_decide (to_AMR opts = [])) (GStrings (to_AMR opts))
  else if String.eqb k "scope" then given (bool_decide (to_Scopes opts = [])) (GString (Join (to_Scopes opts) " "))
  else if String.eqb k "realm_access"
  then given (bool_decide (to_Roles opts = [])) (GMap [("roles", GStrings (to_Roles opts))])
  else if String.eqb k "tenant_id" then given (String.eqb (to_TenantID opts) EmptyString) (GString (to_TenantID opts))
  else if String.eqb k "sid" then given (String.eqb (to_SessionID opts) EmptyString) (GString (to_SessionID opts))
  else None.

Lemma option_claims_lookup opts now k :
  to_Extra opts = None -> option_claims opts now !! k = claim_of opts now k.
Proof.
  intros Hx. unfold option_claims, claim_of. rewrite Hx. cbn [default].
  rewrite map_empty_union, !lookup_if, join_from_Join.
  repeat match goal with
  | |- context [String.eqb k ?s] =>
      destruct (String.eqb_spec k s) as [->|?];
      [cbn [andb]; repeat (rewrite (bool_decide_eq_false_2 (_ = _ :> string)) by done; cbn [andb]);
       try (rewrite bool_decide_eq_true_2 by done; cbn [andb]); repeat case_match; done|]
  end.
  repeat (rewrite (bool_decide_eq_false_2 (_ = k)) by done; cbn [andb]).
  cbn [list_to_map foldr uncurry fst snd]. by rewrite !lookup_insert_ne, lookup_empty by done.
Qed.

Lemma generated_roles order opts now (raw : gmap string goval) :
  lists order raw -> (forall k, raw !! k = json_norm <$> claim_of opts now k) ->
  extractRoles order raw = to_Roles opts.
Proof.
  intros Hord Hget. pose proof (extractRoles_cases order raw Hord) as Hr.
  assert (Hno : forall k v, k ∈ role_keys raw -> raw !! k = Some v -> False).
  { intros k v Hk Hkv. unfold role_keys in Hk. apply list_elem_of_In, filter_In in Hk as [_ Hk].
    rewrite Hget in Hkv. unfold claim_of in Hkv.
    repeat match type of Hkv with context [String.eqb k ?s] =>
      destruct (String.eqb_spec k s) as [->|_]; [by vm_compute in Hk|] end. done. }
  unfold realm_roles in Hr. rewrite Hget in Hr. unfold claim_of in Hr. cbn [String.eqb Ascii.eqb Bool.eqb] in Hr.
  destruct (decide (to_Roles opts = [])) as [Hn|Hne].
  - rewrite bool_decide_eq_true_2 in Hr by done. cbn in Hr. rewrite Hn.
    destruct Hr as [[_ Hr]|(k & v & Hk & Hkv & _)]; [done|]. by destruct (Hno k v).
  - rewrite bool_decide_eq_false_2 in Hr by done. exact Hr.
Qed.

(** A generated token means what it was generated from.  The claims the
    factory signs for some options, after the JSON of the token, are mapped
    back to those options: subject, issuer, audience, levels, methods,
    scopes, roles, tenant, session and dates (options without extra claims,
    scopes that are words); it is marked active, and stays so when it has
    expired. *)
Theorem option_claims_mapped {S} oor opts now order (w : world S) :
  to_Extra opts = None -> Forall word (to_Scopes opts) -> datable opts now ->
  let raw := on_the_wire (option_claims opts now) in
  lists order raw ->
  let c := (MapToCommon oor order order raw w).1 in
  cl_Subject c = to_Subject opts /\ cl_Issuer c = to_Issuer opts /\ cl_Audience c = to_Audience opts /\
  cl_ACR c = to_ACR opts /\ cl_AMR c = to_AMR opts /\ cl_Scopes c = to_Scopes opts /\
  cl_Roles c = to_Roles opts /\ cl_TenantID c = to_TenantID opts /\ cl_SessionID c = to_SessionID opts /\
  cl_ExpiresAt c = time_Unix (time_Unix_sec (time_Add now (to_ExpiresIn opts))) /\
  cl_AuthTime c = time_Unix (time_Unix_sec (to_AuthTime opts)) /\ cl_Active c = true.
Proof.
  intros Hx Hw Hd raw Hord c.
  assert (Hget : forall k, raw !! k = json_norm <$> claim_of opts now k)
    by (intros; rewrite <- (option_claims_lookup _ _ _ Hx); apply lookup_fmap).
  assert (Hsec : forall k t, raw !! k = Some (GNumber (fmt_d (time_Unix_sec t))) -> 0 <= time_Unix_sec t <= 2 ^ 53 ->
    unixTimeClaim oor raw k = time_Unix (time_Unix_sec t)).
  { intros k t Hk Ht. unfold unixTimeClaim. rewrite Hk. by rewrite int64_of_float_fmt_d. }
  assert (Hexp : unixTimeClaim oor raw "exp" = time_Unix (time_Unix_sec (time_Add now (to_ExpiresIn opts)))).
  { apply Hsec; [by rewrite Hget|apply Hd; set_solver]. }
  assert (Hauth : unixTimeClaim oor raw "auth_time" = time_Unix (time_Unix_sec (to_AuthTime opts))).
  { apply Hsec; [by rewrite Hget|apply Hd; set_solver]. }
  assert (Hstr : forall k v, claim_of opts now k = (if String.eqb v EmptyString then None else Some (GString v)) ->
    stringClaim raw k = v).
    { intros k v Hk. unfold stringClaim. rewrite Hget, Hk. destruct (String.eqb_spec v EmptyString) as [He|_]; [by rewrite He|done]. }
  assert (Hslice : forall k l, claim_of opts now k = (if bool_decide (l = []) then None else Some (GStrings l)) ->
    match raw !! k with Some v => toStringSlice v | None => [] end = l).
  { intros k l Hk. rewrite Hget, Hk. destruct (decide (l = [])) as [->|Hne]; [done|].
    rewrite bool_decide_eq_false_2 by done. apply toStringSlice_strings. }
  pose proof (generated_roles order opts now raw Hord Hget) as Hroles.
  unfold c, MapToCommon. rewrite Hexp, Hauth, (Hget "active"). cbn [fst mbind M_bind mret M_ret].
  change (claim_of opts now "active") with (Some (GBool true)). cbn [fmap option_fmap option_map json_norm].
  unfold mbind, M_bind, mret, M_ret. cbn [fst cl_Subject cl_Issuer cl_Audience cl_ACR cl_AMR cl_Scopes cl_Roles
    cl_TenantID cl_SessionID cl_ExpiresAt cl_AuthTime cl_Active].
  rewrite (Hslice "aud" (to_Audience opts) eq_refl), (Hslice "amr" (to_AMR opts) eq_refl), Hroles.
  rewrite (Hstr "acr" (to_ACR opts) eq_refl), (Hstr "sid" (to_SessionID opts) eq_refl).
  unfold firstNonEmpty.
  rewrite (Hstr "tenant_id" (to_TenantID opts) eq_refl), (Hstr "tid" EmptyString eq_refl), (Hstr "org_id" EmptyString eq_refl).
  assert (Hsub : stringClaim raw "sub" = to_Subject opts) by (unfold stringClaim; by rewrite Hget).
  assert (Hiss : stringClaim raw "iss" = to_Issuer opts) by (unfold stringClaim; by rewrite Hget).
  rewrite Hsub, Hiss, (Hget "scope"). unfold claim_of. cbn [String.eqb Ascii.eqb Bool.eqb].
  repeat (split; [done|]). split; [|repeat (split; [done|])].
  - destruct (decide (to_Scopes opts = [])) as [Hn|Hne]; [by rewrite bool_decide_eq_true_2, Hn|].
    rewrite bool_decide_eq_false_2 by done. cbn [fmap option_fmap option_map json_norm].
    destruct (String.eqb_spec (Join (to_Scopes opts) " ") EmptyString) as [He|_]; cbn [negb].
    + pose proof (Fields_Join _ Hw) as Hf. rewrite He in Hf. by rewrite <- Hf.
    + by apply Fields_Join.
  - split; [by destruct (String.eqb_spec (to_TenantID opts) EmptyString) as [He|_]; [rewrite He|]|].
    by repeat (split; [done|]).
Qed.

Definition demo_options : TokenOptions :=
  MkTokenOptions "carol" "https://as" ["api"] Hour "urn:acr:2" ["pwd"; "otp"] ["openid"; "pay"] ["admin"] "acme" "s-7"
    (1699999000 * Second) None.

Example option_claims_mapped_witness :
  let raw := on_the_wire (option_claims demo_options (1700000000 * Second)) in
  let c := (MapToCommon (fun _ => 0) (map_to_list raw) (map_to_list raw) raw
              (World (fun _ => 1700000001 * Second) 0 tt)).1 in
  cl_Subject c = "carol" /\ cl_Scopes c = ["openid"; "pay"] /\ cl_Roles c = ["admin"].
Proof.
  intros raw c.
  destruct (option_claims_mapped (fun _ => 0) demo_options (1700000000 * Second) (map_to_list raw)
    (World (fun _ => 1700000001 * Second) 0 tt) eq_refl) as (H1 & _ & _ & _ & _ & H2 & H3 & _).
  - repeat constructor; vm_compute; try reflexivity; discriminate.
  - intros t Ht. apply elem_of_cons in Ht as [->|Ht]; [vm_compute; split; discriminate|].
    apply elem_of_cons in Ht as [->|Ht]; [vm_compute; split; discriminate|]. destruct (not_elem_of_nil t Ht).
  - apply Permutation_refl.
  - split; [exact H1|]. split; [exact H2|exact H3].
Defined.
