(* ===== verification/Simulator.v ===== *)
(** * The policy simulator of the development kit: [pkg/devkit/simulator/policy.go]

    A dry run of the policy engine, and its table of results. *)

From S2P Require Import Prelude GoString GoTime Encoding Json Rar Matcher Policy.
Open Scope Z_scope.

Record SimRequest := MkSimRequest {
  sq_Method : string;
  sq_Path : string;
  sq_ACR : string;
  sq_AMR : list string;
  sq_Scopes : list string;
  sq_AuthAge : Duration
}.

Record SimResult := MkSimResult {
  sr_Allowed : bool;
  sr_PolicyName : string;
  sr_Reason : string;
  sr_RequiredACR : string;
  sr_RequiredMaxAge : Z
}.

(** [Simulator]: its engine. *)
Record Simulator := MkSimulator { sim_engine : Engine }.
Definition Simulator_New (engine : Engine) : Simulator := MkSimulator engine.

Section Simulate.
Context {U : Unicode}.

(** The request given to the engine: it has no authorization details. *)
Definition sim_policy_request (req : SimRequest) : PolicyRequest :=
  MkPolicyRequest (sq_Method req) (sq_Path req) (sq_ACR req) (sq_AMR req) (sq_Scopes req) (sq_AuthAge req) [].

(** [Simulate]; its error is that of [Evaluate], which has none. *)
Definition Simulate (s : Simulator) (req : SimRequest) : SimResult :=
  let result := Evaluate (sim_engine s) (sim_policy_request req) in
  MkSimResult (pr_Allowed result)
    (match pr_MatchedPolicy result with Some p => p_Name p | None => EmptyString end)
    (pr_Reason result) (pr_RequiredACR result) (pr_RequiredMaxAge result).

(** The verb [%-ns]: padded to [n] runes. *)
Definition pad_right (n : nat) (s : string) : string := s +:+ Repeat " " (n - List.length (runes s)).

(** A line of the table, and the whole of it. *)
Definition table_line (method path acr allowed reason : string) : string :=
  pad_right 8 method +:+ " " +:+ pad_right 30 path +:+ " " +:+ pad_right 10 acr +:+ " " +:+
  pad_right 10 allowed +:+ " " +:+ reason +:+ nl.

Definition result_line (s : Simulator) (req : SimRequest) : string :=
  let result := Simulate s req in
  let allowed := if negb (sr_Allowed result) then "NO" else "YES" in
  let reason := if String.eqb (sr_Reason result) EmptyString && negb (sr_Allowed result) &&
                   negb (String.eqb (sr_RequiredACR result) EmptyString)
                then "need acr=" +:+ sr_RequiredACR result else sr_Reason result in
  table_line (sq_Method req) (sq_Path req) (sq_ACR req) allowed reason.

Definition RunTable (s : Simulator) (requests : list SimRequest) : string :=
  foldl (fun sb req => sb +:+ result_line s req)
    (table_line "METHOD" "PATH" "ACR" "ALLOWED" "REASON" +:+ Repeat "-" 80 +:+ nl) requests.
End Simulate.

(** ** The dry run and the engine *)

(** A real request that the dry run stands for: the same but for its details. *)
Definition stands_for (req : SimRequest) (q : PolicyRequest) : Prop :=
  q_Method q = sq_Method req /\ q_Path q = sq_Path req /\ q_TokenACR q = sq_ACR req /\
  q_TokenAMR q = sq_AMR req /\ q_TokenScopes q = sq_Scopes req /\ q_AuthAge q = sq_AuthAge req.

Section Agreement.
Context {U : Unicode}.

Lemma governs_stands_for l p req q : stands_for req q -> governs l p (sim_policy_request req) <-> governs l p q.
Proof.
  intros (Hm & Hp & _).
  assert (Ha : forall p, applies p (sim_policy_request req) <-> applies p q)
    by (intros p'; unfold applies; cbn [sim_policy_request q_Method q_Path]; by rewrite Hm, Hp).
  unfold governs. setoid_rewrite Ha. done.
Qed.

Lemma requirements_stands_for levels p req q :
  stands_for req q ->
  requirements levels p (sim_policy_request req) <->
  requirements levels p q /\ p_RequireAuthorizationDetails p = [].
Proof.
  intros (_ & _ & Ha & Hm & Hs & Hg). unfold requirements.
  cbn [sim_policy_request q_TokenScopes q_TokenACR q_AuthAge q_TokenAMR q_AuthorizationDetails].
  rewrite Ha, Hm, Hs, Hg. destruct (p_RequireAuthorizationDetails p) as [|f l]; [set_solver|].
  split; [|naive_solver]. intros (_ & _ & _ & _ & H). destruct (H f ltac:(left)) as (d & Hd & _).
  by apply elem_of_nil in Hd.
Qed.
End Agreement.

(** What the dry run says of the engine.  For every real request that a
    simulated one stands for: the dry run allows exactly the requests that the
    engine allows under a policy that asks for no authorization details.  So
    an allowed dry run is always allowed for real, and a refused one is
    refused for real, except under policies that do ask for details, which
    the dry run always refuses. *)
Theorem Simulate_agrees {U : Unicode} s req q :
  stands_for req q ->
  (sr_Allowed (Simulate s req) = true <->
   pr_Allowed (Evaluate (sim_engine s) q) = true /\
   forall p, pr_MatchedPolicy (Evaluate (sim_engine s) q) = Some p -> p_RequireAuthorizationDetails p = []).
Proof.
  intros Hq. unfold Simulate. cbn [sr_Allowed]. destruct (sim_engine s) as [cfg|]; [|naive_solver].
  cbn [Evaluate]. destruct (governed_dec (c_Policies cfg) q) as [[p Hg]|Hn].
  - pose proof (proj2 (governs_stands_for _ p req q Hq) Hg) as Hg'.
    rewrite (evaluate_policies_governed _ _ _ _ Hg), (evaluate_policies_governed _ _ _ _ Hg').
    rewrite !check_allowed, (requirements_stands_for _ _ _ _ Hq).
    destruct (check_fields (c_ACRLevels cfg) p q) as [-> _]. naive_solver.
  - rewrite !evaluate_policies_ungoverned; [naive_solver|done|].
    intros p Hp. by apply (Hn p), (governs_stands_for _ p req q Hq).
Qed.

Definition demo_simulator : Simulator := Simulator_New (Some demo_config).
Definition demo_sim_request : SimRequest :=
  MkSimRequest (q_Method demo_request) (q_Path demo_request) (q_TokenACR demo_request) (q_TokenAMR demo_request)
    (q_TokenScopes demo_request) (q_AuthAge demo_request).

Example Simulate_agrees_witness :
  pr_Allowed (Evaluate (U := unicode_min) (Some demo_config) demo_request) = true.
Proof.
  refine (proj1 (proj1 (Simulate_agrees (U := unicode_min) demo_simulator demo_sim_request demo_request _) _)).
  - repeat split.
  - vm_compute. reflexivity.
Defined.

Example RunTable_ex :
  RunTable (U := unicode_min) demo_simulator [MkSimRequest "GET" "/x" "a" [] [] 0] =
  "METHOD   PATH                           ACR        ALLOWED    REASON" +:+ nl +:+
  "--------------------------------------------------------------------------------" +:+ nl +:+
  "GET      /x                             a          NO         no matching policy" +:+ nl.
Proof. vm_compute. reflexivity. Qed.
