(* ===== verification/Tenant.v ===== *)
(** * Tenants: [pkg/tenant] ([resolver.go], [registry.go], [session.go]) *)

From S2P Require Import Prelude GoString GoTime Encoding Json TextLemmas TimeText Http Rar Claims Providers.

(** ** Resolvers *)

Inductive Resolver :=
| HeaderResolver (Header : string)
| SubdomainResolver (BaseDomain : string)
| PathResolver (Segment : Z)
| StaticResolver (TenantID : string)
| ChainResolver (resolvers : list Resolver)
| CustomResolver (Resolve : Request -> res string).

Definition NewHeaderResolver (header : string) : Resolver :=
  HeaderResolver (if String.eqb header EmptyString then "X-Tenant-ID" else header).

Definition NewSubdomainResolver (baseDomain : string) : Resolver := SubdomainResolver baseDomain.
Definition NewPathResolver (segment : Z) : Resolver := PathResolver segment.
Definition NewStaticResolver (tenantID : string) : Resolver := StaticResolver tenantID.
Definition NewChainResolver (resolvers : list Resolver) : Resolver := ChainResolver resolvers.

Section WithUnicode.
Context {U : Unicode}.

Definition HeaderResolver_Resolve (Header : string) (r : Request) : res string :=
  let id := Header_Get (rq_Header r) Header in
  if String.eqb id EmptyString then Err (errorf ("missing tenant header " +:+ Quote Header)) else Ok id.

Definition SubdomainResolver_Resolve (BaseDomain : string) (r : Request) : res string :=
  let host := match LastIndexByte (rq_Host r) ":" with
              | Some idx => str_take idx (rq_Host r)
              | None => rq_Host r
              end in
  let suffix := "." +:+ BaseDomain in
  if negb (HasSuffix host suffix)
  then Err (errorf ("host " +:+ Quote host +:+ " is not a subdomain of " +:+ Quote BaseDomain)) else
  let tenant := TrimSuffix host suffix in
  if String.eqb tenant EmptyString then Err (errorf "empty tenant in subdomain") else Ok tenant.

(** A negative segment indexes out of range: Go panics; [Err] stands for the
    panic there. *)
Definition PathResolver_Resolve (Segment : Z) (r : Request) : res string :=
  let parts := Split (TrimPrefix (rq_Path r) "/") "/" in
  let missing := Err (errorf ("no tenant found at path segment " +:+ fmt_d Segment)) in
  if Z.of_nat (List.length parts) <=? Segment then missing
  else if Segment <? 0 then Err (errorf "panic: index out of range")
  else match parts !! Z.to_nat Segment with
       | Some part => if String.eqb part EmptyString then missing else Ok part
       | None => missing
       end.

Definition StaticResolver_Resolve (TenantID : string) : res string :=
  if String.eqb TenantID EmptyString
  then Err (errorf "static resolver has no tenant configured") else Ok TenantID.

(** The loop of [ChainResolver.Resolve]; [lastErr] is nil after a resolver
    that returned "" without an error. *)
Fixpoint chain_loop (results : list (res string)) (lastErr : option error) : res string :=
  match results with
  | [] => match lastErr with
          | Some e => Err e
          | None => Err (errorf "no resolver could determine tenant")
          end
  | Ok id :: rest => if negb (String.eqb id EmptyString) then Ok id else chain_loop rest None
  | Err e :: rest => chain_loop rest (Some e)
  end.

Fixpoint Resolve (resolver : Resolver) (r : Request) : res string :=
  match resolver with
  | HeaderResolver h => HeaderResolver_Resolve h r
  | SubdomainResolver d => SubdomainResolver_Resolve d r
  | PathResolver s => PathResolver_Resolve s r
  | StaticResolver t => StaticResolver_Resolve t
  | ChainResolver l => chain_loop (map (fun x => Resolve x r) l) None
  | CustomResolver f => f r
  end.
End WithUnicode.

(** ** The registry *)

(** [Registry]: tenant ids to providers ([TenantConfig.ID] is the key). *)
Record Registry (P : Type) := MkRegistry { rg_tenants : gmap string P }.
Arguments MkRegistry {P} _.
Arguments rg_tenants {P} _.

Definition NewRegistry {P} : Registry P := MkRegistry ∅.

Section Registry.
Context {U : Unicode} {P : Type}.

Definition Register (tenantID : string) (provider : P) (r : Registry P) : Registry P :=
  MkRegistry (<[tenantID := provider]> (rg_tenants r)).
Definition Unregister (tenantID : string) (r : Registry P) : Registry P :=
  MkRegistry (delete tenantID (rg_tenants r)).
Definition Registry_Get (tenantID : string) (r : Registry P) : res P :=
  match rg_tenants r !! tenantID with
  | Some p => Ok p
  | None => Err (errorf ("tenant " +:+ Quote tenantID +:+ " not found in registry"))
  end.
(** [List], in one of the orders Go may iterate the map. *)
Definition Registry_List (r : Registry P) : list string := map fst (map_to_list (rg_tenants r)).

(** [RefreshAll]: each provider is refreshed in place; the errors by tenant. *)
Definition RefreshAll `{!Provider P} (r : Registry P) : gmap string error * Registry P :=
  (omap (fun p => fst (pv_RefreshConfig p)) (rg_tenants r),
   MkRegistry ((fun p => snd (pv_RefreshConfig p)) <$> rg_tenants r)).
End Registry.

(** ** [session.go]: the tenant in the request context *)

(** A context, as far as the tenant key is concerned. *)
Definition TenantContext := option string.
Definition WithTenantID (ctx : TenantContext) (tenantID : string) : TenantContext := Some tenantID.
Definition TenantIDFromContext (ctx : TenantContext) : string * bool :=
  match ctx with
  | Some id => (id, negb (String.eqb id EmptyString))
  | None => (EmptyString, false)
  end.

(** ** Theorems *)

Section ChainProofs.
Lemma chain_loop_spec results e id :
  chain_loop results e = Ok id <->
  exists before after, results = (before ++ Ok id :: after)%list /\ id <> EmptyString /\
    Forall (fun x => x = Ok EmptyString \/ exists e, x = Err e) before.
Proof.
  assert (Hstep : forall (x : res string) l, (x = Ok EmptyString \/ exists e, x = Err e) ->
    (exists b a, x :: l = (b ++ Ok id :: a)%list /\ id <> EmptyString /\
       Forall (fun x => x = Ok EmptyString \/ exists e, x = Err e) b) <->
    (exists b a, l = (b ++ Ok id :: a)%list /\ id <> EmptyString /\
       Forall (fun x => x = Ok EmptyString \/ exists e, x = Err e) b)).
  { intros x l Hx. split.
    - intros ([|y b] & a & Heq & Hid & Hb).
      + injection Heq as -> _. destruct Hx as [[= ->]|[? [=]]]. done.
      + injection Heq as -> ->. apply Forall_cons_1 in Hb as [_ Hb]. by exists b, a.
    - intros (b & a & -> & Hid & Hb). exists (x :: b), a. split; [done|]. split; [done|].
      by constructor. }
  revert e. induction results as [|x results IH]; intros e; cbn [chain_loop].
  - split; [by destruct e|]. by intros ([] & ? & ? & _).
  - destruct x as [i|err].
    + destruct (String.eqb_spec i EmptyString) as [->|Hi]; cbn [negb].
      * rewrite IH, Hstep; [done|by left].
      * split.
        -- intros [= ->]. by exists [], results.
        -- intros ([|y b] & a & Heq & Hid & Hb); [by injection Heq as -> _|].
           injection Heq as <- _. apply Forall_cons_1 in Hb as [[Hb|[? Hb]] _]; [|done].
           by injection Hb.
    + rewrite IH, Hstep; [done|right; by exists err].
Qed.
End ChainProofs.

(** Tenant resolution is "first success" and fails closed.  A chain
    resolves to a tenant exactly when some resolver of it yields that
    non-empty id and all resolvers before it failed or yielded nothing; a
    resolved tenant is never empty. *)
Theorem ChainResolver_first {U : Unicode} resolvers r id :
  Resolve (ChainResolver resolvers) r = Ok id <->
  exists before x after, resolvers = (before ++ x :: after)%list /\
    Resolve x r = Ok id /\ id <> EmptyString /\
    Forall (fun y => Resolve y r = Ok EmptyString \/ exists e, Resolve y r = Err e) before.
Proof.
  cbn [Resolve]. rewrite chain_loop_spec. split.
  - intros (b & a & Heq & Hid & Hb).
    apply map_eq_app in Heq as (b' & l & -> & <- & Hl).
    destruct l as [|x a']; [done|]. cbn [map] in Hl. injection Hl as Hx Ha.
    exists b', x, a'. split; [done|]. split; [done|]. split; [done|]. by apply Forall_map in Hb.
  - intros (b & x & a & -> & Hx & Hid & Hb). rewrite map_app. cbn [map]. rewrite Hx.
    eexists _, _. split; [done|]. split; [done|]. by apply Forall_map.
Qed.

Lemma LastIndexByte_spec s c :
  match LastIndexByte s c with
  | Some i => exists a b, s = a +:+ String c b /\ String.length a = i /\ c ∉ str_bytes b
  | None => c ∉ str_bytes s
  end.
Proof.
  induction s as [|x s IH]; cbn [LastIndexByte]; [apply not_elem_of_nil|].
  destruct (LastIndexByte s c) as [i|].
  - destruct IH as (a & b & -> & <- & Hb). exists (String x a), b. done.
  - destruct (Ascii.eqb_spec x c) as [->|Hx].
    + exists EmptyString, s. done.
    + cbn [str_bytes]. intros [H|H]%elem_of_cons; done.
Qed.

(** The subdomain resolver.  A host without a port, or with one, resolves
    to [tenant] exactly when, the port removed, it reads [tenant.BaseDomain]
    with a non-empty tenant; a host that merely ends in the base domain
    ([evilexample.com]) does not resolve. *)
Theorem SubdomainResolver_spec {U : Unicode} base r host port tenant :
  rq_Host r = (match port with Some p => host +:+ ":" +:+ p | None => host end) ->
  match port with Some p => ":"%char ∉ str_bytes p | None => ":"%char ∉ str_bytes host end ->
  Resolve (SubdomainResolver base) r = Ok tenant <->
  host = tenant +:+ "." +:+ base /\ tenant <> EmptyString.
Proof.
  intros Hhost Hport. cbn [Resolve]. unfold SubdomainResolver_Resolve.
  assert (match LastIndexByte (rq_Host r) ":" with
          | Some idx => str_take idx (rq_Host r) | None => rq_Host r end = host) as ->.
  { pose proof (LastIndexByte_spec (rq_Host r) ":") as Hl. rewrite Hhost in *.
    destruct port as [p|].
    - destruct (LastIndexByte _ _) as [i|].
      + destruct Hl as (a & b & Heq & Hlen & Hb).
        assert (a = host) as ->.
        { change (host +:+ ":" +:+ p) with (host +:+ String ":" p) in Heq.
          destruct (str_app_eq_app _ _ _ _ Heq) as [(u & Hu & Hv)|(u & Hu & Hv)].
          - destruct u as [|x u]; [by rewrite Hu, str_app_nil_r|]. injection Hv as <- Hv. exfalso.
            subst a. clear -Hb Hv Hport Heq.
            rewrite str_app_cons in Hv || idtac. 
            assert (H : ":"%char ∈ str_bytes p).
            { rewrite Hv, str_bytes_app. apply elem_of_app. right. by left. }
            by apply Hport.
          - destruct u as [|x u]; [by rewrite Hu, str_app_nil_r|]. injection Hv as <- Hv. exfalso.
            apply Hb. rewrite Hv, str_bytes_app. apply elem_of_app. right. by left. }
        rewrite <- Hlen. apply str_take_app.
      + exfalso. apply Hl. rewrite str_bytes_app. apply elem_of_app. right. by left.
    - destruct (LastIndexByte _ _) as [i|]; [|done].
      destruct Hl as (a & b & -> & _). exfalso. apply Hport. rewrite str_bytes_app.
      apply elem_of_app. right. by left. }
  destruct (HasSuffix host ("." +:+ base)) eqn:Hs; cbn [negb].
  - apply HasSuffix_spec in Hs as [t ->]. rewrite TrimSuffix_app.
    destruct (String.eqb_spec t EmptyString) as [->|Hne].
    + split; [done|]. intros [H Hne]. symmetry in H.
      apply (str_app_cancel_r tenant EmptyString) in H. done.
    + split; [by intros [= ->]|]. intros [H _]. apply str_app_cancel_r in H as ->. done.
  - split; [done|]. intros [-> _]. exfalso.
    rewrite (proj2 (HasSuffix_spec _ _)) in Hs; [done|by eexists].
Qed.

Definition demo_tenant_request (host : string) : Request :=
  MkRequest "GET" "/acme/x" "" "/acme/x" "/acme/x" host true "10.0.0.1:9" ∅ [] (Some EmptyString).

Example SubdomainResolver_spec_witness :
  Resolve (U := unicode_min) (SubdomainResolver "example.com")
    (demo_tenant_request "acme.api.example.com:8443") = Ok "acme.api".
Proof.
  apply (SubdomainResolver_spec (U := unicode_min) "example.com" (demo_tenant_request "acme.api.example.com:8443")
           "acme.api.example.com" (Some "8443") "acme.api").
  - reflexivity.
  - intros H. repeat (apply elem_of_cons in H as [H|H]; [discriminate H|]). destruct (not_elem_of_nil _ H).
  - split; [reflexivity|discriminate].
Defined.

(** The registry's history: the newest operation on a tenant decides. *)
Inductive registry_op (P : Type) :=
| OpRegister (tenantID : string) (p : P)
| OpUnregister (tenantID : string).
Arguments OpRegister {P} _ _.
Arguments OpUnregister {P} _.

Definition registry_step {P} (r : Registry P) (op : registry_op P) : Registry P :=
  match op with OpRegister t p => Register t p r | OpUnregister t => Unregister t r end.
Definition concerns {P} (t : string) (op : registry_op P) : bool :=
  match op with OpRegister t' _ => String.eqb t' t | OpUnregister t' => String.eqb t' t end.

(** The last registration of a tenant in a history, one operation longer. *)
Definition registered {P} (t : string) (p : P) (ops : list (registry_op P)) : Prop :=
  exists before after, ops = (before ++ OpRegister t p :: after)%list /\
    Forall (fun op => concerns t op = false) after.

Lemma registered_snoc {P} t (p : P) ops op :
  registered t p (ops ++ [op]) <->
  op = OpRegister t p \/ (concerns t op = false /\ registered t p ops).
Proof.
  split.
  - intros (b & a & Heq & Ha). destruct a as [|x a _] using rev_ind.
    { apply app_inj_tail in Heq as [_ ->]. by left. }
    change (b ++ OpRegister t p :: a ++ [x])%list with (b ++ (OpRegister t p :: a) ++ [x])%list in Heq.
    rewrite app_assoc in Heq. apply app_inj_tail in Heq as [-> ->].
    apply Forall_app in Ha as [Ha Hx]. right. split; [by inversion Hx|by exists b, a].
  - intros [->|[Hc (b & a & -> & Ha)]]; [by exists ops, []|].
    exists b, (a ++ [op])%list. split; [by rewrite <- app_assoc|]. apply Forall_app. auto.
Qed.

Lemma registry_step_lookup {P} t (p : P) op r :
  rg_tenants (registry_step r op) !! t = Some p <->
  op = OpRegister t p \/ (concerns t op = false /\ rg_tenants r !! t = Some p).
Proof.
  destruct op as [t' q|t']; cbn [registry_step concerns]; unfold Register, Unregister; cbn [rg_tenants];
    destruct (String.eqb_spec t' t) as [->|Hne].
  - rewrite lookup_insert_eq. naive_solver.
  - rewrite lookup_insert_ne by done. naive_solver.
  - rewrite lookup_delete_eq. naive_solver.
  - rewrite lookup_delete_ne by done. naive_solver.
Qed.

Lemma registry_lookup_history {P} t (p : P) ops :
  rg_tenants (foldl registry_step NewRegistry ops) !! t = Some p <-> registered t p ops.
Proof.
  induction ops as [|op ops IH] using rev_ind.
  { split; [done|]. intros (b & a & Heq & _). by destruct b. }
  rewrite foldl_app, registered_snoc, <- IH. apply registry_step_lookup.
Qed.

(** The registry is a map.  After any sequence of registrations and
    removals, [Get] returns the provider of the last registration of that
    tenant, provided no removal followed it; a tenant never registered is an
    error; [List] names exactly the tenants that [Get] finds, once each. *)
Theorem Registry_refines_history {U : Unicode} {P} (ops : list (registry_op P)) t p :
  let r := foldl registry_step NewRegistry ops in
  (Registry_Get t r = Ok p <->
   exists before after, ops = (before ++ OpRegister t p :: after)%list /\
     Forall (fun op => concerns t op = false) after) /\
  (t ∈ Registry_List r <-> exists q, Registry_Get t r = Ok q) /\ NoDup (Registry_List r).
Proof.
  intros r.
  assert (Hget : forall q, Registry_Get t r = Ok q <-> rg_tenants r !! t = Some q).
  { intros q. unfold Registry_Get. destruct (rg_tenants r !! t); naive_solver. }
  split; [rewrite Hget; apply registry_lookup_history|split].
  - unfold Registry_List. rewrite list_elem_of_In, in_map_iff. split.
    + intros ([k q] & <- & Hin). exists q. apply Hget.
      by apply elem_of_map_to_list, list_elem_of_In.
    + intros [q Hq%Hget]. exists (t, q). split; [done|]. by apply list_elem_of_In, elem_of_map_to_list.
  - apply NoDup_fst_map_to_list.
Qed.

(** Refreshing all tenants.  [RefreshAll] attempts every registered
    provider: it reports an error for a tenant exactly when that tenant's
    refresh failed, one failure does not stop the others, and no tenant is
    added, removed or given another tenant's provider. *)
Theorem RefreshAll_each {P} `{!Provider P} (r : Registry P) t :
  let '(errs, r') := RefreshAll r in
  match rg_tenants r !! t with
  | Some p => errs !! t = fst (pv_RefreshConfig p) /\
              rg_tenants r' !! t = Some (snd (pv_RefreshConfig p))
  | None => errs !! t = None /\ rg_tenants r' !! t = None
  end.
Proof.
  unfold RefreshAll. cbn [rg_tenants]. rewrite lookup_omap, lookup_fmap.
  by destruct (rg_tenants r !! t).
Qed.
