(* ===== verification/RateLimit.v ===== *)
(** * The rate limiter: [internal/gateway/ratelimit.go]

    A token bucket per client address.  The arithmetic is that of [float64],
    abstracted as the class [GoFloat] with two instances: IEEE binary64
    ([SpecFloat]), in which the definitions run as the program does, and the
    rationals, in which the bound on admitted requests is proved exactly. *)

From Stdlib Require Import QArith Qminmax Lqa Floats.SpecFloat.
From S2P Require Import Prelude GoString GoTime Encoding Json Http.
Open Scope Z_scope.

Class GoFloat (F : Type) := {
  f_of_int : Z -> F;
  f_to_int : F -> Z;
  f_add : F -> F -> F;
  f_sub : F -> F -> F;
  f_mul : F -> F -> F;
  f_div : F -> F -> F;
  f_lt : F -> F -> bool
}.

(** binary64, rounding to nearest even; [f_to_int] truncates. *)
Definition sf_of_int (z : Z) : spec_float := binary_normalize 53 1024 z 0 false.
Definition sf_to_int (f : spec_float) : Z :=
  match f with
  | S754_finite s m e =>
      let v := if 0 <=? e then Zpos m * 2 ^ e else Zpos m / 2 ^ (- e) in
      if s then - v else v
  | _ => 0
  end.
#[export] Instance binary64 : GoFloat spec_float := {|
  f_of_int := sf_of_int;
  f_to_int := sf_to_int;
  f_add := SFadd 53 1024;
  f_sub := SFsub 53 1024;
  f_mul := SFmul 53 1024;
  f_div := SFdiv 53 1024;
  f_lt := SFltb
|}.

#[export] Instance rational : GoFloat Q := {|
  f_of_int := inject_Z;
  f_to_int q := Z.quot (Qnum q) (Zpos (Qden q));
  f_add := Qplus;
  f_sub := Qminus;
  f_mul := Qmult;
  f_div := Qdiv;
  f_lt x y := negb (Qle_bool y x)
|}.

Record bucket (F : Type) := MkBucket { bk_tokens : F; bk_lastSeen : Time }.
Arguments MkBucket {F} _ _.
Arguments bk_tokens {F} _.
Arguments bk_lastSeen {F} _.

Record rateLimiter (F : Type) := MkLimiter {
  rl_rps : F;
  rl_burst : F;
  rl_buckets : gmap string (bucket F)
}.
Arguments MkLimiter {F} _ _ _.
Arguments rl_rps {F} _.
Arguments rl_burst {F} _.
Arguments rl_buckets {F} _.

Section Limiter.
Context {F : Type} `{!GoFloat F}.

Definition newRateLimiter (rps : F) (burst : Z) : rateLimiter F :=
  let burst := if burst <=? 0 then let b := f_to_int rps in if b <? 1 then 1 else b else burst in
  MkLimiter rps (f_of_int burst) ∅.

(** [d.Seconds()] *)
Definition Duration_Seconds (d : Duration) : F :=
  f_add (f_of_int (Z.quot d Second)) (f_div (f_of_int (Z.rem d Second)) (f_of_int Second)).

Definition set_bucket (key : string) (b : bucket F) (rl : rateLimiter F) : rateLimiter F :=
  MkLimiter (rl_rps rl) (rl_burst rl) (<[key := b]> (rl_buckets rl)).

(** [rl.allow(key)] at the reading [now]. *)
Definition allow (now : Time) (key : string) (rl : rateLimiter F) : bool * rateLimiter F :=
  match rl_buckets rl !! key with
  | None => (true, set_bucket key (MkBucket (f_sub (rl_burst rl) (f_of_int 1)) now) rl)
  | Some b =>
      let elapsed := Duration_Seconds (time_Sub now (bk_lastSeen b)) in
      let tokens := f_add (bk_tokens b) (f_mul elapsed (rl_rps rl)) in
      let tokens := if f_lt (rl_burst rl) tokens then rl_burst rl else tokens in
      if f_lt tokens (f_of_int 1)
      then (false, set_bucket key (MkBucket tokens now) rl)
      else (true, set_bucket key (MkBucket (f_sub tokens (f_of_int 1)) now) rl)
  end.

(** One round of [cleanupLoop]. *)
Definition cleanup (now : Time) (rl : rateLimiter F) : rateLimiter F :=
  let cutoff := time_Add now (- 5 * Minute) in
  MkLimiter (rl_rps rl) (rl_burst rl)
    (filter (fun kv => time_Before (bk_lastSeen kv.2) cutoff = false) (rl_buckets rl)).
End Limiter.

(** [clientKey]: the host of [RemoteAddr], or all of it. *)
Definition clientKey (r : Request) : string :=
  match SplitHostPort_host (rq_RemoteAddr r) with
  | None => rq_RemoteAddr r
  | Some host => host
  end.

(** The program's arithmetic: 2 requests per second, burst 2. *)
Example allow_binary64 :
  let rl := newRateLimiter (sf_of_int 2) 2 in
  let '(a, rl) := allow 0 "ip" rl in
  let '(b, rl) := allow (Second / 10) "ip" rl in
  let '(c, rl) := allow (Second / 5) "ip" rl in
  let '(d, rl) := allow (Second / 2) "ip" rl in
  [a; b; c; d] = [true; true; false; true].
Proof. vm_compute. reflexivity. Qed.

(** ** Runs *)

Inductive rl_op := OpAllow (key : string) | OpClean.

(** The answers of a run, latest first, as (time, key, admitted). *)
Fixpoint rl_run {F} `{!GoFloat F} (ops : list (Time * rl_op)) (rl : rateLimiter F)
    (log : list (Time * string * bool)) : list (Time * string * bool) * rateLimiter F :=
  match ops with
  | [] => (log, rl)
  | (t, OpAllow k) :: ops' => let '(ok, rl') := allow t k rl in rl_run ops' rl' ((t, k, ok) :: log)
  | (t, OpClean) :: ops' => rl_run ops' (cleanup t rl) log
  end.

(** Requests of [key] admitted at or after [s]. *)
Definition admitted_since (s : Time) (key : string) (log : list (Time * string * bool)) : Z :=
  Z.of_nat (List.length (List.filter
    (fun x => let '(t, k, ok) := x in (s <=? t) && String.eqb k key && ok) log)).

(** ** The level of a bucket in exact arithmetic *)

Definition seconds (d : Z) : Q := inject_Z d / inject_Z Second.

Definition level (rl : rateLimiter Q) (key : string) (t : Time) : Q :=
  match rl_buckets rl !! key with
  | None => rl_burst rl
  | Some b => Qmin (rl_burst rl) (bk_tokens b + seconds (t - bk_lastSeen b) * rl_rps rl)
  end.

Lemma Duration_Seconds_Q d : (Duration_Seconds d == seconds d)%Q.
Proof.
  unfold Duration_Seconds, seconds. cbn [f_add f_div f_of_int rational].
  rewrite (Z.quot_rem' d Second) at 3. rewrite inject_Z_plus, inject_Z_mult.
  field. unfold Second, inject_Z, Qeq. simpl. lia.
Qed.

Lemma f_lt_Q x y : f_lt x y = true <-> (x < y)%Q.
Proof.
  cbn. rewrite negb_true_iff. split.
  - intros H. apply Qnot_le_lt. intros Hle. apply Qle_bool_iff in Hle. congruence.
  - intros H. apply not_true_iff_false. rewrite Qle_bool_iff. intros Hle. lra.
Qed.

Lemma seconds_nonneg d : 0 <= d -> (0 <= seconds d)%Q.
Proof.
  intros Hd. unfold seconds, Qdiv. apply Qmult_le_0_compat; [by rewrite Zle_Qle in Hd|].
  unfold inject_Z, Qinv, Qle, Second. simpl. lia.
Qed.

Lemma seconds_plus a b : (seconds (a + b) == seconds a + seconds b)%Q.
Proof. unfold seconds. rewrite inject_Z_plus. field. unfold Second, inject_Z, Qeq. simpl. lia. Qed.

Lemma seconds_mono a b : a <= b -> (seconds a <= seconds b)%Q.
Proof.
  intros Hab. replace b with (a + (b - a)) by lia. rewrite seconds_plus.
  pose proof (seconds_nonneg (b - a) ltac:(lia)). lra.
Qed.

(** Clock readings whose differences fit an [int64]. *)
Definition reading (t : Time) : Prop := 0 <= t <= max_int64.

Lemma reading_Sub t u : reading t -> reading u -> time_Sub t u = t - u.
Proof. unfold reading, time_Sub, clamp64, min_int64, max_int64. lia. Qed.

(** A bucket holds between none and [burst] tokens, and was not touched in the
    future. *)
Definition bucket_ok (burst : Q) (now : Time) (b : bucket Q) : Prop :=
  (0 <= bk_tokens b)%Q /\ (bk_tokens b <= burst)%Q /\ reading (bk_lastSeen b) /\ bk_lastSeen b <= now.

Definition limiter_ok (now : Time) (rl : rateLimiter Q) : Prop :=
  (1 <= rl_burst rl)%Q /\ (0 <= rl_rps rl)%Q /\
  forall k b, rl_buckets rl !! k = Some b -> bucket_ok (rl_burst rl) now b.

Lemma limiter_ok_later now t rl : now <= t -> limiter_ok now rl -> limiter_ok t rl.
Proof.
  intros Hle (H1 & H2 & H). split_and!; [done..|]. intros k b Hb.
  destruct (H k b Hb) as (? & ? & ? & ?). split_and!; [done..|lia].
Qed.

Lemma level_le_burst rl k t : (level rl k t <= rl_burst rl)%Q.
Proof. unfold level. destruct (_ !! k); [apply Q.le_min_l|apply Qle_refl]. Qed.

Lemma level_nonneg now rl k t : limiter_ok now rl -> now <= t -> (0 <= level rl k t)%Q.
Proof.
  intros (H1 & H2 & H) Hle. unfold level. destruct (_ !! k) as [b|] eqn:Hb; [|lra].
  destruct (H k b Hb) as (? & ? & ? & ?). apply Q.min_glb; [lra|].
  pose proof (seconds_nonneg (t - bk_lastSeen b) ltac:(lia)) as Hs.
  pose proof (Qmult_le_0_compat _ _ Hs H2). lra.
Qed.

(** A bucket fills at [rps]. *)
Lemma level_grows rl k now t :
  limiter_ok now rl -> now <= t ->
  (level rl k t <= level rl k now + rl_rps rl * seconds (t - now))%Q.
Proof.
  intros (H1 & H2 & H) Hle. unfold level.
  pose proof (seconds_nonneg (t - now) ltac:(lia)) as Hs.
  pose proof (Qmult_le_0_compat _ _ H2 Hs) as Hp.
  destruct (_ !! k) as [b|] eqn:Hb; [|lra].
  replace (t - bk_lastSeen b) with ((now - bk_lastSeen b) + (t - now)) by lia.
  rewrite seconds_plus.
  set (x := seconds (now - bk_lastSeen b)) in *. set (d := seconds (t - now)) in *.
  destruct (Q.min_spec (rl_burst rl) (bk_tokens b + x * rl_rps rl)) as [[? ->]|[? ->]].
  - pose proof (Q.le_min_l (rl_burst rl) (bk_tokens b + (x + d) * rl_rps rl)). lra.
  - pose proof (Q.le_min_r (rl_burst rl) (bk_tokens b + (x + d) * rl_rps rl)). lra.
Qed.

Lemma level_set rl k k' tokens t :
  (tokens <= rl_burst rl)%Q ->
  (level (set_bucket k (MkBucket tokens t) rl) k' t ==
   if decide (k = k') then tokens else level rl k' t)%Q.
Proof.
  intros Hle. unfold level, set_bucket. cbn [rl_buckets rl_burst rl_rps].
  destruct (decide (k = k')) as [<-|Hne].
  - rewrite lookup_insert_eq. cbn [bk_tokens bk_lastSeen].
    rewrite Z.sub_diag. replace (seconds 0) with (inject_Z 0 / inject_Z Second)%Q by done.
    assert (E : (tokens + inject_Z 0 / inject_Z Second * rl_rps rl == tokens)%Q).
    { unfold Qdiv. change (inject_Z 0) with 0%Q. ring. }
    rewrite E. by apply Q.min_r.
  - by rewrite lookup_insert_ne.
Qed.

(** Writing one bucket within the burst keeps the limiter well formed, sets
    that key's level and leaves the other keys alone. *)
Lemma set_bucket_level t rl k tokens :
  limiter_ok t rl -> reading t -> (0 <= tokens)%Q -> (tokens <= rl_burst rl)%Q ->
  let rl' := set_bucket k (MkBucket tokens t) rl in
  rl_burst rl' = rl_burst rl /\ rl_rps rl' = rl_rps rl /\ limiter_ok t rl' /\
  (level rl' k t == tokens)%Q /\ forall k', k' <> k -> rl_buckets rl' !! k' = rl_buckets rl !! k'.
Proof.
  intros (Hb & Hr & Hok) Ht H0 H1. cbv zeta. split_and!; [done|done| | |].
  - split; [done|]. split; [done|]. intros k' b. cbn. destruct (decide (k = k')) as [<-|Hne].
    + rewrite lookup_insert_eq. intros [= <-]. split_and!; cbn; [done..|lia].
    + rewrite lookup_insert_ne by done. apply Hok.
  - rewrite level_set by done. by rewrite decide_True.
  - intros k' Hne. cbn. by rewrite lookup_insert_ne.
Qed.

(** What [allow] does, in terms of the level: it admits exactly when a whole
    token is there and takes it; other keys are untouched. *)
Lemma allow_level now rl t k ok rl' :
  limiter_ok now rl -> now <= t -> reading t ->
  allow t k rl = (ok, rl') ->
  rl_burst rl' = rl_burst rl /\ rl_rps rl' = rl_rps rl /\ limiter_ok t rl' /\
  (ok = true <-> (1 <= level rl k t)%Q) /\
  (level rl' k t == level rl k t - inject_Z (if ok then 1 else 0))%Q /\
  forall k', k' <> k -> rl_buckets rl' !! k' = rl_buckets rl !! k'.
Proof.
  intros Hok Hle Ht. pose proof (limiter_ok_later _ _ _ Hle Hok) as Hlater.
  pose proof Hlater as (Hb1 & Hr & Hok').
  unfold allow. destruct (rl_buckets rl !! k) as [b|] eqn:Hk.
  - destruct (Hok' k b Hk) as (Hb0 & _ & Hbr & Hbl). rewrite reading_Sub by done.
    set (tokens := f_add _ _). set (lv := if f_lt (rl_burst rl) tokens then _ else _).
    assert (Hlv : (lv == level rl k t)%Q).
    { unfold level. rewrite Hk. subst lv tokens. cbn [f_add f_mul rational].
      destruct (f_lt _ _) eqn:Hlt.
      - apply f_lt_Q in Hlt. rewrite Duration_Seconds_Q in Hlt.
        symmetry. apply Q.min_l. lra.
      - apply not_true_iff_false in Hlt. rewrite f_lt_Q, Duration_Seconds_Q in Hlt.
        rewrite Duration_Seconds_Q. symmetry. apply Q.min_r. lra. }
    pose proof (level_le_burst rl k t) as Hlb. pose proof (level_nonneg now rl k t Hok Hle) as Hl0.
    destruct (f_lt lv _) eqn:Hlt; intros [= <- <-];
      [apply f_lt_Q in Hlt|apply not_true_iff_false in Hlt; rewrite f_lt_Q in Hlt];
      cbn [f_of_int f_sub rational] in *; change (inject_Z 1) with 1%Q in *;
      [pose proof (set_bucket_level t rl k lv Hlater Ht ltac:(lra) ltac:(lra)) as (? & ? & ? & Hl & ?)
      |pose proof (set_bucket_level t rl k (lv - 1)%Q Hlater Ht ltac:(lra) ltac:(lra)) as (? & ? & ? & Hl & ?)];
      (split_and!; [done|done|done| |rewrite Hl; change (inject_Z 0) with 0%Q; lra|done]).
    + split; [done|]. intros. lra.
    + split; [intros _; lra|done].
  - intros [= <- <-]. cbn [f_of_int f_sub rational]. change (inject_Z 1) with 1%Q in *.
    assert (Hlv : level rl k t = rl_burst rl) by (unfold level; by rewrite Hk).
    pose proof (set_bucket_level t rl k (rl_burst rl - 1)%Q Hlater Ht ltac:(lra) ltac:(lra)) as (? & ? & ? & Hl & ?).
    split_and!; [done|done|done| |rewrite Hl, Hlv; lra|done].
    split; [intros _; by rewrite Hlv|done].
Qed.

(** An eviction round, at one key. *)
Lemma cleanup_lookup {F} `{!GoFloat F} (t : Time) (rl : rateLimiter F) (k : string) :
  rl_buckets (cleanup t rl) !! k =
  match rl_buckets rl !! k with
  | Some b => if time_Before (bk_lastSeen b) (time_Add t (- 5 * Minute)) then None else Some b
  | None => None
  end.
Proof.
  unfold cleanup. cbn [rl_buckets]. rewrite map_lookup_filter.
  destruct (rl_buckets rl !! k) as [b|]; [|done]. cbn -[time_Before].
  destruct (time_Before _ _) eqn:E; [by rewrite option_guard_False by (cbn; congruence)|].
  by rewrite option_guard_True.
Qed.

(** Evicting a bucket idle for five minutes changes no level, provided the
    bucket would have been full again by then. *)
Lemma cleanup_level now rl t :
  limiter_ok now rl -> now <= t -> (rl_burst rl <= 300 * rl_rps rl)%Q ->
  limiter_ok t (cleanup t rl) /\ forall k, (level (cleanup t rl) k t == level rl k t)%Q.
Proof.
  intros Hok Hle Hfull. pose proof (limiter_ok_later _ _ _ Hle Hok) as (Hb1 & Hr & Hok').
  split.
  - split_and!; [done..|]. intros k b. rewrite cleanup_lookup.
    destruct (rl_buckets rl !! k) as [b'|] eqn:Hk; [|done]. destruct (time_Before _ _); [done|].
    intros [= <-]. by apply (Hok' k).
  - intros k. unfold level. rewrite cleanup_lookup. cbn [rl_burst rl_rps cleanup].
    destruct (rl_buckets rl !! k) as [b|] eqn:Hk; [|done].
    destruct (time_Before _ _) eqn:Hold; [|done]. destruct (Hok' k b Hk) as (Hb0 & _).
    symmetry. apply Q.min_l.
    apply Z.ltb_lt in Hold. unfold time_Add, Minute, Second in Hold.
    pose proof (seconds_mono (300 * Second) (t - bk_lastSeen b) ltac:(unfold Second; lia)) as Hm.
    change (seconds (300 * Second)) with (inject_Z (300 * Second) / inject_Z Second)%Q in Hm.
    assert (E : (inject_Z (300 * Second) / inject_Z Second == 300)%Q) by done.
    rewrite E in Hm. pose proof (Qmult_le_compat_r _ _ (rl_rps rl) Hm Hr). lra.
Qed.

(** Clock readings of a run: from [now] on, non-decreasing, up to [e]. *)
Fixpoint clock_run (now : Time) (ops : list (Time * rl_op)) (e : Time) : Prop :=
  match ops with
  | [] => now <= e
  | (t, _) :: ops' => now <= t /\ reading t /\ clock_run t ops' e
  end.

Section Bound.
Variables (s : Time) (key : string).

Definition spent (log : list (Time * string * bool)) : Q := inject_Z (admitted_since s key log).

(** Admissions since [s], and the tokens left, are paid for by the burst and
    the refill. *)
Definition paid (now : Time) (rl : rateLimiter Q) (log : list (Time * string * bool)) : Prop :=
  if s <=? now
  then (spent log + level rl key now <= rl_burst rl + rl_rps rl * seconds (now - s))%Q
  else admitted_since s key log = 0.

Lemma spent_cons t k ok log :
  (spent ((t, k, ok) :: log) ==
   spent log + inject_Z (if (s <=? t) && String.eqb k key && ok then 1 else 0))%Q.
Proof.
  unfold spent, admitted_since. cbn [List.filter].
  destruct ((s <=? t) && String.eqb k key && ok).
  - cbn [List.length]. rewrite Nat2Z.inj_succ, <- Z.add_1_r, inject_Z_plus. lra.
  - change (inject_Z 0) with 0%Q. lra.
Qed.

Lemma paid_later now rl log t :
  limiter_ok now rl -> now <= t -> paid now rl log -> paid t rl log.
Proof.
  intros Hok Hle. unfold paid.
  destruct (s <=? now) eqn:Hs, (s <=? t) eqn:Hst; b2p; [|lia| |done].
  - intros Hp. pose proof (level_grows rl key now t Hok Hle) as Hg.
    replace (t - s) with ((now - s) + (t - now)) by lia. rewrite seconds_plus. lra.
  - intros H0. unfold spent. rewrite H0. change (inject_Z 0) with 0%Q.
    pose proof (level_le_burst rl key t). destruct Hok as (? & Hr & _).
    pose proof (Qmult_le_0_compat _ _ Hr (seconds_nonneg (t - s) ltac:(lia))). lra.
Qed.

Lemma paid_allow now rl log t k ok rl' :
  limiter_ok now rl -> now <= t -> reading t -> paid t rl log ->
  allow t k rl = (ok, rl') -> paid t rl' ((t, k, ok) :: log).
Proof.
  intros Hok Hle Ht Hp Ha.
  destruct (allow_level _ _ _ _ _ _ Hok Hle Ht Ha) as (Hb & Hr & _ & _ & Hl & Ho).
  unfold paid in *. rewrite Hb, Hr. destruct (s <=? t) eqn:Hst.
  - rewrite spent_cons, Hst. cbn [andb]. destruct (String.eqb k key) eqn:Hk; b2p.
    + subst k. rewrite Hl. cbn [andb]. lra.
    + cbn [andb]. change (inject_Z 0) with 0%Q.
      assert (level rl' key t = level rl key t) as -> by (unfold level; rewrite Ho by done; by rewrite Hb, Hr).
      lra.
  - unfold admitted_since in *. cbn [List.filter]. by rewrite Hst.
Qed.

Lemma rl_run_paid e ops : forall now rl log,
  limiter_ok now rl -> (rl_burst rl <= 300 * rl_rps rl)%Q ->
  clock_run now ops e -> paid now rl log ->
  let '(log', rl') := rl_run ops rl log in
  limiter_ok e rl' /\ rl_burst rl' = rl_burst rl /\ rl_rps rl' = rl_rps rl /\ paid e rl' log'.
Proof.
  induction ops as [|[t op] ops IH]; intros now rl log Hok Hfull Hc Hp; cbn [rl_run].
  { cbn in Hc. split_and!; [by eapply limiter_ok_later|done|done|by eapply paid_later]. }
  destruct Hc as (Hle & Ht & Hc). pose proof (paid_later _ _ _ _ Hok Hle Hp) as Hp'.
  destruct op as [k|].
  - destruct (allow t k rl) as [ok rl1] eqn:Ha.
    destruct (allow_level _ _ _ _ _ _ Hok Hle Ht Ha) as (Hb & Hr & Hok1 & _).
    pose proof (paid_allow _ _ _ _ _ _ _ Hok Hle Ht Hp' Ha) as Hp1.
    specialize (IH t rl1 ((t, k, ok) :: log) Hok1 ltac:(by rewrite Hb, Hr) Hc Hp1).
    destruct (rl_run ops rl1 _) as [log' rl']. by rewrite <- Hb, <- Hr.
  - destruct (cleanup_level now rl t Hok Hle Hfull) as [Hok1 Hl].
    assert (Hp1 : paid t (cleanup t rl) log).
    { unfold paid in *. destruct (s <=? t); [|done]. by rewrite Hl. }
    specialize (IH t (cleanup t rl) log Hok1 Hfull Hc Hp1).
    by destruct (rl_run ops (cleanup t rl) log) as [log' rl'].
Qed.
End Bound.

(** In exact arithmetic, whatever the requests of all clients and however
    the eviction rounds fall between them, one client is admitted at most
    [burst + rps * (e - s)] times between two instants, provided the clock does
    not go back and an idle bucket is full again within the five minutes after
    which it is evicted. *)
Theorem allow_bounded (rps : Q) (burst : Z) (key : string) (ops : list (Time * rl_op)) (s e : Time)
    (rl := newRateLimiter rps burst) :
  (0 <= rps)%Q -> (rl_burst rl <= 300 * rps)%Q -> 0 <= s <= e -> clock_run 0 ops e ->
  (inject_Z (admitted_since s key (rl_run ops rl []).1) <= rl_burst rl + rps * seconds (e - s))%Q.
Proof.
  intros Hr Hfull Hse Hc.
  assert (Hok : limiter_ok 0 rl).
  { split_and!; [|done|done]. subst rl. cbn. change 1%Q with (inject_Z 1). rewrite <- Zle_Qle.
    destruct (burst <=? 0) eqn:?; b2p; [|lia]. destruct (_ <? 1) eqn:?; b2p; lia. }
  assert (Hp : paid s key 0 rl []).
  { unfold paid, spent. cbn [admitted_since List.filter List.length]. destruct (s <=? 0) eqn:?; [|done]. b2p.
    replace (0 - s) with 0 by lia. assert (E : (seconds 0 == 0)%Q) by done. rewrite E.
    pose proof (level_le_burst rl key 0). change (inject_Z (admitted_since s key [])) with 0%Q. lra. }
  pose proof (rl_run_paid s key e ops 0 rl [] Hok Hfull Hc Hp) as H.
  destruct (rl_run ops rl []) as [log' rl'] eqn:Hrun. destruct H as (Hok' & Hb & Hrr & Hpd).
  unfold paid in Hpd. rewrite (proj2 (Z.leb_le s e)) in Hpd by lia.
  change (rl_rps rl) with rps in Hrr. rewrite Hb, Hrr in Hpd.
  pose proof (level_nonneg e rl' key e Hok' ltac:(lia)). cbn [fst]. unfold spent in Hpd. lra.
Qed.

Lemma allow_bounded_witness :
  let ops := [(0, OpAllow "a"); (0, OpAllow "b"); (1, OpAllow "a"); (2, OpAllow "a"); (Second, OpAllow "a")] in
  admitted_since 0 "a" (rl_run ops (newRateLimiter 1%Q 2) []).1 = 3 /\
  (inject_Z (admitted_since 0 "a" (rl_run ops (newRateLimiter 1%Q 2) []).1) <= 2 + 1 * seconds Second)%Q.
Proof.
  intros ops. split; [vm_compute; reflexivity|].
  refine (allow_bounded 1%Q 2 "a" ops 0 Second _ _ _ _).
  - unfold Qle. simpl. lia.
  - unfold Qle. simpl. lia.
  - unfold Second. lia.
  - unfold ops, clock_run, reading, max_int64, Second. lia.
Defined.

(** ** Clients do not affect one another *)

Definition concerns (key : string) (op : Time * rl_op) : bool :=
  match op.2 with OpAllow k => String.eqb k key | OpClean => true end.

Definition answers (key : string) (log : list (Time * string * bool)) : list (Time * string * bool) :=
  List.filter (fun x => String.eqb x.1.2 key) log.

Definition same_for {F} (key : string) (rl rl' : rateLimiter F) : Prop :=
  rl_rps rl = rl_rps rl' /\ rl_burst rl = rl_burst rl' /\ rl_buckets rl !! key = rl_buckets rl' !! key.

Section Isolation.
#[local] Set Default Proof Using "All".
Context {F : Type} `{!GoFloat F}.

Lemma allow_same (t : Time) (k : string) (rl rl' : rateLimiter F) :
  same_for k rl rl' ->
  (allow t k rl).1 = (allow t k rl').1 /\ same_for k (allow t k rl).2 (allow t k rl').2.
Proof.
  intros (Hr & Hb & Hk). unfold allow. rewrite <- Hk, <- Hr, <- Hb.
  destruct (rl_buckets rl !! k) as [b|]; [destruct (f_lt _ (f_of_int 1))|];
    (split; [done|]); (split_and!; cbn; [done|done|by rewrite !lookup_insert_eq]).
Qed.

Lemma allow_other (t : Time) (k key : string) (rl : rateLimiter F) :
  k <> key -> same_for key rl (allow t k rl).2.
Proof.
  intros Hne. unfold allow.
  destruct (rl_buckets rl !! k) as [b|]; [destruct (f_lt _ (f_of_int 1))|];
    (split_and!; cbn; [done|done|by rewrite lookup_insert_ne]).
Qed.

Lemma cleanup_same (t : Time) (key : string) (rl rl' : rateLimiter F) :
  same_for key rl rl' -> same_for key (cleanup t rl) (cleanup t rl').
Proof.
  intros (Hr & Hb & Hk). split_and!; [done|done|]. by rewrite !cleanup_lookup, Hk.
Qed.

Lemma rl_run_same key ops : forall (rl rl' : rateLimiter F) log log',
  same_for key rl rl' -> answers key log = answers key log' ->
  answers key (rl_run ops rl log).1 =
  answers key (rl_run (List.filter (concerns key) ops) rl' log').1.
Proof.
  induction ops as [|[t op] ops IH]; intros rl rl' log log' Hs Hl; [done|].
  cbn [List.filter]. destruct op as [k|].
  - change (concerns key (t, OpAllow k)) with (String.eqb k key).
    destruct (String.eqb k key) eqn:Hk; b2p.
    + subst k. destruct (allow_same t key rl rl' Hs) as [Ha Hs'].
      cbn [rl_run]. destruct (allow t key rl) as [ok rl1], (allow t key rl') as [ok' rl1'].
      cbn in Ha, Hs'. subst ok'. apply IH; [done|].
      unfold answers in *. cbn [List.filter fst snd]. by rewrite String.eqb_refl, Hl.
    + cbn [rl_run]. pose proof (allow_other t k key rl Hk) as (H1 & H2 & H3).
      destruct (allow t k rl) as [ok rl1]. cbn in H1, H2, H3. apply IH.
      * destruct Hs as (? & ? & ?). split_and!; congruence.
      * unfold answers in *. cbn [List.filter fst snd].
        by rewrite (proj2 (String.eqb_neq _ _) Hk).
  - change (concerns key (t, OpClean)) with true. cbn [rl_run].
    apply IH; [by apply cleanup_same|done].
Qed.
End Isolation.

(** The limiter treats clients separately: the answers one client gets are
    those it would get if no other client had made any request (in the
    program's floating-point arithmetic as in exact arithmetic). *)
Theorem allow_isolated {F} `{!GoFloat F} (rl : rateLimiter F) (key : string) (ops : list (Time * rl_op)) :
  answers key (rl_run ops rl []).1 = answers key (rl_run (List.filter (concerns key) ops) rl []).1.
Proof. by apply rl_run_same. Qed.
