(* ===== verification/Admin.v ===== *)
(** * The administration API: [internal/admin/handler.go] and [ui.go]

    The handler works on the policy engine it was given a pointer to: each
    request yields its reply and the engine after it.  YAML decoding, the
    embedded page and the order in which Go ranges over the tenants are
    parameters. *)

From S2P Require Import Prelude GoString GoTime Encoding Crypto Json JsonText Http Url ServeMux Matcher Policy Providers Tenant.
Open Scope Z_scope.

(** [Handler]: [ah_engine] is the identity of the engine it points to. *)
Record AdminHandler (P : Type) := MkAdminHandler {
  ah_registry : Registry P;
  ah_engine : nat;
  ah_adminToken : string
}.
Arguments MkAdminHandler {P} _ _ _.
Arguments ah_registry {P} _.
Arguments ah_engine {P} _.
Arguments ah_adminToken {P} _.

(** [Config] and [New]; the routes are [admin_mux]. *)
Record AdminConfig (P : Type) := MkAdminConfig {
  ac_Registry : Registry P;
  ac_Engine : nat;
  ac_AdminToken : string
}.
Arguments MkAdminConfig {P} _ _ _.
Arguments ac_Registry {P} _.
Arguments ac_Engine {P} _.
Arguments ac_AdminToken {P} _.

Definition Admin_New {P} (cfg : AdminConfig P) : AdminHandler P :=
  MkAdminHandler (ac_Registry cfg) (ac_Engine cfg) (ac_AdminToken cfg).

(** [strings.CutPrefix] and [subtle.ConstantTimeCompare]. *)
Definition checkBearer {P} (h : AdminHandler P) (r : Request) : bool :=
  let '(token, ok) := CutPrefix (Header_Get (rq_Header r) "Authorization") "Bearer " in
  ok && String.eqb token (ah_adminToken h).

Definition admin_writeJSON (members : gmap string string) (w : Response) : Response :=
  Write (json_map members +:+ nl) (SetHeader "Content-Type" "application/json" w).

Definition quoted (s : string) : string := String dquote (s +:+ str1 dquote).

(** The body of a reload request. *)
Definition reload_set (name raw : string) (j : json) (yaml : string) : option string := dec_string yaml j.

Section Admin.
Context {U : Unicode} {P : Type}.
Context (yaml_Unmarshal : string -> res Config) (policyEditorHTML : string).
Context (range_tenants : Registry P -> list string).
Variable h : AdminHandler P.

(** [UIHandler] *)
Definition UIHandler (w : Response) : Response :=
  let w := SetHeader "Content-Type" "text/html; charset=utf-8" w in
  let w := SetHeader "X-Frame-Options" "DENY" w in
  let w := SetHeader "X-Content-Type-Options" "nosniff" w in
  Write policyEditorHTML (WriteHeader StatusOK w).

Definition method_not_allowed (w : Response) : Response :=
  http_Error "method not allowed" StatusMethodNotAllowed w.

Definition handleTenants (w : Response) (r : Request) : Response :=
  if negb (String.eqb (rq_Method r) "GET") then method_not_allowed w else
  let ids := range_tenants (ah_registry h) in
  admin_writeJSON (list_to_map
    [("tenants", json_strings ids); ("count", fmt_d (Z.of_nat (List.length ids)))]) w.

Definition handlePolicySummary (w : Response) (r : Request) (e : Engine) : Response :=
  if negb (String.eqb (rq_Method r) "GET") then method_not_allowed w else
  admin_writeJSON {["summary" := json_quote (Summary e)]} w.

Definition decode_reload (body : option string) : option string :=
  body ← body; j ← json_Decode body; dec_struct ["yaml"] reload_set EmptyString j.

Definition handlePolicyReload (w : Response) (r : Request) (e : Engine) : Response * Engine :=
  if negb (String.eqb (rq_Method r) "POST") then (method_not_allowed w, e) else
  match decode_reload (rq_Body r) with
  | None => (http_Error "invalid JSON body" StatusBadRequest w, e)
  | Some yaml =>
      match LoadFromBytes yaml_Unmarshal yaml with
      | Err err => (http_Error ("invalid policy YAML: " +:+ err_text err) StatusBadRequest w, e)
      | Ok cfg =>
          let e := Reload e (Some cfg) in
          (admin_writeJSON (list_to_map
             [("status", json_quote "reloaded"); ("summary", json_quote (Summary e))]) w, e)
      end
  end.

Inductive admin_route := RouteTenants | RouteSummary | RouteReload.

(** [routes] *)
Definition admin_mux : list (Pattern admin_route) :=
  Handle "/policy/reload" RouteReload
    (Handle "/policy/summary" RouteSummary (Handle "/tenants" RouteTenants [])).

(** [ServeHTTP] *)
Definition Admin_ServeHTTP (w : Response) (i : Incoming) (e : Engine) : reply * Engine :=
  let r := in_Request i in
  if String.eqb (rq_Path r) "/ui" || String.eqb (rq_Path r) "/ui/" then (Wrote (UIHandler w), e)
  else if negb (String.eqb (ah_adminToken h) EmptyString) && negb (checkBearer h r) then
    (Wrote (http_Error (json_object [("error", json_quote "unauthorized")]) StatusUnauthorized
              (SetHeader "WWW-Authenticate" ("Bearer realm=" +:+ quoted "IAM Admin") w)), e)
  else
    match mux_reply i w (mux_find admin_mux i) with
    | inl rep => (rep, e)
    | inr RouteTenants => (Wrote (handleTenants w r), e)
    | inr RouteSummary => (Wrote (handlePolicySummary w r e), e)
    | inr RouteReload => let '(w', e') := handlePolicyReload w r e in (Wrote w', e')
    end.

(** ** When the policy changes *)

(** A request that installs [cfg]. *)
Definition reload_request (r : Request) (cfg : Config) : Prop :=
  rq_Method r = "POST" /\
  (ah_adminToken h = EmptyString \/
   Header_Get (rq_Header r) "Authorization" = "Bearer " +:+ ah_adminToken h) /\
  exists yaml, decode_reload (rq_Body r) = Some yaml /\ LoadFromBytes yaml_Unmarshal yaml = Ok cfg.

Lemma checkBearer_spec r :
  checkBearer h r = true <-> Header_Get (rq_Header r) "Authorization" = "Bearer " +:+ ah_adminToken h.
Proof.
  unfold checkBearer, CutPrefix. generalize (Header_Get (rq_Header r) "Authorization"). intros auth.
  destruct (HasPrefix auth "Bearer ") eqn:E.
  - apply HasPrefix_spec in E as [rest ->]. rewrite str_drop_app. cbn [andb]. rewrite String.eqb_eq.
    split; [by intros ->|]. intros Heq. by injection Heq.
  - split; [done|]. intros ->. by rewrite HasPrefix_app in E.
Qed.

(** The engine after a request: as before, or a configuration the request
    was entitled to install. *)
Lemma admin_engine w i e rep e' :
  Admin_ServeHTTP w i e = (rep, e') ->
  e' = e \/ exists cfg, e' = Some cfg /\ rq_Path (in_Request i) = "/policy/reload" /\
    reload_request (in_Request i) cfg.
Proof.
  unfold Admin_ServeHTTP. set (r := in_Request i). cbv zeta.
  destruct (String.eqb (rq_Path r) "/ui" || String.eqb (rq_Path r) "/ui/"); [intros [= _ <-]; by left|].
  destruct (negb (String.eqb (ah_adminToken h) EmptyString) && negb (checkBearer h r)) eqn:Hauth;
    [intros [= _ <-]; by left|].
  unfold mux_reply. destruct (mux_find admin_mux i) as [|path query| |[]] eqn:Hm; try (intros [= _ <-]; by left).
  unfold handlePolicyReload. destruct (String.eqb_spec (rq_Method r) "POST") as [Hpost|]; [|intros [= _ <-]; by left].
  cbn [negb]. destruct (decode_reload (rq_Body r)) as [yaml|] eqn:Hd; [|intros [= _ <-]; by left].
  destruct (LoadFromBytes yaml_Unmarshal yaml) as [cfg|err] eqn:Hy; [|intros [= _ <-]; by left].
  cbn [Reload]. intros [= _ <-]. right. exists cfg. split; [done|].
  apply mux_find_found in Hm as (_ & Hclean & p & Hp & Hh & Hs). fold r in Hclean, Hs. split.
  - destruct Hclean as [Hc|Hclean]; [congruence|].
    unfold admin_mux, Handle in Hp. cbn [app] in Hp.
    repeat (apply elem_of_cons in Hp as [->|Hp]; [try discriminate Hh|]); [|by apply not_elem_of_nil in Hp].
    unfold matches_segs in Hs.
    change (path_segments (EscapedPath (rq_Path r) (in_RawPath i)) = ["policy"; "reload"]) in Hs.
    by rewrite (literal_path _ _ _ Hclean (EscapedPath_unescape _ _) Hs).
  - split; [done|]. split; [|by exists yaml].
    destruct (String.eqb_spec (ah_adminToken h) EmptyString) as [|_]; [by left|right].
    cbn [negb andb] in Hauth. apply negb_false_iff in Hauth. by apply checkBearer_spec.
Qed.

(** The path as clients send it reaches the reload handler. *)
Lemma admin_mux_reload i :
  rq_Path (in_Request i) = "/policy/reload" -> in_RawPath i = EmptyString ->
  rq_RequestURI (in_Request i) <> "*" -> mux_find admin_mux i = MuxFound RouteReload.
Proof.
  intros Hp Hraw Hu. unfold mux_find. rewrite Hp, Hraw. apply String.eqb_neq in Hu. rewrite Hu.
  by destruct (String.eqb (rq_Method (in_Request i)) "CONNECT").
Qed.

Lemma admin_reload w i e cfg :
  rq_Path (in_Request i) = "/policy/reload" -> in_RawPath i = EmptyString ->
  rq_RequestURI (in_Request i) <> "*" -> reload_request (in_Request i) cfg ->
  Admin_ServeHTTP w i e =
  (Wrote (admin_writeJSON (list_to_map
     [("status", json_quote "reloaded"); ("summary", json_quote (Summary (Some cfg)))]) w), Some cfg).
Proof.
  intros Hp Hraw Hu (Hpost & Hauth & yaml & Hd & Hy). unfold Admin_ServeHTTP. cbv zeta.
  rewrite (admin_mux_reload i Hp Hraw Hu), Hp. cbn [String.eqb mux_reply]. cbv iota.
  replace (negb (String.eqb (ah_adminToken h) EmptyString) && negb (checkBearer h (in_Request i))) with false.
  2: { destruct Hauth as [->|Hauth%checkBearer_spec]; [done|]. rewrite Hauth. by rewrite andb_false_r. }
  unfold handlePolicyReload. by rewrite Hpost, Hd, Hy.
Qed.

(** A body without the member "yaml" is not refused: it loads the empty
    document, and with the configuration that gives (no policies) the engine
    denies every request. *)
Lemma reload_without_yaml r e w body :
  rq_Method r = "POST" -> rq_Body r = Some body -> body = "{}" \/ body = "null" ->
  (forall cfg, yaml_Unmarshal EmptyString = Ok cfg -> c_Policies cfg = []) -> is_ok (yaml_Unmarshal EmptyString) = true ->
  exists cfg, (handlePolicyReload w r e).2 = Some cfg /\
    forall q, pr_Allowed (Evaluate (Some cfg) q) = false.
Proof.
  intros Hm Hb Hbody Hy Hok. destruct (yaml_Unmarshal EmptyString) as [cfg|] eqn:E; [|discriminate Hok].
  exists cfg. specialize (Hy cfg eq_refl). split; [|intros q; cbn; by rewrite Hy].
  unfold handlePolicyReload. rewrite Hm, Hb.
  replace (decode_reload (Some body)) with (Some EmptyString) by (by destruct Hbody as [->| ->]).
  unfold LoadFromBytes, validate. by rewrite E, Hy.
Qed.
End Admin.
