(* ===== verification/Guard.v ===== *)
(** * The gateway guard: [internal/gateway/guard.go]

    [ServeHTTP] authenticates and authorises a request and either answers it
    or forwards it to the upstream handler.  It is written as the sequence of
    its numbered steps, each of which may answer and return; the state is that
    of the components the guard owns. *)

From Stdlib Require Import QArith.
From S2P Require Import Prelude GoString GoTime Encoding Crypto Json TextLemmas TimeText Http Rar Matcher Policy StepUp Claims Effects AuditLog Cache Revocation Dpop Fapi Providers Tenant RateLimit.
Open Scope Z_scope.

(** [Guard]: the fields fixed at construction.  [gd_dpop] is the validator's
    configuration, present exactly when DPoP is enabled. *)
Record Guard (P : Type) := MkGuard {
  gd_registry : Registry P;
  gd_resolver : Resolver;
  gd_policyEngine : option Engine;
  gd_realm : string;
  gd_sm : StateMachine;
  gd_dpop : option DPoPConfig;
  gd_dpopNonce : option NonceProvider;
  gd_webhookSecret : string;
  gd_cookieSecret : string;
  gd_fapiCfg : option ValidationConfig
}.
Arguments MkGuard {P} _ _ _ _ _ _ _ _ _ _.
Arguments gd_registry {P} _.
Arguments gd_resolver {P} _.
Arguments gd_policyEngine {P} _.
Arguments gd_realm {P} _.
Arguments gd_sm {P} _.
Arguments gd_dpop {P} _.
Arguments gd_dpopNonce {P} _.
Arguments gd_webhookSecret {P} _.
Arguments gd_cookieSecret {P} _.
Arguments gd_fapiCfg {P} _.

(** The counters incremented, as (name, label values). *)
Definition Metrics := list (string * list string).

(** The mutable state: the cache when there is one, the memory cache the DPoP
    validator makes for itself otherwise, the audit logger, the metrics, the
    limiter, and the number of 16-byte draws from [crypto/rand]. *)
Record GState (S K F : Type) := MkGState {
  gs_cache : option S;
  gs_jti : MemoryCache;
  gs_audit : option (AuditLogger K);
  gs_metrics : option Metrics;
  gs_limiter : option (rateLimiter F);
  gs_draws : nat
}.
Arguments MkGState {S K F} _ _ _ _ _ _.
Arguments gs_cache {S K F} _.
Arguments gs_jti {S K F} _.
Arguments gs_audit {S K F} _.
Arguments gs_metrics {S K F} _.
Arguments gs_limiter {S K F} _.
Arguments gs_draws {S K F} _.

Record GuardConfig (S P K F : Type) := MkGuardConfig {
  cf_Registry : Registry P;
  cf_Resolver : Resolver;
  cf_PolicyEngine : option Engine;
  cf_Realm : string;
  cf_Audit : option (AuditLogger K);
  cf_Metrics : option Metrics;
  cf_Cache : option S;
  cf_EnableDPoP : bool;
  cf_DPoPNonceSecret : string;
  cf_WebhookSecret : string;
  cf_CookieSecret : string;
  cf_FAPI : option ValidationConfig;
  cf_RateLimitRPS : F;
  cf_RateLimitBurst : Z
}.
Arguments MkGuardConfig {S P K F} _ _ _ _ _ _ _ _ _ _ _ _ _ _.
Arguments cf_Registry {S P K F} _.
Arguments cf_Resolver {S P K F} _.
Arguments cf_PolicyEngine {S P K F} _.
Arguments cf_Realm {S P K F} _.
Arguments cf_Audit {S P K F} _.
Arguments cf_Metrics {S P K F} _.
Arguments cf_Cache {S P K F} _.
Arguments cf_EnableDPoP {S P K F} _.
Arguments cf_DPoPNonceSecret {S P K F} _.
Arguments cf_WebhookSecret {S P K F} _.
Arguments cf_CookieSecret {S P K F} _.
Arguments cf_FAPI {S P K F} _.
Arguments cf_RateLimitRPS {S P K F} _.
Arguments cf_RateLimitBurst {S P K F} _.

Definition NewGuard {S P K F} `{!GoFloat F} (cfg : GuardConfig S P K F) : Guard P * GState S K F :=
  let realm := if String.eqb (cf_Realm cfg) EmptyString then "IAM" else cf_Realm cfg in
  let limiter := if f_lt (f_of_int 0) (cf_RateLimitRPS cfg)
                 then Some (newRateLimiter (cf_RateLimitRPS cfg) (cf_RateLimitBurst cfg)) else None in
  let nonce := if cf_EnableDPoP cfg && negb (String.eqb (cf_DPoPNonceSecret cfg) EmptyString)
               then Some (NewNonceProvider (cf_DPoPNonceSecret cfg) 0) else None in
  let dpop := if cf_EnableDPoP cfg
              then Some (NewDPoPValidator
                     (MkDPoPConfig (dc_MaxAge DefaultDPoPConfig) (dc_RequireHTTPS DefaultDPoPConfig) nonce))
              else None in
  (MkGuard (cf_Registry cfg) (cf_Resolver cfg) (cf_PolicyEngine cfg) realm NewStateMachine dpop nonce
     (cf_WebhookSecret cfg) (cf_CookieSecret cfg) (cf_FAPI cfg),
   MkGState (cf_Cache cfg) Memory.NewMemoryCache (cf_Audit cfg) (cf_Metrics cfg) limiter 0).

(** What becomes of a request. *)
Inductive outcome :=
| Replied (w : Response)
| Forwarded (r : Request) (ctx : TenantContext) (w : Response).

(** [sanitizeForwardHeaders] *)
Definition sanitizeForwardHeaders `{!Unicode} (h : Header) : Header :=
  let h := Header_Del h "X-Tenant-ID" in
  foldr (fun name h => if HasPrefix (ToLower name) "x-iam-" then Header_Del h name else h)
    h (map fst (map_to_list h)).

Section Guard.
Context {U : Unicode} {L : LocalTime} {Sig : Signatures}.
Context {S P K F : Type} `{!Cache S} `{!Provider P} `{!AuditSink K} `{!GoFloat F}.
(** [telemetry.TraceIDFromContext] of the request's context; the [n]-th draw
    of [crypto/rand]; the text of [r.URL] after its path and query were
    replaced. *)
Context (trace_of : Request -> string) (rand : nat -> string).
Context (url_text : Request -> string -> string -> string).

Abbreviation St := (GState S K F) (only parsing).
Abbreviation step A := (M (GState S K F) (ctl Response A)) (only parsing).

Definition set_cache (s : S) (st : St) : St :=
  MkGState (Some s) (gs_jti st) (gs_audit st) (gs_metrics st) (gs_limiter st) (gs_draws st).
Definition set_jti (m : MemoryCache) (st : St) : St :=
  MkGState (gs_cache st) m (gs_audit st) (gs_metrics st) (gs_limiter st) (gs_draws st).
Definition set_audit (a : AuditLogger K) (st : St) : St :=
  MkGState (gs_cache st) (gs_jti st) (Some a) (gs_metrics st) (gs_limiter st) (gs_draws st).
Definition set_limiter (l : rateLimiter F) (st : St) : St :=
  MkGState (gs_cache st) (gs_jti st) (gs_audit st) (gs_metrics st) (Some l) (gs_draws st).

(** [if g.audit != nil { ... }] *)
Definition on_audit (m : M (AuditLogger K) unit) : M St unit := zoom_opt gs_audit set_audit tt m.

(** [if g.metrics != nil { ...Inc() }] *)
Definition count (name : string) (labels : list string) : M St unit :=
  modify (fun st => MkGState (gs_cache st) (gs_jti st) (gs_audit st)
    (match gs_metrics st with Some l => Some (l ++ [(name, labels)])%list | None => None end)
    (gs_limiter st) (gs_draws st)).

Definition draw : M St string :=
  fun w => (rand (gs_draws (w_st w)),
    World (w_now w) (w_tick w)
      (let st := w_st w in MkGState (gs_cache st) (gs_jti st) (gs_audit st) (gs_metrics st)
         (gs_limiter st) (1 + gs_draws st)%nat)).

Section Handler.
Variable g : Guard P.

(** [issueChallenge] *)
Definition issueChallenge (w : Response) (r : Request) (errCode desc acrValues : string) (maxAge : Z)
    : M St Response :=
  let ch := MkChallenge acrValues maxAge errCode desc (gd_realm g) in
  _ ← on_audit (Emit (trace_of r)
        (MkAudit EmptyString AuditTokenRejected time_zero EmptyString EmptyString EmptyString
           (rq_Path r) (rq_Method r) EmptyString EmptyString [] EmptyString EmptyString EmptyString
           desc false));
  mret (WriteChallenge ch w).

Definition reject {A} (w : Response) (r : Request) (errCode desc : string) : step A :=
  w' ← issueChallenge w r errCode desc EmptyString 0; mret (Return w').

(** [handleDenial] *)
Definition handleDenial (w : Response) (r : Request) (subject tenantID : string)
    (result : PolicyResult) : M St Response :=
  let policyName := match pr_MatchedPolicy result with Some p => p_Name p | None => EmptyString end in
  _ ← on_audit (EmitPolicyDecision (trace_of r) subject tenantID (rq_Path r) (rq_Method r)
                  policyName (pr_Reason result) false);
  _ ← count "iam_policy_denied_total" [tenantID; policyName; pr_Reason result];
  _ ← count "iam_stepup_challenges_total" [tenantID; pr_RequiredACR result; rq_Method r];
  let stepErr := NewInsufficientACRError (pr_RequiredACR result) (pr_RequiredMaxAge result) in
  let challenge := NewStepUpChallenge stepErr (gd_realm g) in
  id ← draw;
  now1 ← Now;
  now2 ← Now;
  let flow := BeginChallenge id now1 now2 r challenge in
  let w := match fs_SavedRequest flow with
           | Some saved => if negb (String.eqb (gd_cookieSecret g) EmptyString)
                           then snd (SetStateCookie w saved (gd_cookieSecret g)) else w
           | None => w
           end in
  mret (WriteChallenge challenge w).

(** The guard's request to the policy engine. *)
Definition policy_request (method path : string) (claims : CommonClaims) (age : Duration) : PolicyRequest :=
  MkPolicyRequest method path (cl_ACR claims) (cl_AMR claims) (cl_Scopes claims) age
    (cl_AuthorizationDetails claims).

(** [completeStepUp] *)
Definition completeStepUp (w : Response) (r : Request) (saved : SavedRequest)
    (claims : CommonClaims) (tenantID : string) : step Request :=
  let flow := MkFlow StateChallenge None (Some saved) (sr_SavedAt saved) time_zero in
  _ ←! (match gd_policyEngine g with
        | None => mret (Continue tt)
        | Some engine =>
            age ← AuthAge_now claims;
            let result := Evaluate engine (policy_request (sr_Method saved) (sr_Path saved) claims age) in
            if negb (pr_Allowed result) then
              _ ← on_audit (EmitPolicyDecision (trace_of r) (cl_Subject claims) tenantID
                              (sr_Path saved) (sr_Method saved) EmptyString (pr_Reason result) false);
              w' ← issueChallenge (ClearStateCookie w) r ErrCodeInsufficientUserAuthentication
                     ("step-up incomplete: " +:+ pr_Reason result)
                     (pr_RequiredACR result) (pr_RequiredMaxAge result);
              mret (Return w')
            else mret (Continue tt)
        end);
  now1 ← Now;
  now2 ← Now;
  let '(err, flow') := Complete (gd_sm g) now1 now2 flow in
  if negb (bool_decide (err = None)) || negb (bool_decide (fs_State flow' = StateCompleted)) then
    w' ← issueChallenge (ClearStateCookie w) r ErrCodeInvalidToken "step-up flow expired"
           (sr_ACRHint saved) (sr_MaxAge saved);
    mret (Return w')
  else
    mret (Continue
      (MkRequest (sr_Method saved) (sr_Path saved) (sr_Query saved)
         (url_text r (sr_Path saved) (sr_Query saved))
         (sr_Path saved +:+ (if String.eqb (sr_Query saved) EmptyString then EmptyString
                             else "?" +:+ sr_Query saved))
         (rq_Host r) (rq_TLS r) (rq_RemoteAddr r) (rq_Header r) (rq_Cookies r) (rq_Body r))).

(** [introspect] *)
Definition introspect (provider : P) (rawToken : string) : M St (res CommonClaims) :=
  cached ← zoom_opt gs_cache set_cache None (cache_Get (HashToken rawToken));
  match cached with
  | Some claims => mret (Ok claims)
  | None =>
      match pv_Introspect provider rawToken with
      | Err e => mret (Err e)
      | Ok claims =>
          _ ← zoom_opt gs_cache set_cache tt (cache_claims (30 * Second) (HashToken rawToken) claims);
          mret (Ok claims)
      end
  end.

(** ** The steps of [ServeHTTP] *)

(** 0. Rate limiting. *)
Definition limit_rate (w : Response) (r : Request) : step unit :=
  ok ← zoom_opt gs_limiter set_limiter true (now ← Now; lift (allow now (clientKey r)));
  if negb ok
  then mret (Return (http_Error "rate limit exceeded" StatusTooManyRequests
                       (SetHeader "Retry-After" "1" w)))
  else mret (Continue tt).

(** 1 and 2. The tenant and its provider. *)
Definition resolve_tenant (w : Response) (r : Request) : step (string * P) :=
  match Resolve (gd_resolver g) r with
  | Err _ => reject w r ErrCodeInvalidToken "tenant resolution failed"
  | Ok tenantID =>
      match Registry_Get tenantID (gd_registry g) with
      | Err _ => reject w r ErrCodeInvalidToken "unknown tenant"
      | Ok provider => mret (Continue (tenantID, provider))
      end
  end.

(** 3. The bearer token. *)
Definition extract_token (w : Response) (r : Request) : step string :=
  match ExtractBearerToken (Header_Get (rq_Header r) "Authorization") with
  | Err _ => reject w r ErrCodeInvalidToken "missing or invalid bearer token"
  | Ok rawToken => mret (Continue rawToken)
  end.

(** The replay cache of the validator: the guard's cache, or its own. *)
Definition dpop_Validate (cfg : DPoPConfig) (r : Request) (rawToken : string) : M St (res DPoPProof) :=
  fun w =>
    match gs_cache (w_st w) with
    | Some _ => zoom_opt gs_cache set_cache (Err (errorf "no cache")) (Validate cfg r rawToken) w
    | None => zoom gs_jti set_jti (Validate cfg r rawToken) w
    end.

(** 3a. The DPoP proof. *)
Definition check_proof (w : Response) (r : Request) (rawToken : string) : step (option DPoPProof) :=
  match gd_dpop g with
  | None => mret (Continue None)
  | Some cfg =>
      proof ← dpop_Validate cfg r rawToken;
      match proof with
      | Ok p => mret (Continue (Some p))
      | Err dpopErr =>
          match gd_dpopNonce g with
          | Some n =>
              if errors_Is dpopErr ErrDPoPNonceRequired then
                nonce ← Nonce_Current n;
                reject (SetHeader "DPoP-Nonce" nonce w) r "use_dpop_nonce" "server requires a DPoP nonce"
              else reject w r ErrCodeInvalidToken ("DPoP validation failed: " +:+ err_text dpopErr)
          | None => reject w r ErrCodeInvalidToken ("DPoP validation failed: " +:+ err_text dpopErr)
          end
      end
  end.

(** 4. Introspection. *)
Definition get_claims (w : Response) (r : Request) (provider : P) (rawToken : string)
    : step CommonClaims :=
  claims ← introspect provider rawToken;
  match claims with
  | Ok c => if negb (cl_Active c)
            then reject w r ErrCodeInvalidToken "token inactive or validation failed"
            else mret (Continue c)
  | Err _ => reject w r ErrCodeInvalidToken "token inactive or validation failed"
  end.

(** 4a. The issuer of the token is that of the tenant. *)
Definition bind_issuer (w : Response) (r : Request) (provider : P) (claims : CommonClaims) : step unit :=
  let iss := pv_Issuer provider in
  if negb (String.eqb iss EmptyString) && negb (String.eqb (cl_Issuer claims) iss)
  then reject w r ErrCodeInvalidToken
         (if String.eqb (cl_Issuer claims) EmptyString
          then "introspection response missing iss; cannot bind token to tenant"
          else "token issuer does not match tenant provider")
  else mret (Continue tt).

(** 4b. The token is bound to the key of the proof. *)
Definition bind_key (w : Response) (r : Request) (proof : option DPoPProof) (claims : CommonClaims)
    : step unit :=
  match proof with
  | None => mret (Continue tt)
  | Some p =>
      match VerifyDPoPBinding p claims with
      | Some bindErr => reject w r ErrCodeInvalidToken ("DPoP binding failed: " +:+ err_text bindErr)
      | None => mret (Continue tt)
      end
  end.

(** 4c. FAPI 2.0. *)
Definition check_fapi (w : Response) (r : Request) (claims : CommonClaims) : step unit :=
  match gd_fapiCfg g with
  | None => mret (Continue tt)
  | Some cfg =>
      err ← ValidateRequest claims cfg;
      match err with
      | Some e => reject w r ErrCodeInvalidToken (ProfileError_Error e)
      | None => mret (Continue tt)
      end
  end.

(** 5. The policy. *)
Definition check_policy (w : Response) (r : Request) (claims : CommonClaims) (tenantID : string) : step unit :=
  match gd_policyEngine g with
  | None => mret (Continue tt)
  | Some engine =>
      age ← AuthAge_now claims;
      let result := Evaluate engine (policy_request (rq_Method r) (rq_Path r) claims age) in
      if negb (pr_Allowed result)
      then w' ← handleDenial w r (cl_Subject claims) tenantID result; mret (Return w')
      else
        _ ← on_audit (EmitPolicyDecision (trace_of r) (cl_Subject claims) tenantID (rq_Path r)
                        (rq_Method r) EmptyString EmptyString true);
        mret (Continue tt)
  end.

(** 6. The saved request of a step-up flow. *)
Definition replay (w : Response) (r : Request) (claims : CommonClaims) (tenantID : string)
    : step (Request * Response) :=
  if String.eqb (gd_cookieSecret g) EmptyString then mret (Continue (r, w)) else
  now ← Now;
  r' ←! (match ReadStateCookie now r (gd_cookieSecret g) with
         | Ok (Some saved) =>
             if negb (String.eqb (sr_Path saved) EmptyString) && negb (String.eqb (sr_Path saved) (rq_Path r))
             then completeStepUp w r saved claims tenantID
             else mret (Continue r)
         | _ => mret (Continue r)
         end);
  mret (Continue (r', ClearStateCookie w)).

(** 7. The headers the upstream sees. *)
Definition forward_headers (h : Header) (claims : CommonClaims) (tenantID : string) : Header :=
  let h := sanitizeForwardHeaders h in
  let h := Header_Set h "X-Iam-Subject" (cl_Subject claims) in
  let h := Header_Set h "X-Iam-Tenant" tenantID in
  let h := if String.eqb (cl_ACR claims) EmptyString then h else Header_Set h "X-Iam-Acr" (cl_ACR claims) in
  if bool_decide (cl_Scopes claims = []) then h
  else Header_Set h "X-Iam-Scopes" (Join (cl_Scopes claims) " ").

Definition set_headers (r : Request) (h : Header) : Request :=
  MkRequest (rq_Method r) (rq_Path r) (rq_RawQuery r) (rq_URL r) (rq_RequestURI r) (rq_Host r)
    (rq_TLS r) (rq_RemoteAddr r) h (rq_Cookies r) (rq_Body r).

(** Steps 1 to 5: who asks, and whether the policy allows it. *)
Definition authorize (w : Response) (r : Request) : step (string * CommonClaims) :=
  _ ←! limit_rate w r;
  '(tenantID, provider) ←! resolve_tenant w r;
  rawToken ←! extract_token w r;
  proof ←! check_proof w r rawToken;
  claims ←! get_claims w r provider rawToken;
  _ ←! bind_issuer w r provider claims;
  _ ←! bind_key w r proof claims;
  _ ←! check_fapi w r claims;
  _ ←! check_policy w r claims tenantID;
  mret (Continue (tenantID, claims)).

Definition handle (w : Response) (r : Request) : step (Request * TenantContext * Response) :=
  '(tenantID, claims) ←! authorize w r;
  '(r', w') ←! replay w r claims tenantID;
  mret (Continue (set_headers r' (forward_headers (rq_Header r') claims tenantID),
                  WithTenantID None tenantID, w')).

(** [ServeHTTP] up to the call of the upstream handler. *)
Definition decide_request (w : Response) (r : Request) : M St outcome :=
  c ← handle w r;
  mret (match c with
        | Return w' => Replied w'
        | Continue (r', ctx, w') => Forwarded r' ctx w'
        end).

(** [ServeHTTP] in front of the upstream handler [next]. *)
Definition ServeHTTP (next : Request -> TenantContext -> Response -> Response)
    (w : Response) (r : Request) : M St Response :=
  o ← decide_request w r;
  mret (match o with Replied w' => w' | Forwarded r' ctx w' => next r' ctx w' end).

(** [RevocationHandler]: over the guard's cache, or one of its own. *)
Definition RevocationHandler (own : MemoryCache) (r : Request) (w : Response) : M St (Response * MemoryCache) :=
  fun wd =>
    match gs_cache (w_st wd) with
    | Some _ =>
        zoom_opt gs_cache set_cache (w, own)
          (w' ← RevocationHandler_ServeHTTP (gd_webhookSecret g) r w; mret (w', own)) wd
    | None =>
        let '(w', wd') := RevocationHandler_ServeHTTP (gd_webhookSecret g) r w
                            (World (w_now wd) (w_tick wd) own) in
        ((w', w_st wd'), World (w_now wd') (w_tick wd') (w_st wd))
    end.
End Handler.
End Guard.

(** ** Frames *)

Lemma zoom_opt_later {S T A} (get : T -> option S) set (d : A) (m : M S A) w :
  (forall w0, later w0 (m w0).2) -> later w (zoom_opt get set d m w).2.
Proof.
  intros Hm. unfold zoom_opt. destruct (get (w_st w)) as [s|]; [|done].
  specialize (Hm (World (w_now w) (w_tick w) s)). by destruct (m _).
Qed.

(** The age of an authentication is read from the clock at most once. *)
Lemma AuthAge_now_run {S} c (w : world S) :
  exists w', AuthAge_now c w = (AuthAge (now_of w) c, w') /\ later w w' /\ w_st w' = w_st w.
Proof.
  unfold AuthAge_now, AuthAge. destruct (IsZero (cl_AuthTime c)); [by exists w|].
  eexists. split; [reflexivity|]. split; [split; cbn; [done|lia]|done].
Qed.

Lemma Emit_later {K} `{!AuditSink K} trace ev (w : world (AuditLogger K)) : later w (Emit trace ev w).2.
Proof.
  unfold Emit, mbind, M_bind. destruct (IsZero _); cbn; (split; cbn; [done|lia]).
Qed.

Lemma EmitPolicyDecision_later {K} `{!AuditSink K} trace s t r m p rs a (w : world (AuditLogger K)) :
  later w (EmitPolicyDecision trace s t r m p rs a w).2.
Proof.
  unfold EmitPolicyDecision. unfold mbind at 1, M_bind at 1. cbn [Now].
  etransitivity; [|apply Emit_later]. split; cbn; [done|lia].
Qed.

Lemma thirty_seconds_ok : int64_ok (30 * Second).
Proof. unfold int64_ok, min_int64, max_int64, Second. lia. Qed.

(** ** Forwarded headers *)

(** Header names as [net/http] delivers them. *)
Definition canonical_names (h : Header) : Prop := forall k, is_Some (h !! k) -> CanonicalHeaderKey k = k.

(** The headers reserved for the gateway, and the resolution input. *)
Definition reserved `{!Unicode} (k : string) : bool :=
  String.eqb k "X-Tenant-Id" || HasPrefix (ToLower k) "x-iam-".

(** The identity headers of a request of [tenant] with the claims [c]. *)
Definition identity_header (c : CommonClaims) (tenant k : string) : option (list string) :=
  if String.eqb k "X-Iam-Subject" then Some [cl_Subject c]
  else if String.eqb k "X-Iam-Tenant" then Some [tenant]
  else if String.eqb k "X-Iam-Acr" && negb (String.eqb (cl_ACR c) EmptyString) then Some [cl_ACR c]
  else if String.eqb k "X-Iam-Scopes" && negb (bool_decide (cl_Scopes c = []))
  then Some [Join (cl_Scopes c) " "]
  else None.

Section Headers.
#[local] Set Default Proof Using "All".
Context {U : Unicode}.

Lemma delete_reserved ns (h : Header) k :
  Forall (fun n => CanonicalHeaderKey n = n) ns ->
  foldr (fun name h => if HasPrefix (ToLower name) "x-iam-" then Header_Del h name else h) h ns !! k =
  if decide (k ∈ ns /\ HasPrefix (ToLower k) "x-iam-" = true) then None else h !! k.
Proof.
  induction ns as [|n ns IH]; intros Hc.
  { rewrite decide_False; [done|]. intros [H _]. exact (not_elem_of_nil _ H). }
  apply Forall_cons_1 in Hc as [Hn Hc]. cbn [foldr].
  destruct (HasPrefix (ToLower n) "x-iam-") eqn:Hp.
  - change (Header_Del ?x n) with (delete (CanonicalHeaderKey n) x). rewrite Hn.
    destruct (decide (n = k)) as [->|Hne].
    + rewrite lookup_delete_eq, decide_True; [done|]. split; [by left|done].
    + rewrite lookup_delete_ne, IH by done.
      apply decide_ext. rewrite elem_of_cons. naive_solver.
  - rewrite IH by done. apply decide_ext. rewrite elem_of_cons. split; [naive_solver|].
    intros [[->|H] H']; [congruence|done].
Qed.

Lemma sanitize_lookup (h : Header) k :
  canonical_names h -> sanitizeForwardHeaders h !! k = if reserved k then None else h !! k.
Proof.
  intros Hc. unfold sanitizeForwardHeaders, reserved. unfold Header_Del at 2 3.
  change (CanonicalHeaderKey "X-Tenant-ID") with "X-Tenant-Id".
  rewrite delete_reserved.
  2: { apply Forall_forall. intros n Hn. apply list_elem_of_fmap in Hn as ([n' v] & -> & Hv).
       apply elem_of_map_to_list in Hv. apply Hc. cbn.
       apply lookup_delete_Some in Hv as [_ Hv]. by eexists. }
  destruct (String.eqb_spec k "X-Tenant-Id") as [->|Hne]; cbn [orb].
  { rewrite decide_False; [by rewrite lookup_delete_eq|]. intros [_ H]. vm_compute in H. discriminate H. }
  rewrite lookup_delete_ne by done.
  destruct (HasPrefix (ToLower k) "x-iam-") eqn:Hp.
  - destruct (decide _) as [|Hd]; [done|].
    destruct (h !! k) as [v|] eqn:Hk; [|done]. exfalso. apply Hd. split; [|done].
    apply list_elem_of_fmap. exists (k, v). split; [done|]. apply elem_of_map_to_list.
    by rewrite lookup_delete_ne.
  - rewrite decide_False; [done|]. by intros [_ ?].
Qed.

Lemma forward_headers_lookup (h : Header) c tenant k :
  canonical_names h ->
  forward_headers h c tenant !! k =
  match identity_header c tenant k with
  | Some v => Some v
  | None => if reserved k then None else h !! k
  end.
Proof.
  intros Hc. rewrite <- (sanitize_lookup h k Hc). unfold forward_headers, Header_Set.
  change (CanonicalHeaderKey "X-Iam-Subject") with "X-Iam-Subject".
  change (CanonicalHeaderKey "X-Iam-Tenant") with "X-Iam-Tenant".
  change (CanonicalHeaderKey "X-Iam-Acr") with "X-Iam-Acr".
  change (CanonicalHeaderKey "X-Iam-Scopes") with "X-Iam-Scopes".
  generalize (sanitizeForwardHeaders h) as h0. intros h0. unfold identity_header.
  destruct (String.eqb_spec k "X-Iam-Subject") as [->|H1];
    [|destruct (String.eqb_spec k "X-Iam-Tenant") as [->|H2];
      [|destruct (String.eqb_spec k "X-Iam-Acr") as [->|H3];
        [|destruct (String.eqb_spec k "X-Iam-Scopes") as [->|H4]]]];
    destruct (String.eqb (cl_ACR c) EmptyString), (bool_decide (cl_Scopes c = []));
    cbn [andb negb];
    repeat first [rewrite lookup_insert_eq | rewrite lookup_insert_ne by done]; done.
Qed.
End Headers.

Section GuardProofs.
#[local] Set Default Proof Using "All".
Context {U : Unicode} {L : LocalTime} {Sig : Signatures}.
Context {S P K F : Type} `{!Cache S} `{!Provider P} `{!AuditSink K} `{!GoFloat F}.
Context (trace_of : Request -> string) (rand : nat -> string).
Context (url_text : Request -> string -> string -> string).
Implicit Types (w : world (GState S K F)) (g : Guard P).

Lemma on_audit_frame (m : M (AuditLogger K) unit) w :
  (forall w0 : world (AuditLogger K), later w0 (m w0).2) ->
  later w (on_audit (S := S) (F := F) m w).2 /\
  gs_cache (w_st (on_audit m w).2) = gs_cache (w_st w).
Proof.
  intros Hm. split; [by apply zoom_opt_later|].
  unfold on_audit, zoom_opt. destruct (gs_audit (w_st w)); [|done]. by destruct (m _).
Qed.

Lemma limit_rate_Continue g rw r w x w' :
  limit_rate (S := S) (K := K) rw r w = (Continue x, w') ->
  later w w' /\ gs_cache (w_st w') = gs_cache (w_st w) /\
  (forall rl, gs_limiter (w_st w) = Some rl -> (allow (now_of w) (clientKey r) rl).1 = true).
Proof.
  unfold limit_rate. unfold mbind at 1, M_bind at 1. unfold zoom_opt.
  destruct (gs_limiter (w_st w)) as [rl|] eqn:Hl; [|by intros [= _ <-]].
  unfold mbind, M_bind, Now, lift. cbn [w_now w_tick w_st].
  change (w_now w (w_tick w)) with (now_of w).
  destruct (allow (now_of w) (clientKey r) rl) as [[] rl'] eqn:Ha; cbn [negb]; [|done].
  intros [= _ <-]. split; [split; cbn; [done|lia]|]. split; [done|]. intros rl0 [= <-]. by rewrite Ha.
Qed.

Lemma reject_Return {A} g rw r code desc w (a : A) w' :
  reject (S := S) (F := F) trace_of g rw r code desc w <> (Continue a, w').
Proof.
  unfold reject. unfold mbind, M_bind. by destruct (issueChallenge _ _ _ _ _ _ _ _ w).
Qed.

Lemma resolve_tenant_Continue g rw r w tenant prov w' :
  resolve_tenant (S := S) (F := F) trace_of g rw r w = (Continue (tenant, prov), w') ->
  w' = w /\ Resolve (gd_resolver g) r = Ok tenant /\ Registry_Get tenant (gd_registry g) = Ok prov.
Proof.
  unfold resolve_tenant. destruct (Resolve _ r) as [t|]; [|by intros []%reject_Return].
  destruct (Registry_Get t _) as [p|] eqn:Hp; [|by intros []%reject_Return].
  intros [= -> -> ->]. by rewrite Hp.
Qed.

Lemma extract_token_Continue g rw r w tok w' :
  extract_token (S := S) (F := F) trace_of g rw r w = (Continue tok, w') ->
  w' = w /\ ExtractBearerToken (Header_Get (rq_Header r) "Authorization") = Ok tok.
Proof.
  unfold extract_token. destruct (ExtractBearerToken _) as [t|]; [|by intros []%reject_Return].
  by intros [= -> ->].
Qed.

(** The proof that was validated: at some moment of the clock, against the
    replay cache as it was then. *)
Definition proof_checked g w (r : Request) (tok : string) (p : option DPoPProof) : Prop :=
  match gd_dpop g, p with
  | None, None => True
  | Some cfg, Some p =>
      exists i, (w_tick w <= i)%nat /\ pf_JTI p <> EmptyString /\
        proof_ok r tok cfg (w_now w i) (w_now w (1 + i)%nat) (w_now w (2 + i)%nat) p
  | _, _ => False
  end.

(** What the step leaves of the entry of a token in the guard's cache. *)
Definition same_entry (tok : string) w w' : Prop :=
  match gs_cache (w_st w), gs_cache (w_st w') with
  | None, None => True
  | Some s, Some s' => forall now, Cache_Get now (HashToken tok) s' = Cache_Get now (HashToken tok) s
  | _, _ => False
  end.

Lemma Validate_accepted {S'} `{!Cache S'} cfg r tok (w w' : world S') p :
  Validate cfg r tok w = (Ok p, w') ->
  later w w' /\ pf_JTI p <> EmptyString /\
  proof_ok r tok cfg (Dpop.reading w 0) (Dpop.reading w 1) (Dpop.reading w 2) p /\
  exists t, w_st w' = (Cache_Set t (jti_key p) empty_claims (dc_MaxAge cfg) (w_st w)).2.
Proof.
  intros H. pose proof (Validate_cases cfg r tok w) as Hc. rewrite H in Hc.
  destruct Hc as [(q & Hok & Hj & _ & Hq & ->)|(_ & (e & He) & _)]; [|done].
  injection Hq as <-. split; [split; cbn; [done|lia]|]. split; [done|]. split; [done|].
  eexists. reflexivity.
Qed.

Lemma check_proof_Continue `{!CacheLaws S} g rw r tok w p w' :
  check_proof (K := K) (F := F) trace_of g rw r tok w = (Continue p, w') ->
  later w w' /\ proof_checked g w r tok p /\ same_entry tok w w'.
Proof.
  unfold check_proof, proof_checked. destruct (gd_dpop g) as [cfg|] eqn:Hcfg.
  2: { intros [= <- <-]. split; [done|]. split; [done|]. unfold same_entry. by destruct (gs_cache (w_st w)). }
  unfold mbind at 1, M_bind at 1. destruct (dpop_Validate cfg r tok w) as [[q|e] w1] eqn:Hv.
  2: { destruct (gd_dpopNonce g) as [n|]; [destruct (errors_Is _ _)|]; try by intros []%reject_Return. }
  intros [= <- <-]. unfold dpop_Validate, zoom_opt, zoom in Hv.
  destruct (gs_cache (w_st w)) as [s|] eqn:Hs.
  - destruct (Validate cfg r tok _) as [v wv] eqn:Hval. injection Hv as -> <-.
    apply Validate_accepted in Hval as (Hl & Hj & Hok & t & Hst).
    split; [exact Hl|]. split; [by exists (w_tick w)|]. unfold same_entry. rewrite Hs. cbn [w_st gs_cache set_cache].
    intros now. rewrite Hst. cbn [w_st]. apply get_set_other. intros Heq. symmetry in Heq.
    by apply (HashToken_no_colon tok "dpop" ("jti:" +:+ pf_JTI q)) in Heq.
  - destruct (Validate cfg r tok _) as [v wv] eqn:Hval. injection Hv as -> <-.
    apply Validate_accepted in Hval as (Hl & Hj & Hok & t & Hst).
    split; [exact Hl|]. split; [by exists (w_tick w)|]. unfold same_entry. rewrite Hs. cbn. by rewrite Hs.
Qed.

(** Where the claims of a token come from. *)
Definition claims_from w (prov : P) (tok : string) (c : CommonClaims) : Prop :=
  pv_Introspect prov tok = Ok c \/
  exists s i, gs_cache (w_st w) = Some s /\ (w_tick w <= i)%nat /\
    Cache_Get (w_now w i) (HashToken tok) s = Some c.

Lemma cache_claims_later `{!CacheLaws S} ttl key c (w0 : world S) :
  int64_ok ttl -> later w0 (cache_claims ttl key c w0).2.
Proof.
  intros Httl. destruct (cache_claims_cases ttl key c w0 Httl) as [[_ H]|(_ & t & w1 & _ & _ & Hl & _ & ->)]; [done|].
  etransitivity; [exact Hl|]. etransitivity; [apply cache_Set_touches|apply IndexClaims_touches].
  Unshelve. all: exact [].
Qed.

Lemma get_claims_Continue `{!CacheLaws S} g rw r prov tok w c w' :
  get_claims (F := F) trace_of g rw r prov tok w = (Continue c, w') ->
  later w w' /\ cl_Active c = true /\ claims_from w prov tok c.
Proof.
  unfold get_claims, introspect. unfold mbind at 1 2, M_bind at 1 2.
  destruct (zoom_opt gs_cache set_cache None (cache_Get (HashToken tok)) w) as [cached w1] eqn:Hg.
  assert (Hget : later w w1 /\ forall c0, cached = Some c0 -> claims_from w prov tok c0).
  { unfold zoom_opt in Hg. destruct (gs_cache (w_st w)) as [s|] eqn:Hs; [|by injection Hg as <- <-].
    injection Hg as <- <-. split; [split; cbn; [done|lia]|]. intros c0 Hc0. right. by exists s, (w_tick w). }
  destruct Hget as [Hl1 Hcached]. destruct cached as [c0|].
  - cbn [mret M_ret]. destruct (cl_Active c0) eqn:Ha; cbn [negb]; [|by intros []%reject_Return].
    intros [= <- <-]. auto.
  - destruct (pv_Introspect prov tok) as [c0|e] eqn:Hi; [|by intros []%reject_Return].
    unfold mbind at 1, M_bind at 1.
    assert (Hl2 : later w1 (zoom_opt gs_cache set_cache tt (cache_claims (30 * Second) (HashToken tok) c0) w1).2).
    { apply zoom_opt_later. intros x. apply cache_claims_later, thirty_seconds_ok. }
    destruct (zoom_opt gs_cache set_cache tt _ w1) as [u w2]. cbn [snd] in Hl2. cbn [mret M_ret].
    destruct (cl_Active c0) eqn:Ha; cbn [negb]; [|by intros []%reject_Return].
    intros [= <- <-]. split; [by etransitivity|]. split; [done|]. by left.
Qed.

Lemma bind_issuer_Continue g rw r prov c w x w' :
  bind_issuer (S := S) (F := F) trace_of g rw r prov c w = (Continue x, w') ->
  w' = w /\ (pv_Issuer prov <> EmptyString -> cl_Issuer c = pv_Issuer prov).
Proof.
  unfold bind_issuer. destruct (_ && _) eqn:Hb; [by intros []%reject_Return|].
  intros [= _ <-]. split; [done|]. intros Hne.
  apply andb_false_iff in Hb as [Hb|Hb]; b2p; done.
Qed.

Lemma bind_key_Continue g rw r p c w x w' :
  bind_key (S := S) (F := F) trace_of g rw r p c w = (Continue x, w') ->
  w' = w /\ (forall q, p = Some q -> VerifyDPoPBinding q c = None).
Proof.
  unfold bind_key. destruct p as [q|]; [|by intros [= _ <-]].
  destruct (VerifyDPoPBinding q c) eqn:Hb; [by intros []%reject_Return|].
  intros [= _ <-]. split; [done|]. by intros q' [= <-].
Qed.

Lemma check_fapi_Continue g rw r c w x w' :
  check_fapi (S := S) (F := F) trace_of g rw r c w = (Continue x, w') ->
  later w w' /\ gs_cache (w_st w') = gs_cache (w_st w) /\
  (forall cfg, gd_fapiCfg g = Some cfg -> fst (ValidateRequest c cfg w) = None).
Proof.
  unfold check_fapi. destruct (gd_fapiCfg g) as [cfg|]; [|by intros [= _ <-]].
  unfold mbind at 1, M_bind at 1. pose proof (ValidateRequest_state c cfg w) as [Hl Hst].
  destruct (ValidateRequest c cfg w) as [[e|] w1] eqn:Hv; [by intros []%reject_Return|].
  intros [= _ <-]. cbn in Hl, Hst. rewrite Hst. split; [done|]. split; [done|].
  intros cfg' [= <-]. by rewrite Hv.
Qed.

(** The policy allows the request, at the age of the authentication then. *)
Definition policy_allows g w (method path : string) (c : CommonClaims) : Prop :=
  forall engine, gd_policyEngine g = Some engine ->
    exists i, (w_tick w <= i)%nat /\
      pr_Allowed (Evaluate engine (policy_request method path c (AuthAge (w_now w i) c))) = true.

Lemma check_policy_Continue g rw r c tenant w x w' :
  check_policy (S := S) (F := F) trace_of rand g rw r c tenant w = (Continue x, w') ->
  later w w' /\ policy_allows g w (rq_Method r) (rq_Path r) c.
Proof.
  unfold check_policy, policy_allows. destruct (gd_policyEngine g) as [engine|]; [|by intros [= _ <-]].
  unfold mbind at 1, M_bind at 1. destruct (AuthAge_now_run c w) as (w1 & -> & Hl & _). cbv beta iota.
  destruct (pr_Allowed _) eqn:Ha; cbn [negb].
  - unfold mbind at 1, M_bind at 1.
    pose proof (on_audit_frame (EmitPolicyDecision (trace_of r) (cl_Subject c) tenant (rq_Path r)
      (rq_Method r) EmptyString EmptyString true) w1 (fun x => EmitPolicyDecision_later _ _ _ _ _ _ _ _ x)) as [Hl2 _].
    destruct (on_audit _ w1) as [u w2]. cbn [snd] in Hl2. intros [= _ <-].
    split; [by etransitivity|]. intros e [= <-]. by exists (w_tick w).
  - unfold mbind, M_bind. by destruct (handleDenial _ _ _ _ _ _ _ _ w1).
Qed.

(** Everything that was established about the request [r], which arrived in
    [w], before it is let through as [tenant]'s with the claims [c]. *)
Record granted g w (r : Request) (tenant : string) (c : CommonClaims) : Prop := {
  gr_rate : forall rl, gs_limiter (w_st w) = Some rl -> (allow (now_of w) (clientKey r) rl).1 = true;
  gr_tenant : Resolve (gd_resolver g) r = Ok tenant;
  gr_token : exists prov tok proof,
    Registry_Get tenant (gd_registry g) = Ok prov /\
    ExtractBearerToken (Header_Get (rq_Header r) "Authorization") = Ok tok /\
    proof_checked g w r tok proof /\ claims_from w prov tok c /\
    (pv_Issuer prov <> EmptyString -> cl_Issuer c = pv_Issuer prov) /\
    (forall q, proof = Some q -> VerifyDPoPBinding q c = None);
  gr_active : cl_Active c = true;
  gr_fapi : forall cfg, gd_fapiCfg g = Some cfg ->
    exists w1, later w w1 /\ fst (ValidateRequest c cfg w1) = None;
  gr_policy : policy_allows g w (rq_Method r) (rq_Path r) c
}.

Lemma policy_allows_earlier g w w1 m p c : later w w1 -> policy_allows g w1 m p c -> policy_allows g w m p c.
Proof.
  intros [Hn Ht] H e He. destruct (H e He) as (i & Hi & Ha). exists i. rewrite Hn in Ha. split; [lia|done].
Qed.

Lemma proof_checked_earlier g w w1 r tok q : later w w1 -> proof_checked g w1 r tok q -> proof_checked g w r tok q.
Proof.
  intros [Hn Ht]. unfold proof_checked. destruct (gd_dpop g), q; try done.
  intros (i & Hi & H). exists i. rewrite Hn in H. split; [lia|done].
Qed.

Lemma claims_from_earlier w w1 prov tok c :
  later w w1 -> same_entry tok w w1 -> claims_from w1 prov tok c -> claims_from w prov tok c.
Proof.
  intros [Hn Ht] Hs [H|(s & i & Hc & Hi & Hg)]; [by left|]. right. unfold same_entry in Hs. rewrite Hc in Hs.
  destruct (gs_cache (w_st w)) as [s0|]; [|done]. exists s0, i. rewrite Hn in Hg.
  split; [done|]. split; [lia|]. by rewrite <- Hs.
Qed.

Lemma authorize_granted `{!CacheLaws S} g rw r w tenant c w' :
  authorize trace_of rand g rw r w = (Continue (tenant, c), w') ->
  later w w' /\ granted g w r tenant c.
Proof.
  unfold authorize. intros H.
  apply ctl_bind_Continue in H as (x0 & w1 & H0 & H).
  apply limit_rate_Continue in H0 as (Hl1 & Hc1 & Hrate); [|exact g].
  apply ctl_bind_Continue in H as ([t prov] & w2 & H0 & H).
  apply resolve_tenant_Continue in H0 as (-> & Hten & Hprov).
  apply ctl_bind_Continue in H as (tok & w2 & H0 & H).
  apply extract_token_Continue in H0 as (-> & Htok).
  apply ctl_bind_Continue in H as (proof & w2 & H0 & H).
  apply check_proof_Continue in H0 as (Hl2 & Hproof & Hsame).
  apply ctl_bind_Continue in H as (c' & w3 & H0 & H).
  apply get_claims_Continue in H0 as (Hl3 & Hact & Hfrom).
  apply ctl_bind_Continue in H as (x1 & w4 & H0 & H).
  apply bind_issuer_Continue in H0 as (-> & Hiss).
  apply ctl_bind_Continue in H as (x2 & w4 & H0 & H).
  apply bind_key_Continue in H0 as (-> & Hkey).
  apply ctl_bind_Continue in H as (x3 & w4 & H0 & H).
  apply check_fapi_Continue in H0 as (Hl4 & _ & Hfapi).
  apply ctl_bind_Continue in H as (x4 & w5 & H0 & H).
  apply check_policy_Continue in H0 as (Hl5 & Hpol).
  injection H as <- <- <-.
  assert (Hsame' : same_entry tok w w2) by (unfold same_entry in *; by rewrite Hc1 in Hsame).
  assert (Hl02 : later w w2) by (by etransitivity). assert (Hl03 : later w w3) by (by etransitivity).
  assert (Hl04 : later w w4) by (by etransitivity).
  split; [by etransitivity|]. split; [done|done| |done| |exact (policy_allows_earlier g _ _ _ _ _ Hl04 Hpol)].
  - exists prov, tok, proof. split; [done|]. split; [done|].
    split; [exact (proof_checked_earlier g _ _ _ _ _ Hl1 Hproof)|].
    split; [exact (claims_from_earlier _ _ _ _ _ Hl02 Hsame' Hfrom)|done].
  - intros cfg Hcfg. exists w3. auto.
Qed.

(** The request forwarded for [r]: [r] itself, or the request saved in an
    authentic step-up cookie that the policy allows as well. *)
Definition replayed_from g w (r : Request) (c : CommonClaims) (r1 : Request) : Prop :=
  exists saved i j, gd_cookieSecret g <> EmptyString /\ (w_tick w <= i <= j)%nat /\
    ReadStateCookie (w_now w i) r (gd_cookieSecret g) = Ok (Some saved) /\
    sr_Path saved <> EmptyString /\ sr_Path saved <> rq_Path r /\
    policy_allows g w (sr_Method saved) (sr_Path saved) c /\
    time_Since (w_now w j) (sr_SavedAt saved) <= sm_Timeout (gd_sm g) /\
    rq_Method r1 = sr_Method saved /\ rq_Path r1 = sr_Path saved /\ rq_RawQuery r1 = sr_Query saved /\
    rq_RequestURI r1 = sr_Path saved +:+ (if String.eqb (sr_Query saved) EmptyString then EmptyString
                                           else "?" +:+ sr_Query saved) /\
    rq_Host r1 = rq_Host r /\ rq_Header r1 = rq_Header r /\ rq_Body r1 = rq_Body r.

Lemma completeStepUp_Continue g rw r saved c tenant w r1 w' :
  completeStepUp (S := S) (F := F) trace_of url_text g rw r saved c tenant w = (Continue r1, w') ->
  later w w' /\ policy_allows g w (sr_Method saved) (sr_Path saved) c /\
  (exists j, (w_tick w <= j)%nat /\ time_Since (w_now w j) (sr_SavedAt saved) <= sm_Timeout (gd_sm g)) /\
  r1 = MkRequest (sr_Method saved) (sr_Path saved) (sr_Query saved)
         (url_text r (sr_Path saved) (sr_Query saved))
         (sr_Path saved +:+ (if String.eqb (sr_Query saved) EmptyString then EmptyString
                             else "?" +:+ sr_Query saved))
         (rq_Host r) (rq_TLS r) (rq_RemoteAddr r) (rq_Header r) (rq_Cookies r) (rq_Body r).
Proof.
  unfold completeStepUp. intros H. apply ctl_bind_Continue in H as (x & w1 & H0 & H).
  assert (Hp : later w w1 /\ policy_allows g w (sr_Method saved) (sr_Path saved) c).
  { unfold policy_allows. destruct (gd_policyEngine g) as [engine|]; [|by injection H0 as _ <-].
    unfold mbind at 1, M_bind at 1 in H0.
    destruct (AuthAge_now_run c w) as (w2 & E & Hl & _). rewrite E in H0.
    destruct (pr_Allowed _) eqn:Ha; cbn [negb] in H0.
    - injection H0 as _ <-. split; [done|]. intros e [= <-]. by exists (w_tick w).
    - unfold mbind, M_bind in H0. destruct (on_audit _ w2) as [u w3].
      by destruct (issueChallenge _ _ _ _ _ _ _ _ w3). }
  destruct Hp as [Hl Hp].
  unfold mbind, M_bind, Now in H. cbn [w_now w_tick w_st] in H.
  unfold Complete in H. cbn [fs_State fs_StartedAt] in H.
  rewrite (bool_decide_eq_true_2 (StateChallenge = StateChallenge)) in H by done. cbn [negb] in H.
  destruct (_ <? _) eqn:Ht.
  { cbn [negb orb] in H. rewrite bool_decide_eq_false_2 in H by done. cbn [negb orb] in H.
    by destruct (issueChallenge _ _ _ _ _ _ _ _ _). }
  rewrite !bool_decide_eq_true_2 in H by done. cbn [negb orb] in H. injection H as <- <-.
  split; [etransitivity; [exact Hl|]; split; cbn; [done|lia]|]. split; [done|]. split; [|done].
  destruct Hl as [Hn Hle]. rewrite Hn in Ht. exists (w_tick w1). b2p. done.
Qed.

Lemma replay_Continue g rw r c tenant w r1 rw1 w' :
  replay (S := S) (F := F) trace_of url_text g rw r c tenant w = (Continue (r1, rw1), w') ->
  later w w' /\ (r1 = r \/ replayed_from g w r c r1).
Proof.
  unfold replay. destruct (String.eqb_spec (gd_cookieSecret g) EmptyString) as [Hs|Hs].
  { intros [= <- _ <-]. auto. }
  unfold mbind at 1, M_bind at 1. cbn [Now]. set (w1 := World _ _ _).
  assert (Hl1 : later w w1) by (split; cbn; [done|lia]).
  intros H. apply ctl_bind_Continue in H as (r2 & w2 & H0 & H). injection H as <- _ <-.
  destruct (ReadStateCookie _ r _) as [[saved|]|] eqn:Hc; try by (injection H0 as <- <-; auto).
  destruct (_ && _) eqn:Hpath; [|by injection H0 as <- <-; auto]. b2p.
  apply completeStepUp_Continue in H0 as (Hl2 & Hp & (j & Hj & Ht) & ->).
  split; [by etransitivity|]. right.
  exists saved, (w_tick w), j. split; [done|]. split; [cbn in Hj; lia|].
  repeat (split; [done|]). split; [exact (policy_allows_earlier g _ _ _ _ _ Hl1 Hp)|]. done.
Qed.

Lemma replayed_from_earlier g w w1 r c r1 : later w w1 -> replayed_from g w1 r c r1 -> replayed_from g w r c r1.
Proof.
  intros Hl (saved & i & j & Hs & Hij & Hc & Hp & Hne & Hpol & Ht & H). destruct Hl as [Hn Hle] eqn:E.
  rewrite Hn in Hc, Ht. exists saved, i, j. split; [done|]. split; [lia|]. repeat (split; [done|]).
  split; [exact (policy_allows_earlier g _ _ _ _ _ Hl Hpol)|done].
Qed.

Lemma handle_Continue `{!CacheLaws S} g rw r w r' ctx rw' w' :
  handle trace_of rand url_text g rw r w = (Continue (r', ctx, rw'), w') ->
  exists tenant c r1, granted g w r tenant c /\ ctx = WithTenantID None tenant /\
    (r1 = r \/ replayed_from g w r c r1) /\
    r' = set_headers r1 (forward_headers (rq_Header r1) c tenant).
Proof.
  unfold handle. intros H. apply ctl_bind_Continue in H as ([tenant c] & w1 & H0 & H).
  apply authorize_granted in H0 as [Hl Hg].
  apply ctl_bind_Continue in H as ([r1 rw1] & w2 & H0 & H).
  apply replay_Continue in H0 as [_ Hr]. injection H as <- <- <- <-.
  exists tenant, c, r1. split; [done|]. split; [done|]. split; [|done].
  destruct Hr as [->|Hr]; [by left|right]. exact (replayed_from_earlier g _ _ _ _ _ Hl Hr).
Qed.

Lemma decide_Forwarded `{!CacheLaws S} g rw r w r' ctx rw' w' :
  decide_request trace_of rand url_text g rw r w = (Forwarded r' ctx rw', w') ->
  exists tenant c r1, granted g w r tenant c /\ ctx = WithTenantID None tenant /\
    (r1 = r \/ replayed_from g w r c r1) /\
    r' = set_headers r1 (forward_headers (rq_Header r1) c tenant).
Proof.
  unfold decide_request. unfold mbind, M_bind.
  destruct (handle _ _ _ g rw r w) as [[x|[[r2 ctx2] rw2]] w1] eqn:H; [by intros [= ]|].
  intros [= <- <- <- <-]. by apply handle_Continue in H.
Qed.

(** ** Replies *)

(** A 401 with a challenge for the guard's realm. *)
Definition challenge_reply g (rw : Response) : Prop :=
  rs_Status rw = Some StatusUnauthorized /\
  exists ch, ch_Realm ch = gd_realm g /\
    Header_Get (rs_Header rw) "WWW-Authenticate" = WWWAuthenticateHeader ch.

Lemma WriteChallenge_reply g ch rw :
  rs_Status rw = None -> ch_Realm ch = gd_realm g -> challenge_reply g (WriteChallenge ch rw).
Proof.
  intros Hs Hr. unfold challenge_reply, WriteChallenge, Write, WriteHeader, SetHeader.
  cbn [rs_Status rs_Header]. rewrite Hs. split; [done|]. exists ch. split; [done|].
  rewrite Header_Get_Set_other by done. apply Header_Get_Set_same.
Qed.

Lemma issueChallenge_reply g rw r code desc acr age w :
  rs_Status rw = None ->
  challenge_reply g (issueChallenge (S := S) (F := F) trace_of g rw r code desc acr age w).1.
Proof.
  intros Hs. unfold issueChallenge. unfold mbind, M_bind. destruct (on_audit _ w) as [u w1].
  by apply WriteChallenge_reply.
Qed.

Lemma reject_reply {A} g rw r code desc w (c : ctl Response A) w' :
  rs_Status rw = None -> reject (S := S) (F := F) trace_of g rw r code desc w = (c, w') ->
  exists rw', c = Return rw' /\ challenge_reply g rw'.
Proof.
  intros Hs. unfold reject. pose proof (issueChallenge_reply g rw r code desc EmptyString 0 w Hs) as Hi.
  unfold mbind, M_bind. destruct (issueChallenge _ _ _ _ _ _ _ _ w) as [rw1 w1].
  intros [= <- <-]. by exists rw1.
Qed.

Lemma SetStateCookie_status rw saved key : rs_Status (SetStateCookie rw saved key).2 = rs_Status rw.
Proof. unfold SetStateCookie. by destruct (Encode saved). Qed.

Lemma handleDenial_reply g rw r subject tenant result w :
  rs_Status rw = None ->
  challenge_reply g (handleDenial (S := S) (F := F) trace_of rand g rw r subject tenant result w).1.
Proof.
  intros Hs. unfold handleDenial. unfold mbind, M_bind. destruct (on_audit _ w) as [u w1].
  cbn. apply WriteChallenge_reply; [|done].
  destruct (negb _); [by rewrite SetStateCookie_status|done].
Qed.

(** Steps that can only refuse with a challenge. *)
Definition refuses {A} g (m : Response -> M (GState S K F) (ctl Response A)) : Prop :=
  forall rw w rw' w', rs_Status rw = None -> m rw w = (Return rw', w') -> challenge_reply g rw'.

Ltac by_reject Hs H := apply (reject_reply _ _ _ _ _ _ _ _ Hs) in H as (? & [= <-] & ?); assumption.

Lemma resolve_tenant_refuses g r : refuses g (fun rw => resolve_tenant trace_of g rw r).
Proof.
  intros rw w rw' w' Hs. unfold resolve_tenant. intros H.
  destruct (Resolve _ r); [destruct (Registry_Get _ _)|]; [discriminate H|by_reject Hs H..].
Qed.

Lemma extract_token_refuses g r : refuses g (fun rw => extract_token trace_of g rw r).
Proof.
  intros rw w rw' w' Hs. unfold extract_token. intros H.
  destruct (ExtractBearerToken _); [discriminate H|by_reject Hs H].
Qed.

Lemma check_proof_refuses g r tok : refuses g (fun rw => check_proof trace_of g rw r tok).
Proof.
  intros rw w rw' w' Hs. unfold check_proof. intros H. destruct (gd_dpop g) as [cfg|]; [|discriminate H].
  unfold mbind at 1, M_bind at 1 in H. destruct (dpop_Validate cfg r tok w) as [[q|e] w1]; [discriminate H|].
  destruct (gd_dpopNonce g) as [n|]; [destruct (errors_Is _ _)|]; try by_reject Hs H.
  unfold mbind, M_bind, Nonce_Current in H. cbn [Now mret M_ret mbind M_bind] in H.
  assert (Hs' : rs_Status (SetHeader "DPoP-Nonce" (Current_at n (w_now w1 (w_tick w1))) rw) = None) by done.
  by_reject Hs' H.
Qed.

Lemma get_claims_refuses g r prov tok : refuses g (fun rw => get_claims trace_of g rw r prov tok).
Proof.
  intros rw w rw' w' Hs. unfold get_claims. intros H. unfold mbind, M_bind in H.
  destruct (introspect prov tok w) as [[c|e] w1]; [destruct (negb _)|];
    [by_reject Hs H|discriminate H|by_reject Hs H].
Qed.

Lemma bind_issuer_refuses g r prov c : refuses g (fun rw => bind_issuer trace_of g rw r prov c).
Proof.
  intros rw w rw' w' Hs. unfold bind_issuer. intros H. destruct (_ && _); [by_reject Hs H|discriminate H].
Qed.

Lemma bind_key_refuses g r p c : refuses g (fun rw => bind_key trace_of g rw r p c).
Proof.
  intros rw w rw' w' Hs. unfold bind_key. intros H. destruct p as [q|]; [|discriminate H].
  destruct (VerifyDPoPBinding q c); [by_reject Hs H|discriminate H].
Qed.

Lemma check_fapi_refuses g r c : refuses g (fun rw => check_fapi trace_of g rw r c).
Proof.
  intros rw w rw' w' Hs. unfold check_fapi. intros H. destruct (gd_fapiCfg g) as [cfg|]; [|discriminate H].
  unfold mbind, M_bind in H. destruct (ValidateRequest c cfg w) as [[e|] w1]; [by_reject Hs H|discriminate H].
Qed.

Lemma check_policy_refuses g r c tenant : refuses g (fun rw => check_policy trace_of rand g rw r c tenant).
Proof.
  intros rw w rw' w' Hs. unfold check_policy. intros H.
  destruct (gd_policyEngine g) as [engine|]; [|discriminate H].
  unfold mbind at 1, M_bind at 1 in H. destruct (AuthAge_now c w) as [age w1].
  destruct (pr_Allowed _); cbn [negb] in H.
  - unfold mbind, M_bind in H. destruct (on_audit _ w1). discriminate H.
  - pose proof (handleDenial_reply g rw r (cl_Subject c) tenant
      (Evaluate engine (policy_request (rq_Method r) (rq_Path r) c age)) w1 Hs) as Hd.
    unfold mbind, M_bind in H. destruct (handleDenial _ _ _ _ _ _ _ _ w1). injection H as <- <-. exact Hd.
Qed.

Lemma refuses_bind {A B} g (m : Response -> M (GState S K F) (ctl Response A))
    (f : Response -> A -> M (GState S K F) (ctl Response B)) :
  refuses g m -> (forall a, refuses g (fun rw => f rw a)) -> refuses g (fun rw => ctl_bind (m rw) (f rw)).
Proof.
  intros Hm Hf rw w rw' w' Hs H. apply ctl_bind_Return in H as [H|(a & w1 & _ & H)].
  - exact (Hm rw w rw' w' Hs H).
  - exact (Hf a rw w1 rw' w' Hs H).
Qed.

Lemma refuses_continue {A} g (a : Response -> A) : refuses g (fun rw => mret (Continue (a rw))).
Proof. by intros rw w rw' w' _ [= ]. Qed.

Lemma completeStepUp_refuses g r saved c tenant :
  refuses g (fun rw => completeStepUp trace_of url_text g rw r saved c tenant).
Proof.
  assert (Hissue : forall rw code desc acr age w (r1 : ctl Response Request) w', rs_Status rw = None ->
    (w1 ← issueChallenge trace_of g (ClearStateCookie rw) r code desc acr age; mret (Return w1)) w = (r1, w') ->
    exists rw', r1 = Return rw' /\ challenge_reply g rw').
  { intros rw code desc acr age w r1 w' Hs H.
    pose proof (issueChallenge_reply g (ClearStateCookie rw) r code desc acr age w Hs) as Hi.
    unfold mbind, M_bind in H. destruct (issueChallenge _ _ _ _ _ _ _ _ w). injection H as <- <-. by eexists. }
  unfold completeStepUp. apply refuses_bind.
  - intros rw w rw' w' Hs H. destruct (gd_policyEngine g) as [engine|]; [|discriminate H].
    unfold mbind at 1, M_bind at 1 in H. destruct (AuthAge_now c w) as [age w1].
    destruct (negb _); [|discriminate H].
    unfold mbind at 1, M_bind at 1 in H. destruct (on_audit _ w1) as [u w2].
    pose proof (issueChallenge_reply g (ClearStateCookie rw) r ErrCodeInsufficientUserAuthentication
      ("step-up incomplete: " +:+ pr_Reason (Evaluate engine (policy_request (sr_Method saved) (sr_Path saved) c age)))
      (pr_RequiredACR (Evaluate engine (policy_request (sr_Method saved) (sr_Path saved) c age)))
      (pr_RequiredMaxAge (Evaluate engine (policy_request (sr_Method saved) (sr_Path saved) c age))) w2 Hs) as Hi.
    unfold mbind, M_bind in H. destruct (issueChallenge _ _ _ _ _ _ _ _ w2). injection H as <- <-. exact Hi.
  - intros a rw w rw' w' Hs H. unfold mbind at 1 2, M_bind at 1 2 in H. cbn [Now] in H.
    destruct (Complete _ _ _ _) as [err flow']. destruct (_ || _); [|discriminate H].
    apply Hissue in H as (rw1 & [= <-] & Hr); done.
Qed.

Lemma replay_refuses g r c tenant : refuses g (fun rw => replay trace_of url_text g rw r c tenant).
Proof.
  intros rw w rw' w' Hs. unfold replay. destruct (String.eqb _ _); [by intros [= ]|].
  unfold mbind at 1, M_bind at 1. cbn [Now]. set (w1 := World _ _ _). intros H.
  apply ctl_bind_Return in H as [H|(a & w2 & _ & H)]; [|discriminate H].
  destruct (ReadStateCookie _ r _) as [[saved|]|]; [|discriminate H..].
  destruct (_ && _); [|discriminate H]. exact (completeStepUp_refuses g r saved c tenant rw w1 rw' w' Hs H).
Qed.

(** The rate limit spoke. *)
Definition limited w (r : Request) (rw : Response) : Prop :=
  rs_Status rw = Some StatusTooManyRequests /\ Header_Get (rs_Header rw) "Retry-After" = "1" /\
  exists rl, gs_limiter (w_st w) = Some rl /\ (allow (now_of w) (clientKey r) rl).1 = false.

Lemma limit_rate_Return g rw r w rw' w' :
  rs_Status rw = None -> limit_rate (S := S) (K := K) rw r w = (Return rw', w') -> limited w r rw'.
Proof.
  intros Hs. unfold limit_rate. unfold mbind at 1, M_bind at 1. unfold zoom_opt.
  destruct (gs_limiter (w_st w)) as [rl|] eqn:Hl; [|by intros [= ]].
  unfold mbind, M_bind, Now, lift. cbn [w_now w_tick w_st].
  change (w_now w (w_tick w)) with (now_of w).
  destruct (allow (now_of w) (clientKey r) rl) as [[] rl'] eqn:Ha; cbn [negb]; [by intros [= ]|].
  intros [= <- _]. split; [|split].
  - cbn. by rewrite Hs.
  - unfold http_Error, SetHeader, Write, WriteHeader. cbn [rs_Header].
    unfold Header_Del. rewrite !Header_Get_Set_other by done.
    unfold Header_Get. rewrite lookup_delete_ne by done. unfold Header_Set. by rewrite lookup_insert_eq.
  - exists rl. split; [done|]. by rewrite Ha.
Qed.

Lemma handle_Return g rw r w rw' w' :
  rs_Status rw = None -> handle trace_of rand url_text g rw r w = (Return rw', w') ->
  limited w r rw' \/ challenge_reply g rw'.
Proof.
  intros Hs H. unfold handle, authorize in H.
  apply ctl_bind_Return in H as [H|([t c] & w1 & _ & H)].
  - apply ctl_bind_Return in H as [H|(x & w1 & _ & H)].
    { left. exact (limit_rate_Return g _ _ _ _ _ Hs H). }
    right. revert rw w1 rw' w' Hs H.
    apply refuses_bind; [apply resolve_tenant_refuses|]. intros [tenant prov].
    apply refuses_bind; [apply extract_token_refuses|]. intros tok.
    apply refuses_bind; [apply check_proof_refuses|]. intros proof.
    apply refuses_bind; [apply get_claims_refuses|]. intros claims.
    apply refuses_bind; [apply bind_issuer_refuses|]. intros _.
    apply refuses_bind; [apply bind_key_refuses|]. intros _.
    apply refuses_bind; [apply check_fapi_refuses|]. intros _.
    apply refuses_bind; [apply check_policy_refuses|]. intros _.
    apply (refuses_continue g (fun _ => (tenant, claims))).
  - right. revert rw w1 rw' w' Hs H.
    apply refuses_bind; [apply replay_refuses|]. intros [r1 rw1].
    apply (refuses_continue g (fun _ => _)).
Qed.

(** ** The decision at an instant

    When the clock stands still during the request, the guard's decision is
    that of [accepted_at]. *)

(** The claims of a token: the cached ones, else the provider's answer. *)
Definition token_claims w (t : Time) (prov : P) (tok : string) : res CommonClaims :=
  match gs_cache (w_st w) ≫= Cache_Get t (HashToken tok) with
  | Some c => Ok c
  | None => pv_Introspect prov tok
  end.

(** The jti of the proof is not remembered. *)
Definition jti_unseen w (t : Time) (p : DPoPProof) : Prop :=
  match gs_cache (w_st w) with
  | Some s => Cache_Get t (jti_key p) s = None
  | None => Cache_Get t (jti_key p) (gs_jti (w_st w)) = None
  end.

Definition good_proof g w (t : Time) (r : Request) (tok : string) (proof : option DPoPProof) : Prop :=
  match gd_dpop g, proof with
  | None, None => True
  | Some cfg, Some p => proof_ok r tok cfg t t t p /\ pf_JTI p <> EmptyString /\ jti_unseen w t p
  | _, _ => False
  end.

Record accepted_at g w (t : Time) (r : Request) (tenant : string) (prov : P) (tok : string)
    (proof : option DPoPProof) (c : CommonClaims) : Prop := {
  ac_rate : forall rl, gs_limiter (w_st w) = Some rl -> (allow t (clientKey r) rl).1 = true;
  ac_tenant : Resolve (gd_resolver g) r = Ok tenant;
  ac_provider : Registry_Get tenant (gd_registry g) = Ok prov;
  ac_token : ExtractBearerToken (Header_Get (rq_Header r) "Authorization") = Ok tok;
  ac_proof : good_proof g w t r tok proof;
  ac_claims : token_claims w t prov tok = Ok c;
  ac_active : cl_Active c = true;
  ac_issuer : pv_Issuer prov = EmptyString \/ cl_Issuer c = pv_Issuer prov;
  ac_key : forall p, proof = Some p -> VerifyDPoPBinding p c = None;
  ac_fapi : forall cfg, gd_fapiCfg g = Some cfg -> (ValidateRequest c cfg w).1 = None;
  ac_policy : forall engine, gd_policyEngine g = Some engine ->
    pr_Allowed (Evaluate engine (policy_request (rq_Method r) (rq_Path r) c (AuthAge t c))) = true
}.

Lemma limit_rate_run rw r w t :
  frozen w t -> (forall rl, gs_limiter (w_st w) = Some rl -> (allow t (clientKey r) rl).1 = true) ->
  exists w1, limit_rate (S := S) (K := K) rw r w = (Continue tt, w1) /\ later w w1 /\
    gs_cache (w_st w1) = gs_cache (w_st w) /\ gs_jti (w_st w1) = gs_jti (w_st w).
Proof.
  intros Hf Hok. unfold limit_rate, zoom_opt. unfold mbind, M_bind, Now, lift.
  destruct (gs_limiter (w_st w)) as [rl|] eqn:Hl; [|by exists w].
  specialize (Hok rl eq_refl). cbn [w_now w_tick w_st]. rewrite Hf.
  destruct (allow t (clientKey r) rl) as [ok rl']. cbn [fst] in Hok. subst ok.
  cbn [negb mret M_ret]. eexists. split; [reflexivity|]. split; [split; cbn; [done|lia]|done].
Qed.

(** Validation at an instant, over any cache. *)
Lemma Validate_run {S'} `{!Cache S'} cfg r tok (w0 : world S') t p :
  frozen w0 t ->
  (exists v, Validate cfg r tok w0 = (Ok p, v)) <->
  (proof_ok r tok cfg t t t p /\ pf_JTI p <> EmptyString /\ Cache_Get t (jti_key p) (w_st w0) = None).
Proof.
  intros Hf. assert (Hr : forall k, Dpop.reading w0 k = t) by (intros k; apply Hf).
  pose proof (Validate_cases cfg r tok w0) as Hc.
  destruct (Validate cfg r tok w0) as [v w1]. cbv zeta in Hc. rewrite !Hr in Hc.
  destruct Hc as [(q & Hok & Hj & Hseen & -> & _)|(Hno & (e & ->) & _)].
  - split; [by intros (? & [= <- _])|]. intros ([Hp _ _ _ _ _ _ _] & _).
    assert (q = p) as -> by (destruct Hok as [Hq _ _ _ _ _ _ _]; congruence). by eexists.
  - split; [by intros (? & [= ])|]. intros (Hok & Hj & Hs). exact (False_ind _ (Hno p Hok Hj Hs)).
Qed.

Lemma dpop_Validate_run cfg r tok w t p :
  frozen w t ->
  (exists w1, dpop_Validate (K := K) (F := F) cfg r tok w = (Ok p, w1)) <->
  (proof_ok r tok cfg t t t p /\ pf_JTI p <> EmptyString /\ jti_unseen w t p).
Proof.
  intros Hf. unfold dpop_Validate, jti_unseen, zoom_opt, zoom.
  destruct (gs_cache (w_st w)) as [s|].
  - pose proof (Validate_run cfg r tok (World (w_now w) (w_tick w) s) t p Hf) as Hv.
    cbn [w_st] in Hv. rewrite <- Hv.
    destruct (Validate cfg r tok _) as [v w1]. split; intros (w2 & [= -> _]); by eexists.
  - pose proof (Validate_run cfg r tok (World (w_now w) (w_tick w) (gs_jti (w_st w))) t p Hf) as Hv.
    cbn [w_st] in Hv. rewrite <- Hv.
    destruct (Validate cfg r tok _) as [v w1]. split; intros (w2 & [= -> _]); by eexists.
Qed.

Lemma check_proof_run `{!CacheLaws S} g rw r tok w t proof :
  frozen w t ->
  (exists w1, check_proof (K := K) (F := F) trace_of g rw r tok w = (Continue proof, w1)) <->
  good_proof g w t r tok proof.
Proof.
  intros Hf. unfold check_proof, good_proof. destruct (gd_dpop g) as [cfg|].
  2: { destruct proof; split; [by intros (? & [= ])|done|done|by eexists]. }
  unfold mbind at 1, M_bind at 1.
  destruct (dpop_Validate cfg r tok w) as [[q|e] w1] eqn:Hv.
  - destruct proof as [p|]; [|by split; [intros (? & [= ])|]].
    rewrite <- (dpop_Validate_run cfg r tok w t p Hf), Hv.
    split; intros (w2 & [= -> _]); by eexists.
  - split.
    + intros (w2 & H). exfalso. revert H.
      destruct (gd_dpopNonce g) as [n|]; [destruct (errors_Is _ _)|]; by intros []%reject_Return.
    + destruct proof as [p|]; [|done]. rewrite <- (dpop_Validate_run cfg r tok w t p Hf), Hv.
      by intros (w2 & [= ]).
Qed.

Lemma introspect_run prov tok w t :
  frozen w t -> exists w1, introspect (F := F) (K := K) prov tok w = (token_claims w t prov tok, w1).
Proof.
  intros Hf. unfold introspect, token_claims. unfold mbind at 1, M_bind at 1. unfold zoom_opt at 1.
  assert (Hrest : forall w0 : world (GState S K F), exists w1, (match pv_Introspect prov tok with
    | Err e => mret (Err e)
    | Ok claims => _ ← zoom_opt gs_cache set_cache tt (cache_claims (30 * Second) (HashToken tok) claims);
                   mret (Ok claims) end) w0 = (pv_Introspect prov tok, w1)).
  { intros w0. destruct (pv_Introspect prov tok) as [c|e]; [|by eexists].
    unfold mbind, M_bind. destruct (zoom_opt _ _ _ _ w0). by eexists. }
  destruct (gs_cache (w_st w)) as [s|]; cbn [mbind option_bind]; [|apply Hrest].
  unfold cache_Get. unfold mbind at 1, M_bind at 1. cbn [Now gets w_now w_tick w_st]. rewrite Hf.
  destruct (Cache_Get t (HashToken tok) s) as [c|]; [by eexists|apply Hrest].
Qed.

Lemma get_claims_run g rw r prov tok w t c :
  frozen w t ->
  (exists w1, get_claims (F := F) trace_of g rw r prov tok w = (Continue c, w1)) <->
  token_claims w t prov tok = Ok c /\ cl_Active c = true.
Proof.
  intros Hf. unfold get_claims. unfold mbind, M_bind.
  destruct (introspect_run prov tok w t Hf) as (w1 & ->).
  destruct (token_claims w t prov tok) as [c0|e].
  - destruct (cl_Active c0) eqn:Ha; cbn [negb].
    + split; [intros (w2 & [= -> _]); done|]. intros [[= ->] _]. by eexists.
    + split; [by intros (w2 & []%reject_Return)|]. intros [[= ->] ?]. congruence.
  - split; [by intros (w2 & []%reject_Return)|by intros [[= ] _]].
Qed.

Lemma check_policy_run g rw r c tenant w t :
  frozen w t ->
  (exists x w1, check_policy (S := S) (F := F) trace_of rand g rw r c tenant w = (Continue x, w1)) <->
  (forall engine, gd_policyEngine g = Some engine ->
    pr_Allowed (Evaluate engine (policy_request (rq_Method r) (rq_Path r) c (AuthAge t c))) = true).
Proof.
  intros Hf. unfold check_policy. destruct (gd_policyEngine g) as [engine|]; [|by split; [|eexists _, _]].
  unfold mbind at 1, M_bind at 1. destruct (AuthAge_now_run c w) as (w1 & -> & _ & _). unfold now_of. rewrite Hf.
  destruct (pr_Allowed _) eqn:Ha; cbn [negb].
  - unfold mbind, M_bind. destruct (on_audit _ w1) as [u w2].
    split; [by intros _ e [= <-]|by eexists _, _].
  - unfold mbind, M_bind. destruct (handleDenial _ _ _ _ _ _ _ _ w1).
    split; [by intros (? & ? & [= ])|]. intros H. specialize (H engine eq_refl). congruence.
Qed.

Lemma ValidateRequest_frozen c cfg w1 w2 t :
  frozen w1 t -> frozen w2 t -> (ValidateRequest c cfg w1).1 = (ValidateRequest c cfg w2).1.
Proof.
  intros H1 H2. unfold ValidateRequest. destruct (_ && _); [done|]. destruct (_ && _); [done|].
  destruct (String.eqb _ _); [done|]. cbn [tc_GetAuthAge common_token_claims].
  unfold AuthAge_now. destruct (IsZero (cl_AuthTime c)); [done|].
  unfold mbind, M_bind, Now. by rewrite H1, H2.
Qed.

Lemma check_fapi_run g rw r c w t :
  frozen w t ->
  (exists x w1, check_fapi (S := S) (F := F) trace_of g rw r c w = (Continue x, w1)) <->
  (forall cfg, gd_fapiCfg g = Some cfg -> (ValidateRequest c cfg w).1 = None).
Proof.
  intros Hf. unfold check_fapi. destruct (gd_fapiCfg g) as [cfg|]; [|by split; [|eexists _, _]].
  unfold mbind, M_bind. destruct (ValidateRequest c cfg w) as [[e|] w1] eqn:Hv.
  - split; [by intros (? & ? & []%reject_Return)|]. intros H. specialize (H cfg eq_refl). by rewrite Hv in H.
  - split; [|by eexists _, _]. intros _ cfg' [= <-]. by rewrite Hv.
Qed.

Lemma replay_no_cookie g rw r c tenant w :
  gd_cookieSecret g = EmptyString \/ request_Cookie r CookieName = None ->
  exists rw1 w1, replay (S := S) (F := F) trace_of url_text g rw r c tenant w = (Continue (r, rw1), w1).
Proof.
  intros Hc. unfold replay. destruct (String.eqb_spec (gd_cookieSecret g) EmptyString) as [|Hs]; [by eexists _, _|].
  destruct Hc as [Hc|Hc]; [done|]. unfold mbind at 1, M_bind at 1. cbn [Now].
  unfold ReadStateCookie. rewrite Hc. by eexists _, _.
Qed.

Lemma token_claims_same w w1 t prov tok :
  same_entry tok w w1 -> token_claims w1 t prov tok = token_claims w t prov tok.
Proof.
  unfold same_entry, token_claims. destruct (gs_cache (w_st w)), (gs_cache (w_st w1)); try done.
  intros H. cbn [mbind option_bind]. by rewrite H.
Qed.

Lemma good_proof_same g w w1 t r tok proof :
  gs_cache (w_st w1) = gs_cache (w_st w) -> gs_jti (w_st w1) = gs_jti (w_st w) ->
  good_proof g w1 t r tok proof <-> good_proof g w t r tok proof.
Proof.
  intros Hc Hj. unfold good_proof, jti_unseen. by rewrite Hc, Hj.
Qed.

Lemma authorize_accepted `{!CacheLaws S} g rw r w t tenant c :
  frozen w t ->
  (exists w1, authorize trace_of rand g rw r w = (Continue (tenant, c), w1)) ->
  exists prov tok proof, accepted_at g w t r tenant prov tok proof c.
Proof.
  intros Hf (w' & H). unfold authorize in H.
  apply ctl_bind_Continue in H as ([] & w1 & H0 & H).
  pose proof (limit_rate_Continue g _ _ _ _ _ H0) as (Hl1 & _ & Hrate).
  unfold now_of in Hrate. rewrite Hf in Hrate.
  destruct (limit_rate_run rw r w t Hf Hrate) as (w1' & Hrun & _ & Hc1 & Hj1).
  rewrite Hrun in H0. injection H0 as ->.
  apply ctl_bind_Continue in H as ([ten prov] & w2 & H0 & H).
  apply resolve_tenant_Continue in H0 as (-> & Hten & Hprov).
  apply ctl_bind_Continue in H as (tok & w2 & H0 & H).
  apply extract_token_Continue in H0 as (-> & Htok).
  apply ctl_bind_Continue in H as (proof & w2 & H0 & H).
  pose proof (frozen_later _ _ _ Hf Hl1) as Hf1.
  pose proof (check_proof_Continue g _ _ _ _ _ _ H0) as (Hl2 & _ & Hsame).
  pose proof (proj1 (check_proof_run g _ _ _ _ t proof Hf1) (ex_intro _ _ H0)) as Hproof.
  rewrite (good_proof_same g w w1 t r tok proof Hc1 Hj1) in Hproof.
  clear H0. apply ctl_bind_Continue in H as (c' & w3 & H0 & H).
  pose proof (frozen_later _ _ _ Hf1 Hl2) as Hf2.
  pose proof (get_claims_Continue g _ _ _ _ _ _ _ H0) as (Hl3 & _ & _).
  pose proof (proj1 (get_claims_run g _ _ _ _ _ t c' Hf2) (ex_intro _ _ H0)) as [Hcl Hact].
  assert (Hsame' : same_entry tok w w2) by (unfold same_entry in *; by rewrite Hc1 in Hsame).
  rewrite (token_claims_same _ _ t prov tok Hsame') in Hcl.
  clear H0. apply ctl_bind_Continue in H as (x1 & w4 & H0 & H).
  apply bind_issuer_Continue in H0 as (-> & Hiss).
  apply ctl_bind_Continue in H as (x2 & w4 & H0 & H).
  apply bind_key_Continue in H0 as (-> & Hkey).
  apply ctl_bind_Continue in H as (x3 & w4 & H0 & H).
  pose proof (frozen_later _ _ _ Hf2 Hl3) as Hf3.
  pose proof (check_fapi_Continue g _ _ _ _ _ _ H0) as (Hl4 & _ & Hfapi).
  clear H0. apply ctl_bind_Continue in H as (x4 & w5 & H0 & H).
  pose proof (frozen_later _ _ _ Hf3 Hl4) as Hf4.
  pose proof (proj1 (check_policy_run g _ _ _ _ _ t Hf4) (ex_intro _ _ (ex_intro _ _ H0))) as Hpol.
  injection H as <- <- <-. exists prov, tok, proof. split; try done.
  - destruct (decide (pv_Issuer prov = EmptyString)); auto.
  - intros cfg Hcfg. rewrite (ValidateRequest_frozen _ _ w w3 t Hf Hf3). auto.
Qed.

(** The guard without its policy; a request it accepts is one whose sender is
    known, whatever the policy says of it. *)
Definition without_policy (g : Guard P) : Guard P :=
  MkGuard (gd_registry g) (gd_resolver g) None (gd_realm g) (gd_sm g) (gd_dpop g) (gd_dpopNonce g)
    (gd_webhookSecret g) (gd_cookieSecret g) (gd_fapiCfg g).

(** [authorize] up to the policy. *)
Definition identify (g : Guard P) (rw : Response) (r : Request)
    : M (GState S K F) (ctl Response (string * CommonClaims)) :=
  _ ←! limit_rate rw r;
  '(tenantID, provider) ←! resolve_tenant trace_of g rw r;
  rawToken ←! extract_token trace_of g rw r;
  proof ←! check_proof trace_of g rw r rawToken;
  claims ←! get_claims trace_of g rw r provider rawToken;
  _ ←! bind_issuer trace_of g rw r provider claims;
  _ ←! bind_key trace_of g rw r proof claims;
  _ ←! check_fapi trace_of g rw r claims;
  mret (Continue (tenantID, claims)).

Lemma identify_authorize g rw r w tenant c w1 :
  identify g rw r w = (Continue (tenant, c), w1) ->
  authorize trace_of rand g rw r w =
  ctl_bind (check_policy trace_of rand g rw r c tenant) (fun _ => mret (Continue (tenant, c))) w1.
Proof.
  unfold identify, authorize. intros H.
  repeat (let x := fresh "x" in let v := fresh "w" in let E := fresh "E" in
    apply ctl_bind_Continue in H as (x & v & E & H); rewrite (ctl_bind_run _ _ _ _ _ E); clear E;
    try match type of x with (_ * _)%type => destruct x as [??]; cbv beta iota in H |- * end).
  by injection H as -> -> ->.
Qed.

Lemma accepted_identify `{!CacheLaws S} g rw r w t tenant prov tok proof c :
  frozen w t -> accepted_at (without_policy g) w t r tenant prov tok proof c ->
  exists w1, identify g rw r w = (Continue (tenant, c), w1) /\ later w w1.
Proof.
  intros Hf [Hrate Hten Hprov Htok Hproof Hcl Hact Hiss Hkey Hfapi _]. unfold identify.
  destruct (limit_rate_run rw r w t Hf Hrate) as (w1 & Hrun & Hl1 & Hc1 & Hj1).
  rewrite (ctl_bind_run _ _ _ _ _ Hrun). pose proof (frozen_later _ _ _ Hf Hl1) as Hf1.
  cbn [gd_registry gd_resolver without_policy] in Hten, Hprov.
  rewrite (ctl_bind_run _ _ w1 (tenant, prov) w1) by (unfold resolve_tenant; by rewrite Hten, Hprov).
  rewrite (ctl_bind_run _ _ w1 tok w1) by (unfold extract_token; by rewrite Htok).
  change (good_proof g w t r tok proof) in Hproof.
  rewrite <- (good_proof_same g w w1 t r tok proof Hc1 Hj1) in Hproof.
  destruct (proj2 (check_proof_run g rw r tok w1 t proof Hf1) Hproof) as (w2 & H2).
  rewrite (ctl_bind_run _ _ _ _ _ H2).
  pose proof (check_proof_Continue g _ _ _ _ _ _ H2) as (Hl2 & _ & Hsame).
  pose proof (frozen_later _ _ _ Hf1 Hl2) as Hf2.
  assert (Hsame' : same_entry tok w w2) by (unfold same_entry in *; by rewrite Hc1 in Hsame).
  rewrite <- (token_claims_same _ _ t prov tok Hsame') in Hcl.
  destruct (proj2 (get_claims_run g rw r prov tok w2 t c Hf2) (conj Hcl Hact)) as (w3 & H3).
  rewrite (ctl_bind_run _ _ _ _ _ H3).
  pose proof (get_claims_Continue g _ _ _ _ _ _ _ H3) as (Hl3 & _ & _).
  pose proof (frozen_later _ _ _ Hf2 Hl3) as Hf3.
  rewrite (ctl_bind_run _ _ w3 tt w3).
  2: { unfold bind_issuer. destruct Hiss as [-> | ->]; [done|]. by rewrite String.eqb_refl, andb_false_r. }
  rewrite (ctl_bind_run _ _ w3 tt w3).
  2: { unfold bind_key. destruct proof as [p|]; [|done]. by rewrite (Hkey p eq_refl). }
  assert (Hfapi3 : forall cfg, gd_fapiCfg g = Some cfg -> (ValidateRequest c cfg w3).1 = None).
  { intros cfg Hcfg. rewrite (ValidateRequest_frozen _ _ w3 w t Hf3 Hf). auto. }
  destruct (proj2 (check_fapi_run g rw r c w3 t Hf3) Hfapi3) as (x & w4 & H4).
  rewrite (ctl_bind_run _ _ _ _ _ H4).
  pose proof (check_fapi_Continue g _ _ _ _ _ _ H4) as (Hl4 & _ & _).
  eexists. split; [reflexivity|]. do 3 (etransitivity; [eassumption|]). done.
Qed.

Lemma accepted_without_policy g w t r tenant prov tok proof c :
  accepted_at g w t r tenant prov tok proof c -> accepted_at (without_policy g) w t r tenant prov tok proof c.
Proof. intros []. by split. Qed.

Lemma accepted_authorize `{!CacheLaws S} g rw r w t tenant prov tok proof c :
  frozen w t -> accepted_at g w t r tenant prov tok proof c ->
  exists w1, authorize trace_of rand g rw r w = (Continue (tenant, c), w1) /\ later w w1.
Proof.
  intros Hf Ha.
  destruct (accepted_identify g rw r w t _ _ _ _ _ Hf (accepted_without_policy _ _ _ _ _ _ _ _ _ Ha))
    as (w1 & H1 & Hl1).
  rewrite (identify_authorize _ _ _ _ _ _ _ H1). pose proof (frozen_later _ _ _ Hf Hl1) as Hf1.
  destruct (proj2 (check_policy_run g rw r c tenant w1 t Hf1) (ac_policy _ _ _ _ _ _ _ _ _ Ha)) as (x & w2 & H2).
  rewrite (ctl_bind_run _ _ _ _ _ H2).
  apply check_policy_Continue in H2 as [Hl2 _]. eexists. split; [reflexivity|]. by etransitivity.
Qed.

(** A webhook answered with 204 processed its event without an error. *)
Lemma webhook_processed secret r rw (w0 : world S) rw' (w1 : world S) :
  rs_Status rw = None -> RevocationHandler_ServeHTTP secret r rw w0 = (rw', w1) ->
  rs_Status rw' = Some StatusNoContent ->
  exists body ev, rq_Body r = Some body /\ decode_event (limit_body body) = Some ev /\
    process ev w0 = (None, w1).
Proof.
  intros Hs. unfold RevocationHandler_ServeHTTP.
  assert (Herr : forall msg code, rs_Status (http_Error msg code rw) = Some code)
    by (intros; unfold http_Error, Write, WriteHeader; cbn; by rewrite Hs).
  destruct (negb _); [intros [= <- _]; by rewrite Herr|].
  destruct (rq_Body r) as [body|]; [|intros [= <- _]; by rewrite Herr].
  destruct (_ && _); [intros [= <- _]; by rewrite Herr|].
  destruct (decode_event (limit_body body)) as [ev|] eqn:Hev; [|intros [= <- _]; by rewrite Herr].
  unfold mbind, M_bind. destruct (process ev w0) as [[e|] w2] eqn:Hp; intros [= <- <-].
  - by rewrite Herr.
  - intros _. by exists body, ev.
Qed.

Lemma RevocationHandler_cache g own r rw w s :
  gs_cache (w_st w) = Some s ->
  RevocationHandler (K := K) (F := F) g own r rw w =
  let '(rw', w1) := RevocationHandler_ServeHTTP (gd_webhookSecret g) r rw (World (w_now w) (w_tick w) s) in
  ((rw', own), World (w_now w1) (w_tick w1) (set_cache (w_st w1) (w_st w))).
Proof.
  intros Hs. unfold RevocationHandler, zoom_opt. rewrite Hs. unfold mbind, M_bind.
  by destruct (RevocationHandler_ServeHTTP _ _ _ _).
Qed.
End GuardProofs.

(** ** Theorems *)

Section GuardTheorems.
Context {U : Unicode} {L : LocalTime} {Sig : Signatures}.
Context {S P K F : Type} `{!Cache S} `{!CacheLaws S} `{!Provider P} `{!AuditSink K} `{!GoFloat F}.
Context (trace_of : Request -> string) (rand : nat -> string).
Context (url_text : Request -> string -> string -> string).
Implicit Types (w : world (GState S K F)) (g : Guard P).

(** C1: Nothing passes the guard unauthorised.  A forwarded request came
    within the rate limit; it resolved to a registered tenant and carried a
    bearer token (with DPoP enabled, also a valid proof by the key the token
    is bound to); the claims are those the tenant's provider answered for
    this very token, or cached ones; they are active, of the provider's
    issuer, and meet the FAPI profile when configured; the policy allows the
    received request and also the method and path that are forwarded; and
    the upstream is told the resolved tenant. *)
Theorem forwarded_is_authorized g rw r w r' ctx rw' w' :
  decide_request trace_of rand url_text g rw r w = (Forwarded r' ctx rw', w') ->
  exists tenant c, granted g w r tenant c /\ ctx = WithTenantID None tenant /\
    policy_allows g w (rq_Method r') (rq_Path r') c.
Proof using Type*.
  intros H. destruct (decide_Forwarded _ _ _ _ _ _ _ _ _ _ _ H) as (tenant & c & r1 & Hg & -> & Hr & ->). exists tenant, c.
  split; [done|]. split; [done|]. cbn [rq_Method rq_Path set_headers].
  destruct Hr as [->|(saved & i & j & _ & _ & _ & _ & _ & Hp & _ & -> & -> & _)]; [apply Hg|exact Hp].
Qed.

(** C5: A request is rewritten only into the one saved in an authentic
    step-up cookie.  When the forwarded method, path or query is not the
    received one, the request carried the guard's own signed cookie, at most
    ten minutes old; exactly the saved method, path and query are forwarded,
    with the received body and host; the flow had not timed out; and the
    policy allows the saved resource for the token now presented. *)
Theorem rewritten_is_saved_request g rw r w r' ctx rw' w' :
  decide_request trace_of rand url_text g rw r w = (Forwarded r' ctx rw', w') ->
  (rq_Method r', rq_Path r', rq_RawQuery r') <> (rq_Method r, rq_Path r, rq_RawQuery r) ->
  gd_cookieSecret g <> EmptyString /\
  exists saved tenant c i j, (w_tick w <= i <= j)%nat /\
    authentic_cookie (w_now w i) r (gd_cookieSecret g) saved /\
    rq_Method r' = sr_Method saved /\ rq_Path r' = sr_Path saved /\ rq_RawQuery r' = sr_Query saved /\
    rq_Host r' = rq_Host r /\ rq_Body r' = rq_Body r /\
    time_Since (w_now w j) (sr_SavedAt saved) <= sm_Timeout (gd_sm g) /\
    granted g w r tenant c /\ policy_allows g w (sr_Method saved) (sr_Path saved) c.
Proof using Type*.
  intros H Hne. destruct (decide_Forwarded _ _ _ _ _ _ _ _ _ _ _ H) as (tenant & c & r1 & Hg & -> & Hr & ->).
  destruct Hr as [->|(saved & i & j & Hs & Hij & Hc & _ & _ & Hp & Ht & Hm & Hpa & Hq & _ & Hh & _ & Hb)];
    [by destruct Hne|].
  split; [done|]. exists saved, tenant, c, i, j. apply ReadStateCookie_iff in Hc. done.
Qed.

(** C9: The upstream can trust the identity headers.  Of every forwarded
    request, under each header name: [X-Iam-Subject], [-Tenant], [-Acr] and
    [-Scopes] hold what was verified, any other name that reads [x-iam-] in
    lower case and [X-Tenant-ID] are absent whatever the client sent, and all
    other headers are passed on unchanged. *)
Theorem forwarded_headers_trusted g rw r w r' ctx rw' w' :
  canonical_names (rq_Header r) ->
  decide_request trace_of rand url_text g rw r w = (Forwarded r' ctx rw', w') ->
  exists tenant c, granted g w r tenant c /\ ctx = WithTenantID None tenant /\
    forall k, rq_Header r' !! k =
      match identity_header c tenant k with
      | Some v => Some v
      | None => if reserved k then None else rq_Header r !! k
      end.
Proof using Type*.
  intros Hcan H. destruct (decide_Forwarded _ _ _ _ _ _ _ _ _ _ _ H) as (tenant & c & r1 & Hg & -> & Hr & ->). exists tenant, c.
  split; [done|]. split; [done|]. intros k. cbn [rq_Header set_headers].
  assert (rq_Header r1 = rq_Header r) as ->.
  { destruct Hr as [->|(saved & i & j & _ & _ & _ & _ & _ & _ & _ & _ & _ & _ & _ & _ & Hh & _)]; done. }
  by apply forward_headers_lookup.
Qed.

(** C27: Every refusal is answered.  A request that is not forwarded is
    answered with 401 and a step-up challenge of the guard's realm in
    [WWW-Authenticate], or, exactly when the limiter refuses the client, with
    429 and [Retry-After]; no other answer exists. *)
Theorem refusal_is_challenge g r w rw' w' :
  decide_request trace_of rand url_text g empty_response r w = (Replied rw', w') ->
  (limited w r rw' \/ challenge_reply g rw') /\
  ((exists rl, gs_limiter (w_st w) = Some rl /\ (allow (now_of w) (clientKey r) rl).1 = false) ->
   limited w r rw').
Proof using Type*.
  unfold decide_request. unfold mbind, M_bind.
  destruct (handle _ _ _ g empty_response r w) as [[x|[[r2 ctx2] rw2]] w1] eqn:H; [|by intros [= ]].
  intros [= <- <-]. split; [exact (handle_Return trace_of rand url_text g empty_response r w _ _ eq_refl H)|].
  intros (rl & Hrl & Hno). unfold handle, authorize in H.
  assert (Hlim : exists rw1 w2, limit_rate (S := S) (K := K) (F := F) empty_response r w = (Return rw1, w2)).
  { unfold limit_rate, zoom_opt, mbind, M_bind, Now, lift. rewrite Hrl. cbn [w_now w_tick w_st].
    change (w_now w (w_tick w)) with (now_of w). destruct (allow _ _ rl) as [ok rl']. cbn [fst] in Hno.
    subst ok. cbn [negb mret M_ret]. by eexists _, _. }
  destruct Hlim as (rw1 & w2 & Hlim).
  unfold ctl_bind at 1 2, mbind, M_bind in H. rewrite Hlim in H. cbn [mret M_ret] in H. injection H as <- <-.
  exact (limit_rate_Return trace_of rand url_text g empty_response r w _ _ eq_refl Hlim).
Qed.

(** C2: The guard decides as specified.  For a request without a step-up
    cookie, under a clock that stands still while it is handled, forwarding
    happens if and only if the request is acceptable at that instant: within
    the rate limit, of a registered tenant, with a bearer token whose claims
    (cached, else the provider's) are active, of the right issuer and meet
    the FAPI profile, with a fresh and unreplayed DPoP proof by the token's
    key when DPoP is enabled, and allowed by the policy.  In particular every
    acceptable request is forwarded. *)
Theorem guard_decides g rw r w t :
  frozen w t -> gd_cookieSecret g = EmptyString \/ request_Cookie r CookieName = None ->
  (exists r' ctx rw', (decide_request trace_of rand url_text g rw r w).1 = Forwarded r' ctx rw') <->
  exists tenant prov tok proof c, accepted_at g w t r tenant prov tok proof c.
Proof using Type*.
  intros Hf Hc. unfold decide_request, handle. unfold mbind, M_bind. split.
  - intros (r' & ctx & rw' & H).
    destruct (ctl_bind _ _ w) as [[x|[[r2 ctx2] rw2]] w1] eqn:Hh; [discriminate H|].
    apply ctl_bind_Continue in Hh as ([tenant c] & w2 & Ha & _). exists tenant.
    destruct (authorize_accepted trace_of rand url_text g rw r w t tenant c Hf (ex_intro _ _ Ha))
      as (prov & tok & proof & H'). by exists prov, tok, proof, c.
  - intros (tenant & prov & tok & proof & c & H).
    destruct (accepted_authorize trace_of rand url_text g rw r w t tenant prov tok proof c Hf H) as (w1 & Ha & _).
    rewrite (ctl_bind_run _ _ _ _ _ Ha).
    destruct (replay_no_cookie trace_of rand url_text g rw r c tenant w1 Hc) as (rw1 & w2 & Hr).
    rewrite (ctl_bind_run _ _ _ _ _ Hr). by eexists _, _, _.
Qed.

(** C13: A revocation takes effect on the next request.  Once the guard's
    webhook has answered 204 to an event that concerns a token (by its hash,
    its jti, its session or its subject, as the index stands), a request with
    that token is forwarded only if the tenant's provider, asked again,
    declares it active: nothing cached before can let it pass. *)
Theorem revocation_is_effective g own hook rw w s rw1 own1 w1 body ev keys tok r rw2 w2 r' ctx rw' w' :
  gs_cache (w_st w) = Some s -> healthy s -> rs_Status rw = None ->
  RevocationHandler (K := K) (F := F) g own hook rw w = ((rw1, own1), w1) ->
  rs_Status rw1 = Some StatusNoContent ->
  rq_Body hook = Some body -> decode_event (limit_body body) = Some ev ->
  evicted ev (now_of w) s = Some keys -> HashToken tok ∈ keys ->
  w_st w2 = w_st w1 ->
  ExtractBearerToken (Header_Get (rq_Header r) "Authorization") = Ok tok ->
  decide_request trace_of rand url_text g rw2 r w2 = (Forwarded r' ctx rw', w') ->
  exists tenant prov c, ctx = WithTenantID None tenant /\
    Registry_Get tenant (gd_registry g) = Ok prov /\
    pv_Introspect prov tok = Ok c /\ cl_Active c = true.
Proof using Type*.
  intros Hs Hh Hst Hhook H204 Hbody Hev Hkeys Hin Hw2 Htok Hd.
  rewrite (RevocationHandler_cache trace_of rand url_text g own hook rw w s Hs) in Hhook.
  destruct (RevocationHandler_ServeHTTP _ hook rw _) as [rwx wx] eqn:Hserve.
  injection Hhook as -> _ <-.
  destruct (webhook_processed trace_of rand url_text _ _ _ _ _ _ Hst Hserve H204)
    as (body' & ev' & Hb & He & Hp).
  rewrite Hbody in Hb. injection Hb as <-. rewrite Hev in He. injection He as <-.
  pose proof (process_removed ev (World (w_now w) (w_tick w) s) Hh) as Hr.
  change (now_of (World (w_now w) (w_tick w) s)) with (now_of w) in Hr. cbn [w_st] in Hr.
  rewrite Hkeys, Hp in Hr. destruct Hr as [_ (_ & _ & Hget)]. cbn [snd] in Hget.
  destruct (decide_Forwarded _ _ _ _ _ _ _ _ _ _ _ Hd) as (tenant & c & r1 & [_ _ Htk Hact _ _] & -> & _ & _).
  destruct Htk as (prov & tok' & proof & Hprov & Htok' & _ & Hfrom & _).
  rewrite Htok in Htok'. injection Htok' as <-.
  exists tenant, prov, c. split; [done|]. split; [done|].
  destruct Hfrom as [Hi|(s2 & i & Hs2 & _ & Hc)]; [done|]. exfalso.
  rewrite Hw2 in Hs2. cbn [w_st set_cache gs_cache] in Hs2. injection Hs2 as <-.
  by rewrite Hget, decide_True in Hc.
Qed.
End GuardTheorems.

(** ** Concrete requests *)

(** A provider given by its issuer and its answers. *)
Record FixedProvider := MkFixed { fp_issuer : string; fp_answer : string -> res CommonClaims }.
#[export] Instance fixed_provider : Provider FixedProvider := {|
  pv_Introspect := fp_answer;
  pv_JWKS _ := Ok EmptyString;
  pv_RefreshConfig p := (None, p);
  pv_Name _ := "fixed";
  pv_Issuer := fp_issuer
|}.

Section Demo.
#[local] Existing Instance unicode_min.
#[local] Existing Instance accept_all.
#[local] Instance demo_sinks : AuditSink Sink := package_sinks (fun _ _ => None).

Definition demo_thumb : string :=
  match JWKThumbprint demo_jwk with Ok t => t | Err _ => EmptyString end.

(** Alice, strongly authenticated at second 900, with a token bound to the
    key of the demonstration proof. *)
Definition demo_claims : CommonClaims :=
  MkClaims "alice" "https://as" [] "j-tok" time_zero time_zero (Some (MkConfirmation demo_thumb))
    "urn:acr:2" ["pwd"; "otp"] "s-1" (900 * Second) EmptyString EmptyString [] ["pay"] EmptyString []
    None true.

Definition demo_guard_policy : Policy :=
  MkPolicy "pay" ["/api/pay"; "/callback"] ["POST"] "urn:acr:2" 300 true ["pay"] [] true.

Definition demo_guard_config (dpop : bool) : GuardConfig MemoryCache FixedProvider Sink Q :=
  MkGuardConfig
    (Register "acme" (MkFixed "https://as" (fun t => if String.eqb t "tok" then Ok demo_claims else Ok empty_claims))
       NewRegistry)
    (NewHeaderResolver EmptyString)
    (Some (New (Some (MkConfig "1" "bank" [demo_guard_policy] ["urn:acr:1"; "urn:acr:2"]))))
    "bank" (Some (NewAuditLogger (SlogSink []))) (Some []) (Some Memory.NewMemoryCache)
    dpop EmptyString "hook" "cookie-key" None 0%Q 0.

Definition demo_guard (dpop : bool) := (NewGuard (demo_guard_config dpop)).1.
Definition demo_world (dpop : bool) : world (GState MemoryCache Sink Q) :=
  World (fun n => (1010 + Z.of_nat n) * Second) 0 (NewGuard (demo_guard_config dpop)).2.

Definition demo_decide (dpop : bool) :=
  decide_request (K := Sink) (F := Q) (fun _ => "trace-1") (fun _ => "0123456789abcdef")
    (fun _ p q => p) (demo_guard dpop) empty_response.

Definition demo_headers (token : string) : Header :=
  Header_Set (Header_Set (Header_Set ∅ "Authorization" ("Bearer " +:+ token)) "X-Tenant-ID" "acme")
    "X-Iam-Subject" "root".

Definition with_headers (path : string) (h : Header) (cookies : list (string * string)) : Request :=
  MkRequest "POST" path EmptyString path path "bank.example" true "10.0.0.1:999" h cookies (Some EmptyString).

Definition demo_pay : Request :=
  with_headers "/api/pay" (Header_Set (demo_headers "tok") "DPoP" (demo_jwt 1000 "tok")) [].

Definition is_forwarded (o : outcome) : bool := match o with Forwarded _ _ _ => true | Replied _ => false end.

Example forwarded_is_authorized_witness :
  exists r' ctx rw' w', demo_decide true demo_pay (demo_world true) = (Forwarded r' ctx rw', w') /\
    exists tenant c, ctx = Some tenant /\
      policy_allows (demo_guard true) (demo_world true) (rq_Method r') (rq_Path r') c.
Proof.
  assert (Hc : is_forwarded (demo_decide true demo_pay (demo_world true)).1 = true) by (vm_compute; reflexivity).
  destruct (demo_decide true demo_pay (demo_world true)) as [[rw'|r' ctx rw'] w'] eqn:E; [discriminate Hc|].
  exists r', ctx, rw', w'. split; [reflexivity|].
  destruct (forwarded_is_authorized _ _ _ _ _ _ _ _ _ _ _ E) as (tenant & c & _ & -> & Hp).
  exists tenant, c. split; [reflexivity|exact Hp].
Defined.

Definition demo_saved_request : SavedRequest :=
  MkSaved "POST" "/api/pay" "id=7" "s" (1000 * Second) "urn:acr:2" 300.
Definition demo_cookie : string :=
  match rs_Cookies (SetStateCookie empty_response demo_saved_request "cookie-key").2 with
  | [c] => ck_Value c
  | _ => EmptyString
  end.

(** Back at the landing page with the cookie. *)
Definition demo_callback : Request :=
  with_headers "/callback" (demo_headers "tok") [(CookieName, demo_cookie)].

Definition forwarded_path (o : outcome) : string :=
  match o with Forwarded r _ _ => rq_Path r | Replied _ => EmptyString end.

Example rewritten_is_saved_request_witness :
  exists r' ctx rw' w', demo_decide false demo_callback (demo_world false) = (Forwarded r' ctx rw', w') /\
    rq_Path r' = "/api/pay" /\
    exists saved, sr_Path saved = "/api/pay" /\
      exists i, authentic_cookie (w_now (demo_world false) i) demo_callback "cookie-key" saved.
Proof.
  assert (Hc : forwarded_path (demo_decide false demo_callback (demo_world false)).1 = "/api/pay")
    by (vm_compute; reflexivity).
  destruct (demo_decide false demo_callback (demo_world false)) as [[rw'|r' ctx rw'] w'] eqn:E; [discriminate Hc|].
  cbn [fst forwarded_path] in Hc.
  exists r', ctx, rw', w'. split; [reflexivity|]. split; [exact Hc|].
  destruct (rewritten_is_saved_request _ _ _ _ _ _ _ _ _ _ _ E)
    as (_ & saved & _ & _ & i & _ & _ & Ha & _ & Hp & _).
  { rewrite Hc. discriminate. }
  exists saved. rewrite Hc in Hp. split; [symmetry; exact Hp|]. exists i. exact Ha.
Defined.

Lemma canonical_names_Forall (h : Header) :
  map_Forall (fun k _ => CanonicalHeaderKey k = k) h -> canonical_names h.
Proof. intros H k [v Hv]. exact (H k v Hv). Qed.

Example forwarded_headers_trusted_witness :
  exists r' ctx rw' w', demo_decide false (with_headers "/api/pay" (demo_headers "tok") []) (demo_world false)
      = (Forwarded r' ctx rw', w') /\ rq_Header r' !! "X-Tenant-Id" = None.
Proof.
  set (r := with_headers "/api/pay" (demo_headers "tok") []).
  assert (Hc : is_forwarded (demo_decide false r (demo_world false)).1 = true) by (vm_compute; reflexivity).
  destruct (demo_decide false r (demo_world false)) as [[rw'|r' ctx rw'] w'] eqn:E; [discriminate Hc|].
  exists r', ctx, rw', w'. split; [reflexivity|].
  destruct (forwarded_headers_trusted _ _ _ _ _ _ _ _ _ _ _
    (canonical_names_Forall (rq_Header r) ltac:(apply (bool_decide_eq_true_1 _); vm_compute; reflexivity)) E)
    as (tenant & c & _ & _ & Hk).
  rewrite (Hk "X-Tenant-Id"). vm_compute. reflexivity.
Defined.

Example refusal_is_challenge_witness :
  exists rw' w', demo_decide false (with_headers "/api/pay" (demo_headers "stolen") []) (demo_world false)
      = (Replied rw', w') /\ rs_Status rw' = Some 401.
Proof.
  set (r := with_headers "/api/pay" (demo_headers "stolen") []).
  assert (Hc : is_forwarded (demo_decide false r (demo_world false)).1 = false) by (vm_compute; reflexivity).
  destruct (demo_decide false r (demo_world false)) as [[rw'|r' ctx rw'] w'] eqn:E; [|discriminate Hc].
  exists rw', w'. split; [reflexivity|].
  destruct (refusal_is_challenge _ _ _ _ _ _ _ _ E) as [[(_ & _ & rl & Hrl & _)|[Hs _]] _]; [|exact Hs].
  vm_compute in Hrl. discriminate Hrl.
Defined.

(** The same state under a clock that shows second 1010. *)
Definition still_world (dpop : bool) : world (GState MemoryCache Sink Q) :=
  World (fun _ => 1010 * Second) 0 (NewGuard (demo_guard_config dpop)).2.

Example guard_decides_witness :
  exists tenant prov tok proof c,
    accepted_at (demo_guard true) (still_world true) (1010 * Second) demo_pay tenant prov tok proof c.
Proof.
  apply (guard_decides (K := Sink) (F := Q) (fun _ => "trace-1") (fun _ => "0123456789abcdef") (fun _ p _ => p)
    (demo_guard true) empty_response).
  - intros i. reflexivity.
  - right. reflexivity.
  - assert (Hc : is_forwarded (demo_decide true demo_pay (still_world true)).1 = true) by (vm_compute; reflexivity).
    unfold demo_decide in Hc. destruct (decide_request _ _ _ _ _ _ _).1 as [rw'|r' ctx rw']; [discriminate Hc|].
    exists r', ctx, rw'. reflexivity.
Defined.

(** Alice's session ends between two requests. *)
Definition demo_hook : Request :=
  let body := json_object [("token_hash", json_quote (HashToken "tok"))] in
  MkRequest "POST" "/webhook/revoke" EmptyString "/webhook/revoke" "/webhook/revoke" "bank.example" true
    "10.0.0.9:1" (Header_Set ∅ "X-Hub-Signature-256" ("sha256=" +:+ hex_encode (hmac_sha256 "hook" body)))
    [] (Some body).

Example revocation_is_effective_witness :
  let r := with_headers "/api/pay" (demo_headers "tok") [] in
  let w := (demo_decide false r (demo_world false)).2 in
  let '((rw1, own1), w1) := RevocationHandler (K := Sink) (F := Q) (demo_guard false) Memory.NewMemoryCache demo_hook empty_response w in
  rs_Status rw1 = Some 204 /\
  exists prov c, Registry_Get "acme" (gd_registry (demo_guard false)) = Ok prov /\
    pv_Introspect prov "tok" = Ok c /\ cl_Active c = true.
Proof.
  intros r w.
  destruct (gs_cache (w_st w)) as [s|] eqn:Hs; [|vm_compute in Hs; discriminate Hs].
  assert (H204 : rs_Status (RevocationHandler (K := Sink) (F := Q) (demo_guard false) Memory.NewMemoryCache demo_hook
            empty_response w).1.1 = Some 204) by (vm_compute; reflexivity).
  assert (Hfw : is_forwarded (demo_decide false r (RevocationHandler (K := Sink) (F := Q) (demo_guard false)
            Memory.NewMemoryCache demo_hook empty_response w).2).1 = true) by (vm_compute; reflexivity).
  destruct (RevocationHandler _ _ _ _ _) as [[rw1 own1] w1] eqn:Hhook. cbn [fst snd] in H204, Hfw.
  split; [exact H204|].
  destruct (demo_decide false r w1) as [[rw'|r' ctx rw'] w'] eqn:E; [discriminate Hfw|].
  assert (Hh : healthy s) by exact I.
  destruct (revocation_is_effective (fun _ => "trace-1") (fun _ => "0123456789abcdef") (fun _ p _ => p)
    (demo_guard false) Memory.NewMemoryCache demo_hook empty_response w s rw1 own1 w1
    (json_object [("token_hash", json_quote (HashToken "tok"))])
    (MkEvent (HashToken "tok") EmptyString EmptyString EmptyString false) [HashToken "tok"] "tok"
    r empty_response w1 r' ctx rw' w' Hs Hh eq_refl Hhook H204 eq_refl) as (tenant & prov & c & _ & Hp & Hi & Ha).
  - vm_compute. reflexivity.
  - vm_compute. reflexivity.
  - left.
  - reflexivity.
  - vm_compute. reflexivity.
  - exact E.
  - exists prov, c. split; [|split; [exact Hi|exact Ha]].
    destruct (decide (tenant = "acme")) as [<-|Hne]; [exact Hp|]. exfalso.
    unfold demo_guard, demo_guard_config, NewGuard, Registry_Get, Register in Hp. cbn in Hp.
    rewrite lookup_insert_ne in Hp by (intros Heq; exact (Hne (eq_sym Heq))). discriminate Hp.
Defined.
End Demo.
