(* ===== verification/ConcurrentGuard.v ===== *)
(** * Requests in parallel: the whole guard under interleaving

    [net/http] runs [Guard.ServeHTTP] on a goroutine per request, beside
    webhook deliveries, reloads of the policy, registrations of tenants and
    the cleanups.  Here the guard is a program of atomic operations: those that hold
    a lock (the caches, the limiter, the registry, the audit log), the calls
    of the provider, and the reads of the policy engine's [config] pointer,
    which holds none.  Run alone the program is [Guard.decide_request]; in a
    pool of goroutines, what it forwards is authorised by what the providers
    and the operator said. *)

From Stdlib Require Import QArith.
From S2P Require Import Prelude GoString GoTime Encoding Crypto Json TextLemmas TimeText Http Rar Matcher Policy PolicyReload StepUp Claims Effects AuditLog Cache Revocation Dpop Concurrent Fapi Providers Tenant RateLimit Guard.
Open Scope Z_scope.

(** ** Atomic operations *)

(** The guard's cache, or the one its DPoP validator made for itself. *)
Inductive loc := Shared | Own.

(** The operations, with the type of their answers.  The FAPI checks, the age
    and the nonce read the clock at most once, and nothing else; a [P] is a
    pointer to a provider. *)
Inductive op (P : Type) : Type -> Type :=
| Clock : op P Time
| HasLimiter : op P bool
| Limit (now : Time) (key : string) : op P bool
| Age (c : CommonClaims) : op P Duration
| NonceNow (n : NonceProvider) : op P string
| FapiCheck (c : CommonClaims) (cfg : ValidationConfig) : op P (option ProfileError)
| Log (trace : string) (ev : AuditEvent) : op P unit
| Decision (trace sub tenantID resource method policyName reason : string) (allowed : bool) : op P unit
| Count (name : string) (labels : list string) : op P unit
| Draw : op P string
| HasCache : op P bool
| Get (l : loc) (key : string) : op P (option CommonClaims)
| Put (l : loc) (key : string) (c : CommonClaims) (ttl : Duration) : op P (option error)
| Drop (l : loc) (key : string) : op P (option error)
| Lookup (tenantID : string) : op P (res P)
| AskProvider (p : P) (tok : string) : op P (res CommonClaims)
| IssuerOf (p : P) : op P string
| ReadEngine : op P Engine.
Arguments Clock {P}.
Arguments HasLimiter {P}.
Arguments Limit {P} _ _.
Arguments Age {P} _.
Arguments NonceNow {P} _.
Arguments FapiCheck {P} _ _.
Arguments Log {P} _ _.
Arguments Decision {P} _ _ _ _ _ _ _ _.
Arguments Count {P} _ _.
Arguments Draw {P}.
Arguments HasCache {P}.
Arguments Get {P} _ _.
Arguments Put {P} _ _ _ _.
Arguments Drop {P} _ _.
Arguments Lookup {P} _.
Arguments AskProvider {P} _ _.
Arguments IssuerOf {P} _.
Arguments ReadEngine {P}.

(** Programs; a panic ends the goroutine. *)
Inductive gprog (P A : Type) : Type :=
| GRet (a : A)
| GPanic
| Op {X : Type} (o : op P X) (k : X -> gprog P A).
Arguments GRet {P A} _.
Arguments GPanic {P A}.
Arguments Op {P A X} _ _.

Fixpoint gprog_bind {P A B} (f : A -> gprog P B) (p : gprog P A) : gprog P B :=
  match p with GRet a => f a | GPanic => GPanic | Op o k => Op o (fun x => gprog_bind f (k x)) end.
#[export] Instance gprog_ret P : MRet (gprog P) := fun A => GRet.
#[export] Instance gprog_mbind P : MBind (gprog P) := fun A B f p => gprog_bind f p.

Definition perform {P X} (o : op P X) : gprog P X := Op o GRet.

(** Steps that may answer and return, as in [Guard]. *)
Definition g_bind {P R A B} (p : gprog P (ctl R A)) (f : A -> gprog P (ctl R B)) : gprog P (ctl R B) :=
  c ← p; match c with Return r => mret (Return r) | Continue a => f a end.
Notation "x '←?' p ';' k" := (g_bind p (fun x => k))
  (at level 20, p at level 100, k at level 200, only parsing) : go_scope.
Notation "' x '←?' p ';' k" := (g_bind p (fun x => k))
  (at level 20, x pattern, p at level 100, k at level 200, only parsing) : go_scope.

(** The routines of [Concurrent] on one of the caches, [ask] being the call of
    the introspector they wrap. *)
Fixpoint embed {P A} (l : loc) (ask : string -> gprog P (res CommonClaims)) (p : prog A) : gprog P A :=
  match p with
  | Ret a => GRet a
  | ReadClock k => Op Clock (fun t => embed l ask (k t))
  | CacheGet key k => Op (Get l key) (fun r => embed l ask (k r))
  | CacheSet key c ttl k => Op (Put l key c ttl) (fun e => embed l ask (k e))
  | CacheDelete key k => Op (Drop l key) (fun e => embed l ask (k e))
  | Ask tok k => r ← ask tok; embed l ask (k r)
  end.
(** For the routines that wrap no introspector: they never ask. *)
Definition nobody : error := errorf "no introspector".
Definition no_ask {P} : string -> gprog P (res CommonClaims) := fun _ => GRet (Err nobody).

(** The reads of [Evaluate]. *)
Fixpoint embed_reader {P A} (r : reader A) : gprog P A :=
  match r with
  | Done a => GRet a
  | Panicked => GPanic
  | ReadConfig k => Op ReadEngine (fun e => embed_reader (k e))
  end.

(** ** The guard as a program *)

Section Programs.
Context {U : Unicode} {L : LocalTime} {Sig : Signatures} {P : Type}.
Context (trace_of : Request -> string) (url_text : Request -> string -> string -> string).
Variable g : Guard P.
Abbreviation gstep A := (gprog P (ctl Response A)) (only parsing).

Definition g_issueChallenge (w : Response) (r : Request) (errCode desc acrValues : string) (maxAge : Z)
    : gprog P Response :=
  let ch := MkChallenge acrValues maxAge errCode desc (gd_realm g) in
  _ ← perform (Log (trace_of r)
        (MkAudit EmptyString AuditTokenRejected time_zero EmptyString EmptyString EmptyString
           (rq_Path r) (rq_Method r) EmptyString EmptyString [] EmptyString EmptyString EmptyString
           desc false));
  mret (WriteChallenge ch w).

Definition g_reject {A} (w : Response) (r : Request) (errCode desc : string) : gstep A :=
  w' ← g_issueChallenge w r errCode desc EmptyString 0; mret (Return w').

Definition g_handleDenial (w : Response) (r : Request) (subject tenantID : string) (result : PolicyResult)
    : gprog P Response :=
  let policyName := match pr_MatchedPolicy result with Some p => p_Name p | None => EmptyString end in
  _ ← perform (Decision (trace_of r) subject tenantID (rq_Path r) (rq_Method r) policyName (pr_Reason result) false);
  _ ← perform (Count "iam_policy_denied_total" [tenantID; policyName; pr_Reason result]);
  _ ← perform (Count "iam_stepup_challenges_total" [tenantID; pr_RequiredACR result; rq_Method r]);
  let stepErr := NewInsufficientACRError (pr_RequiredACR result) (pr_RequiredMaxAge result) in
  let challenge := NewStepUpChallenge stepErr (gd_realm g) in
  id ← perform Draw;
  now1 ← perform Clock;
  now2 ← perform Clock;
  let flow := BeginChallenge id now1 now2 r challenge in
  let w := match fs_SavedRequest flow with
           | Some saved => if negb (String.eqb (gd_cookieSecret g) EmptyString)
                           then snd (SetStateCookie w saved (gd_cookieSecret g)) else w
           | None => w
           end in
  mret (WriteChallenge challenge w).

(** [g.policyEngine.Evaluate(req)], reading the engine as it goes. *)
Definition g_Evaluate (req : PolicyRequest) : gprog P PolicyResult := embed_reader (r_Evaluate req).

Definition g_completeStepUp (w : Response) (r : Request) (saved : SavedRequest) (claims : CommonClaims)
    (tenantID : string) : gstep Request :=
  let flow := MkFlow StateChallenge None (Some saved) (sr_SavedAt saved) time_zero in
  _ ←? (match gd_policyEngine g with
        | None => mret (Continue tt)
        | Some _ =>
            age ← perform (Age claims);
            result ← g_Evaluate (policy_request (sr_Method saved) (sr_Path saved) claims age);
            if negb (pr_Allowed result) then
              _ ← perform (Decision (trace_of r) (cl_Subject claims) tenantID
                             (sr_Path saved) (sr_Method saved) EmptyString (pr_Reason result) false);
              w' ← g_issueChallenge (ClearStateCookie w) r ErrCodeInsufficientUserAuthentication
                     ("step-up incomplete: " +:+ pr_Reason result)
                     (pr_RequiredACR result) (pr_RequiredMaxAge result);
              mret (Return w')
            else mret (Continue tt)
        end);
  now1 ← perform Clock;
  now2 ← perform Clock;
  let '(err, flow') := Complete (gd_sm g) now1 now2 flow in
  if negb (bool_decide (err = None)) || negb (bool_decide (fs_State flow' = StateCompleted)) then
    w' ← g_issueChallenge (ClearStateCookie w) r ErrCodeInvalidToken "step-up flow expired"
           (sr_ACRHint saved) (sr_MaxAge saved);
    mret (Return w')
  else
    mret (Continue
      (MkRequest (sr_Method saved) (sr_Path saved) (sr_Query saved)
         (url_text r (sr_Path saved) (sr_Query saved))
         (sr_Path saved +:+ (if String.eqb (sr_Query saved) EmptyString then EmptyString
                             else "?" +:+ sr_Query saved))
         (rq_Host r) (rq_TLS r) (rq_RemoteAddr r) (rq_Header r) (rq_Cookies r) (rq_Body r))).

Definition g_introspect (provider : P) (rawToken : string) : gprog P (res CommonClaims) :=
  has ← perform HasCache;
  if (has : bool) then embed Shared (fun tok => perform (AskProvider provider tok)) (p_introspect (30 * Second) rawToken)
  else perform (AskProvider provider rawToken).

(** [g.limiter == nil || g.limiter.allow(clientKey(r))]: the clock is read
    before the limiter is locked. *)
Definition g_allow (key : string) : gprog P bool :=
  has ← perform HasLimiter;
  if (has : bool) then now ← perform Clock; perform (Limit now key) else mret true.

Definition g_limit_rate (w : Response) (r : Request) : gstep unit :=
  ok ← g_allow (clientKey r);
  if negb ok
  then mret (Return (http_Error "rate limit exceeded" StatusTooManyRequests
                       (SetHeader "Retry-After" "1" w)))
  else mret (Continue tt).

Definition g_resolve_tenant (w : Response) (r : Request) : gstep (string * P) :=
  match Resolve (gd_resolver g) r with
  | Err _ => g_reject w r ErrCodeInvalidToken "tenant resolution failed"
  | Ok tenantID =>
      found ← perform (Lookup tenantID);
      match found with
      | Err _ => g_reject w r ErrCodeInvalidToken "unknown tenant"
      | Ok provider => mret (Continue (tenantID, provider))
      end
  end.

Definition g_extract_token (w : Response) (r : Request) : gstep string :=
  match ExtractBearerToken (Header_Get (rq_Header r) "Authorization") with
  | Err _ => g_reject w r ErrCodeInvalidToken "missing or invalid bearer token"
  | Ok rawToken => mret (Continue rawToken)
  end.

Definition g_Nonce_Valid (n : NonceProvider) (nonce : string) : gprog P bool :=
  if String.eqb nonce EmptyString then mret false else now ← perform Clock; mret (Valid_at n now nonce).

(** [ValidateDPoP], which shares nothing but the clock. *)
Definition g_ValidateDPoP (r : Request) (accessToken : string) (cfg : DPoPConfig) : gprog P (res DPoPProof) :=
  let dpopHeader := Header_Get (rq_Header r) "DPoP" in
  if String.eqb dpopHeader EmptyString then mret (Err (errorf "missing DPoP proof header")) else
  match parseDPoPJWT dpopHeader with
  | Err e => mret (Err (errorw "parsing DPoP proof" e))
  | Ok proof =>
  match verifyDPoPSignature dpopHeader proof with
  | Some e => mret (Err (errorw "DPoP signature verification failed" e))
  | None =>
  if negb (EqualFold (pf_HTM proof) (rq_Method r))
  then mret (Err (errorf ("DPoP htm " +:+ Quote (pf_HTM proof) +:+ " does not match request method " +:+
                          Quote (rq_Method r)))) else
  if negb (EqualFold (pf_HTU proof) (rq_URL r)) && negb (htuMatches (pf_HTU proof) r)
  then mret (Err (errorf ("DPoP htu " +:+ Quote (pf_HTU proof) +:+ " does not match request URI " +:+
                          Quote (rq_URL r)))) else
  now1 ← perform Clock;
  let age := time_Since now1 (pf_IAT proof) in
  if (0 <? dc_MaxAge cfg) && (dc_MaxAge cfg <? age)
  then mret (Err (errorf ("DPoP proof is too old: " +:+ Duration_String (Duration_Round age Second) +:+
                          " (max " +:+ Duration_String (dc_MaxAge cfg) +:+ ")"))) else
  now2 ← perform Clock;
  if time_After (pf_IAT proof) (time_Add now2 (5 * Second))
  then mret (Err (errorf "DPoP proof issued in the future")) else
  if String.eqb (pf_ATH proof) EmptyString then mret (Err ErrDPoPMissingATH) else
  if negb (String.eqb (pf_ATH proof) (hashTokenForDPoP accessToken))
  then mret (Err ErrDPoPBindingMismatch) else
  match dc_Nonce cfg with
  | None => mret (Ok proof)
  | Some n =>
      valid ← g_Nonce_Valid n (pf_Nonce proof);
      mret (if valid : bool then Ok proof else Err ErrDPoPNonceRequired)
  end
  end end.

Definition g_Validate (cfg : DPoPConfig) (r : Request) (rawToken : string) : gprog P (res DPoPProof) :=
  v ← g_ValidateDPoP r rawToken cfg;
  match v with
  | Err e => mret (Err e)
  | Ok proof =>
      if String.eqb (pf_JTI proof) EmptyString then mret (Err (errorf "dpop proof missing jti claim")) else
      has ← perform HasCache;
      embed (if has : bool then Shared else Own) no_ask (p_check_replay cfg proof)
  end.

Definition g_check_proof (w : Response) (r : Request) (rawToken : string) : gstep (option DPoPProof) :=
  match gd_dpop g with
  | None => mret (Continue None)
  | Some cfg =>
      proof ← g_Validate cfg r rawToken;
      match proof with
      | Ok p => mret (Continue (Some p))
      | Err dpopErr =>
          match gd_dpopNonce g with
          | Some n =>
              if errors_Is dpopErr ErrDPoPNonceRequired then
                nonce ← perform (NonceNow n);
                g_reject (SetHeader "DPoP-Nonce" nonce w) r "use_dpop_nonce" "server requires a DPoP nonce"
              else g_reject w r ErrCodeInvalidToken ("DPoP validation failed: " +:+ err_text dpopErr)
          | None => g_reject w r ErrCodeInvalidToken ("DPoP validation failed: " +:+ err_text dpopErr)
          end
      end
  end.

Definition g_get_claims (w : Response) (r : Request) (provider : P) (rawToken : string) : gstep CommonClaims :=
  claims ← g_introspect provider rawToken;
  match claims with
  | Ok c => if negb (cl_Active c)
            then g_reject w r ErrCodeInvalidToken "token inactive or validation failed"
            else mret (Continue c)
  | Err _ => g_reject w r ErrCodeInvalidToken "token inactive or validation failed"
  end.

Definition g_bind_issuer (w : Response) (r : Request) (provider : P) (claims : CommonClaims) : gstep unit :=
  iss ← perform (IssuerOf provider);
  if negb (String.eqb iss EmptyString) && negb (String.eqb (cl_Issuer claims) iss)
  then g_reject w r ErrCodeInvalidToken
         (if String.eqb (cl_Issuer claims) EmptyString
          then "introspection response missing iss; cannot bind token to tenant"
          else "token issuer does not match tenant provider")
  else mret (Continue tt).

Definition g_bind_key (w : Response) (r : Request) (proof : option DPoPProof) (claims : CommonClaims) : gstep unit :=
  match proof with
  | None => mret (Continue tt)
  | Some p =>
      match VerifyDPoPBinding p claims with
      | Some bindErr => g_reject w r ErrCodeInvalidToken ("DPoP binding failed: " +:+ err_text bindErr)
      | None => mret (Continue tt)
      end
  end.

Definition g_check_fapi (w : Response) (r : Request) (claims : CommonClaims) : gstep unit :=
  match gd_fapiCfg g with
  | None => mret (Continue tt)
  | Some cfg =>
      err ← perform (FapiCheck claims cfg);
      match err with
      | Some e => g_reject w r ErrCodeInvalidToken (ProfileError_Error e)
      | None => mret (Continue tt)
      end
  end.

Definition g_check_policy (w : Response) (r : Request) (claims : CommonClaims) (tenantID : string) : gstep unit :=
  match gd_policyEngine g with
  | None => mret (Continue tt)
  | Some _ =>
      age ← perform (Age claims);
      result ← g_Evaluate (policy_request (rq_Method r) (rq_Path r) claims age);
      if negb (pr_Allowed result)
      then w' ← g_handleDenial w r (cl_Subject claims) tenantID result; mret (Return w')
      else
        _ ← perform (Decision (trace_of r) (cl_Subject claims) tenantID (rq_Path r)
                       (rq_Method r) EmptyString EmptyString true);
        mret (Continue tt)
  end.

Definition g_replay (w : Response) (r : Request) (claims : CommonClaims) (tenantID : string)
    : gstep (Request * Response) :=
  if String.eqb (gd_cookieSecret g) EmptyString then mret (Continue (r, w)) else
  now ← perform Clock;
  r' ←? (match ReadStateCookie now r (gd_cookieSecret g) with
         | Ok (Some saved) =>
             if negb (String.eqb (sr_Path saved) EmptyString) && negb (String.eqb (sr_Path saved) (rq_Path r))
             then g_completeStepUp w r saved claims tenantID
             else mret (Continue r)
         | _ => mret (Continue r)
         end);
  mret (Continue (r', ClearStateCookie w)).

Definition g_authorize (w : Response) (r : Request) : gstep (string * CommonClaims) :=
  _ ←? g_limit_rate w r;
  '(tenantID, provider) ←? g_resolve_tenant w r;
  rawToken ←? g_extract_token w r;
  proof ←? g_check_proof w r rawToken;
  claims ←? g_get_claims w r provider rawToken;
  _ ←? g_bind_issuer w r provider claims;
  _ ←? g_bind_key w r proof claims;
  _ ←? g_check_fapi w r claims;
  _ ←? g_check_policy w r claims tenantID;
  mret (Continue (tenantID, claims)).

(** [ServeHTTP] up to the call of the upstream handler. *)
Definition g_decide_request (w : Response) (r : Request) : gprog P outcome :=
  c ← ('(tenantID, claims) ←? g_authorize w r;
       '(r', w') ←? g_replay w r claims tenantID;
       mret (Continue (set_headers r' (forward_headers (rq_Header r') claims tenantID),
                       WithTenantID None tenantID, w')));
  mret (match c with
        | Return w' => Replied w'
        | Continue (r', ctx, w') => Forwarded r' ctx w'
        end).
End Programs.

(** ** Run alone *)

(** What a request does not own: the registry of tenants, the providers behind
    its pointers, the engine's configuration. *)
Record Env (P : Type) := MkEnv {
  env_lookup : string -> res P;
  env_ask : P -> string -> res CommonClaims;
  env_issuer : P -> string;
  env_engine : Engine
}.
Arguments MkEnv {P} _ _ _ _.
Arguments env_lookup {P} _ _.
Arguments env_ask {P} _ _ _.
Arguments env_issuer {P} _ _.
Arguments env_engine {P} _.

(** The one a guard points to when nothing changes it. *)
Definition env_of `{!Unicode} {P} `{!Provider P} (g : Guard P) : Env P :=
  MkEnv (fun tenantID => Registry_Get tenantID (gd_registry g)) pv_Introspect pv_Issuer
    (default None (gd_policyEngine g)).

Section Run.
Context {U : Unicode} {L : LocalTime} {Sig : Signatures}.
Context {P K F : Type} `{!AuditSink K} `{!GoFloat F}.
Context (rand : nat -> string).
Variable env : Env P.
Abbreviation St := (GState MemoryCache K F) (only parsing).

Definition at_loc {A} (l : loc) (absent : A) (m : M MemoryCache A) : M St A :=
  match l with Shared => zoom_opt gs_cache set_cache absent m | Own => zoom gs_jti set_jti m end.

(** What an operation does. *)
Definition run_op {X} (o : op P X) : M St X :=
  match o in op _ X return M St X with
  | Clock => Now
  | HasLimiter => gets (fun st => match gs_limiter st with Some _ => true | None => false end)
  | Limit now key => zoom_opt gs_limiter set_limiter true (lift (allow now key))
  | Age c => AuthAge_now c
  | NonceNow n => Nonce_Current n
  | FapiCheck c cfg => ValidateRequest c cfg
  | Log trace ev => on_audit (Emit trace ev)
  | Decision trace sub tenantID resource method policyName reason allowed =>
      on_audit (EmitPolicyDecision trace sub tenantID resource method policyName reason allowed)
  | Count name labels => count name labels
  | Draw => draw rand
  | HasCache => gets (fun st => match gs_cache st with Some _ => true | None => false end)
  | Get l key => at_loc l None (cache_Get key)
  | Put l key c ttl => at_loc l None (cache_Set key c ttl)
  | Drop l key => at_loc l None (cache_Delete key)
  | Lookup tenantID => mret (env_lookup env tenantID)
  | AskProvider p tok => mret (env_ask env p tok)
  | IssuerOf p => mret (env_issuer env p)
  | ReadEngine => mret (env_engine env)
  end.

(** A program run alone: its result, [None] if it panics. *)
Fixpoint grun {A} (p : gprog P A) : M St (option A) :=
  match p with
  | GRet a => mret (Some a)
  | GPanic => mret None
  | Op o k => x ← run_op o; grun (k x)
  end.

Definition runs {A} (p : gprog P A) (m : M St A) : Prop :=
  forall w, grun p w = (let '(a, w') := m w in (Some a, w')).
End Run.

Create HintDb runs_db.

Section Alone.
Context {U : Unicode} {L : LocalTime} {Sig : Signatures}.
Context {P K F : Type} `{!Provider P} `{!AuditSink K} `{!GoFloat F}.
Context (trace_of : Request -> string) (rand : nat -> string) (url_text : Request -> string -> string -> string).
Variable g : Guard P.
Abbreviation run_g := (grun (K := K) (F := F) rand (env_of g)) (only parsing).
Abbreviation runs_g := (runs (K := K) (F := F) rand (env_of g)) (only parsing).
Abbreviation St := (GState MemoryCache K F) (only parsing).

Lemma grun_bind {A B} (p : gprog P A) (f : A -> gprog P B) (w : world St) :
  run_g (p ≫= f) w = (let '(x, w1) := run_g p w in match x with Some a => run_g (f a) w1 | None => (None, w1) end).
Proof.
  revert w. induction p as [a| |X o k IH]; intros w; [done|done|].
  change (run_g (Op o k ≫= f) w) with ((run_op rand (env_of g) o ≫= fun x => run_g (k x ≫= f)) w). cbn [grun].
  unfold mbind, M_bind. destruct (run_op rand (env_of g) o w) as [x w1]. apply IH.
Qed.

Lemma runs_ret {A} (a : A) : runs_g (mret a) (mret a).
Proof. done. Qed.

Lemma runs_perform {X} (o : op P X) : runs_g (perform o) (run_op rand (env_of g) o).
Proof. intros w. cbn [grun perform]. unfold mbind, M_bind. by destruct (run_op rand (env_of g) o w). Qed.

Lemma runs_bind {A B} (p : gprog P A) (f : A -> gprog P B) m h :
  runs_g p m -> (forall a, runs_g (f a) (h a)) -> runs_g (p ≫= f) (m ≫= h).
Proof.
  intros Hp Hf w. rewrite grun_bind, Hp. unfold mbind, M_bind. destruct (m w) as [a w1]. apply Hf.
Qed.

Lemma runs_ctl {R A B} (p : gprog P (ctl R A)) (f : A -> gprog P (ctl R B)) m h :
  runs_g p m -> (forall a, runs_g (f a) (h a)) -> runs_g (g_bind p f) (ctl_bind m h).
Proof. intros Hp Hf. apply runs_bind; [done|]. intros [r|a]; [apply runs_ret|apply Hf]. Qed.

(** A step whose answer may not depend on an operation. *)
Lemma runs_perform_bind {X A} (o : op P X) (f : X -> gprog P A) h m :
  m = (run_op rand (env_of g) o ≫= h) -> (forall x, runs_g (f x) (h x)) -> runs_g (perform o ≫= f) m.
Proof. intros -> Hf. apply runs_bind; [apply runs_perform|done]. Qed.

Definition has (l : loc) (w : world St) : Prop :=
  match l with Shared => is_Some (gs_cache (w_st w)) | Own => True end.

Lemma at_loc_bind {A B} l d0 d (m : M MemoryCache A) (f : A -> M MemoryCache B) (w : world St) :
  has l w -> at_loc l d (m ≫= f) w = (at_loc l d0 m ≫= fun a => at_loc l d (f a)) w.
Proof.
  intros Hh. destruct l; unfold at_loc, zoom_opt, zoom, mbind, M_bind; cbn [has] in Hh.
  - destruct Hh as [s ->]. destruct (m _) as [a [n1 t1 s1]]. cbn [w_st w_now w_tick set_cache gs_cache].
    by destruct (f a _) as [b w2].
  - destruct (m _) as [a [n1 t1 s1]]. cbn [w_st w_now w_tick set_jti gs_jti]. by destruct (f a _) as [b w2].
Qed.

Lemma at_loc_has {A} l d (m : M MemoryCache A) (w : world St) : has l w -> has l (at_loc l d m w).2.
Proof.
  destruct l; unfold at_loc, zoom_opt, zoom, has; [|done]. intros [s ->]. destruct (m _) as [a w1]. by eexists.
Qed.

Lemma at_loc_ret {A} l (d a : A) (w : world St) : has l w -> at_loc l d (mret a) w = (a, w).
Proof. destruct l; unfold at_loc, zoom_opt, zoom, has; [intros [s E]; rewrite E|intros _]; destruct w as [n t []]; cbn in *; by subst. Qed.

Lemma at_loc_op {A B} l d0 d (m : M MemoryCache A) (f : A -> M MemoryCache B) (o : op P A) (k : A -> gprog P B) (w : world St) :
  has l w -> run_op rand (env_of g) o w = at_loc l d0 m w ->
  (forall a w1, has l w1 -> run_g (k a) w1 = (let '(b, w2) := at_loc l d (f a) w1 in (Some b, w2))) ->
  run_g (Op o k) w = (let '(b, w2) := at_loc l d (m ≫= f) w in (Some b, w2)).
Proof.
  intros Hh Ho Hk. cbn [grun]. rewrite (at_loc_bind l d0) by done. unfold mbind, M_bind. rewrite Ho.
  pose proof (at_loc_has l d0 m w Hh) as Hh1. destruct (at_loc l d0 m w) as [a w1]. by apply Hk.
Qed.

Lemma embed_runs {A} l (ask : string -> gprog P (res CommonClaims)) inner (p : prog A) (d : A) (w : world St) :
  (forall tok w, run_g (ask tok) w = (Some (inner tok), w)) -> has l w ->
  run_g (embed l ask p) w = (let '(a, w') := at_loc l d (Concurrent.run inner p) w in (Some a, w')).
Proof.
  intros Hask. revert w. induction p as [a|k IH|key k IH|key c ttl k IH|key k IH|tok k IH]; intros w Hh;
    cbn [embed Concurrent.run].
  - by rewrite at_loc_ret.
  - apply (at_loc_op l time_zero); [done| |auto]. destruct l; unfold at_loc, zoom_opt, zoom; [|by destruct w as [? ? []]].
    destruct Hh as [s E]. rewrite E. destruct w as [n t []]; cbn in *; by subst.
  - apply (at_loc_op l None); [done|done|auto].
  - apply (at_loc_op l None); [done|done|auto].
  - apply (at_loc_op l None); [done|done|auto].
  - rewrite grun_bind, Hask. by apply IH.
Qed.

Lemma embed_reader_runs {A} (r : reader A) x (w : world St) :
  evaluates (default None (gd_policyEngine g)) r [] x -> run_g (embed_reader r) w = (x, w).
Proof.
  remember (default None (gd_policyEngine g)) as e eqn:He. remember [] as l eqn:Hl.
  induction 1 as [e a|e|e k l x _ IH|]; [done|done| |done]. cbn [embed_reader grun run_op].
  unfold mbind, M_bind. cbn. rewrite <- He. by apply IH.
Qed.

Lemma g_Evaluate_runs req : runs_g (g_Evaluate req) (mret (Evaluate (default None (gd_policyEngine g)) req)).
Proof. intros w. apply embed_reader_runs. by apply r_Evaluate_alone. Qed.

Lemma g_issueChallenge_runs w r code desc acr age :
  runs_g (g_issueChallenge trace_of g w r code desc acr age) (issueChallenge trace_of g w r code desc acr age).
Proof. apply runs_bind; [apply runs_perform|intros; apply runs_ret]. Qed.

Lemma g_reject_runs {A} w r code desc :
  runs_g (g_reject trace_of g w r code desc : gprog P (ctl Response A)) (reject trace_of g w r code desc).
Proof. apply runs_bind; [apply g_issueChallenge_runs|intros; apply runs_ret]. Qed.

Lemma g_handleDenial_runs w r sub tenant result :
  runs_g (g_handleDenial trace_of g w r sub tenant result) (handleDenial trace_of rand g w r sub tenant result).
Proof. repeat (apply runs_bind; [apply runs_perform|intros]). apply runs_ret. Qed.

Lemma at_loc_ext {A} l (d : A) m m' (w : world St) :
  (forall w0, m w0 = m' w0) -> at_loc l d m w = at_loc l d m' w.
Proof.
  intros H. destruct l; unfold at_loc, zoom_opt, zoom; [|by rewrite H].
  destruct (gs_cache (w_st w)); [by rewrite H|done].
Qed.

Lemma bind_run {A B} (m : M St A) (f : A -> M St B) w a w1 : m w = (a, w1) -> (m ≫= f) w = f a w1.
Proof. intros H. unfold mbind, M_bind. by rewrite H. Qed.

(** [Guard.introspect] is [CachedIntrospector.Introspect] on its cache. *)
Lemma introspect_cached prov tok d (w : world St) :
  has Shared w ->
  introspect prov tok w =
  at_loc Shared d (CachedIntrospector_Introspect (pv_Introspect prov) (30 * Second) tok) w.
Proof.
  intros Hh. unfold introspect, CachedIntrospector_Introspect. rewrite (at_loc_bind Shared None) by done.
  change (zoom_opt gs_cache set_cache None (cache_Get (HashToken tok)))
    with (at_loc (K := K) (F := F) Shared None (cache_Get (HashToken tok))).
  pose proof (at_loc_has Shared None (cache_Get (HashToken tok)) w Hh) as Hh1.
  destruct (at_loc Shared None _ w) as [cached w1] eqn:E. rewrite !(bind_run _ _ _ _ _ E). cbn [snd] in Hh1.
  destruct cached as [c|]; [by rewrite at_loc_ret|].
  destruct (pv_Introspect prov tok) as [c|e]; [|by rewrite at_loc_ret]. rewrite (at_loc_bind Shared tt) by done.
  change (zoom_opt gs_cache set_cache tt) with (at_loc (K := K) (F := F) (A := unit) Shared tt).
  pose proof (at_loc_has Shared tt (cache_claims (30 * Second) (HashToken tok) c) w1 Hh1) as Hh2.
  destruct (at_loc Shared tt _ w1) as [u w2] eqn:E2. rewrite !(bind_run _ _ _ _ _ E2). by rewrite at_loc_ret.
Qed.

Lemma perform_HasCache {A} (f : bool -> gprog P A) (w : world St) :
  run_g (perform HasCache ≫= f) w =
  run_g (f (match gs_cache (w_st w) with Some _ => true | None => false end)) w.
Proof. done. Qed.

Lemma ask_runs prov tok (w : world St) : run_g (perform (AskProvider prov tok)) w = (Some (pv_Introspect prov tok), w).
Proof. done. Qed.

Lemma g_introspect_runs prov tok : runs_g (g_introspect prov tok) (introspect prov tok).
Proof.
  intros w. unfold g_introspect. rewrite perform_HasCache. destruct (gs_cache (w_st w)) as [s|] eqn:Hs.
  - assert (has Shared w) as Hh by (by exists s).
    rewrite (embed_runs Shared _ (pv_Introspect prov) _ (Err nobody)) by (auto using ask_runs).
    rewrite (introspect_cached _ _ (Err nobody)) by done.
    by rewrite (at_loc_ext _ _ _ _ _ (Concurrent.run_introspect _ _ _)).
  - rewrite ask_runs. unfold introspect, zoom_opt, mbind, M_bind. rewrite Hs.
    by destruct (pv_Introspect prov tok) as [c|e]; [rewrite Hs|].
Qed.

(** Validating a proof leaves the state alone. *)
Lemma ValidateDPoP_state {S S'} r tok cfg n t (s : S) (s' : S') :
  let x := ValidateDPoP r tok cfg (World n t s) in
  ValidateDPoP r tok cfg (World n t s') = (x.1, World (w_now x.2) (w_tick x.2) s') /\ w_st x.2 = s.
Proof.
  cbv zeta. unfold ValidateDPoP, Nonce_Valid, mbind, M_bind, Now, mret, M_ret.
  repeat (cbn [w_now w_tick w_st fst snd]; break_match; try done);
    destruct (String.eqb (pf_Nonce _) _); cbn in *; simplify_eq; try done; congruence.
Qed.

Lemma ValidateDPoP_zoom l d r tok cfg (w : world St) :
  has l w -> at_loc l d (ValidateDPoP r tok cfg) w = ValidateDPoP r tok cfg w.
Proof.
  intros Hh. destruct w as [n t st]. destruct l; unfold at_loc, zoom_opt, zoom; cbn [w_st w_now w_tick].
  - destruct Hh as [s E]. cbn in E. rewrite E.
    pose proof (ValidateDPoP_state r tok cfg n t s st) as H. destruct (ValidateDPoP r tok cfg (World n t s)) as [v w'].
    cbn in H. destruct H as [-> Hs]. rewrite Hs. destruct st; cbn in *; by subst.
  - pose proof (ValidateDPoP_state r tok cfg n t (gs_jti st) st) as H.
    destruct (ValidateDPoP r tok cfg (World n t (gs_jti st))) as [v w']. cbn in H. destruct H as [-> Hs]. rewrite Hs. by destruct st.
Qed.

Lemma dpop_Validate_at cfg r tok (w : world St) :
  dpop_Validate cfg r tok w =
  at_loc (match gs_cache (w_st w) with Some _ => Shared | None => Own end) (Err (errorf "no cache")) (Validate cfg r tok) w.
Proof. unfold dpop_Validate. by destruct (gs_cache (w_st w)). Qed.

#[local] Hint Resolve runs_ret runs_perform g_issueChallenge_runs g_reject_runs g_handleDenial_runs g_introspect_runs : runs_db.

(** The cases of the code, each the same program. *)
Ltac same_program :=
  repeat (intros; first
    [ solve [auto with runs_db]
    | apply runs_ctl | apply runs_bind
    | match goal with
      | |- runs _ _ (match ?x with _ => _ end) (match ?x with _ => _ end) => destruct x
      end ]).

Lemma g_ValidateDPoP_runs r tok cfg : runs_g (g_ValidateDPoP r tok cfg) (ValidateDPoP r tok cfg).
Proof. unfold g_ValidateDPoP, ValidateDPoP, g_Nonce_Valid, Nonce_Valid. cbv zeta. same_program. Qed.

Lemma g_Validate_runs cfg r tok : runs_g (g_Validate cfg r tok) (dpop_Validate cfg r tok).
Proof.
  intros w. rewrite dpop_Validate_at. set (l := match gs_cache (w_st w) with Some _ => Shared | None => Own end).
  assert (has l w) as Hh by (subst l; destruct (gs_cache (w_st w)) eqn:E; [by eexists|done]).
  rewrite (at_loc_ext _ _ _ _ _ (Concurrent.run_Validate (fun _ => Err nobody) cfg r tok)).
  rewrite (at_loc_bind l (Err nobody)) by done. unfold g_Validate. rewrite grun_bind, g_ValidateDPoP_runs.
  pose proof (ValidateDPoP_zoom l (Err nobody) r tok cfg w Hh) as Hz.
  pose proof (at_loc_has l (Err nobody) (ValidateDPoP r tok cfg) w Hh) as Hh1. rewrite Hz in Hh1.
  assert (gs_cache (w_st (ValidateDPoP r tok cfg w).2) = gs_cache (w_st w)) as Hc.
  { destruct w as [n t st]. pose proof (ValidateDPoP_state r tok cfg n t st st) as H.
    cbn. cbn in H. destruct H as [_ Hs]. by rewrite Hs. }
  destruct (ValidateDPoP r tok cfg w) as [v w1] eqn:E. rewrite (bind_run _ _ _ _ _ Hz). cbn [snd] in Hh1, Hc.
  destruct v as [proof|e]; [|by rewrite at_loc_ret]. destruct (String.eqb _ _); [by rewrite at_loc_ret|].
  rewrite perform_HasCache, Hc.
  replace (if match gs_cache (w_st w) with Some _ => true | None => false end then Shared else Own) with l
    by (subst l; by destruct (gs_cache (w_st w))).
  by rewrite (embed_runs l _ (fun _ => Err nobody) _ (Err (errorf "no cache"))).
Qed.

#[local] Hint Resolve g_Validate_runs : runs_db.

Lemma engine_step {A} (req : PolicyRequest) engine (f : PolicyResult -> gprog P A) (h : PolicyResult -> M St A) :
  gd_policyEngine g = Some engine -> (forall result, runs_g (f result) (h result)) ->
  runs_g (g_Evaluate req ≫= f) (h (Evaluate engine req)).
Proof.
  intros He Hf w. rewrite grun_bind, g_Evaluate_runs, He. cbn. apply Hf.
Qed.

Ltac read_engine engine He :=
  cbv zeta;
  match goal with
  | |- runs _ _ (g_Evaluate ?req ≫= _) ?m =>
      let t := eval pattern (Evaluate engine req) in m in
      match t with ?h _ => apply (engine_step req engine _ h He); intros result end
  end.

Lemma g_allow_runs key :
  runs_g (g_allow key) (zoom_opt gs_limiter set_limiter true (now ← Now; lift (allow now key))).
Proof.
  intros w. unfold g_allow. rewrite grun_bind, runs_perform. cbn [run_op]. unfold gets, zoom_opt.
  destruct (gs_limiter (w_st w)) as [rl|] eqn:E; [|done]. rewrite grun_bind, !runs_perform. cbn [run_op Now].
  rewrite runs_perform. cbn [run_op]. unfold zoom_opt, mbind, M_bind, lift, Now. cbn [w_st w_now w_tick]. rewrite E.
  by destruct (allow _ key rl).
Qed.
#[local] Hint Resolve g_allow_runs : runs_db.

Lemma g_limit_rate_runs w r : runs_g (g_limit_rate w r) (limit_rate w r).
Proof. unfold g_limit_rate, limit_rate. same_program. Qed.

Lemma g_resolve_tenant_runs w r :
  runs_g (g_resolve_tenant trace_of g w r) (resolve_tenant trace_of g w r).
Proof.
  unfold g_resolve_tenant, resolve_tenant. destruct (Resolve _ r) as [tenant|e]; [|auto with runs_db].
  intros wd. rewrite grun_bind, runs_perform. cbn.
  destruct (Registry_Get tenant (gd_registry g)); [apply runs_ret|apply g_reject_runs].
Qed.

Lemma g_extract_token_runs w r : runs_g (g_extract_token trace_of g w r) (extract_token trace_of g w r).
Proof. unfold g_extract_token, extract_token. same_program. Qed.

Lemma g_check_proof_runs w r tok : runs_g (g_check_proof trace_of g w r tok) (check_proof trace_of g w r tok).
Proof. unfold g_check_proof, check_proof. same_program. Qed.

Lemma g_get_claims_runs w r prov tok : runs_g (g_get_claims trace_of g w r prov tok) (get_claims trace_of g w r prov tok).
Proof. unfold g_get_claims, get_claims. same_program. Qed.

Lemma g_bind_issuer_runs w r prov c : runs_g (g_bind_issuer trace_of g w r prov c) (bind_issuer trace_of g w r prov c).
Proof.
  unfold g_bind_issuer, bind_issuer. intros wd. rewrite grun_bind, runs_perform. cbn -[String.eqb].
  destruct (_ && _); [apply g_reject_runs|apply runs_ret].
Qed.

Lemma g_bind_key_runs w r proof c : runs_g (g_bind_key trace_of g w r proof c) (bind_key trace_of g w r proof c).
Proof. unfold g_bind_key, bind_key. same_program. Qed.

Lemma g_check_fapi_runs w r c : runs_g (g_check_fapi trace_of g w r c) (check_fapi trace_of g w r c).
Proof. unfold g_check_fapi, check_fapi. same_program. Qed.

Lemma g_check_policy_runs w r c tenant :
  runs_g (g_check_policy trace_of g w r c tenant) (check_policy trace_of rand g w r c tenant).
Proof.
  unfold g_check_policy, check_policy. destruct (gd_policyEngine g) as [engine|] eqn:He; [|auto with runs_db].
  apply runs_bind; [apply runs_perform|]. intros age.
  read_engine engine He. same_program.
Qed.

Lemma g_completeStepUp_runs w r saved c tenant :
  runs_g (g_completeStepUp trace_of url_text g w r saved c tenant) (completeStepUp trace_of url_text g w r saved c tenant).
Proof.
  unfold g_completeStepUp, completeStepUp. apply runs_ctl.
  - destruct (gd_policyEngine g) as [engine|] eqn:He; [|auto with runs_db].
    apply runs_bind; [apply runs_perform|]. intros age.
    read_engine engine He. same_program.
  - same_program.
Qed.

Lemma g_replay_runs w r c tenant :
  runs_g (g_replay trace_of url_text g w r c tenant) (replay trace_of url_text g w r c tenant).
Proof.
  unfold g_replay, replay. pose proof (fun saved => g_completeStepUp_runs w r saved c tenant). same_program.
Qed.

#[local] Hint Resolve g_limit_rate_runs g_resolve_tenant_runs g_extract_token_runs g_check_proof_runs g_get_claims_runs
  g_bind_issuer_runs g_bind_key_runs g_check_fapi_runs g_check_policy_runs g_replay_runs : runs_db.

Lemma g_authorize_runs w r : runs_g (g_authorize trace_of g w r) (authorize trace_of rand g w r).
Proof. unfold g_authorize, authorize. same_program. Qed.
#[local] Hint Resolve g_authorize_runs : runs_db.

(** The program that is interleaved is the guard.  Run alone, with the
    registry, the providers and the policy engine it points to, it answers
    and forwards what [Guard.decide_request] does, in the same state after as
    many readings of the clock, and it never panics. *)
Theorem program_is_guard rw r (w : world St) :
  grun rand (env_of g) (g_decide_request trace_of url_text g rw r) w =
  (let '(o, w') := decide_request trace_of rand url_text g rw r w in (Some o, w')).
Proof.
  revert w. change (runs_g (g_decide_request trace_of url_text g rw r) (decide_request trace_of rand url_text g rw r)).
  unfold g_decide_request, decide_request, handle. same_program.
Qed.
End Alone.
