(* ===== verification/GuardPool.v ===== *)
(** * Pools of guarded requests

    Goroutines that run the program of [ConcurrentGuard], webhook deliveries
    and cleanups, interleaved operation by operation, while tenants are
    registered, providers refreshed and policies reloaded: what is forwarded
    is authorised. *)

From Stdlib Require Import QArith.
From S2P Require Import Prelude GoString GoTime Encoding Crypto Json TextLemmas TimeText Http Rar Matcher Policy PolicyReload StepUp Claims Effects AuditLog Cache Revocation Dpop Concurrent Fapi Providers Tenant RateLimit Guard ConcurrentGuard.
Open Scope Z_scope.

(** What a goroutine ends with. *)
Inductive result :=
| Handled (r : Request) (o : outcome)
| Hooked (err : option error).

(** A goroutine, with the reading of the clock that was next when it
    started. *)
Record thread (P : Type) := Thread { th_since : nat; th_prog : gprog P result }.
Arguments Thread {P} _ _.
Arguments th_since {P} _.
Arguments th_prog {P} _.

Section Pool.
Context {U : Unicode} {L : LocalTime} {Sig : Signatures}.
Context {P K F : Type} `{!AuditSink K} `{!GoFloat F}.
Context (trace_of : Request -> string) (rand : nat -> string) (url_text : Request -> string -> string -> string).
Variable g : Guard P.
Abbreviation memory := (world (GState MemoryCache K F)) (only parsing).

(** The registry, the providers and the policy configuration as they may be at
    the [n]-th reading of the clock. *)
Variable environment : nat -> Env P -> Prop.

(** One operation of a goroutine. *)
Definition gmove {A} (p : gprog P A) (w : memory) (p' : gprog P A) (w' : memory) : Prop :=
  match p with
  | Op o k => exists env x, environment (w_tick w) env /\ run_op rand env o w = (x, w') /\ p' = k x
  | _ => False
  end.

Definition request_thread (rw : Response) (r : Request) : gprog P result :=
  o ← g_decide_request trace_of url_text g rw r; mret (Handled r o).
Definition hook_thread (ev : RevocationEvent) : gprog P result :=
  e ← embed Shared no_ask (p_process ev); mret (Hooked e).

(** The cleanups of a cache and of the limiter. *)
Inductive cleaned : memory -> memory -> Prop :=
| cleaned_cache l w : cleaned w (at_loc l tt (now ← Now; modify (Memory.cleanup now)) w).2
| cleaned_limiter w :
    cleaned w (zoom_opt gs_limiter set_limiter tt (now ← Now; modify (RateLimit.cleanup now)) w).2.

Inductive pool_step : memory * list (thread P) -> memory * list (thread P) -> Prop :=
| pool_move w ts i th p' w' :
    ts !! i = Some th -> gmove (th_prog th) w p' w' ->
    pool_step (w, ts) (w', <[i := Thread (th_since th) p']> ts)
| pool_request w ts rw r : pool_step (w, ts) (w, (ts ++ [Thread (w_tick w) (request_thread rw r)])%list)
| pool_hook w ts ev :
    is_Some (gs_cache (w_st w)) -> pool_step (w, ts) (w, (ts ++ [Thread (w_tick w) (hook_thread ev)])%list)
| pool_clean w ts w' : cleaned w w' -> pool_step (w, ts) (w', ts).

Definition pool_reaches := rtc pool_step.

(** ** What is promised of a forwarded request *)

Section Authorised.
Variable clock : nat -> Time.
Variable until : nat.

(** It was so between two readings of the clock. *)
Definition at_some (since : nat) (phi : Env P -> Prop) : Prop :=
  exists n env, (since <= n <= until)%nat /\ environment n env /\ phi env.

(** Active claims a provider answered for a token of this hash. *)
Definition genuine (tok : string) (c : CommonClaims) : Prop :=
  cl_Active c = true /\ exists tok', HashToken tok' = HashToken tok /\
    at_some 0 (fun env => exists p, env_ask env p tok' = Ok c).

Definition in_force (since : nat) (e : Engine) : Prop := at_some since (fun env => env_engine env = e).

(** One of the readings since then. *)
Definition read_since (since : nat) (t : Time) : Prop := exists i, (since <= i <= until)%nat /\ t = clock i.

(** [proof] was valid for the request when it was checked. *)
Definition proved (since : nat) (r : Request) (tok : string) (cfg : DPoPConfig) (proof : DPoPProof) : Prop :=
  exists t1 t2 t3, read_since since t1 /\ read_since since t2 /\ read_since since t3 /\
    proof_ok r tok cfg t1 t2 t3 proof.

(** The proof of possession that came with the request. *)
Definition possession (since : nat) (r : Request) (tok : string) (c : CommonClaims) : Prop :=
  forall cfg, gd_dpop g = Some cfg -> exists proof,
    proved since r tok cfg proof /\ pf_JTI proof <> EmptyString /\ VerifyDPoPBinding proof c = None.

(** The policy in force then allowed the method and path of [r]. *)
Definition permitted (since : nat) (r : Request) (c : CommonClaims) : Prop :=
  is_Some (gd_policyEngine g) -> exists i, (since <= i <= until)%nat /\
    allowed_by (in_force since) (policy_request (rq_Method r) (rq_Path r) c (AuthAge (clock i) c)).

(** [r'] may be forwarded for the request [r], handled since that reading of
    the clock, as [tenant]'s, whose provider is [prov], with the claims [c]. *)
Record authorised (since : nat) (r r' : Request) (ctx : TenantContext) (tenant tok : string)
    (prov : P) (c : CommonClaims) : Prop := {
  au_tenant : Resolve (gd_resolver g) r = Ok tenant /\
    at_some since (fun env => env_lookup env tenant = Ok prov);
  au_token : ExtractBearerToken (Header_Get (rq_Header r) "Authorization") = Ok tok;
  au_claims : genuine tok c;
  au_issuer : at_some since (fun env => env_issuer env prov = EmptyString \/ cl_Issuer c = env_issuer env prov);
  au_possession : possession since r tok c;
  au_fapi : forall cfg, gd_fapiCfg g = Some cfg -> exists w : memory,
    (since <= w_tick w <= until)%nat /\ w_now w = clock /\ (ValidateRequest c cfg w).1 = None;
  au_policy : permitted since r' c;
  au_headers : rq_Header r' = forward_headers (rq_Header r) c tenant /\ ctx = WithTenantID None tenant
}.

(** ** One goroutine at a time *)

Definition cached_ok (key : string) (c : CommonClaims) : Prop :=
  forall tok, key = HashToken tok -> genuine tok c.
Definition caches_ok (w : memory) : Prop :=
  forall s key e, gs_cache (w_st w) = Some s -> mc_entries s !! key = Some e -> cached_ok key (me_claims e).

(** What a goroutine guarantees of an operation, and the answers it can get. *)
Definition guarantees {X} (o : op P X) : Prop :=
  match o with Put Shared key c _ => cached_ok key c | _ => True end.
Definition may_answer (since : nat) {X} (o : op P X) (x : X) : Prop :=
  exists env (w w' : memory), (since <= w_tick w)%nat /\ (w_tick w' <= until)%nat /\ w_now w = clock /\
    caches_ok w /\ environment (w_tick w) env /\ run_op rand env o w = (x, w').

(** A goroutine that ends without a panic ends in [Q]. *)
Fixpoint ggood {A} (since : nat) (Q : A -> Prop) (p : gprog P A) : Prop :=
  match p with
  | GRet a => Q a
  | GPanic => True
  | Op o k => guarantees o /\ forall x, may_answer since o x -> ggood since Q (k x)
  end.

Section Rules.
Variable since : nat.

Lemma ggood_bind {A B} (f : A -> gprog P B) Q p :
  ggood since (fun a => ggood since Q (f a)) p -> ggood since Q (p ≫= f).
Proof.
  unfold mbind, gprog_mbind. induction p as [a| |X o k IH]; cbn [ggood gprog_bind]; [done|done|].
  intros [Ho H]. split; [done|]. auto.
Qed.

Lemma ggood_mono {A} (Q Q' : A -> Prop) p : (forall a, Q a -> Q' a) -> ggood since Q p -> ggood since Q' p.
Proof.
  intros HQ. induction p as [a| |X o k IH]; cbn [ggood]; [auto|done|]. intros [Ho H]. split; [done|]. auto.
Qed.

Lemma ggood_perform {X A} (o : op P X) (f : X -> gprog P A) Q :
  guarantees o -> (forall x, may_answer since o x -> ggood since Q (f x)) -> ggood since Q (perform o ≫= f).
Proof. done. Qed.

(** An operation whose answer does not matter. *)
Lemma ggood_skip {X A} (o : op P X) (f : X -> gprog P A) Q :
  guarantees o -> (forall x, ggood since Q (f x)) -> ggood since Q (perform o ≫= f).
Proof. intros Ho Hf. by apply ggood_perform. Qed.

(** The postcondition of a step that may answer and return. *)
Definition continues {R A} (phi : A -> Prop) (c : ctl R A) : Prop :=
  match c with Return _ => True | Continue a => phi a end.

Lemma ggood_ctl {R A B} (f : A -> gprog P (ctl R B)) phi psi p :
  ggood since (continues phi) p -> (forall a, phi a -> ggood since (continues psi) (f a)) ->
  ggood since (continues psi) (g_bind p f).
Proof.
  intros Hp Hf. apply ggood_bind. eapply ggood_mono; [|exact Hp]. intros [x|a]; [done|apply Hf].
Qed.

Lemma ggood_embed {A} l ask (rd : string -> option CommonClaims -> Prop) wr an (Q : A -> Prop) (p : prog A) :
  (forall key x, may_answer since (Get l key) x -> rd key x) ->
  (forall key c ttl, wr key c -> guarantees (Put l key c ttl)) ->
  (forall tok, ggood since (an tok) (ask tok)) ->
  good rd wr an Q p -> ggood since Q (embed l ask p).
Proof.
  intros Hr Hw Ha. induction p as [a|k IH|key k IH|key c ttl k IH|key k IH|tok k IH];
    cbn [embed ggood good]; intros H; [exact H|by split; auto..| | |].
  - destruct H as [H1 H2]. split; [by apply Hw|auto].
  - by split; auto.
  - apply ggood_bind. eapply ggood_mono; [|apply Ha]. auto.
Qed.

Lemma ggood_reader {A} (r : reader A) (Q : A -> Prop) :
  ends_in (in_force since) Q r -> ggood since Q (embed_reader r).
Proof.
  induction r as [a| |k IH]; cbn [ends_in embed_reader ggood]; [done|done|]. intros H. split; [done|].
  intros e (env & w & w' & Hn & Hu & Hc & _ & He & Hrun). apply IH, H. cbn in Hrun. injection Hrun as <- <-.
  exists (w_tick w), env. split; [lia|done].
Qed.
End Rules.

(** ** What an operation leaves *)

(** Same clock, and the same guard's cache. *)
Definition cache_kept (w w' : memory) : Prop := later w w' /\ gs_cache (w_st w') = gs_cache (w_st w).

Lemma cache_kept_caches w w' : cache_kept w w' -> caches_ok w -> caches_ok w'.
Proof. unfold caches_ok. intros [_ ->]. done. Qed.

Lemma zoom_kept {S A} (get : GState MemoryCache K F -> option S) set (d : A) m (w : memory) :
  (forall w0 : world S, later w0 (m w0).2) -> (forall s st, gs_cache (set s st) = gs_cache st) ->
  cache_kept w (zoom_opt get set d m w).2.
Proof.
  intros Hm Hs. split; [by apply zoom_opt_later|]. unfold zoom_opt. destruct (get (w_st w)); [|done].
  destruct (m _). cbn. apply Hs.
Qed.

Lemma at_loc_kept {A} l (d : A) m (w : memory) :
  (forall w0 : world MemoryCache, later w0 (m w0).2 /\ w_st (m w0).2 = w_st w0) -> cache_kept w (at_loc l d m w).2.
Proof.
  intros Hm. destruct l; unfold at_loc, cache_kept.
  - split; [apply zoom_opt_later; apply Hm|]. unfold zoom_opt. destruct (gs_cache (w_st w)) as [s|] eqn:E; [|done].
    destruct (Hm (World (w_now w) (w_tick w) s)) as [_ H]. destruct (m _) as [a w1]. cbn in *. by subst.
  - unfold zoom. destruct (Hm (World (w_now w) (w_tick w) (gs_jti (w_st w)))) as [H _]. destruct (m _) as [a w1].
    cbn in *. by split.
Qed.

Lemma at_loc_later {A} l (d : A) m (w : memory) :
  (forall w0 : world MemoryCache, later w0 (m w0).2) -> later w (at_loc l d m w).2.
Proof.
  intros Hl. destruct l; [by apply zoom_opt_later|]. unfold at_loc, zoom.
  specialize (Hl (World (w_now w) (w_tick w) (gs_jti (w_st w)))). by destruct (m _).
Qed.

(** What writes to a cache: the shared one keeps what is genuine in it. *)
Lemma at_loc_caches {A} l (d : A) m (w : memory) :
  (forall w0 : world MemoryCache, later w0 (m w0).2) ->
  (l = Shared -> forall w0 : world MemoryCache,
     (forall key e, mc_entries (w_st w0) !! key = Some e -> cached_ok key (me_claims e)) ->
     forall key e, mc_entries (w_st (m w0).2) !! key = Some e -> cached_ok key (me_claims e)) ->
  later w (at_loc l d m w).2 /\ (caches_ok w -> caches_ok (at_loc l d m w).2).
Proof.
  intros Hl Hm. destruct l; unfold at_loc.
  - split; [by apply zoom_opt_later|]. unfold caches_ok, zoom_opt. intros Hc.
    destruct (gs_cache (w_st w)) as [s0|] eqn:E; [|by cbn; rewrite E].
    specialize (Hm eq_refl (World (w_now w) (w_tick w) s0) (fun key e H => Hc s0 key e eq_refl H)).
    destruct (m _) as [a w1]. cbn in *. intros s key e [= <-]. apply Hm.
  - specialize (Hl (World (w_now w) (w_tick w) (gs_jti (w_st w)))).
    unfold caches_ok, zoom. by destruct (m _) as [a w1].
Qed.

Lemma op_kept {X} env (o : op P X) (w : memory) :
  (match o with Put _ _ _ _ | Drop _ _ => False | _ => True end) -> cache_kept w (run_op rand env o w).2.
Proof.
  destruct o; cbn [run_op]; intros Ho; try done.
  - split; [split; cbn; [done|lia]|done].
  - apply zoom_kept; [|done]. intros w0. unfold lift. destruct (allow _ _ _). by split.
  - destruct (AuthAge_now_run c w) as (w1 & -> & Hl & Hs). split; [done|]. cbn. by rewrite Hs.
  - unfold Nonce_Current, mbind, M_bind, Now. split; [split; cbn; [done|lia]|done].
  - destruct (ValidateRequest_state c cfg w) as [Hl Hs]. split; [done|]. by rewrite Hs.
  - apply zoom_kept; [intros; apply Emit_later|done].
  - apply zoom_kept; [intros; apply EmitPolicyDecision_later|done].
  - apply at_loc_kept. intros w0. rewrite memory_get_run. split; [split; cbn; [done|lia]|done].
Qed.

Lemma op_later {X} env (o : op P X) (w : memory) : later w (run_op rand env o w).2.
Proof.
  destruct o; try (by apply op_kept); cbn [run_op]; apply at_loc_later; intros w0;
    rewrite ?memory_set_run, ?memory_delete_run; split; cbn; (done || lia).
Qed.

Lemma op_frame {X} env (o : op P X) (w : memory) x w' :
  guarantees o -> run_op rand env o w = (x, w') -> later w w' /\ (caches_ok w -> caches_ok w').
Proof.
  intros Hg Hr. assert (w' = (run_op rand env o w).2) as -> by by rewrite Hr.
  assert (Hk : cache_kept w (run_op rand env o w).2 ->
    later w (run_op rand env o w).2 /\ (caches_ok w -> caches_ok (run_op rand env o w).2)).
  { intros H. split; [apply H|by apply cache_kept_caches]. }
  destruct o; try (by apply Hk, op_kept); cbn [run_op].
  - apply at_loc_caches; [intros w0; rewrite memory_set_run; split; cbn; [done|lia]|].
    intros -> w0 Hc key0 e. rewrite memory_set_run. cbn. intros [[-> <-]|[_ E]]%lookup_insert_Some; [exact Hg|by apply (Hc key0)].
  - apply at_loc_caches; [intros w0; rewrite memory_delete_run; split; cbn; [done|lia]|].
    intros -> w0 Hc key0 e. rewrite memory_delete_run. cbn. intros [_ E]%lookup_delete_Some. by apply (Hc key0).
Qed.

(** ** The answers a goroutine can get *)

Lemma at_some_weaken since (phi psi : Env P -> Prop) :
  (forall env, phi env -> psi env) -> at_some since phi -> at_some 0 psi.
Proof. intros H (n & env & Hn & He & Hp). exists n, env. split; [lia|auto]. Qed.

Lemma may_env since {X} (o : op P X) (get : Env P -> X) x :
  (forall env, run_op (K := K) (F := F) rand env o = mret (get env)) ->
  may_answer since o x -> at_some since (fun env => get env = x).
Proof.
  intros Ho (env & w & w' & Hn & Hu & _ & _ & He & Hr). rewrite Ho in Hr. injection Hr as Hx <-.
  exists (w_tick w), env. split; [lia|done].
Qed.

Lemma may_get since key x c : may_answer since (Get Shared key) x -> x = Some c -> cached_ok key c.
Proof.
  intros (env & w & w' & _ & _ & _ & Hc & _ & Hr) ->. cbn [run_op at_loc] in Hr. unfold zoom_opt in Hr.
  destruct (gs_cache (w_st w)) as [s|] eqn:E; [|discriminate Hr]. rewrite memory_get_run in Hr. cbn in Hr.
  injection Hr as Hx _. unfold Memory.Get in Hx. destruct (mc_entries s !! key) as [e|] eqn:Ee; [|done].
  destruct (time_After _ _); [done|]. injection Hx as <-. by apply (Hc s key).
Qed.

Lemma may_clock since t : may_answer since Clock t -> read_since since t.
Proof.
  intros (env & w & w' & Hn & Hu & Hc & _ & _ & Hr). injection Hr as <- <-. cbn in Hu.
  exists (w_tick w). rewrite Hc. split; [lia|done].
Qed.

Lemma may_age since c age : may_answer since (Age c) age -> exists i, (since <= i <= until)%nat /\ age = AuthAge (clock i) c.
Proof.
  intros (env & w & w' & Hn & Hu & Hc & _ & _ & Hr). cbn [run_op] in Hr.
  destruct (AuthAge_now_run c w) as (w1 & E & [_ Hl] & _). rewrite E in Hr. injection Hr as <- <-.
  exists (w_tick w). unfold now_of. rewrite Hc. split; [lia|done].
Qed.

(** ** The steps of the guard *)

Section Steps.
Variable since : nat.
Abbreviation ok := (ggood since).

Lemma reject_good {A} w r code desc (phi : A -> Prop) : ok (continues phi) (g_reject trace_of g w r code desc).
Proof. unfold g_reject, g_issueChallenge. apply ggood_bind. by split. Qed.
#[local] Hint Resolve reject_good : core.

Lemma wr_free p q c : cached_ok (p +:+ String ":" q) c.
Proof. intros tok H. symmetry in H. by apply (HashToken_no_colon tok p q) in H. Qed.

Lemma introspect_good prov tok :
  ok (fun x => forall c, x = Ok c -> cl_Active c = true -> genuine tok c) (g_introspect prov tok).
Proof.
  assert (Hask : forall t, ok (fun x => at_some since (fun env => env_ask env prov t = x)) (perform (AskProvider prov t))).
  { intros t. split; [done|]. intros x Hx. cbn [ggood]. revert Hx. by apply may_env. }
  assert (Hfresh : forall c, at_some since (fun env => env_ask env prov tok = Ok c) -> cl_Active c = true -> genuine tok c).
  { intros c Hc Ha. split; [done|]. exists tok. split; [done|]. revert Hc. apply at_some_weaken. by eauto. }
  unfold g_introspect. apply ggood_skip; [done|]. intros [].
  - apply (ggood_embed since Shared _ (fun key x => forall c, x = Some c -> cached_ok key c) cached_ok
      (fun t x => at_some since (fun env => env_ask env prov t = x))); [by eauto using may_get|done|exact Hask|].
    apply good_p_introspect; [apply wr_free|..].
    + intros c Hc c' [= <-] _. by apply (Hc c).
    + intros x Hx c -> Ha. by apply Hfresh.
    + intros c Hc Ha tok' Heq. destruct (Hfresh c Hc Ha) as (_ & tok1 & H1 & H2). split; [done|].
      exists tok1. split; [congruence|done].
  - eapply ggood_mono; [|apply Hask]. intros x Hx c -> Ha. by apply Hfresh.
Qed.

Lemma ValidateDPoP_good r tok cfg :
  ok (fun v => forall p, v = Ok p -> proved since r tok cfg p) (g_ValidateDPoP r tok cfg).
Proof.
  unfold g_ValidateDPoP. destruct (String.eqb_spec (Header_Get (rq_Header r) "DPoP") EmptyString); [done|].
  destruct (parseDPoPJWT _) as [p|] eqn:Hparse; [|done]. destruct (verifyDPoPSignature _ p) eqn:Hsig; [done|].
  destruct (EqualFold (pf_HTM p) _) eqn:Hm; cbn [negb]; [|done].
  destruct (negb (EqualFold (pf_HTU p) _) && _) eqn:Hu; [done|].
  assert (Huri : EqualFold (pf_HTU p) (rq_URL r) = true \/ htuMatches (pf_HTU p) r = true)
    by (apply andb_false_iff in Hu as [Hu|Hu]; b2p; auto).
  apply ggood_perform; [done|]. intros t1 H1%may_clock. cbv zeta. destruct ((0 <? dc_MaxAge cfg) && _) eqn:Hage; [done|].
  rewrite fresh_check in Hage. apply ggood_perform; [done|]. intros t2 H2%may_clock.
  destruct (time_After _ _) eqn:Hpast; [done|]. rewrite past_check in Hpast.
  destruct (String.eqb_spec (pf_ATH p) EmptyString); [done|].
  destruct (String.eqb_spec (pf_ATH p) (hashTokenForDPoP tok)) as [Hath|]; cbn [negb]; [|done].
  assert (Hok : forall t3, read_since since t3 ->
    match dc_Nonce cfg with None => True | Some n => pf_Nonce p <> EmptyString /\ Valid_at n t3 (pf_Nonce p) = true end ->
    proved since r tok cfg p) by (intros t3 H3 Hn; exists t1, t2, t3; by repeat split).
  destruct (dc_Nonce cfg) as [np|]; [|intros q [= <-]; by apply (Hok t2)].
  unfold g_Nonce_Valid. apply ggood_bind. destruct (String.eqb_spec (pf_Nonce p) EmptyString); [done|].
  apply ggood_perform; [done|]. intros t3 H3%may_clock. cbn. destruct (Valid_at np t3 _) eqn:Hn; [|done].
  intros q [= <-]. by apply (Hok t3).
Qed.

Lemma check_proof_good w r tok :
  ok (continues (fun proof => match proof with
      | None => gd_dpop g = None
      | Some p => forall cfg, gd_dpop g = Some cfg -> pf_JTI p <> EmptyString /\ proved since r tok cfg p
      end)) (g_check_proof trace_of g w r tok).
Proof.
  unfold g_check_proof. destruct (gd_dpop g) as [cfg|] eqn:Hg; [|done]. apply ggood_bind.
  eapply (ggood_mono since (fun v => forall p, v = Ok p -> pf_JTI p <> EmptyString /\ proved since r tok cfg p)).
  - intros [p|e] Hp; cbn.
    + intros cfg' [= <-]. by apply Hp.
    + destruct (gd_dpopNonce g); [|apply reject_good]. destruct (errors_Is _ _); [|apply reject_good].
      apply ggood_skip; [done|]. intros. apply reject_good.
  - unfold g_Validate. apply ggood_bind. eapply ggood_mono; [|apply ValidateDPoP_good]. intros [p|e] Hv; [|done].
    destruct (String.eqb_spec (pf_JTI p) EmptyString) as [|Hj]; [done|]. apply ggood_skip; [done|]. intros has.
    apply (ggood_embed since _ _ (fun _ _ => True) cached_ok (fun _ _ => True)); [done| |done|].
    + intros key c ttl Hc. by destruct (if has then Shared else Own).
    + apply good_check_replay; [apply wr_free| |done]. intros p' [= <-]. split; [done|]. by apply Hv.
Qed.

Lemma Evaluate_good req :
  ok (fun res => pr_Allowed res = true -> allowed_by (in_force since) req) (g_Evaluate req).
Proof. apply ggood_reader, r_Evaluate_ends. Qed.

Lemma check_policy_good w r c tenant :
  ok (continues (fun _ => permitted since r c)) (g_check_policy trace_of g w r c tenant).
Proof.
  unfold g_check_policy, permitted. destruct (gd_policyEngine g) as [engine|]; [|by intros []].
  apply ggood_perform; [done|]. intros age (i & Hi & ->)%may_age. apply ggood_bind.
  eapply ggood_mono; [|apply Evaluate_good]. intros res Hres. cbv beta in Hres. destruct (pr_Allowed res); cbn [negb].
  - apply ggood_skip; [done|]. intros _ _. exists i. split; [done|by apply Hres].
  - unfold g_handleDenial. apply ggood_bind. repeat (apply ggood_skip; [done|intros ?]). done.
Qed.

Lemma resolve_tenant_good w r :
  ok (continues (fun x => Resolve (gd_resolver g) r = Ok x.1 /\
        at_some since (fun env => env_lookup env x.1 = Ok x.2)))
    (g_resolve_tenant trace_of g w r).
Proof.
  unfold g_resolve_tenant. destruct (Resolve (gd_resolver g) r) as [tenant|e]; [|apply reject_good].
  apply ggood_perform; [done|]. intros [p|e] Hx; [|apply reject_good]. split; [done|].
  revert Hx. by apply (may_env since (Lookup tenant) (fun env => env_lookup env tenant)).
Qed.

Lemma extract_token_good w r :
  ok (continues (fun tok => ExtractBearerToken (Header_Get (rq_Header r) "Authorization") = Ok tok))
    (g_extract_token trace_of g w r).
Proof. unfold g_extract_token. destruct (ExtractBearerToken _); [done|apply reject_good]. Qed.

Lemma get_claims_good w r prov tok : ok (continues (genuine tok)) (g_get_claims trace_of g w r prov tok).
Proof.
  unfold g_get_claims. apply ggood_bind. eapply ggood_mono; [|apply introspect_good]. intros [c|e] Hc; [|apply reject_good].
  destruct (cl_Active c) eqn:Ha; cbn [negb]; [by apply Hc|apply reject_good].
Qed.

Lemma bind_issuer_good w r prov c :
  ok (continues (fun _ => at_some since (fun env => env_issuer env prov = EmptyString \/ cl_Issuer c = env_issuer env prov)))
    (g_bind_issuer trace_of g w r prov c).
Proof.
  unfold g_bind_issuer. apply ggood_perform; [done|]. intros iss Hi. destruct (_ && _) eqn:Hb; [apply reject_good|].
  apply (may_env since (IssuerOf prov) (fun env => env_issuer env prov)) in Hi as (n & env & Hn & He & <-); [|done].
  exists n, env. split; [done|]. split; [done|]. apply andb_false_iff in Hb as [Hb|Hb]; b2p; auto.
Qed.

Lemma bind_key_good w r proof c :
  ok (continues (fun _ => forall p, proof = Some p -> VerifyDPoPBinding p c = None)) (g_bind_key trace_of g w r proof c).
Proof.
  unfold g_bind_key. destruct proof as [p|]; [|done]. destruct (VerifyDPoPBinding p c) eqn:Hb; [apply reject_good|].
  by intros p' [= <-].
Qed.

Lemma check_fapi_good w r c :
  ok (continues (fun _ => forall cfg, gd_fapiCfg g = Some cfg -> exists w : memory,
    (since <= w_tick w <= until)%nat /\ w_now w = clock /\ (ValidateRequest c cfg w).1 = None)) (g_check_fapi trace_of g w r c).
Proof.
  unfold g_check_fapi. destruct (gd_fapiCfg g) as [cfg|]; [|done]. apply ggood_perform; [done|].
  intros [e|] (env & wd & wd' & Hn & Hu & Hc & _ & _ & Hr); [apply reject_good|]. intros cfg' [= <-]. exists wd.
  cbn [run_op] in Hr. destruct (ValidateRequest_state c cfg wd) as [[_ Hl] _]. rewrite Hr in *. cbn in Hl.
  split; [lia|done].
Qed.

Lemma completeStepUp_good w r saved c tenant :
  ok (continues (fun r' => rq_Header r' = rq_Header r /\ permitted since r' c))
    (g_completeStepUp trace_of url_text g w r saved c tenant).
Proof.
  unfold g_completeStepUp.
  apply (ggood_ctl since _ (fun _ => is_Some (gd_policyEngine g) -> exists i, (since <= i <= until)%nat /\
    allowed_by (in_force since) (policy_request (sr_Method saved) (sr_Path saved) c (AuthAge (clock i) c)))).
  - destruct (gd_policyEngine g) as [engine|]; [|by intros []].
    apply ggood_perform; [done|]. intros age (i & Hi & ->)%may_age. apply ggood_bind.
    eapply ggood_mono; [|apply Evaluate_good]. intros res Hres. cbv beta in Hres. destruct (pr_Allowed res); cbn [negb].
    + intros _. exists i. split; [done|by apply Hres].
    + apply ggood_skip; [done|]. intros _. unfold g_issueChallenge. apply ggood_bind. by split.
  - intros _ Hp. do 2 (apply ggood_skip; [done|intros ?]). destruct (Complete _ _ _ _) as [err flow'].
    destruct (_ || _); [|done]. unfold g_issueChallenge. apply ggood_bind. by split.
Qed.

Lemma replay_good w r c tenant :
  permitted since r c ->
  ok (continues (fun x => rq_Header x.1 = rq_Header r /\ permitted since x.1 c)) (g_replay trace_of url_text g w r c tenant).
Proof.
  intros Hp. unfold g_replay. destruct (String.eqb _ _); [done|]. apply ggood_skip; [done|]. intros now.
  apply (ggood_ctl since _ (fun r' => rq_Header r' = rq_Header r /\ permitted since r' c)); [|done].
  destruct (ReadStateCookie now r _) as [[saved|]|e]; [|done|done]. destruct (_ && _); [|done].
  apply completeStepUp_good.
Qed.

Lemma possession_of r tok c proof :
  (match proof with
   | None => gd_dpop g = None
   | Some p => forall cfg, gd_dpop g = Some cfg -> pf_JTI p <> EmptyString /\ proved since r tok cfg p
   end) ->
  (forall p, proof = Some p -> VerifyDPoPBinding p c = None) -> possession since r tok c.
Proof.
  intros Hp Hb cfg Hcfg. destruct proof as [p|]; [|congruence]. destruct (Hp cfg Hcfg) as [Hj Hok].
  by exists p; auto.
Qed.

(** What [authorize] establishes, before a saved request is replayed. *)
Lemma authorize_good w r :
  ok (continues (fun x => exists tok prov, forall r' ctx,
        rq_Header r' = forward_headers (rq_Header r) x.2 x.1 -> ctx = WithTenantID None x.1 ->
        permitted since r x.2 /\ (permitted since r' x.2 -> authorised since r r' ctx x.1 tok prov x.2)))
    (g_authorize trace_of g w r).
Proof.
  unfold g_authorize. apply (ggood_ctl since _ (fun _ => True)).
  { unfold g_limit_rate. apply ggood_bind. apply (ggood_mono since (fun _ => True)); [by intros []|].
    unfold g_allow. apply ggood_skip; [done|]. intros []; [by repeat (apply ggood_skip; [done|intros ?])|done]. }
  intros _ _. apply (ggood_ctl since _ _ _ _ (resolve_tenant_good w r)). intros [tenant prov] Ht.
  apply (ggood_ctl since _ _ _ _ (extract_token_good w r)). intros tok Htok.
  apply (ggood_ctl since _ _ _ _ (check_proof_good w r tok)). intros proof Hproof.
  apply (ggood_ctl since _ _ _ _ (get_claims_good w r prov tok)). intros c Hc.
  apply (ggood_ctl since _ _ _ _ (bind_issuer_good w r prov c)). intros _ Hi.
  apply (ggood_ctl since _ _ _ _ (bind_key_good w r proof c)). intros _ Hk.
  apply (ggood_ctl since _ _ _ _ (check_fapi_good w r c)). intros _ Hf.
  apply (ggood_ctl since _ _ _ _ (check_policy_good w r c tenant)). intros _ Hp.
  exists tok, prov. intros r' ctx Hh Hctx. split; [done|]. intros Hp'. split; auto. by eapply possession_of.
Qed.

Lemma decide_request_good w r :
  ok (fun o => match o with
      | Forwarded r' ctx _ => exists tenant tok prov c, authorised since r r' ctx tenant tok prov c
      | Replied _ => True
      end) (g_decide_request trace_of url_text g w r).
Proof.
  unfold g_decide_request. apply ggood_bind.
  eapply (ggood_mono since (continues (fun x : Request * TenantContext * Response =>
    exists tenant tok prov c, authorised since r x.1.1 x.1.2 tenant tok prov c))).
  { intros [w'|[[r' ctx] w']] H; [done|exact H]. }
  apply (ggood_ctl since _ _ _ _ (authorize_good w r)). intros [tenant c] (tok & prov & Hau). cbn [fst snd] in Hau.
  apply (ggood_ctl since _ (fun x => rq_Header x.1 = rq_Header r /\ permitted since x.1 c)).
  - apply replay_good. by destruct (Hau (set_headers r (forward_headers (rq_Header r) c tenant)) (WithTenantID None tenant) eq_refl eq_refl).
  - intros [r1 w1] [Hh Hp]. exists tenant, tok, prov, c. apply Hau; [|done|done]. cbn in *. by rewrite Hh.
Qed.

(** What a goroutine ends with. *)
Definition promised (x : result) : Prop :=
  match x with
  | Handled r (Forwarded r' ctx _) => exists tenant tok prov c, authorised since r r' ctx tenant tok prov c
  | _ => True
  end.

Lemma request_thread_good rw r : ok promised (request_thread rw r).
Proof.
  unfold request_thread. apply ggood_bind. eapply ggood_mono; [|apply decide_request_good]. by intros [].
Qed.

Lemma hook_thread_good ev : ok promised (hook_thread ev).
Proof.
  unfold hook_thread. apply ggood_bind.
  apply (ggood_embed since Shared _ (fun _ _ => True) cached_ok (fun _ _ => True)); [done|done|done|].
  eapply good_mono; [|apply good_process]. done.
Qed.
End Steps.

(** ** The pool *)

Definition pool_ok (s : memory * list (thread P)) : Prop :=
  w_now s.1 = clock /\ caches_ok s.1 /\
  Forall (fun th => (th_since th <= w_tick s.1)%nat /\ ggood (th_since th) (promised (th_since th)) (th_prog th)) s.2.

Lemma cleaned_frame w w' : cleaned w w' -> later w w' /\ (caches_ok w -> caches_ok w').
Proof.
  intros [l w0|w0].
  - apply at_loc_caches; [intros w1; unfold mbind, M_bind, Now; split; cbn; [done|lia]|].
    intros -> w1 Hc key e. cbn. intros [E _]%map_lookup_filter_Some. by apply (Hc key).
  - assert (cache_kept w0 (zoom_opt gs_limiter set_limiter tt (now ← Now; modify (RateLimit.cleanup now)) w0).2) as H.
    { apply zoom_kept; [|done]. intros w1. unfold mbind, M_bind, Now. split; cbn; [done|lia]. }
    split; [apply H|by apply cache_kept_caches].
Qed.

Lemma Forall_later (n m : nat) ts :
  (n <= m)%nat ->
  Forall (fun th => (th_since th <= n)%nat /\ ggood (th_since th) (promised (th_since th)) (th_prog th)) ts ->
  Forall (fun th => (th_since th <= m)%nat /\ ggood (th_since th) (promised (th_since th)) (th_prog th)) ts.
Proof. intros Hle H. eapply Forall_impl; [exact H|]. intros th [H1 H2]. split; [lia|done]. Qed.

Lemma guard_step_ok s s' : pool_step s s' -> (w_tick s'.1 <= until)%nat -> pool_ok s -> pool_ok s'.
Proof.
  intros Hs Hu (Hc & Hk & Hf). destruct Hs as [w ts i th p' w' Hi Hp|w ts rw r|w ts ev Hev|w ts w' Hcl]; cbn [fst snd] in *.
  - destruct (proj1 (Forall_lookup _ _) Hf i th Hi) as [Hn Hg]. destruct (th_prog th) as [a| |X o k] eqn:Hth; [done|done|].
    destruct Hp as (env & x & He & Hrun & ->). destruct Hg as [Ho Hg].
    destruct (op_frame env o w x w' Ho Hrun) as [[Hnow Htick] Hcaches].
    split; [cbn; congruence|]. split; [by apply Hcaches|]. cbn [fst snd].
    apply Forall_insert; [by eapply Forall_later|]. split; [cbn; lia|]. cbn [th_prog th_since]. apply Hg.
    exists env, w, w'. by repeat (split; [done|]).
  - split; [done|]. split; [done|]. apply Forall_app. split; [done|]. constructor; [|done].
    split; [done|apply request_thread_good].
  - split; [done|]. split; [done|]. apply Forall_app. split; [done|]. constructor; [|done].
    split; [done|apply hook_thread_good].
  - destruct (cleaned_frame _ _ Hcl) as [[Hnow Htick] Hcaches]. split; [cbn; congruence|]. split; [by apply Hcaches|].
    by eapply Forall_later.
Qed.
End Authorised.

(** Every step lets the clock go on. *)
Lemma pool_step_tick s s' : pool_step s s' -> (w_tick s.1 <= w_tick s'.1)%nat.
Proof.
  intros [w ts i th p' w' Hi Hp|w ts rw r|w ts ev Hev|w ts w' Hcl]; cbn [fst]; try done.
  - destruct (th_prog th) as [a| |X o k]; [done|done|]. destruct Hp as (env & x & _ & Hrun & _).
    pose proof (op_later env o w) as [_ H]. rewrite Hrun in H. exact H.
  - by destruct (cleaned_frame 0 _ _ Hcl) as [[_ H] _].
Qed.

Lemma pool_reaches_tick s s' : pool_reaches s s' -> (w_tick s.1 <= w_tick s'.1)%nat.
Proof. induction 1 as [|s s1 s2 Hs _ IH]; [done|]. apply pool_step_tick in Hs. lia. Qed.

Lemma guard_reaches_ok clock until s s' :
  pool_reaches s s' -> (w_tick s'.1 <= until)%nat -> pool_ok clock until s -> pool_ok clock until s'.
Proof.
  induction 1 as [|s s1 s2 Hs Hr IH]; [done|]. intros Hu H. apply IH; [done|]. eapply guard_step_ok; [done| |done].
  apply pool_reaches_tick in Hr. lia.
Qed.

(** A goroutine run to its end with nothing between its operations, the [k]-th
    and later ones in the environments [envs]; [None] is a panic. *)
Fixpoint gstream {A} (envs : nat -> Env P) (k : nat) (p : gprog P A) (w : memory) : option A * memory :=
  match p with
  | GRet a => (Some a, w)
  | GPanic => (None, w)
  | Op o c => let '(x, w') := run_op rand (envs k) o w in gstream envs (S k) (c x) w'
  end.

Definition ended {A} (x : option A) : gprog P A := match x with Some a => GRet a | None => GPanic end.

Lemma stream_reaches envs ts n p : forall k (w : memory),
  (forall k m, environment m (envs k)) ->
  pool_reaches (w, (ts ++ [Thread n p])%list)
    ((gstream envs k p w).2, (ts ++ [Thread n (ended (gstream envs k p w).1)])%list).
Proof.
  induction p as [b| |X o c IH]; intros k w He; cbn [gstream]; [constructor|constructor|].
  destruct (run_op rand (envs k) o w) as [x w1] eqn:E. eapply rtc_l; [|exact (IH x (S k) w1 He)].
  replace (ts ++ [Thread n (c x)])%list with (<[List.length ts := Thread n (c x)]> (ts ++ [Thread n (Op o c)])%list)
    by (by rewrite insert_app_r_alt, Nat.sub_diag by lia).
  apply (pool_move _ _ _ (Thread n (Op o c))); [by apply list_lookup_middle|]. by exists (envs k), x.
Qed.

(** What every goroutine of a pool keeps to, from empty caches. *)
Lemma pool_good w w' ts :
  (forall s, gs_cache (w_st w) = Some s -> mc_entries s = ∅) ->
  pool_reaches (w, []) (w', ts) -> pool_ok (w_now w) (w_tick w') (w', ts).
Proof.
  intros Hempty Hr. apply (guard_reaches_ok (w_now w) (w_tick w') _ _ Hr); [done|].
  split; [done|]. split; [|constructor]. intros s key e Hs. cbn in Hs. by rewrite (Hempty s Hs), lookup_empty.
Qed.

(** C3: Parallel requests stay authorised.  Whatever requests, webhook
    deliveries and cleanups run in parallel, operation by operation, and
    however tenants, providers and policies change meanwhile: a request that
    is forwarded was authorised while it was handled.  Its tenant was
    registered; the claims are active ones some provider answered for a token
    of the same hash, of the issuer of the tenant's provider, meeting the FAPI
    profile; a valid proof of possession bound to them came with it; an
    enabled rule of a policy configuration in force while it was handled
    admits the method and path that are forwarded, with its requirements met;
    and the upstream is told just these claims. *)
Theorem interleaved_guard_authorises w w' ts i n r r' ctx rw' :
  (forall s, gs_cache (w_st w) = Some s -> mc_entries s = ∅) ->
  pool_reaches (w, []) (w', ts) ->
  ts !! i = Some (Thread n (GRet (Handled r (Forwarded r' ctx rw')))) ->
  exists tenant tok prov c, authorised (w_now w) (w_tick w') n r r' ctx tenant tok prov c.
Proof.
  intros Hempty Hr Hi. destruct (pool_good _ _ _ Hempty Hr) as (_ & _ & Hf).
  exact (proj2 (proj1 (Forall_lookup _ _) Hf i _ Hi)).
Qed.

(** ** Why a goroutine panics *)

(** What an operation tells of the policy configuration. *)
Definition engine_read {X} (o : op P X) : X -> list Engine :=
  match o in op _ X return X -> list Engine with ReadEngine => fun e => [e] | _ => fun _ => [] end.

(** Some answers of its operations take the program [p] to [p'], having read
    the configurations [es]. *)
Inductive follows {A} (p : gprog P A) : list Engine -> gprog P A -> Prop :=
| follows_start : follows p [] p
| follows_op X (o : op P X) k es x : follows p es (Op o k) -> follows p (es ++ engine_read o x)%list (k x).

(** After the reads [es], [p] panics only if those before the panic have a
    lesser configuration after another. *)
Fixpoint panics_when_lesser {A} (es : list Engine) (p : gprog P A) : Prop :=
  match p with
  | GRet _ => True
  | GPanic => later_lesser es
  | Op o k => forall x, panics_when_lesser (es ++ engine_read o x)%list (k x)
  end.
Definition careful {A} (p : gprog P A) : Prop := forall es, panics_when_lesser es p.

Lemma follows_panics {A} (p p' : gprog P A) es : follows p es p' -> careful p -> panics_when_lesser es p'.
Proof. intros H Hp. induction H as [|X o k es x _ IH]; [apply Hp|apply IH]. Qed.

Lemma careful_bind {A B} (p : gprog P A) (f : A -> gprog P B) :
  careful p -> (forall a, careful (f a)) -> careful (p ≫= f).
Proof.
  intros Hp Hf es. specialize (Hp es). revert es Hp. unfold mbind, gprog_mbind.
  induction p as [a| |X o k IH]; intros es Hp; cbn [gprog_bind panics_when_lesser] in *; [apply Hf|done|auto].
Qed.

Lemma careful_ctl {R A B} (p : gprog P (ctl R A)) (f : A -> gprog P (ctl R B)) :
  careful p -> (forall a, careful (f a)) -> careful (g_bind p f).
Proof. intros Hp Hf. apply careful_bind; [done|]. intros [x|a]; [done|apply Hf]. Qed.

Lemma careful_ret {A} (a : A) : careful (mret a : gprog P A).
Proof. done. Qed.
Lemma careful_GRet {A} (a : A) : careful (GRet a : gprog P A).
Proof. done. Qed.
Lemma careful_perform {X} (o : op P X) : careful (perform o).
Proof. done. Qed.

Lemma careful_embed {A} l ask (p : prog A) : (forall tok, careful (ask tok)) -> careful (embed l ask p).
Proof.
  intros Ha. induction p as [a|k IH|key k IH|key c ttl k IH|key k IH|tok k IH]; cbn [embed];
    [done|intros es x; apply IH..|]. apply careful_bind; auto.
Qed.

Lemma careful_reader {A} (r : reader A) : (forall es, panics_on_lesser es r) -> careful (embed_reader r : gprog P A).
Proof.
  intros Hr es. specialize (Hr es). revert es Hr.
  induction r as [a| |k IH]; intros es; cbn [embed_reader panics_on_lesser panics_when_lesser engine_read]; auto.
Qed.

Lemma careful_Evaluate req : careful (g_Evaluate (P := P) req).
Proof. apply careful_reader. intros es. apply r_Evaluate_panics. Qed.

Create HintDb careful_db.
#[local] Hint Resolve careful_ret careful_GRet careful_perform careful_embed careful_Evaluate : careful_db.

(** The cases of a program, each step careful. *)
Ltac be_careful :=
  repeat (intros; cbv zeta; first
    [ solve [auto with careful_db]
    | apply careful_ctl | apply careful_bind
    | match goal with |- careful (match ?x with _ => _ end) => destruct x end ]).

Lemma careful_request rw r : careful (request_thread rw r).
Proof.
  assert (Hreject : forall A w r code desc, careful (g_reject (A := A) trace_of g w r code desc)).
  { intros. unfold g_reject, g_issueChallenge. be_careful. }
  assert (Hproof : forall w r tok, careful (g_check_proof trace_of g w r tok)).
  { intros. unfold g_check_proof, g_Validate, g_ValidateDPoP, g_Nonce_Valid, no_ask. be_careful. }
  assert (Hclaims : forall w r prov tok, careful (g_get_claims trace_of g w r prov tok)).
  { intros. unfold g_get_claims, g_introspect. be_careful. }
  assert (Hpolicy : forall w r c tenant, careful (g_check_policy trace_of g w r c tenant)).
  { intros. unfold g_check_policy, g_handleDenial. be_careful. }
  assert (Hreplay : forall w r c tenant, careful (g_replay trace_of url_text g w r c tenant)).
  { intros. unfold g_replay, g_completeStepUp, g_issueChallenge. be_careful. }
  unfold request_thread, g_decide_request, g_authorize, g_limit_rate, g_allow, g_resolve_tenant, g_extract_token,
    g_bind_issuer, g_bind_key, g_check_fapi. be_careful.
Qed.

Lemma careful_hook ev : careful (hook_thread ev).
Proof. unfold hook_thread. apply careful_bind; [|done]. by apply careful_embed. Qed.

(** What is started in a pool. *)
Definition started (p : gprog P result) : Prop :=
  (exists rw r, p = request_thread rw r) \/ (exists ev, p = hook_thread ev).

(** The readings of the clock at which configurations were read, in their
    order from the [since]-th to the [until]-th, each in force there. *)
Fixpoint read_in_turn (since : nat) (reads : list (nat * Engine)) (until : nat) : Prop :=
  match reads with
  | [] => (since <= until)%nat
  | (n, e) :: reads' =>
      (since <= n)%nat /\ (exists env, environment n env /\ env_engine env = e) /\ read_in_turn n reads' until
  end.

Lemma read_in_turn_later since reads n n' : (n <= n')%nat -> read_in_turn since reads n -> read_in_turn since reads n'.
Proof.
  intros Hn. revert since. induction reads as [|[m e] reads IH]; intros since; cbn; [lia|].
  intros (H1 & H2 & H3). split; [done|]. split; [done|by apply IH].
Qed.

Lemma read_in_turn_snoc since reads n env :
  read_in_turn since reads n -> environment n env -> read_in_turn since (reads ++ [(n, env_engine env)])%list n.
Proof.
  intros H He. revert since H. induction reads as [|[m e] reads IH]; intros since; cbn.
  - intros Hn. split; [done|]. split; [by exists env|done].
  - intros (H1 & H2 & H3). split; [done|]. split; [done|by apply IH].
Qed.

(** The reads a goroutine has made. *)
Definition reads_to (th : thread P) (until : nat) : Prop :=
  exists p reads, started p /\ follows p (map snd reads) (th_prog th) /\ read_in_turn (th_since th) reads until.

Lemma reads_to_later th n n' : (n <= n')%nat -> reads_to th n -> reads_to th n'.
Proof. intros Hn (p & reads & Hp & Hf & Hr). exists p, reads. split; [done|]. split; [done|]. by eapply read_in_turn_later. Qed.

Lemma gmove_reads th (w w' : memory) p' :
  gmove (th_prog th) w p' w' -> reads_to th (w_tick w) -> reads_to (Thread (th_since th) p') (w_tick w').
Proof.
  destruct th as [n p0]. cbn [th_prog th_since]. intros Hm (p & reads & Hp & Hf & Hr). cbn [th_prog th_since] in Hf, Hr.
  destruct p0 as [a| |X o k]; [done|done|]. destruct Hm as (env & x & He & Hrun & ->).
  assert (Hle : (w_tick w <= w_tick w')%nat) by (pose proof (op_later env o w) as [_ H]; by rewrite Hrun in H).
  pose proof (follows_op p X o k _ x Hf) as Hf'. apply (read_in_turn_later n reads _ _ Hle) in Hr as Hr'.
  destruct o; try (exists p, reads; cbn [engine_read] in Hf'; rewrite app_nil_r in Hf'; by repeat split).
  cbn [run_op] in Hrun. injection Hrun as Hx <-. exists p, (reads ++ [(w_tick w, env_engine env)])%list. split; [done|].
  split; [rewrite map_app; cbn; by subst x|by apply read_in_turn_snoc].
Qed.

Lemma pool_reads s s' :
  pool_step s s' -> Forall (fun th => reads_to th (w_tick s.1)) s.2 -> Forall (fun th => reads_to th (w_tick s'.1)) s'.2.
Proof.
  intros Hs Hf. pose proof (pool_step_tick _ _ Hs) as Ht.
  assert (Hf' : Forall (fun th => reads_to th (w_tick s'.1)) s.2)
    by (eapply Forall_impl; [exact Hf|]; intros th; by apply reads_to_later).
  destruct Hs as [w ts i th p' w' Hi Hp|w ts rw r|w ts ev Hev|w ts w' Hcl]; cbn [fst snd] in *; [|apply Forall_app; split; [done|]..|done].
  - apply Forall_insert; [done|]. apply (gmove_reads th w); [done|]. exact (proj1 (Forall_lookup _ _) Hf i th Hi).
  - constructor; [|done]. exists (request_thread rw r), []. split; [left; by eexists _, _|]. split; [constructor|done].
  - constructor; [|done]. exists (hook_thread ev), []. split; [right; by eexists|]. split; [constructor|done].
Qed.

(** C23: Why a request panics.  However the requests and deliveries of a pool
    interleave, one that panics has read the policy configuration several
    times, in the order of the clock since it started, each time as it was in
    force then; and between two of its reads that follow each other a
    configuration was replaced by none, or by one with fewer rules.  In
    particular none panics for want of a first configuration, or while rules
    are only added or changed. *)
Theorem panic_needs_reload w w' ts i n :
  pool_reaches (w, []) (w', ts) -> ts !! i = Some (Thread n GPanic) ->
  exists p reads, started p /\ follows p (map snd reads) GPanic /\ read_in_turn n reads (w_tick w') /\
    shrinks (map snd reads).
Proof.
  intros Hr Hi.
  assert (Hall : Forall (fun th => reads_to th (w_tick w')) ts).
  { remember (w, []) as s eqn:Hs. remember (w', ts) as s' eqn:Hs'.
    assert (H : Forall (fun th => reads_to th (w_tick s.1)) s.2) by (subst s; constructor).
    clear Hs. revert H. enough (Forall (fun th => reads_to th (w_tick s.1)) s.2 ->
      Forall (fun th => reads_to th (w_tick s'.1)) s'.2) as H' by (intros H; apply H' in H; by subst s').
    clear Hs' Hi. induction Hr as [|s s1 s2 H1 _ IH]; [done|]. intros H. by eapply IH, pool_reads. }
  destruct (proj1 (Forall_lookup _ _) Hall i _ Hi) as (p & reads & Hp & Hf & Ht). exists p, reads.
  split; [done|]. split; [done|]. split; [done|]. apply later_lesser_shrinks.
  apply (follows_panics p GPanic); [done|]. destruct Hp as [(rw & r & ->)|(ev & ->)]; [apply careful_request|apply careful_hook].
Qed.
End Pool.

(** ** A pool *)

Section Demo.
#[local] Existing Instance unicode_min.
#[local] Existing Instance accept_all.
#[local] Instance pool_sinks : AuditSink Sink := package_sinks (fun _ _ => None).

(** The registry, provider and policy of the demonstration guard, and a
    policy configuration that may be installed at any time. *)
Definition demo_environment (e : Engine) (n : nat) (env : Env FixedProvider) : Prop :=
  env = env_of (demo_guard true) \/
  env = MkEnv (env_lookup (env_of (demo_guard true))) pv_Introspect pv_Issuer e.

Definition demo_thread : gprog FixedProvider result :=
  request_thread (fun _ => "trace-1") (fun _ p q => p) (demo_guard true) empty_response demo_pay.
(** The policy is withdrawn before the [k]-th operation. *)
Definition demo_envs (k n : nat) : Env FixedProvider :=
  if (n <? k)%nat then env_of (demo_guard true)
  else MkEnv (env_lookup (env_of (demo_guard true))) pv_Introspect pv_Issuer None.
Definition demo_stream (k : nat) :=
  gstream (K := Sink) (F := Q) (fun _ => "0123456789abcdef") (demo_envs k) 0 demo_thread (demo_world true).

Lemma demo_envs_ok k n m : demo_environment None m (demo_envs k n).
Proof. unfold demo_envs. destruct (n <? k)%nat; [by left|by right]. Qed.

Lemma demo_stream_reaches k :
  pool_reaches (F := Q) (fun _ => "trace-1") (fun _ => "0123456789abcdef") (fun _ p q => p) (demo_guard true)
    (demo_environment None) (demo_world true, []) ((demo_stream k).2, [Thread 0 (ended (demo_stream k).1)]).
Proof.
  eapply rtc_l; [apply (pool_request _ _ _ _ _ _ _ empty_response demo_pay)|].
  apply (stream_reaches _ _ _ _ _ _ []), demo_envs_ok.
Qed.

Definition handled_forward (x : option result) : bool :=
  match x with Some (Handled _ (Forwarded _ _ _)) => true | _ => false end.

(** Left alone, the request is forwarded. *)
Example interleaved_guard_authorises_witness :
  exists r r' ctx rw' w',
    demo_stream 100 = (Some (Handled r (Forwarded r' ctx rw')), w') /\
    exists tenant tok prov c,
      authorised (demo_guard true) (demo_environment None) (w_now (demo_world true)) (w_tick w') 0 r r' ctx tenant tok prov c
        (K := Sink) (F := Q).
Proof.
  assert (Hc : handled_forward (demo_stream 100).1 = true) by (vm_compute; reflexivity).
  pose proof (demo_stream_reaches 100) as Hr.
  destruct (demo_stream 100) as [[[r [rw'|r' ctx rw']|e]|] w'] eqn:E; try discriminate Hc.
  exists r, r', ctx, rw', w'. split; [reflexivity|].
  apply (interleaved_guard_authorises (fun _ => "trace-1") (fun _ => "0123456789abcdef") (fun _ p q => p)
    (demo_guard true) (demo_environment None) (demo_world true) w' [Thread 0 (GRet (Handled r (Forwarded r' ctx rw')))] 0 0 r r' ctx rw').
  - intros s [= <-]. reflexivity.
  - exact Hr.
  - reflexivity.
Defined.

(** The policy is withdrawn while it is evaluated: the request panics. *)
Example panic_needs_reload_witness :
  exists w', demo_stream 19 = (None, w') /\
    exists reads, read_in_turn (demo_environment None) 0 reads (w_tick w') /\ shrinks (map snd reads).
Proof.
  assert (Hc : match (demo_stream 19).1 with None => true | Some _ => false end = true) by (vm_compute; reflexivity).
  pose proof (demo_stream_reaches 19) as Hr.
  destruct (demo_stream 19) as [[x|] w'] eqn:E; [discriminate Hc|].
  exists w'. split; [reflexivity|].
  destruct (panic_needs_reload (K := Sink) (F := Q) (fun _ => "trace-1") (fun _ => "0123456789abcdef") (fun _ p q => p)
    (demo_guard true) (demo_environment None) (demo_world true) w' [Thread 0 GPanic] 0 0 Hr eq_refl)
    as (p & reads & _ & _ & Ht & Hs).
  exists reads. split; [exact Ht|exact Hs].
Defined.
End Demo.
