(* ===== verification/GuardTermination.v ===== *)
(** * Requests end

    How many operations the guard makes for one request, whatever other
    goroutines do between them: no loop of the guard depends on anything but
    the number of policies. *)

From Stdlib Require Import QArith.
From S2P Require Import Prelude GoString GoTime Encoding Crypto Json TextLemmas TimeText Http Rar Matcher Policy PolicyReload StepUp Claims Effects AuditLog Cache Revocation Dpop Concurrent Fapi Providers Tenant RateLimit Guard ConcurrentGuard GuardPool.
Open Scope nat_scope.

Section Bounds.
Context {P : Type}.
(** The most policies a configuration has. *)
Variable m : nat.

Definition small (e : Engine) : Prop :=
  match e with Some cfg => List.length (c_Policies cfg) <= m | None => True end.

(** At most [n] reads to the end. *)
Fixpoint reads_le {A} (n : nat) (r : reader A) {struct r} : Prop :=
  match r with
  | Done _ | Panicked => True
  | ReadConfig k => match n with O => False | S n' => forall e, small e -> reads_le n' (k e) end
  end.

(** At most [n] operations to the end. *)
Definition small_answer {X} (o : op P X) : X -> Prop :=
  match o in op _ X return X -> Prop with ReadEngine => small | _ => fun _ => True end.
Fixpoint gops_le {A} (n : nat) (p : gprog P A) {struct p} : Prop :=
  match p with
  | GRet _ | GPanic => True
  | Op o k => match n with O => False | S n' => forall x, small_answer o x -> gops_le n' (k x) end
  end.

Lemma reads_le_more {A} n n' (r : reader A) : n <= n' -> reads_le n r -> reads_le n' r.
Proof.
  revert n n'. induction r as [a| |k IH]; intros [|n] [|n'] Hle; cbn; try done; try lia.
  intros H e He. apply (IH e n); [lia|auto].
Qed.

Lemma gops_le_more {A} n n' (p : gprog P A) : n <= n' -> gops_le n p -> gops_le n' p.
Proof.
  revert n n'. induction p as [a| |X o k IH]; intros [|n] [|n'] Hle; cbn; try done; try lia.
  intros H x Hx. apply (IH x n); [lia|auto].
Qed.

Lemma gops_bind {A B} n n' (p : gprog P A) (f : A -> gprog P B) :
  gops_le n p -> (forall a, gops_le n' (f a)) -> gops_le (n + n') (p ≫= f).
Proof.
  intros Hp Hf. unfold mbind, gprog_mbind. revert n Hp. induction p as [a| |X o k IH]; intros n Hp; cbn in *; [|done|].
  - apply (gops_le_more n'); [lia|apply Hf].
  - destruct n as [|n]; [done|]. cbn. auto.
Qed.

Lemma gops_ctl {R A B} n n' (p : gprog P (ctl R A)) (f : A -> gprog P (ctl R B)) :
  gops_le n p -> (forall a, gops_le n' (f a)) -> gops_le (n + n') (g_bind p f).
Proof. intros Hp Hf. apply gops_bind; [done|]. intros [x|a]; [done|apply Hf]. Qed.

Lemma gops_perform {X A} n (o : op P X) (f : X -> gprog P A) :
  (forall x, gops_le n (f x)) -> gops_le (S n) (perform o ≫= f).
Proof. intros Hf x _. apply Hf. Qed.

Lemma gops_ask {X} n (o : op P X) : gops_le (S n) (perform o).
Proof. by intros x _. Qed.

Lemma gops_embed {A} l ask n (p : prog A) :
  (forall tok, gops_le 1 (ask tok)) -> ops_le n p -> gops_le n (embed l ask p).
Proof.
  intros Ha. revert n. induction p as [a|k IH|key k IH|key c ttl k IH|key k IH|tok k IH]; intros [|n]; cbn; try done;
    try (intros H x _; by apply IH).
  intros H. apply (gops_bind 1); [apply Ha|]. intros x. by apply IH.
Qed.

Lemma gops_reader {A} n (r : reader A) : reads_le n r -> gops_le n (embed_reader r : gprog P A).
Proof. revert n. induction r as [a| |k IH]; intros [|n]; cbn; try done. intros H e He. by apply IH, H. Qed.

(** ** The evaluation of the policies *)

Section Evaluation.
Context {U : Unicode}.

Lemma reads_check p req : reads_le 1 (r_check p req).
Proof.
  unfold r_check. destruct (missing_scope p req); [done|]. destruct (String.eqb _ _); [done|]. by intros [cfg|].
Qed.

Lemma reads_loop n : forall i req, reads_le (n + 1) (r_loop n i req).
Proof.
  induction n as [|n IH]; intros i req; [done|]. cbn. intros [cfg|] _; [|done]. destruct (c_Policies cfg !! i) as [p|]; [|done].
  destruct (negb (p_Enabled p)); [apply IH|]. destruct (negb (matchesPolicy p req)); [apply IH|].
  apply (reads_le_more 1); [lia|apply reads_check].
Qed.

Lemma reads_Evaluate req : reads_le (m + 3) (r_Evaluate req).
Proof.
  replace (m + 3) with (S (S (m + 1))) by lia. intros [cfg|] _; [|done]. intros [cfg'|] Hs; [|done].
  apply (reads_le_more (List.length (c_Policies cfg') + 1)); [cbn in Hs; lia|apply reads_loop].
Qed.

Lemma gops_Evaluate req : gops_le (m + 3) (g_Evaluate (P := P) req).
Proof. apply gops_reader, reads_Evaluate. Qed.
End Evaluation.
End Bounds.

(** ** The steps of the guard *)

Section Guard.
Context {U : Unicode} {L : LocalTime} {Sig : Signatures} {P : Type}.
Context (trace_of : Request -> string) (url_text : Request -> string -> string -> string).
Variable g : Guard P.
Variable m : nat.
Abbreviation ops := (gops_le (P := P) m) (only parsing).

Lemma ops_issueChallenge w r code desc acr age : ops 1 (g_issueChallenge trace_of g w r code desc acr age).
Proof. by apply gops_perform. Qed.

Lemma ops_reject {A} w r code desc : ops 1 (g_reject (A := A) trace_of g w r code desc).
Proof. apply (gops_bind m 1 0); [apply ops_issueChallenge|done]. Qed.

Lemma ops_handleDenial w r sub tenant result : ops 6 (g_handleDenial trace_of g w r sub tenant result).
Proof. unfold g_handleDenial. by repeat (apply gops_perform; intros _). Qed.

Lemma ops_limit_rate w r : ops 3 (g_limit_rate (P := P) w r).
Proof.
  apply (gops_bind m 3 0); [|by intros []]. apply gops_perform. intros []; [|done].
  apply gops_perform. intros now. apply gops_ask.
Qed.

Lemma ops_resolve_tenant w r : ops 2 (g_resolve_tenant trace_of g w r).
Proof.
  unfold g_resolve_tenant. destruct (Resolve _ r); [|eapply gops_le_more; [|apply ops_reject]; lia].
  apply gops_perform. intros [p|e]; [done|apply ops_reject].
Qed.

Lemma ops_extract_token w r : ops 1 (g_extract_token trace_of g w r).
Proof. unfold g_extract_token. destruct (ExtractBearerToken _); [done|apply ops_reject]. Qed.

Lemma ops_ValidateDPoP r tok cfg : ops 3 (g_ValidateDPoP r tok cfg).
Proof.
  unfold g_ValidateDPoP. destruct (String.eqb _ _); [done|]. destruct (parseDPoPJWT _) as [p|]; [|done].
  destruct (verifyDPoPSignature _ p); [done|]. destruct (negb _); [done|]. destruct (_ && _); [done|].
  apply gops_perform. intros t1. cbv zeta. destruct (_ && _); [done|]. apply gops_perform. intros t2.
  destruct (time_After _ _); [done|]. destruct (String.eqb _ _); [done|]. destruct (negb _); [done|].
  destruct (dc_Nonce cfg); [|done]. apply (gops_bind m 1 0); [|done]. unfold g_Nonce_Valid.
  destruct (String.eqb _ _); [done|]. by apply gops_perform.
Qed.

Lemma ops_Validate cfg r tok : ops 6 (g_Validate cfg r tok).
Proof.
  apply (gops_bind m 3 3); [apply ops_ValidateDPoP|]. intros [p|e]; [|done]. destruct (String.eqb _ _); [done|].
  apply gops_perform. intros has. apply gops_embed; [done|apply ops_check_replay].
Qed.

Lemma ops_check_proof w r tok : ops 8 (g_check_proof trace_of g w r tok).
Proof.
  unfold g_check_proof. destruct (gd_dpop g) as [cfg|]; [|done]. apply (gops_bind m 6 2); [apply ops_Validate|].
  assert (H1 : forall w desc, ops 2 (g_reject (A := option DPoPProof) trace_of g w r ErrCodeInvalidToken desc))
    by (intros; eapply gops_le_more; [|apply ops_reject]; lia).
  intros [p|e]; [done|]. destruct (gd_dpopNonce g); [|apply H1]. destruct (errors_Is _ _); [|apply H1].
  apply gops_perform. intros nonce. apply ops_reject.
Qed.

Lemma ops_get_claims w r prov tok : ops 11 (g_get_claims trace_of g w r prov tok).
Proof.
  apply (gops_bind m 10 1).
  - apply gops_perform. intros []; [|apply gops_ask]. apply gops_embed; [intros; apply gops_ask|apply ops_p_introspect].
  - intros [c|e]; [|apply ops_reject]. destruct (negb _); [apply ops_reject|done].
Qed.

Lemma ops_bind_issuer w r prov c : ops 2 (g_bind_issuer trace_of g w r prov c).
Proof. apply gops_perform. intros iss. destruct (_ && _); [apply ops_reject|done]. Qed.

Lemma ops_bind_key w r proof c : ops 1 (g_bind_key trace_of g w r proof c).
Proof. unfold g_bind_key. destruct proof; [|done]. destruct (VerifyDPoPBinding _ c); [apply ops_reject|done]. Qed.

Lemma ops_check_fapi w r c : ops 2 (g_check_fapi trace_of g w r c).
Proof.
  unfold g_check_fapi. destruct (gd_fapiCfg g); [|done]. apply gops_perform. intros [e|]; [apply ops_reject|done].
Qed.

Lemma ops_check_policy w r c tenant : ops (m + 10) (g_check_policy trace_of g w r c tenant).
Proof.
  unfold g_check_policy. destruct (gd_policyEngine g); [|done]. replace (m + 10) with (S ((m + 3) + 6)) by lia.
  apply gops_perform. intros age. apply gops_bind; [apply gops_Evaluate|]. intros result. destruct (negb _).
  - apply (gops_bind m 6 0); [apply ops_handleDenial|done].
  - by apply gops_perform.
Qed.

Lemma ops_completeStepUp w r saved c tenant : ops (m + 9) (g_completeStepUp trace_of url_text g w r saved c tenant).
Proof.
  replace (m + 9) with ((1 + ((m + 3) + 2)) + 3) by lia. apply gops_ctl.
  - destruct (gd_policyEngine g); [|done]. apply gops_perform. intros age. apply gops_bind; [apply gops_Evaluate|].
    intros result. destruct (negb _); [|done]. apply gops_perform. intros _.
    apply (gops_bind m 1 0); [apply ops_issueChallenge|done].
  - intros _. do 2 (apply gops_perform; intros ?). destruct (Complete _ _ _ _). destruct (_ || _); [|done].
    apply (gops_bind m 1 0); [apply ops_issueChallenge|done].
Qed.

Lemma ops_replay w r c tenant : ops (m + 10) (g_replay trace_of url_text g w r c tenant).
Proof.
  unfold g_replay. destruct (String.eqb _ _); [done|]. replace (m + 10) with (S ((m + 9) + 0)) by lia.
  apply gops_perform. intros now. apply gops_ctl; [|done].
  destruct (ReadStateCookie now r _) as [[saved|]|e]; [|done|done]. destruct (_ && _); [apply ops_completeStepUp|done].
Qed.

Lemma ops_authorize w r : ops (m + 40) (g_authorize trace_of g w r).
Proof.
  replace (m + 40) with (3 + (2 + (1 + (8 + (11 + (2 + (1 + (2 + ((m + 10) + 0))))))))) by lia. unfold g_authorize.
  apply gops_ctl; [apply ops_limit_rate|]. intros _. apply gops_ctl; [apply ops_resolve_tenant|]. intros [tenant prov].
  apply gops_ctl; [apply ops_extract_token|]. intros tok. apply gops_ctl; [apply ops_check_proof|]. intros proof.
  apply gops_ctl; [apply ops_get_claims|]. intros c. apply gops_ctl; [apply ops_bind_issuer|]. intros _.
  apply gops_ctl; [apply ops_bind_key|]. intros _. apply gops_ctl; [apply ops_check_fapi|]. intros _.
  apply gops_ctl; [apply ops_check_policy|done].
Qed.

Lemma ops_request rw r : ops (2 * m + 50) (request_thread trace_of url_text g rw r).
Proof.
  replace (2 * m + 50) with ((((m + 40) + ((m + 10) + 0)) + 0) + 0) by lia. apply gops_bind; [|done].
  apply gops_bind; [|by intros [?|[[? ?] ?]]]. apply gops_ctl; [apply ops_authorize|]. intros [tenant c].
  apply gops_ctl; [apply ops_replay|]. by intros [r' w'].
Qed.
End Guard.

(** ** In a pool *)

Section Pool.
Context {U : Unicode} {L : LocalTime} {Sig : Signatures}.
Context {P K F : Type} `{!AuditSink K} `{!GoFloat F}.
Context (trace_of : Request -> string) (rand : nat -> string) (url_text : Request -> string -> string -> string).
Variable g : Guard P.
Variable environment : nat -> Env P -> Prop.
Abbreviation memory := (world (GState MemoryCache K F)) (only parsing).

(** One operation of a goroutine, in whatever state the others left. *)
Definition gmoves {A} (p p' : gprog P A) : Prop :=
  exists (w w' : memory), gmove rand environment p w p' w'.

Definition blocked {A} (p : gprog P A) (w : memory) : Prop := ~ exists p' w', gmove rand environment p w p' w'.

Lemma moves_bound {A} m n n' (p p' : gprog P A) :
  (forall i env, environment i env -> small m (env_engine env)) ->
  nsteps gmoves n p p' -> gops_le m n' p -> (n <= n')%nat.
Proof.
  intros Hsmall Hn. revert n'. induction Hn as [p|n p p1 p' Hm _ IH]; intros n' Hb; [lia|].
  destruct Hm as (w & w' & Hm). destruct p as [a| |X o k]; [done|done|].
  destruct n' as [|n']; [done|]. destruct Hm as (env & x & He & Hr & ->).
  enough (n <= n') by lia. apply IH, Hb. destruct o; cbn; try done.
  cbn in Hr. injection Hr as <- _. by apply (Hsmall (w_tick w)).
Qed.

(** C21: Every request ends.  Whatever other goroutines do between its
    operations, and whatever is registered, refreshed or reloaded meanwhile,
    the guard makes at most fifty operations and two for each of the at most
    [m] policies of a configuration, its own and those of a replayed request;
    and at no point is it blocked: it has ended, with an answer or a panic, or
    can make its next operation in any state. *)
Theorem requests_end m rw r n p :
  (forall i, exists env, environment i env) ->
  (forall i env, environment i env -> small m (env_engine env)) ->
  nsteps gmoves n (request_thread trace_of url_text g rw r) p ->
  (n <= 2 * m + 50)%nat /\ ((exists x, p = GRet x) \/ p = GPanic \/ forall w, ~ blocked p w).
Proof.
  intros Henv Hsmall Hn. split; [by eapply moves_bound, ops_request|].
  destruct p as [x| |X o k]; [left; by eexists|by right; left|]. right; right. intros w Hb. apply Hb.
  destruct (Henv (w_tick w)) as [env He]. destruct (run_op rand env o w) as [x w'] eqn:Hr.
  by exists (k x), w', env, x.
Qed.
End Pool.

Section Demo.
#[local] Existing Instance unicode_min.
#[local] Existing Instance accept_all.
#[local] Existing Instance GuardPool.pool_sinks.

(** The demonstration guard has one policy. *)
Example requests_end_witness :
  exists p, gmoves (K := Sink) (F := Q) (fun _ => "0123456789abcdef") (demo_environment None) demo_thread p /\
    ((exists x, p = GRet x) \/ p = GPanic \/
     forall w, ~ blocked (K := Sink) (F := Q) (fun _ => "0123456789abcdef") (demo_environment None) p w).
Proof.
  assert (Hs : exists p, gmoves (K := Sink) (F := Q) (fun _ => "0123456789abcdef") (demo_environment None) demo_thread p).
  { eexists. exists (demo_world true). eexists. exists (env_of (demo_guard true)). eexists.
    split; [by left|]. split; reflexivity. }
  destruct Hs as [p Hp]. exists p. split; [exact Hp|].
  apply (requests_end (K := Sink) (F := Q) (fun _ => "trace-1") (fun _ => "0123456789abcdef") (fun _ p q => p)
    (demo_guard true) (demo_environment None) 1 empty_response demo_pay 1 p).
  - intros i. exists (env_of (demo_guard true)). by left.
  - intros i env [-> | ->]; vm_compute; auto.
  - eapply nsteps_l; [exact Hp|apply nsteps_O].
Defined.
End Demo.
