(* ===== verification/StepUpFlow.v ===== *)
(** * The step-up flow across requests

    What [internal/gateway/guard.go] and [internal/core/stepup/statemachine.go]
    promise together: the request that the policy denied is saved in the
    cookie of the denial, and is the one forwarded when the client comes back
    with that cookie and a stronger token. *)

From Stdlib Require Import QArith.
From S2P Require Import Prelude GoString GoTime Encoding Crypto Json TextLemmas TimeText Http Rar Matcher Policy StepUp Claims Effects AuditLog Cache Revocation Dpop Fapi Providers Tenant RateLimit Guard.
Open Scope Z_scope.

Lemma SetStateCookie_rest {U : Unicode} {L : LocalTime} rw saved key :
  rs_Status (SetStateCookie rw saved key).2 = rs_Status rw /\
  rs_Header (SetStateCookie rw saved key).2 = rs_Header rw.
Proof. unfold SetStateCookie. by destruct (Encode saved). Qed.

Section Flow.
#[local] Set Default Proof Using "All".
Context {U : Unicode} {L : LocalTime} {Sig : Signatures}.
Context {S P K F : Type} `{!Cache S} `{!CacheLaws S} `{!Provider P} `{!AuditSink K} `{!GoFloat F}.
Context (trace_of : Request -> string) (rand : nat -> string).
Context (url_text : Request -> string -> string -> string).
Implicit Types (w : world (GState S K F)) (g : Guard P).

(** The answer to a denial: a 401 that names the strength the policy wants,
    with the state cookie of the saved request. *)
Record denial_answer g (result : PolicyResult) (saved : SavedRequest) (rw : Response) : Prop := {
  da_status : rs_Status rw = Some StatusUnauthorized;
  da_challenge : Header_Get (rs_Header rw) "WWW-Authenticate" =
    WWWAuthenticateHeader
      (NewStepUpChallenge (NewInsufficientACRError (pr_RequiredACR result) (pr_RequiredMaxAge result)) (gd_realm g));
  da_cookie : rs_Cookies rw = rs_Cookies (SetStateCookie empty_response saved (gd_cookieSecret g)).2
}.

(** The request as it is saved. *)
Definition saved_of (id : string) (t : Time) (r : Request) (result : PolicyResult) : SavedRequest :=
  MkSaved (rq_Method r) (rq_Path r) (rq_RawQuery r) (newStateID id) t
    (pr_RequiredACR result) (pr_RequiredMaxAge result).

Lemma handleDenial_run g r subject tenant result w t :
  frozen w t -> gd_cookieSecret g <> EmptyString ->
  exists id, denial_answer g result (saved_of id t r result)
    (handleDenial (F := F) (S := S) trace_of rand g empty_response r subject tenant result w).1.
Proof.
  intros Hf Hs. unfold handleDenial. unfold mbind, M_bind.
  pose proof (on_audit_frame (S := S) (P := P) (F := F) trace_of rand url_text (EmitPolicyDecision (trace_of r) subject tenant (rq_Path r) (rq_Method r)
    (match pr_MatchedPolicy result with Some p => p_Name p | None => EmptyString end) (pr_Reason result) false) w
    (fun x => EmitPolicyDecision_later _ _ _ _ _ _ _ _ x)) as [[Hn _] _].
  destruct (on_audit _ w) as [u w1]. cbn [snd] in Hn. cbn -[SetStateCookie WriteChallenge].
  rewrite !Hn, !Hf. rewrite (proj2 (String.eqb_neq _ _) Hs). cbn [negb].
  exists (rand (gs_draws (w_st w1))).
  set (rw := (SetStateCookie _ _ _).2).
  assert (Hst : rs_Status rw = None) by apply SetStateCookie_rest.
  split; unfold WriteChallenge, Write, WriteHeader, SetHeader; cbn [rs_Status rs_Header rs_Cookies].
  - by rewrite Hst.
  - rewrite Header_Get_Set_other by done. apply Header_Get_Set_same.
  - done.
Qed.
(** Without the policy's consent the guard answers with a denial. *)
Lemma denied_answer g engine r w t tenant prov tok proof c :
  frozen w t -> gd_cookieSecret g <> EmptyString -> gd_policyEngine g = Some engine ->
  accepted_at (without_policy g) w t r tenant prov tok proof c ->
  let result := Evaluate engine (policy_request (rq_Method r) (rq_Path r) c (AuthAge t c)) in
  pr_Allowed result = false ->
  exists id rw1, (decide_request trace_of rand url_text g empty_response r w).1 = Replied rw1 /\
    denial_answer g result (saved_of id t r result) rw1.
Proof.
  intros Hf Hs He Ha result Hno.
  destruct (accepted_identify trace_of rand url_text g empty_response r w t _ _ _ _ _ Hf Ha) as (w1 & H1 & Hl1).
  apply (identify_authorize trace_of rand url_text) in H1.
  pose proof (frozen_later _ _ _ Hf Hl1) as Hf1.
  destruct (AuthAge_now_run c w1) as (w2 & E & Hl2 & _). unfold now_of in E. rewrite Hf1 in E.
  destruct (handleDenial_run g r (cl_Subject c) tenant result w2 t (frozen_later _ _ _ Hf1 Hl2) Hs) as (id & Hd).
  unfold decide_request, handle. unfold ctl_bind at 1, mbind at 1 2, M_bind at 1 2. rewrite H1.
  unfold ctl_bind, check_policy. rewrite He. unfold mbind, M_bind. rewrite E. fold result. rewrite Hno. cbn [negb].
  destruct (handleDenial _ _ _ _ _ _ _ _ w2) as [rw1 w3]. cbn [fst] in Hd. by exists id, rw1.
Qed.

(** A saved request that the policy allows now is the one that goes on. *)
Lemma completeStepUp_run g rw r saved c tenant w t :
  frozen w t -> time_Since t (sr_SavedAt saved) <= sm_Timeout (gd_sm g) ->
  (forall engine, gd_policyEngine g = Some engine ->
    pr_Allowed (Evaluate engine (policy_request (sr_Method saved) (sr_Path saved) c (AuthAge t c))) = true) ->
  exists r1 w1, completeStepUp (S := S) (F := F) trace_of url_text g rw r saved c tenant w = (Continue r1, w1) /\
    rq_Method r1 = sr_Method saved /\ rq_Path r1 = sr_Path saved /\ rq_RawQuery r1 = sr_Query saved /\
    rq_Host r1 = rq_Host r /\ rq_Header r1 = rq_Header r /\ rq_Body r1 = rq_Body r.
Proof.
  intros Hf Hage Hpol. unfold completeStepUp.
  match goal with |- context [ctl_bind ?m _ w] =>
    assert (Hp : exists w1, later w w1 /\ m w = (Continue tt, w1)) end.
  { destruct (gd_policyEngine g) as [engine|]; [|by exists w].
    destruct (AuthAge_now_run c w) as (w2 & E & Hl & _). exists w2. split; [done|].
    unfold mbind at 1, M_bind at 1. rewrite E. cbv beta iota zeta. unfold now_of. rewrite Hf, (Hpol engine) by done. done. }
  destruct Hp as (w1 & Hl & Hp). rewrite (ctl_bind_run _ _ _ _ _ Hp).
  pose proof (frozen_later _ _ _ Hf Hl) as Hf1. unfold mbind, M_bind, Now. cbn [w_now w_tick w_st]. rewrite !Hf1.
  unfold Complete. cbn [fs_State fs_StartedAt].
  rewrite (bool_decide_eq_true_2 (StateChallenge = StateChallenge)) by done. cbn [negb].
  rewrite (proj2 (Z.ltb_ge _ _) Hage). cbn [fs_State].
  rewrite !bool_decide_eq_true_2 by done. by eexists _, _.
Qed.

(** Coming back with an authentic cookie. *)
Lemma replay_completes g rw r saved c tenant w t :
  frozen w t -> gd_cookieSecret g <> EmptyString ->
  ReadStateCookie t r (gd_cookieSecret g) = Ok (Some saved) ->
  sr_Path saved <> EmptyString -> sr_Path saved <> rq_Path r ->
  time_Since t (sr_SavedAt saved) <= sm_Timeout (gd_sm g) ->
  (forall engine, gd_policyEngine g = Some engine ->
    pr_Allowed (Evaluate engine (policy_request (sr_Method saved) (sr_Path saved) c (AuthAge t c))) = true) ->
  exists r1 rw1 w1, replay (S := S) (F := F) trace_of url_text g rw r c tenant w = (Continue (r1, rw1), w1) /\
    rq_Method r1 = sr_Method saved /\ rq_Path r1 = sr_Path saved /\ rq_RawQuery r1 = sr_Query saved /\
    rq_Host r1 = rq_Host r /\ rq_Header r1 = rq_Header r /\ rq_Body r1 = rq_Body r.
Proof.
  intros Hf Hs Hc Hp Hne Hage Hpol. unfold replay. rewrite (proj2 (String.eqb_neq _ _) Hs).
  unfold mbind at 1, M_bind at 1. cbn [Now]. rewrite Hf, Hc.
  rewrite (proj2 (String.eqb_neq _ _) Hp), (proj2 (String.eqb_neq _ _) Hne). cbn [negb andb].
  destruct (completeStepUp_run g rw r saved c tenant (World (w_now w) (1 + w_tick w)%nat (w_st w)) t Hf Hage Hpol)
    as (r1 & w1 & H1 & Hr1).
  rewrite (ctl_bind_run _ _ _ _ _ H1). by eexists _, _, _.
Qed.
Lemma saved_ok_of id t r result : saved_ok (saved_of EmptyString t r result) -> saved_ok (saved_of id t r result).
Proof using Type.
  intros (H1 & H2 & H3 & _ & H5 & H6 & H7). repeat (split; [done|]). split; [|done].
  cbn [sr_StateID saved_of]. unfold newStateID.
  unfold is_ascii. rewrite str_forall_spec. intros c Hc.
  pose proof (proj1 (str_forall_spec _ _) (hex_encode_chars id) c Hc) as Hx.
  unfold is_lower_hex, in_range in Hx. unfold is_ascii_char. apply Z.ltb_lt.
  apply orb_true_iff in Hx as [Hx|Hx]; b2p; lia.
Qed.

(** C6: A step-up runs to completion.  A request whose client is known but
    whose authentication the policy finds too weak is answered with 401, the
    strength required, and one cookie; when the client comes back with that
    cookie within the flow's timeout and ten minutes, to any guard with the
    same cookie key, on a page it may visit and with a token strong enough
    for the saved request, the guard forwards the saved method, path and query with
    the headers, host and body of the request at hand. *)
Theorem step_up_completes g engine r w t tenant prov tok proof c :
  zone_ok -> frozen w t -> gd_cookieSecret g <> EmptyString -> gd_policyEngine g = Some engine ->
  accepted_at (without_policy g) w t r tenant prov tok proof c ->
  let result := Evaluate engine (policy_request (rq_Method r) (rq_Path r) c (AuthAge t c)) in
  pr_Allowed result = false -> saved_ok (saved_of EmptyString t r result) -> rq_Path r <> EmptyString ->
  exists rw1 ck, (decide_request trace_of rand url_text g empty_response r w).1 = Replied rw1 /\
    rs_Status rw1 = Some StatusUnauthorized /\
    Header_Get (rs_Header rw1) "WWW-Authenticate" = WWWAuthenticateHeader
      (NewStepUpChallenge (NewInsufficientACRError (pr_RequiredACR result) (pr_RequiredMaxAge result)) (gd_realm g)) /\
    rs_Cookies rw1 = [ck] /\ ck_Name ck = CookieName /\
    forall g' w' t' rw r' tenant' prov' tok' proof' c',
      frozen w' t' -> gd_cookieSecret g' = gd_cookieSecret g ->
      t' - t <= cookieMaxAge * Second -> time_Since t' t <= sm_Timeout (gd_sm g') ->
      request_Cookie r' CookieName = Some (ck_Value ck) -> rq_Path r' <> rq_Path r ->
      accepted_at g' w' t' r' tenant' prov' tok' proof' c' ->
      (forall engine', gd_policyEngine g' = Some engine' ->
        pr_Allowed (Evaluate engine' (policy_request (rq_Method r) (rq_Path r) c' (AuthAge t' c'))) = true) ->
      exists fwd rw', (decide_request trace_of rand url_text g' rw r' w').1 =
          Forwarded fwd (WithTenantID None tenant') rw' /\
        rq_Method fwd = rq_Method r /\ rq_Path fwd = rq_Path r /\ rq_RawQuery fwd = rq_RawQuery r /\
        rq_Host fwd = rq_Host r' /\ rq_Body fwd = rq_Body r' /\
        rq_Header fwd = forward_headers (rq_Header r') c' tenant'.
Proof.
  intros Hz Hf Hs He Ha result Hno Hok Hp.
  destruct (denied_answer g engine r w t _ _ _ _ _ Hf Hs He Ha Hno) as (id & rw1 & Hd & [Hst Hch Hck]).
  pose proof (saved_ok_of id _ _ _ Hok) as Hok'.
  destruct (state_cookie_roundtrip empty_response (saved_of id t r result) (gd_cookieSecret g) t Hz Hok')
    as (value & Hset & _); [cbn; unfold cookieMaxAge, Second; lia|].
  fold result in Hck. rewrite Hset in Hck. exists rw1, (MkCookie CookieName value cookieMaxAge "/" true true).
  repeat (split; [done|]). intros g' w' t' rw r' tenant' prov' tok' proof' c' Hf' Hs' Ht Hto Hcookie Hne Ha' Hpol.
  destruct (state_cookie_roundtrip empty_response (saved_of id t r result) (gd_cookieSecret g) t' Hz Hok')
    as (value' & Hset' & Hread); [done|].
  rewrite Hset in Hset'. injection Hset' as Hv. rewrite <- Hv in Hread. specialize (Hread r' Hcookie).
  rewrite <- Hs' in Hread, Hs.
  destruct (accepted_authorize trace_of rand url_text g' rw r' w' t' _ _ _ _ _ Hf' Ha') as (w1 & Hau & Hl).
  destruct (replay_completes g' rw r' _ c' tenant' w1 t' (frozen_later _ _ _ Hf' Hl) Hs Hread Hp
    (fun H => Hne (eq_sym H)) Hto Hpol) as (r1 & rw2 & w2 & Hre & Hm & Hpa & Hq & Hh & Hhd & Hb).
  unfold decide_request, handle. unfold mbind, M_bind.
  rewrite (ctl_bind_run _ _ _ _ _ Hau), (ctl_bind_run _ _ _ _ _ Hre). cbn [mret M_ret fst].
  eexists _, _. split; [reflexivity|]. cbn [rq_Method rq_Path rq_RawQuery rq_Host rq_Body rq_Header set_headers].
  by rewrite Hhd.
Qed.
End Flow.

Section Demo.
#[local] Existing Instance unicode_min.
#[local] Existing Instance accept_all.
#[local] Instance flow_sinks : AuditSink Sink := package_sinks (fun _ _ => None).

(** Alice signed in with a password only: the token [weak]. *)
Definition weak_claims : CommonClaims :=
  MkClaims "alice" "https://as" [] "j-weak" time_zero time_zero None
    "urn:acr:1" ["pwd"] "s-1" (900 * Second) EmptyString EmptyString [] ["pay"] EmptyString []
    None true.

Definition flow_config : GuardConfig MemoryCache FixedProvider Sink Q :=
  MkGuardConfig
    (Register "acme" (MkFixed "https://as" (fun t => if String.eqb t "tok" then Ok demo_claims else Ok weak_claims))
       NewRegistry)
    (NewHeaderResolver EmptyString)
    (Some (New (Some (MkConfig "1" "bank" [demo_guard_policy] ["urn:acr:1"; "urn:acr:2"]))))
    "bank" (Some (NewAuditLogger (SlogSink []))) (Some []) (Some Memory.NewMemoryCache)
    false EmptyString "hook" "cookie-key" None 0%Q 0.
Definition flow_guard : Guard FixedProvider := (NewGuard flow_config).1.
Definition flow_world (t : Time) : world (GState MemoryCache Sink Q) :=
  World (fun _ => t) 0 (NewGuard flow_config).2.

Definition flow_decide :=
  decide_request (K := Sink) (F := Q) (fun _ => "trace-1") (fun _ => "0123456789abcdef") (fun _ p _ => p) flow_guard.

Definition flow_provider : FixedProvider :=
  MkFixed "https://as" (fun t => if String.eqb t "tok" then Ok demo_claims else Ok weak_claims).

Lemma flow_weak :
  accepted_at (without_policy flow_guard) (flow_world (1010 * Second)) (1010 * Second)
    (with_headers "/api/pay" (demo_headers "weak") []) "acme" flow_provider "weak" None weak_claims.
Proof.
  split; [intros rl H; discriminate H|vm_compute; reflexivity|vm_compute; reflexivity|vm_compute; reflexivity|exact I
         |vm_compute; reflexivity|vm_compute; reflexivity|right; reflexivity|intros p H; discriminate H|intros p H; discriminate H|intros e H; discriminate H].
Qed.

Lemma flow_strong cookies :
  accepted_at flow_guard (flow_world (1070 * Second)) (1070 * Second)
    (with_headers "/callback" (demo_headers "tok") cookies) "acme" flow_provider "tok" None demo_claims.
Proof.
  split; [intros rl H; discriminate H|vm_compute; reflexivity|vm_compute; reflexivity|vm_compute; reflexivity|exact I
         |vm_compute; reflexivity|vm_compute; reflexivity|right; reflexivity|intros p H; discriminate H
         |intros p H; discriminate H|intros engine [= <-]; vm_compute; reflexivity].
Qed.

Example step_up_completes_witness :
  exists rw1 ck,
    (flow_decide empty_response (with_headers "/api/pay" (demo_headers "weak") []) (flow_world (1010 * Second))).1
      = Replied rw1 /\ rs_Status rw1 = Some 401 /\ rs_Cookies rw1 = [ck] /\
    exists fwd rw',
      (flow_decide empty_response (with_headers "/callback" (demo_headers "tok") [(CookieName, ck_Value ck)])
         (flow_world (1070 * Second))).1 = Forwarded fwd (Some "acme") rw' /\ rq_Path fwd = "/api/pay".
Proof.
  destruct (step_up_completes (fun _ => "trace-1") (fun _ => "0123456789abcdef") (fun _ p _ => p) flow_guard
    (New (Some (MkConfig "1" "bank" [demo_guard_policy] ["urn:acr:1"; "urn:acr:2"])))
    (with_headers "/api/pay" (demo_headers "weak") []) (flow_world (1010 * Second)) (1010 * Second)
    "acme" flow_provider "weak" None weak_claims) as (rw1 & ck & Hd & Hst & _ & Hck & _ & Hback).
  - split; reflexivity.
  - intros i. reflexivity.
  - discriminate.
  - reflexivity.
  - exact flow_weak.
  - vm_compute. reflexivity.
  - repeat split; try reflexivity; vm_compute; discriminate.
  - discriminate.
  - exists rw1, ck. split; [exact Hd|]. split; [exact Hst|]. split; [exact Hck|].
    destruct (Hback flow_guard (flow_world (1070 * Second)) (1070 * Second) empty_response
      (with_headers "/callback" (demo_headers "tok") [(CookieName, ck_Value ck)])
      "acme" flow_provider "tok" None demo_claims) as (fwd & rw' & Hfw & _ & Hp & _).
    + intros i. reflexivity.
    + reflexivity.
    + vm_compute. discriminate.
    + vm_compute. discriminate.
    + reflexivity.
    + discriminate.
    + apply flow_strong.
    + intros engine [= <-]. vm_compute. reflexivity.
    + exists fwd, rw'. split; [exact Hfw|exact Hp].
Defined.
End Demo.
