(* ===== verification/Proxy.v ===== *)
(** * The reverse proxy: [internal/gateway/proxy.go]

    [NewReverseProxy] puts [httputil.NewSingleHostReverseProxy] behind the
    guard, with an error handler of its own.  The request that is sent
    upstream is computed here as [net/http/httputil] computes it: the URL
    joined to that of the target, hop-by-hop headers removed, the client's
    address appended.  The transport is a parameter.  Forms are never parsed
    before the proxy, so queries are passed on as they are; trailers, 1xx
    answers and the bytes exchanged after a protocol switch are left out. *)

From Stdlib Require Import QArith.
From S2P Require Import Prelude GoString GoTime Encoding Crypto Json TextLemmas TimeText Http Url ServeMux UrlParse Rar Matcher Policy StepUp Claims Effects AuditLog Cache Revocation Dpop Fapi Providers Tenant RateLimit Guard.
Open Scope Z_scope.

(** ** The target *)

(** [NewReverseProxy]: the proxy is known by its target. *)
Definition NewReverseProxy {U : Unicode} (bracketed : string -> res string) (upstreamURL : string) : res URL :=
  match url_Parse bracketed upstreamURL with
  | Err e => Err (errorw ("parsing upstream URL " +:+ Quote upstreamURL) e)
  | Ok target => Ok target
  end.

(** ** The URL that is requested *)

Definition singleJoiningSlash (a b : string) : string :=
  let aslash := HasSuffix a "/" in
  let bslash := HasPrefix b "/" in
  if aslash && bslash then a +:+ str_drop 1 b
  else if negb aslash && negb bslash then a +:+ "/" +:+ b
  else a +:+ b.

(** [joinURLPath]: the path and its encoding, of the target and the request. *)
Definition joinURLPath (a : URL) (path raw : string) : string * string :=
  if String.eqb (u_RawPath a) EmptyString && String.eqb raw EmptyString
  then (singleJoiningSlash (u_Path a) path, EmptyString)
  else
    let apath := EscapedPath (u_Path a) (u_RawPath a) in
    let bpath := EscapedPath path raw in
    let aslash := HasSuffix apath "/" in
    let bslash := HasPrefix bpath "/" in
    if aslash && bslash then (u_Path a +:+ str_drop 1 path, apath +:+ str_drop 1 bpath)
    else if negb aslash && negb bslash then (u_Path a +:+ "/" +:+ path, apath +:+ "/" +:+ bpath)
    else (u_Path a +:+ path, apath +:+ bpath).

Definition join_query (a b : string) : string :=
  if String.eqb a EmptyString || String.eqb b EmptyString then a +:+ b else a +:+ "&" +:+ b.

(** ** Header fields of one hop *)

(** [httpguts.HeaderValuesContainsToken] and [ascii.EqualFold] *)
Definition ascii_lower (s : string) : string := bytes_str (map to_lower_byte (str_bytes s)).
Definition ascii_EqualFold (s t : string) : bool := String.eqb (ascii_lower s) (ascii_lower t).
Definition trim_ws (p : ascii -> bool) (s : string) : string := trim_right p (trim_left p s).
Definition is_ows (c : ascii) : bool := bool_decide (c ∈ [" "; "009"]%char).
Definition HeaderValuesContainsToken (values : list string) (token : string) : bool :=
  existsb (fun v => existsb (fun x => ascii_EqualFold (trim_ws is_ows x) token) (Split v ",")) values.

Definition upgradeType (h : gmap string (list string)) : string :=
  if HeaderValuesContainsToken (default [] (h !! "Connection")) "Upgrade" then Header_Get h "Upgrade"
  else EmptyString.

Definition ascii_IsPrint (s : string) : bool := str_forall (fun c => in_range 32 126 (byte_val c)) s.

Definition hopHeaders : list string :=
  ["Connection"; "Proxy-Connection"; "Keep-Alive"; "Proxy-Authenticate"; "Proxy-Authorization"; "Te"; "Trailer";
   "Transfer-Encoding"; "Upgrade"].

(** The names a Connection header lists ([textproto.TrimString]). *)
Definition is_space_byte (c : ascii) : bool := bool_decide (c ∈ [" "; "009"; "010"; "013"]%char).
Definition connection_names (h : gmap string (list string)) : list string :=
  filter (fun n => n <> EmptyString)
    (map (trim_ws is_space_byte) (List.concat (map (fun f => Split f ",") (default [] (h !! "Connection"))))).

Definition removeHopByHopHeaders (h : gmap string (list string)) : gmap string (list string) :=
  foldl Header_Del (foldl Header_Del h (connection_names h)) hopHeaders.

(** ** The request that is sent *)

(** [og_URLHost] is where it goes, [og_Host] its Host header. *)
Record Outgoing := MkOutgoing {
  og_Method : string;
  og_Scheme : string;
  og_URLHost : string;
  og_Path : string;
  og_RawPath : string;
  og_RawQuery : string;
  og_Host : string;
  og_Header : gmap string (list string);
  og_Body : option string
}.

Definition forwarded_for (r : Request) (h : gmap string (list string)) : gmap string (list string) :=
  match SplitHostPort_host (rq_RemoteAddr r) with
  | None => h
  | Some clientIP =>
      match h !! "X-Forwarded-For" with
      | Some (x :: l) => Header_Set h "X-Forwarded-For" (Join (x :: l) ", " +:+ ", " +:+ clientIP)
      | _ => Header_Set h "X-Forwarded-For" clientIP
      end
  end.

Definition outgoing_headers (r : Request) : gmap string (list string) :=
  let up := upgradeType (rq_Header r) in
  let h := removeHopByHopHeaders (rq_Header r) in
  let h := if HeaderValuesContainsToken (default [] (rq_Header r !! "Te")) "trailers"
           then Header_Set h "Te" "trailers" else h in
  let h := if String.eqb up EmptyString then h
           else Header_Set (Header_Set h "Connection" "Upgrade") "Upgrade" up in
  let h := forwarded_for r h in
  match h !! "User-Agent" with Some _ => h | None => Header_Set h "User-Agent" EmptyString end.

(** The director of [NewSingleHostReverseProxy] and what [ServeHTTP] does to
    the request after it; [raw] is [r.URL.RawPath]. *)
Definition outgoing (target : URL) (r : Request) (raw : string) : Outgoing :=
  let '(path, rawpath) := joinURLPath target (rq_Path r) raw in
  MkOutgoing (rq_Method r) (u_Scheme target) (u_Host target) path rawpath
    (join_query (u_RawQuery target) (rq_RawQuery r)) (rq_Host r) (outgoing_headers r) (rq_Body r).

(** ** The answer *)

(** The answer of the upstream; [ua_Cut] when its body breaks off. *)
Record UpstreamAnswer := MkAnswer {
  ua_Status : Z;
  ua_Header : gmap string (list string);
  ua_Body : string;
  ua_Cut : bool
}.

Definition StatusSwitchingProtocols : Z := 101.
Definition StatusBadGateway : Z := 502.

(** A response, a connection handed over to the upstream, or one that is
    broken off. *)
Inductive proxied :=
| Served (w : Response)
| Upgraded (o : Outgoing) (a : UpstreamAnswer)
| Aborted (w : Response).

Definition Header_Add (h : gmap string (list string)) (name value : string) : gmap string (list string) :=
  <[CanonicalHeaderKey name := (default [] (h !! CanonicalHeaderKey name) ++ [value])%list]> h.
Definition copyHeader (dst src : gmap string (list string)) : gmap string (list string) :=
  foldl (fun h kv => foldl (fun h v => Header_Add h kv.1 v) h kv.2) dst (map_to_list src).
Definition set_rs_Header (h : gmap string (list string)) (w : Response) : Response :=
  MkResponse (rs_Status w) h (rs_Cookies w) (rs_Body w).

(** The error handler [NewReverseProxy] installs. *)
Definition proxy_ErrorHandler (w : Response) (err : error) : Response :=
  http_Error ("upstream error: " +:+ err_text err) StatusBadGateway w.

Section Proxy.
Context {U : Unicode}.
(** [http.DefaultTransport]. *)
Context (RoundTrip : Outgoing -> res UpstreamAnswer).
Variable target : URL.

Definition proxy_ServeHTTP (w : Response) (r : Request) (raw : string) : proxied :=
  let reqUpType := upgradeType (rq_Header r) in
  if negb (ascii_IsPrint reqUpType)
  then Served (proxy_ErrorHandler w
         (errorf ("client tried to switch to invalid protocol " +:+ Quote reqUpType))) else
  let outreq := outgoing target r raw in
  match RoundTrip outreq with
  | Err e => Served (proxy_ErrorHandler w e)
  | Ok res =>
      if ua_Status res =? StatusSwitchingProtocols then
        let reqUpType := upgradeType (og_Header outreq) in
        let resUpType := upgradeType (ua_Header res) in
        if negb (ascii_IsPrint resUpType)
        then Served (proxy_ErrorHandler w
               (errorf ("backend tried to switch to invalid protocol " +:+ Quote resUpType)))
        else if negb (ascii_EqualFold reqUpType resUpType)
        then Served (proxy_ErrorHandler w
               (errorf ("backend tried to switch protocol " +:+ Quote resUpType +:+ " when " +:+
                        Quote reqUpType +:+ " was requested")))
        else Upgraded outreq res
      else
        let h := copyHeader (rs_Header w) (removeHopByHopHeaders (ua_Header res)) in
        let w' := WriteHeader (ua_Status res) (set_rs_Header h w) in
        let w' := MkResponse (rs_Status w') (rs_Header w') (rs_Cookies w') (rs_Body w' +:+ ua_Body res) in
        if ua_Cut res then Aborted w' else Served w'
  end.
End Proxy.

(** ** What the upstream is sent *)

(** The names, besides the fixed ones, that are removed for the next hop. *)
Definition listed (h : gmap string (list string)) : list string := map CanonicalHeaderKey (connection_names h).

Lemma dels_lookup ns (h : gmap string (list string)) k :
  foldl Header_Del h ns !! k = if decide (k ∈ map CanonicalHeaderKey ns) then None else h !! k.
Proof.
  revert h. induction ns as [|n ns IH]; intros h; cbn [foldl map].
  { rewrite decide_False; [done|apply not_elem_of_nil]. }
  rewrite IH. change (Header_Del h n) with (delete (CanonicalHeaderKey n) h). destruct (decide (CanonicalHeaderKey n = k)) as [->|Hne].
  - rewrite lookup_delete_eq. rewrite (decide_True (P := k ∈ k :: _)) by by left. by destruct (decide _).
  - rewrite lookup_delete_ne by done. apply decide_ext. rewrite elem_of_cons. naive_solver.
Qed.

Lemma removeHop_lookup h k :
  removeHopByHopHeaders h !! k = if decide (k ∈ hopHeaders \/ k ∈ listed h) then None else h !! k.
Proof.
  unfold removeHopByHopHeaders, listed. rewrite !dels_lookup.
  change (map CanonicalHeaderKey hopHeaders) with hopHeaders.
  destruct (decide (k ∈ hopHeaders)); [by rewrite decide_True by auto|].
  apply decide_ext. naive_solver.
Qed.

(** The headers the proxy writes itself. *)
Definition proxy_written : list string := ["Te"; "Connection"; "Upgrade"; "X-Forwarded-For"; "User-Agent"].

Lemma set_other h n v k : CanonicalHeaderKey n <> k -> Header_Set h n v !! k = h !! k.
Proof. intros Hne. unfold Header_Set. by rewrite lookup_insert_ne. Qed.

Lemma outgoing_headers_lookup r k :
  k ∉ proxy_written ->
  outgoing_headers r !! k =
  if decide (k ∈ hopHeaders \/ k ∈ listed (rq_Header r)) then None else rq_Header r !! k.
Proof.
  intros Hk. rewrite <- removeHop_lookup. unfold proxy_written in Hk. rewrite !not_elem_of_cons in Hk.
  destruct Hk as (Hte & Hco & Hup & Hxf & Hua & _).
  unfold outgoing_headers, Header_Set. cbv zeta.
  change (CanonicalHeaderKey "Te") with "Te". change (CanonicalHeaderKey "Connection") with "Connection".
  change (CanonicalHeaderKey "Upgrade") with "Upgrade". change (CanonicalHeaderKey "User-Agent") with "User-Agent".
  set (h := removeHopByHopHeaders _).
  set (h1 := if HeaderValuesContainsToken _ _ then _ else h).
  assert (H1 : h1 !! k = h !! k).
  { subst h1. destruct (HeaderValuesContainsToken _ _); [|done]. by rewrite lookup_insert_ne. }
  set (h2 := if String.eqb _ _ then h1 else _).
  assert (H2 : h2 !! k = h !! k).
  { subst h2. rewrite <- H1. destruct (String.eqb _ _); [done|]. by rewrite !lookup_insert_ne by done. }
  assert (H3 : forwarded_for r h2 !! k = h !! k).
  { rewrite <- H2. unfold forwarded_for. destruct (SplitHostPort_host _); [|done]. unfold Header_Set.
    change (CanonicalHeaderKey "X-Forwarded-For") with "X-Forwarded-For".
    destruct (h2 !! "X-Forwarded-For") as [[|x l]|]; by rewrite lookup_insert_ne. }
  rewrite <- H3. destruct (forwarded_for r h2 !! "User-Agent"); [done|]. by rewrite lookup_insert_ne.
Qed.

(** ** Paths *)

Lemma HasSuffix_escapePath s : HasSuffix (escapePath s) "/" = HasSuffix s "/".
Proof.
  destruct (str_bytes s) as [|c l _] eqn:Hs using rev_ind.
  { by apply (f_equal bytes_str) in Hs; rewrite bytes_str_bytes in Hs; subst s. }
  apply (f_equal bytes_str) in Hs. rewrite bytes_str_bytes, bytes_str_app in Hs. subst s. cbn [bytes_str].
  change (String c EmptyString) with (str1 c). rewrite escapePath_app.
  destruct (Ascii.eqb_spec c "/") as [->|Hne].
  - rewrite (proj2 (HasSuffix_spec (bytes_str l +:+ str1 "/") "/")) by by eexists.
    apply HasSuffix_spec. by eexists.
  - assert (Hno : forall t d, d <> "/"%char -> HasSuffix (t +:+ str1 d) "/" = false).
    { intros t d Hd. apply not_true_iff_false. intros (u & Hu)%HasSuffix_spec.
      apply (f_equal str_bytes) in Hu. rewrite !str_bytes_app in Hu. by apply app_inj_tail in Hu as [_ ?]. }
    rewrite Hno by done.
    change (escapePath (str1 c)) with ((if path_plain c then str1 c else percent c) +:+ EmptyString).
    rewrite str_app_nil_r. destruct (path_plain c); [by apply Hno|].
    unfold percent. change (String "%" (String ?a ?b)) with (str1 "%" +:+ (str1 a +:+ b)).
    rewrite <- !str_app_assoc. apply Hno. by destruct c as [[] [] [] [] [] [] [] []].
Qed.

(** The upstream's path is that of the target, without a final slash, and
    that of the request. *)
Lemma joined_path target path raw :
  u_RawPath target = EmptyString -> u_Path target <> "*" ->
  HasPrefix path "/" = true -> raw = EmptyString \/ HasPrefix raw "/" = true ->
  (joinURLPath target path raw).1 = TrimSuffix (u_Path target) "/" +:+ path.
Proof.
  intros Ht Hs Hp Hr. unfold joinURLPath. rewrite Ht. cbn [String.eqb andb].
  assert (Hcut : forall b : bool, HasSuffix (u_Path target) "/" = b ->
    (if b then u_Path target +:+ str_drop 1 path else u_Path target +:+ path)
    = TrimSuffix (u_Path target) "/" +:+ path).
  { intros b Hb. destruct b.
    - apply HasSuffix_spec in Hb as (t & ->). rewrite TrimSuffix_app.
      apply HasPrefix_spec in Hp as (p & ->). by rewrite str_app_assoc.
    - unfold TrimSuffix. by rewrite Hb. }
  specialize (Hcut _ eq_refl). destruct (String.eqb raw EmptyString).
  - unfold singleJoiningSlash. rewrite Hp. cbn [fst negb andb]. rewrite andb_true_r, andb_false_r.
    by rewrite <- Hcut; destruct (HasSuffix _ _).
  - rewrite (EscapedPath_rooted path raw Hp Hr). unfold EscapedPath at 1 2 3 4. cbn [String.eqb negb andb].
    rewrite (proj2 (String.eqb_neq _ _) Hs), HasSuffix_escapePath. cbn [negb].
    rewrite andb_true_r, andb_false_r. by rewrite <- Hcut; destruct (HasSuffix _ _).
Qed.

(** ** The guard in front of the proxy *)

Section GuardedProxy.
Context {U : Unicode} {L : LocalTime} {Sig : Signatures}.
Context {S P K F : Type} `{!Cache S} `{!CacheLaws S} `{!Provider P} `{!AuditSink K} `{!GoFloat F}.
Context (trace_of : Request -> string) (rand : nat -> string).
Context (url_text : Request -> string -> string -> string).
Context (RoundTrip : Outgoing -> res UpstreamAnswer).
Implicit Types (w : world (GState S K F)) (g : Guard P).

(** [ServeHTTP] of a guard whose upstream is the proxy; a replayed request
    keeps the [RawPath] of the one at hand. *)
Definition guarded_proxy g (target : URL) (rw : Response) (r : Request) (raw : string)
    : M (GState S K F) proxied :=
  o ← decide_request trace_of rand url_text g rw r;
  mret (match o with
        | Replied rw' => Served rw'
        | Forwarded r' _ rw' => proxy_ServeHTTP RoundTrip target rw' r' raw
        end).

(** C10: What reaches the upstream.  A request the proxy sends behind the guard
    goes to the target, with a method and path the policy allows for the
    claims that were verified, the path after that of the target, and the
    path the upstream decodes from the wire is this one; under each reserved name
    ([X-Iam-*], [X-Tenant-ID]) it carries what was verified and nothing the
    client sent, unless the client's Connection header lists that name, in
    which case the upstream is sent no such header at all. *)
Theorem upstream_sees_verified g target rw r raw w r' ctx rw' w' :
  u_RawPath target = EmptyString -> u_Path target <> "*" ->
  canonical_names (rq_Header r) -> raw = EmptyString \/ HasPrefix raw "/" = true ->
  decide_request trace_of rand url_text g rw r w = (Forwarded r' ctx rw', w') ->
  HasPrefix (rq_Path r') "/" = true ->
  let o := outgoing target r' raw in
  og_Scheme o = u_Scheme target /\ og_URLHost o = u_Host target /\
  exists tenant c, granted g w r tenant c /\ ctx = WithTenantID None tenant /\
    policy_allows g w (og_Method o) (rq_Path r') c /\
    og_Path o = TrimSuffix (u_Path target) "/" +:+ rq_Path r' /\
    PathUnescape (EscapedPath (og_Path o) (og_RawPath o)) = Some (og_Path o) /\
    forall k, reserved k = true ->
      og_Header o !! k = if decide (k ∈ listed (rq_Header r)) then None else identity_header c tenant k.
Proof using Type*.
  intros Ht Hstar Hcan Hraw H Hroot. cbv zeta. unfold outgoing.
  pose proof (joined_path target (rq_Path r') raw Ht Hstar Hroot Hraw) as Hj.
  destruct (joinURLPath target (rq_Path r') raw) as [path rawpath]. cbn [fst] in Hj. subst path.
  cbn [og_Scheme og_URLHost og_Method og_Path og_RawPath og_Header]. split; [done|]. split; [done|].
  destruct (decide_Forwarded _ _ _ _ _ _ _ _ _ _ _ H) as (tenant & c & r1 & Hg & -> & Hr & ->).
  exists tenant, c. split; [done|]. split; [done|]. cbn [rq_Method rq_Path set_headers].
  split.
  { destruct Hr as [->|(saved & i & j & _ & _ & _ & _ & _ & Hp & _ & -> & -> & _)]; [apply Hg|exact Hp]. }
  split; [done|]. split; [apply EscapedPath_unescape|]. intros k Hk.
  assert (rq_Header r1 = rq_Header r) as Hh.
  { destruct Hr as [->|(saved & i & j & _ & _ & _ & _ & _ & _ & _ & _ & _ & _ & _ & _ & Hh & _)]; done. }
  rewrite outgoing_headers_lookup.
  2: { intros Hin. unfold proxy_written in Hin. by repeat (apply elem_of_cons in Hin as [->|Hin]; [by vm_compute in Hk|]);
       apply not_elem_of_nil in Hin. }
  cbn [rq_Header set_headers]. rewrite Hh.
  assert (Hl : listed (forward_headers (rq_Header r) c tenant) = listed (rq_Header r)).
  { unfold listed, connection_names. by rewrite forward_headers_lookup. }
  rewrite Hl, forward_headers_lookup, Hk by done.
  assert (k ∉ hopHeaders) as Hno.
  { intros Hin. by repeat (apply elem_of_cons in Hin as [->|Hin]; [by vm_compute in Hk|]);
       apply not_elem_of_nil in Hin. }
  destruct (decide (k ∈ listed (rq_Header r))) as [Hd|Hd].
  - by rewrite decide_True by auto.
  - rewrite decide_False by naive_solver. by destruct (identity_header c tenant k).
Qed.
End GuardedProxy.

(** ** What comes back *)

Lemma Header_Add_lookup h n v k :
  CanonicalHeaderKey n = n ->
  default [] (Header_Add h n v !! k) = (default [] (h !! k) ++ (if decide (n = k) then [v] else []))%list.
Proof.
  intros Hn. unfold Header_Add. rewrite Hn. destruct (decide (n = k)) as [->|Hne].
  - by rewrite lookup_insert_eq.
  - by rewrite lookup_insert_ne, app_nil_r.
Qed.

Lemma Header_Adds_lookup h n vs k :
  CanonicalHeaderKey n = n ->
  default [] (foldl (fun h v => Header_Add h n v) h vs !! k) =
  (default [] (h !! k) ++ (if decide (n = k) then vs else []))%list.
Proof.
  intros Hn. revert h. induction vs as [|v vs IH]; intros h; cbn [foldl].
  - by destruct (decide (n = k)); rewrite app_nil_r.
  - rewrite IH, Header_Add_lookup by done. destruct (decide (n = k)); by rewrite <- app_assoc.
Qed.

Lemma copyHeader_lookup dst src k :
  canonical_names src ->
  default [] (copyHeader dst src !! k) = (default [] (dst !! k) ++ default [] (src !! k))%list.
Proof.
  intros Hc. unfold copyHeader. revert dst. induction src as [|n vs src Hn Hf IH] using map_first_key_ind; intros dst.
  { rewrite map_to_list_empty. cbn [foldl]. by rewrite lookup_empty, app_nil_r. }
  rewrite map_to_list_insert_first_key by done. cbn [foldl fst snd].
  rewrite IH.
  2: { intros k' [v Hv]. apply Hc. exists v. rewrite lookup_insert_ne; [done|]. intros ->. congruence. }
  rewrite Header_Adds_lookup by (apply Hc; rewrite lookup_insert_eq; by eexists).
  destruct (decide (n = k)) as [->|Hne].
  - by rewrite lookup_insert_eq, Hn, app_nil_r.
  - by rewrite lookup_insert_ne, app_nil_r by done.
Qed.

(** The answer the client gets: 502 when the transport fails; otherwise, unless
    the protocol is switched, the status and body of the upstream, with its
    end-to-end headers after those the guard wrote. *)
Lemma proxy_relays {U : Unicode} RoundTrip target rw r raw :
  rs_Status rw = None -> ascii_IsPrint (upgradeType (rq_Header r)) = true ->
  match RoundTrip (outgoing target r raw) with
  | Err e => exists rw', proxy_ServeHTTP RoundTrip target rw r raw = Served rw' /\
      rs_Status rw' = Some StatusBadGateway /\
      rs_Body rw' = rs_Body rw +:+ ("upstream error: " +:+ err_text e) +:+ str1 "010"
  | Ok a => ua_Status a <> StatusSwitchingProtocols -> canonical_names (ua_Header a) ->
      exists rw', proxy_ServeHTTP RoundTrip target rw r raw = (if ua_Cut a then Aborted rw' else Served rw') /\
        rs_Status rw' = Some (ua_Status a) /\ rs_Body rw' = rs_Body rw +:+ ua_Body a /\
        forall k, default [] (rs_Header rw' !! k) = (default [] (rs_Header rw !! k) ++
          (if decide (k ∈ hopHeaders \/ k ∈ listed (ua_Header a)) then [] else default [] (ua_Header a !! k)))%list
  end.
Proof.
  intros Hs Hp. unfold proxy_ServeHTTP. rewrite Hp. cbn [negb].
  destruct (RoundTrip _) as [a|e].
  - intros Ha Hc. rewrite (proj2 (Z.eqb_neq _ _) Ha).
    eexists. split; [reflexivity|]. cbn [rs_Status rs_Body rs_Header WriteHeader set_rs_Header].
    rewrite Hs. split; [done|]. split; [done|]. intros k. rewrite copyHeader_lookup.
    + rewrite removeHop_lookup. by destruct (decide _).
    + intros k' [v Hv]. rewrite removeHop_lookup in Hv. destruct (decide _); [done|]. apply Hc. by eexists.
  - eexists. split; [reflexivity|]. unfold proxy_ErrorHandler, http_Error, Write, WriteHeader. cbn. by rewrite Hs.
Qed.

Section Demo.
#[local] Existing Instance unicode_min.
#[local] Existing Instance accept_all.
#[local] Instance proxy_sinks : AuditSink Sink := package_sinks (fun _ _ => None).

Definition demo_target : URL :=
  MkURL "http" EmptyString None "upstream:9000" "/v1/" EmptyString false false "via=gw" EmptyString EmptyString.

Example NewReverseProxy_ex :
  NewReverseProxy (fun _ => Err (errorf "address")) "http://upstream:9000/v1/?via=gw" = Ok demo_target.
Proof. vm_compute. reflexivity. Qed.

Example NewReverseProxy_error_ex :
  is_ok (NewReverseProxy (fun _ => Err (errorf "address")) "http://upstream:80x") = false.
Proof. vm_compute. reflexivity. Qed.

(** Alice's request, and the same with a Connection header. *)
Definition demo_connection (value : string) : Request :=
  with_headers "/api/pay" (<["Connection" := [value]]> (demo_headers "tok")) [].

Definition forwarded_request (o : outcome) : option Request :=
  match o with Forwarded r _ _ => Some r | Replied _ => None end.
Definition sent_header (value name : string) : option (option (list string)) :=
  (fun r => og_Header (outgoing demo_target r EmptyString) !! name) <$>
  forwarded_request (demo_decide false (demo_connection value) (demo_world false)).1.

(** The client chooses which identity headers the upstream gets: it cannot
    forge one, but lists those to be dropped. *)
Lemma connection_strips_identity :
  sent_header "close" "X-Iam-Subject" = Some (Some ["alice"]) /\
  sent_header "close, X-Iam-Subject" "X-Iam-Subject" = Some None /\
  sent_header "x-iam-scopes" "X-Iam-Scopes" = Some None.
Proof. vm_compute. repeat split. Qed.

Example upstream_sees_verified_witness :
  exists r' ctx rw' w', demo_decide false (demo_connection "close") (demo_world false) = (Forwarded r' ctx rw', w') /\
    og_Path (outgoing demo_target r' EmptyString) = "/v1/api/pay" /\
    og_Header (outgoing demo_target r' EmptyString) !! "X-Tenant-Id" = None.
Proof.
  assert (Hc : (rq_Path <$> forwarded_request (demo_decide false (demo_connection "close") (demo_world false)).1)
    = Some "/api/pay") by (vm_compute; reflexivity).
  destruct (demo_decide false (demo_connection "close") (demo_world false)) as [[rw'|r' ctx rw'] w'] eqn:E;
    [discriminate Hc|]. cbn [forwarded_request fst] in Hc. injection Hc as Hc.
  exists r', ctx, rw', w'. split; [reflexivity|].
  destruct (upstream_sees_verified _ _ _ _ demo_target _ _ EmptyString _ _ _ _ _ eq_refl ltac:(discriminate)
    (canonical_names_Forall (rq_Header (demo_connection "close"))
       ltac:(apply (bool_decide_eq_true_1 _); vm_compute; reflexivity)) (or_introl eq_refl) E)
    as (_ & _ & tenant & c & _ & _ & _ & Hp & _ & Hk).
  - rewrite Hc. reflexivity.
  - split; [rewrite Hp, Hc; reflexivity|]. rewrite (Hk "X-Tenant-Id" eq_refl). vm_compute. reflexivity.
Defined.
End Demo.
