(* ===== verification/Router.v ===== *)
(** * The main router: [internal/server/router.go]

    [NewRouter] puts the gateway, the administration API, the revocation
    webhook and the probes behind one multiplexer.  The guard and the
    administration API each hold a pointer to a policy engine; the engines
    are kept in a store, so that they may or may not be the same. *)

From Stdlib Require Import QArith.
From S2P Require Import Prelude GoString GoTime Encoding Crypto Json JsonText TextLemmas TimeText Http Url ServeMux Rar Matcher Policy StepUp Claims Effects AuditLog Cache Revocation Dpop Fapi Providers Tenant RateLimit Admin Guard.
Open Scope Z_scope.

(** [RouterConfig]; [rt_engine] is the identity of the engine the guard
    points to, which stands in for the engine inside [rt_Gateway]. *)
Record RouterConfig (P : Type) := MkRouterConfig {
  rt_Gateway : Guard P;
  rt_engine : option nat;
  rt_AdminHandler : option (AdminHandler P)
}.
Arguments MkRouterConfig {P} _ _ _.
Arguments rt_Gateway {P} _.
Arguments rt_engine {P} _.
Arguments rt_AdminHandler {P} _.

(** The engines, the state of the guard, and the cache the webhook handler
    made for itself if the guard has none. *)
Record RouterState (S K F : Type) := MkRouterState {
  ro_engines : gmap nat Engine;
  ro_guard : GState S K F;
  ro_own : MemoryCache
}.
Arguments MkRouterState {S K F} _ _ _.
Arguments ro_engines {S K F} _.
Arguments ro_guard {S K F} _.
Arguments ro_own {S K F} _.

Definition engine_at (engines : gmap nat Engine) (i : nat) : Engine := default None (engines !! i).

(** The guard with the engine it points to. *)
Definition gateway_with {P} (g : Guard P) (e : option Engine) : Guard P :=
  MkGuard (gd_registry g) (gd_resolver g) e (gd_realm g) (gd_sm g) (gd_dpop g) (gd_dpopNonce g)
    (gd_webhookSecret g) (gd_cookieSecret g) (gd_fapiCfg g).
Definition gateway {P} (cfg : RouterConfig P) (engines : gmap nat Engine) : Guard P :=
  gateway_with (rt_Gateway cfg) (engine_at engines <$> rt_engine cfg).

Inductive route := RouteMetrics | RouteHealth | RouteAdmin | RouteRevoke | RouteGateway.

(** [NewRouter] *)
Definition router_mux (admin : bool) : list (Pattern route) :=
  let mux := Handle "/metrics" RouteMetrics [] in
  let mux := Handle "/health" RouteHealth mux in
  let mux := if admin then Handle "/admin/" RouteAdmin mux else mux in
  let mux := Handle "/webhook/revoke" RouteRevoke mux in
  Handle "/" RouteGateway mux.

Definition handle_health (w : Response) : Response :=
  Write (json_object [("status", json_quote "ok")]) (WriteHeader StatusOK w).

Section Router.
Context {U : Unicode} {L : LocalTime} {Sig : Signatures}.
Context {S P K F : Type} `{!Cache S} `{!Provider P} `{!AuditSink K} `{!GoFloat F}.
Context (trace_of : Request -> string) (rand : nat -> string) (url_text : Request -> string -> string -> string).
Context (yaml_Unmarshal : string -> res Config) (policyEditorHTML : string).
Context (range_tenants : Registry P -> list string).
(** [promhttp.Handler] and the guard's upstream. *)
Context (promhttp : Response -> Request -> Response) (next : Request -> TenantContext -> Response -> Response).
Variable cfg : RouterConfig P.

Abbreviation St := (RouterState S K F) (only parsing).

Definition set_engine (i : nat) (e : Engine) (st : St) : St :=
  MkRouterState (<[i := e]> (ro_engines st)) (ro_guard st) (ro_own st).

(** [http.StripPrefix("/admin", cfg.AdminHandler)] *)
Definition serve_admin (w : Response) (i : Incoming) : M St reply :=
  match rt_AdminHandler cfg, StripPrefix (fun r p => url_text r p (rq_RawQuery r)) "/admin" i with
  | Some h, Some i' =>
      lift (fun st =>
        let '(rep, e) := Admin_ServeHTTP yaml_Unmarshal policyEditorHTML range_tenants h w i'
                           (engine_at (ro_engines st) (ah_engine h)) in
        (rep, set_engine (ah_engine h) e st))
  | _, _ => mret (Wrote (NotFound w))
  end.

Definition serve_revoke (w : Response) (r : Request) : M St reply :=
  fun wd =>
    let st := w_st wd in
    let '((w', own), wd') := RevocationHandler (gateway cfg (ro_engines st)) (ro_own st) r w
                               (World (w_now wd) (w_tick wd) (ro_guard st)) in
    (Wrote w', World (w_now wd') (w_tick wd') (MkRouterState (ro_engines st) (w_st wd') own)).

Definition serve_gateway (w : Response) (r : Request) : M St reply :=
  fun wd =>
    let st := w_st wd in
    let '(w', wd') := ServeHTTP trace_of rand url_text (gateway cfg (ro_engines st)) next w r
                        (World (w_now wd) (w_tick wd) (ro_guard st)) in
    (Wrote w', World (w_now wd') (w_tick wd') (MkRouterState (ro_engines st) (w_st wd') (ro_own st))).

Definition has_admin : bool := match rt_AdminHandler cfg with Some _ => true | None => false end.

(** The handler [NewRouter] returns. *)
Definition Router_ServeHTTP (w : Response) (i : Incoming) : M St reply :=
  let r := in_Request i in
  match mux_reply i w (mux_find (router_mux has_admin) i) with
  | inl rep => mret rep
  | inr RouteMetrics => mret (Wrote (promhttp w r))
  | inr RouteHealth => mret (Wrote (handle_health w))
  | inr RouteAdmin => serve_admin w i
  | inr RouteRevoke => serve_revoke w r
  | inr RouteGateway => serve_gateway w r
  end.

(** Requests one after the other, each with a fresh writer. *)
Fixpoint serve_all (l : list Incoming) : M St (list reply) :=
  match l with
  | [] => mret []
  | i :: l' => rep ← Router_ServeHTTP empty_response i; reps ← serve_all l'; mret (rep :: reps)
  end.
End Router.

(** ** Which handler a request reaches *)

Definition route_for (admin : bool) (segs : list string) : route :=
  if bool_decide (segs = ["metrics"]) then RouteMetrics
  else if bool_decide (segs = ["health"]) then RouteHealth
  else if admin && bool_decide (head segs = Some "admin") && negb (bool_decide (segs = ["admin"])) then RouteAdmin
  else if bool_decide (segs = ["webhook"; "revoke"]) then RouteRevoke
  else RouteGateway.

Definition is_literal (r : route) : bool :=
  match r with RouteMetrics | RouteHealth | RouteRevoke => true | _ => false end.
Definition pattern_of (r : route) : Pattern route :=
  match r with
  | RouteMetrics => MkPattern ["metrics"] false r
  | RouteHealth => MkPattern ["health"] false r
  | RouteAdmin => MkPattern ["admin"] true r
  | RouteRevoke => MkPattern ["webhook"; "revoke"] false r
  | RouteGateway => MkPattern [] true r
  end.

(** Decide the comparisons of constant segments. *)
Ltac decide_segments :=
  repeat (cbn -[String.eqb];
    match goal with
    | |- context [String.eqb ?a ?b] =>
        let v := eval vm_compute in (String.eqb a b) in
        lazymatch v with
        | true => change (String.eqb a b) with true
        | false => change (String.eqb a b) with false
        end
    | H : String.eqb ?a ?b = false |- context [String.eqb ?a ?b] => rewrite H
    end); rewrite ?matchPath_nil.

Lemma router_mux_eq admin :
  router_mux admin =
  ([pattern_of RouteMetrics; pattern_of RouteHealth] ++ (if admin then [pattern_of RouteAdmin] else []) ++
   [pattern_of RouteRevoke; pattern_of RouteGateway])%list.
Proof. by destruct admin. Qed.

Lemma router_tree_match admin path :
  path_segments path <> [] ->
  tree_match (router_mux admin) path = Some (pattern_of (route_for admin (path_segments path))).
Proof.
  unfold tree_match. rewrite router_mux_eq. generalize (path_segments path). intros segs Hs.
  destruct segs as [|s rest]; [done|]. clear Hs. cbn [matchPath].
  unfold findChild. unfold route_for.
  destruct (decide (s = "metrics")) as [->|H1].
  { destruct rest as [|s2 rest]; destruct admin; cbn; rewrite ?matchPath_nil; reflexivity. }
  destruct (decide (s = "health")) as [->|H2].
  { destruct rest as [|s2 rest]; destruct admin; cbn; rewrite ?matchPath_nil; reflexivity. }
  destruct (decide (s = "webhook")) as [->|H3].
  { destruct rest as [|s2 rest]; [destruct admin; reflexivity|].
    destruct (decide (s2 = "revoke")) as [->|H4].
    - destruct rest as [|s3 rest]; destruct admin; cbn; rewrite ?matchPath_nil; reflexivity.
    - rewrite !(bool_decide_eq_false_2 ("webhook" :: s2 :: rest = _)) by congruence.
      apply not_eq_sym in H4. apply String.eqb_neq in H4.
      destruct admin; decide_segments; reflexivity. }
  destruct (decide (s = "admin")) as [->|H4].
  { destruct rest as [|s2 rest]; destruct admin; cbn; rewrite ?matchPath_nil; reflexivity. }
  rewrite !(bool_decide_eq_false_2 (s :: rest = _)) by congruence.
  rewrite (bool_decide_eq_false_2 (head (s :: rest) = Some "admin")) by (cbn; congruence).
  rewrite andb_false_r. cbn [andb].
  apply not_eq_sym in H1, H2, H3, H4. apply String.eqb_neq in H1, H2, H3, H4.
  destruct admin; decide_segments; reflexivity.
Qed.

Lemma route_for_slash admin segs :
  segs <> [] -> is_literal (route_for admin segs) = false ->
  route_for admin (segs ++ ["/"]) =
  if admin && bool_decide (head segs = Some "admin") then RouteAdmin else RouteGateway.
Proof.
  intros Hne Hl. destruct segs as [|s segs]; [done|]. cbn [app head]. unfold route_for.
  destruct segs as [|s2 segs]; [|destruct segs]; cbn [app];
    rewrite ?(bool_decide_eq_false_2 (s :: _ :: _ = [_])) by congruence;
    cbn [head negb]; rewrite ?andb_true_r; destruct (admin && _); try done;
    rewrite ?(bool_decide_eq_false_2 (_ :: _ :: _ = _)) by congruence; done.
Qed.

(** C22: Which handler a request reaches.  On the main router a request whose
    path is not clean is redirected, so that no handler sees it; "/admin" is
    redirected to the administration API; and a clean path reaches exactly
    one handler: the probes and the webhook by their decoded segments, the
    administration API below /admin/, and the gateway for all other paths. *)
Theorem router_routes (admin : bool) (i : Incoming) :
  let r := in_Request i in
  let path := EscapedPath (rq_Path r) (in_RawPath i) in
  rq_RequestURI r <> "*" -> rq_Method r <> "CONNECT" ->
  (cleanPath path <> path -> exists to, mux_find (router_mux admin) i = MuxRedirect to (rq_RawQuery r)) /\
  (cleanPath path = path -> mux_find (router_mux admin) i =
     if admin && bool_decide (path_segments path = ["admin"])
     then MuxRedirect (cleanPath (rq_Path r) +:+ "/") (rq_RawQuery r)
     else MuxFound (route_for admin (path_segments path))).
Proof.
  intros r path Hu Hc. apply String.eqb_neq in Hu, Hc. unfold mux_find. fold r. rewrite Hu, Hc. fold path. split.
  { intros Hne. apply String.eqb_neq in Hne. destruct (matchOrRedirect _ _ _) as [n|to]; [|by eexists].
    rewrite Hne. by eexists. }
  intros Hclean. rewrite Hclean, String.eqb_refl. cbn [negb]. unfold matchOrRedirect.
  destruct (HasSuffix path "/") eqn:Hsl.
  - rewrite andb_false_r. cbn [andb].
    assert (Hne : path_segments path <> [] /\ path_segments path <> ["admin"]).
    { destruct (cleanPath_rooted path Hclean) as (q & Hq). rewrite Hq in Hsl |- *.
      rewrite HasSuffix_slash in Hsl. apply bool_decide_eq_true in Hsl.
      apply last_Some in Hsl as (parts & Hparts). cbn [path_segments]. rewrite Hparts, segments_of_snoc.
      split; [by destruct parts|]. destruct parts as [|p1 [|p2 parts]]; done. }
    rewrite (bool_decide_eq_false_2 _ (proj2 Hne)), andb_false_r, router_tree_match by apply Hne.
    cbn [found]. by destruct (route_for _ _).
  - destruct (path_segments_slash path Hclean Hsl) as (Hsegs & Hcount & Hne).
    rewrite !router_tree_match by (rewrite ?Hsegs; destruct (path_segments path); done). rewrite Hsegs.
    unfold exactMatch at 2. rewrite Hcount. cbn [negb andb].
    destruct (is_literal (route_for admin (path_segments path))) eqn:Hlit.
    + replace (exactMatch (Some (pattern_of (route_for admin (path_segments path)))) path) with true
        by (by destruct (route_for _ _)). cbn [negb andb].
      replace (admin && bool_decide (path_segments path = ["admin"])) with false
        by (symmetry; destruct admin; [|done]; apply bool_decide_eq_false; intros E; rewrite E in Hlit; done).
      by destruct (route_for _ _).
    + rewrite route_for_slash by done.
      replace (exactMatch (Some (pattern_of (route_for admin (path_segments path)))) path) with false.
      2: { unfold exactMatch. rewrite Hsl.
           replace (String.eqb path EmptyString) with false
             by (destruct (cleanPath_rooted path Hclean) as (q & ->); done).
           by destruct (route_for _ _). }
      cbn [negb andb].
      replace (negb (String.eqb (path +:+ "/") EmptyString) && negb (HasSuffix (path +:+ "/") "/")) with false
        by (symmetry; rewrite (proj2 (HasSuffix_spec _ _)) by eauto; apply andb_false_r).
      destruct (path_segments path) as [|s segs] eqn:Es; [done|]. cbn [head].
      destruct admin; cbn [andb pattern_of pt_multi pt_lits negb List.length Nat.add Nat.eqb];
        [|by destruct (route_for _ _)].
      destruct (decide (s = "admin")) as [->|Hs].
      * destruct segs as [|s2 segs]; [done|].
        rewrite (bool_decide_eq_false_2 ("admin" :: s2 :: segs = _)) by congruence. done.
      * rewrite !bool_decide_eq_false_2 by congruence. cbn. by destruct (route_for _ _).
Qed.

Definition demo_incoming (meth path : string) (h : Header) (body : string) : Incoming :=
  MkIncoming (MkRequest meth path "" path path "gw.example" true "10.0.0.1:9" h [] (Some body)) EmptyString true.

Example router_routes_witness :
  mux_find (router_mux true) (demo_incoming "GET" "/admin/tenants" ∅ "") = MuxFound RouteAdmin /\
  exists to, mux_find (router_mux true) (demo_incoming "GET" "/x/../admin/tenants" ∅ "") = MuxRedirect to "".
Proof.
  split.
  - refine (eq_trans (proj2 (router_routes true (demo_incoming "GET" "/admin/tenants" ∅ "") _ _) _) _);
      [vm_compute; discriminate..|vm_compute; reflexivity|vm_compute; reflexivity].
  - refine (proj1 (router_routes true (demo_incoming "GET" "/x/../admin/tenants" ∅ "") _ _) _); vm_compute; discriminate.
Defined.

(** ** The policies *)

(** What [StripPrefix] leaves of the request. *)
Lemma StripPrefix_request f prefix i i' :
  StripPrefix f prefix i = Some i' ->
  rq_Path (in_Request i) = prefix +:+ rq_Path (in_Request i') /\
  rq_Method (in_Request i') = rq_Method (in_Request i) /\ rq_Header (in_Request i') = rq_Header (in_Request i) /\
  rq_Body (in_Request i') = rq_Body (in_Request i).
Proof.
  unfold StripPrefix. destruct (_ && _) eqn:E; [|done]. intros [= <-]. cbn. split; [|done].
  apply andb_true_iff in E as [E%Nat.ltb_lt _]. unfold TrimPrefix in *.
  destruct (HasPrefix (rq_Path (in_Request i)) prefix) eqn:Hp; [|lia]. by apply HasPrefix_drop in Hp.
Qed.

Lemma reload_request_ext {U : Unicode} {P} yaml (h : AdminHandler P) r r' pol :
  rq_Method r' = rq_Method r -> rq_Header r' = rq_Header r -> rq_Body r' = rq_Body r ->
  reload_request yaml h r' pol -> reload_request yaml h r pol.
Proof. unfold reload_request. by intros -> -> ->. Qed.

Section RouterTheorems.
Context {U : Unicode} {L : LocalTime} {Sig : Signatures}.
Context {S P K F : Type} `{!Cache S} `{!Provider P} `{!AuditSink K} `{!GoFloat F}.
Context (trace_of : Request -> string) (rand : nat -> string) (url_text : Request -> string -> string -> string).
Context (yaml_Unmarshal : string -> res Config) (policyEditorHTML : string).
Context (range_tenants : Registry P -> list string).
Context (promhttp : Response -> Request -> Response) (next : Request -> TenantContext -> Response -> Response).
Implicit Types (cfg : RouterConfig P) (w : world (RouterState S K F)).

Abbreviation serve cfg := (Router_ServeHTTP (F := F) trace_of rand url_text yaml_Unmarshal policyEditorHTML
  range_tenants promhttp next cfg) (only parsing).
Abbreviation serve_list cfg := (serve_all (F := F) trace_of rand url_text yaml_Unmarshal policyEditorHTML
  range_tenants promhttp next cfg) (only parsing).
Abbreviation engines w := (ro_engines (w_st w)) (only parsing).

(** The request may install [pol] as the policy of the engine [k]. *)
Definition installs cfg (i : Incoming) (k : nat) (pol : Config) : Prop :=
  exists h, rt_AdminHandler cfg = Some h /\ ah_engine h = k /\
    rq_Path (in_Request i) = "/admin/policy/reload" /\ reload_request yaml_Unmarshal h (in_Request i) pol.

Lemma serve_engine cfg rw i w rep w' k :
  serve cfg rw i w = (rep, w') ->
  engine_at (engines w') k = engine_at (engines w) k \/
  exists pol, engine_at (engines w') k = Some pol /\ installs cfg i k pol.
Proof.
  unfold Router_ServeHTTP. destruct (mux_reply _ _ _) as [rep'|[]]; try (intros [= _ <-]; by left).
  - unfold serve_admin. destruct (rt_AdminHandler cfg) as [h|] eqn:Hh; [|intros [= _ <-]; by left].
    destruct (StripPrefix _ _ _) as [i'|] eqn:Hs; [|intros [= _ <-]; by left].
    unfold lift. destruct (Admin_ServeHTTP _ _ _ _ _ _ _) as [rep' e'] eqn:Ha. intros [= _ <-]. cbn.
    destruct (decide (k = ah_engine h)) as [->|Hk].
    2: { left. unfold engine_at. by rewrite lookup_insert_ne. }
    unfold engine_at at 1 3. rewrite lookup_insert_eq. cbn [default from_option id].
    destruct (admin_engine _ _ _ _ _ _ _ _ _ Ha) as [->|(pol & -> & Hp & Hr)]; [by left|].
    right. exists pol. split; [done|]. destruct (StripPrefix_request _ _ _ _ Hs) as (Hpath & Hm & Hhd & Hb).
    exists h. split; [done|]. split; [done|]. split; [by rewrite Hpath, Hp|].
    exact (reload_request_ext _ _ _ _ _ Hm Hhd Hb Hr).
  - unfold serve_revoke. destruct (RevocationHandler _ _ _ _ _) as [[rw' own] wd]. intros [= _ <-]. by left.
  - unfold serve_gateway. destruct (ServeHTTP _ _ _ _ _ _ _ _) as [rw' wd]. intros [= _ <-]. by left.
Qed.

Lemma serve_all_engine cfg l w reps w' k :
  serve_list cfg l w = (reps, w') ->
  engine_at (engines w') k = engine_at (engines w) k \/
  exists i pol, i ∈ l /\ engine_at (engines w') k = Some pol /\ installs cfg i k pol.
Proof.
  revert w reps w'. induction l as [|i l IH]; intros w reps w'; [intros [= _ <-]; by left|].
  cbn [serve_all]. unfold mbind, M_bind. destruct (serve cfg empty_response i w) as [rep w1] eqn:H1.
  destruct (serve_list cfg l w1) as [reps' w2] eqn:H2. intros [= _ <-].
  destruct (IH _ _ _ H2) as [->|(i' & pol & Hi & He & Hin)].
  - destruct (serve_engine _ _ _ _ _ _ k H1) as [->|(pol & He & Hin)]; [by left|].
    right. exists i, pol. split; [by left|done].
  - right. exists i', pol. split; [by right|done].
Qed.

(** C8: The policy changes only on an authorised reload.  Whatever requests
    the router serves, an engine is afterwards as it was, or it holds a
    configuration that one of them was entitled to install: a POST to
    /admin/policy/reload on the administration API of that engine, with the
    administration token when one is set, whose body carries YAML that loads
    as that configuration. *)
Theorem policy_changes_only_by_reload cfg l w k :
  let w' := (serve_list cfg l w).2 in
  engine_at (engines w') k = engine_at (engines w) k \/
  exists i h pol, i ∈ l /\ rt_AdminHandler cfg = Some h /\ ah_engine h = k /\
    rq_Method (in_Request i) = "POST" /\ rq_Path (in_Request i) = "/admin/policy/reload" /\
    (ah_adminToken h = EmptyString \/
     Header_Get (rq_Header (in_Request i)) "Authorization" = "Bearer " +:+ ah_adminToken h) /\
    (exists yaml, decode_reload (rq_Body (in_Request i)) = Some yaml /\ LoadFromBytes yaml_Unmarshal yaml = Ok pol) /\
    engine_at (engines w') k = Some pol.
Proof.
  intros w'. destruct (serve_list cfg l w) as [reps w2] eqn:H.
  destruct (serve_all_engine cfg l w reps w2 k H) as [|(i & pol & Hi & He & h & Hh & Hk & Hp & Hr)]; [by left|].
  right. destruct Hr as (Hm & Ht & Hy). by exists i, h, pol.
Qed.

Lemma router_reload_route i :
  rq_Path (in_Request i) = "/admin/policy/reload" -> in_RawPath i = EmptyString ->
  rq_RequestURI (in_Request i) <> "*" -> mux_find (router_mux true) i = MuxFound RouteAdmin.
Proof.
  intros Hp Hraw Hu. unfold mux_find. rewrite Hp, Hraw. apply String.eqb_neq in Hu. rewrite Hu.
  by destruct (String.eqb (rq_Method (in_Request i)) "CONNECT").
Qed.

Lemma serve_reload cfg h rw i w pol :
  rt_AdminHandler cfg = Some h -> installs cfg i (ah_engine h) pol -> in_RawPath i = EmptyString ->
  rq_RequestURI (in_Request i) <> "*" ->
  exists w', serve cfg rw i w =
    (Wrote (admin_writeJSON (list_to_map
       [("status", json_quote "reloaded"); ("summary", json_quote (Summary (Some pol)))]) rw), w') /\
    engine_at (engines w') (ah_engine h) = Some pol.
Proof.
  intros Hh (h' & Hh' & _ & Hp & Hr) Hraw Hu. rewrite Hh in Hh'. injection Hh' as <-.
  unfold Router_ServeHTTP, has_admin. rewrite Hh, router_reload_route by done. cbn [mux_reply].
  unfold serve_admin. rewrite Hh. unfold StripPrefix. rewrite Hp, Hraw.
  change (TrimPrefix "/admin/policy/reload" "/admin") with "/policy/reload".
  change (TrimPrefix EmptyString "/admin") with EmptyString. cbn -[lift Admin_ServeHTTP set_path].
  unfold lift. rewrite (admin_reload yaml_Unmarshal policyEditorHTML range_tenants h rw _ _ pol);
    [|done|done|exact Hu|].
  - eexists. split; [reflexivity|]. cbn. unfold engine_at. by rewrite lookup_insert_eq.
  - exact (reload_request_ext _ _ (set_path _ _ _) _ _ eq_refl eq_refl eq_refl Hr).
Qed.

Lemma serve_all_keeps cfg l w k :
  (forall i pol, i ∈ l -> ~ installs cfg i k pol) ->
  engine_at (engines (serve_list cfg l w).2) k = engine_at (engines w) k.
Proof.
  intros Hno. destruct (serve_list cfg l w) as [reps w2] eqn:H.
  destruct (serve_all_engine cfg l w reps w2 k H) as [|(i & pol & Hi & _ & Hin)]; [done|].
  by apply Hno in Hin.
Qed.

Definition guard_world w : world (GState S K F) := World (w_now w) (w_tick w) (ro_guard (w_st w)).

(** C14: A reloaded policy governs the gateway from the next request on.  When
    the guard and the administration API share an engine, an authorised
    reload is answered with 200 and the summary of the new policy; and as
    long as no other reload is served, whatever else is served in between, a
    request the gateway forwards is one the new policy allows, for the method
    and path it is forwarded with. *)
Theorem reload_takes_effect `{!CacheLaws S} cfg h rw i w pol l rw2 r w2 r' ctx rw' wg :
  rt_AdminHandler cfg = Some h -> rt_engine cfg = Some (ah_engine h) ->
  in_RawPath i = EmptyString -> rq_RequestURI (in_Request i) <> "*" -> installs cfg i (ah_engine h) pol ->
  (forall j q, j ∈ l -> ~ installs cfg j (ah_engine h) q) ->
  w2 = (serve_list cfg l (serve cfg rw i w).2).2 ->
  decide_request trace_of rand url_text (gateway cfg (engines w2)) rw2 r (guard_world w2) =
    (Forwarded r' ctx rw', wg) ->
  (serve cfg rw i w).1 =
    Wrote (admin_writeJSON (list_to_map
      [("status", json_quote "reloaded"); ("summary", json_quote (Summary (Some pol)))]) rw) /\
  exists c n, cl_Active c = true /\ (w_tick w2 <= n)%nat /\
    pr_Allowed (Evaluate (Some pol)
      (policy_request (rq_Method r') (rq_Path r') c (AuthAge (w_now w2 n) c))) = true.
Proof using Type*.
  intros Hh Hg Hraw Hu Hin Hno Hw2 Hd. destruct (serve_reload cfg h rw i w pol Hh Hin Hraw Hu) as (w1 & Hs & He).
  split; [by rewrite Hs|]. rewrite Hs in Hw2. cbn [snd] in Hw2.
  assert (He2 : engine_at (engines w2) (ah_engine h) = Some pol) by (rewrite Hw2, serve_all_keeps; done).
  destruct (decide_Forwarded _ _ _ _ _ _ _ _ _ _ _ Hd) as (tenant & c & r1 & Hgr & _ & Hr & ->).
  assert (Ha : policy_allows (gateway cfg (engines w2)) (guard_world w2) (rq_Method r1) (rq_Path r1) c).
  { destruct Hr as [->|(saved & n & j & _ & _ & _ & _ & _ & Hp & _ & -> & -> & _)]; [apply Hgr|exact Hp]. }
  destruct (Ha (Some pol)) as (n & Hn & Hok).
  { unfold gateway, gateway_with. cbn. rewrite Hg. cbn. by rewrite He2. }
  exists c, n. split; [apply Hgr|]. by split.
Qed.
End RouterTheorems.

(** ** A reload *)

Section Demo.
#[local] Existing Instance unicode_min.
#[local] Existing Instance accept_all.
#[local] Existing Instance demo_sinks.

Definition demo_new_policy : Config := MkConfig "2" "bank" [demo_guard_policy] ["urn:acr:1"; "urn:acr:2"].
Definition demo_yaml (s : string) : res Config :=
  if String.eqb s "v2" then Ok demo_new_policy else Err (errorf "yaml").
Definition demo_admin : AdminHandler FixedProvider := Admin_New (MkAdminConfig NewRegistry 7 "adm").
Definition demo_router : RouterConfig FixedProvider :=
  MkRouterConfig (demo_guard false) (Some 7%nat) (Some demo_admin).
Definition demo_router_world : world (RouterState MemoryCache Sink Q) :=
  World (w_now (demo_world false)) 0 (MkRouterState {[7%nat := None]} (w_st (demo_world false)) Memory.NewMemoryCache).
Definition demo_serve := Router_ServeHTTP (F := Q) (fun _ => "trace-1") (fun _ => "0123456789abcdef") (fun _ p q => p)
  demo_yaml "<html/>" (fun _ => []) (fun w _ => w) (fun _ _ w => w) demo_router.
Definition demo_serve_all := serve_all (F := Q) (fun _ => "trace-1") (fun _ => "0123456789abcdef") (fun _ p q => p)
  demo_yaml "<html/>" (fun _ => []) (fun w _ => w) (fun _ _ w => w) demo_router.

Definition demo_reload (token : string) : Incoming :=
  demo_incoming "POST" "/admin/policy/reload" (Header_Set ∅ "Authorization" ("Bearer " +:+ token))
    (json_object [("yaml", json_quote "v2")]).

Definition demo_between : list Incoming := [demo_incoming "GET" "/health" ∅ ""; demo_reload "guess"].
Definition demo_after := (demo_serve_all demo_between (demo_serve empty_response (demo_reload "adm") demo_router_world).2).2.
Definition demo_router_decide :=
  decide_request (K := Sink) (F := Q) (fun _ => "trace-1") (fun _ => "0123456789abcdef") (fun _ p q => p)
    (gateway demo_router (ro_engines (w_st demo_after))) empty_response
    (with_headers "/api/pay" (demo_headers "tok") []) (guard_world demo_after).

Example reload_takes_effect_witness :
  exists r' ctx rw' wg, demo_router_decide = (Forwarded r' ctx rw', wg) /\
    exists c n, pr_Allowed (Evaluate (Some demo_new_policy)
      (policy_request (rq_Method r') (rq_Path r') c (AuthAge (w_now demo_after n) c))) = true.
Proof.
  assert (Hf : is_forwarded demo_router_decide.1 = true) by (vm_compute; reflexivity).
  destruct demo_router_decide as [[rw'|r' ctx rw'] wg] eqn:E; [discriminate Hf|].
  exists r', ctx, rw', wg. split; [reflexivity|].
  destruct (reload_takes_effect (fun _ => "trace-1") (fun _ => "0123456789abcdef") (fun _ p q => p)
    demo_yaml "<html/>" (fun _ => []) (fun w _ => w) (fun _ _ w => w) demo_router demo_admin empty_response
    (demo_reload "adm") demo_router_world demo_new_policy demo_between empty_response
    (with_headers "/api/pay" (demo_headers "tok") []) demo_after r' ctx rw' wg) as (_ & c & n & _ & _ & H).
  - reflexivity.
  - reflexivity.
  - reflexivity.
  - vm_compute. discriminate.
  - exists demo_admin. repeat (split; [reflexivity|]). split; [right; vm_compute; reflexivity|].
    exists "v2". split; vm_compute; reflexivity.
  - intros j q Hj (h & [= <-] & _ & Hp & _ & Ht & _).
    unfold demo_between in Hj. rewrite !elem_of_cons, elem_of_nil in Hj. destruct Hj as [->|[->|[]]].
    + vm_compute in Hp. discriminate Hp.
    + destruct Ht as [Ht|Ht]; vm_compute in Ht; discriminate Ht.
  - reflexivity.
  - exact E.
  - exists c, n. exact H.
Defined.
End Demo.
