(* ===== verification/Server.v ===== *)
(** * The server: [internal/server/server.go]

    [Server] wraps an [http.Server]: [Start] listens and serves, [Shutdown]
    stops gracefully.  What [net/http] does between the two is a step relation
    on the life of the server: the goroutine of [Start], the one of
    [Shutdown], and one per connection.  Listening, the errors of the
    listener, the bytes of a connection and the deadlines of the three
    timeouts are arguments of the steps; one [Start] and one [Shutdown] are
    followed.  The call of the handler for a request begins when the request is
    read and ends with its answer, and the calls of different connections
    overlap; what a call does meanwhile is the subject of [GuardPool], and
    here only which answers the handler may give.  The two results say what the
    source relies on when it leaves the shutdown to [net/http]. *)

From S2P Require Import Prelude GoString GoTime Encoding Crypto Json TextLemmas TimeText Http Url ServeMux.
Open Scope Z_scope.

(** ** Configuration *)

Record Config := MkConfig {
  Addr : string;
  ReadTimeout : Duration;
  WriteTimeout : Duration;
  IdleTimeout : Duration
}.

Definition DefaultConfig : Config := MkConfig ":8080" (15 * Second) (30 * Second) (60 * Second).

(** The fields of [http.Server] the code sets. *)
Record http_Server (H : Type) := MkHttpServer {
  hs_Addr : string;
  hs_Handler : H;
  hs_ReadTimeout : Duration;
  hs_WriteTimeout : Duration;
  hs_IdleTimeout : Duration
}.
Arguments MkHttpServer {H} _ _ _ _ _.
Arguments hs_Addr {H} _.
Arguments hs_Handler {H} _.

Record Server (H : Type) := MkServer { httpSrv : http_Server H; addr : string }.
Arguments MkServer {H} _ _.
Arguments httpSrv {H} _.
Arguments addr {H} _.

Definition New {H} (handler : H) (cfg : Config) : Server H :=
  MkServer (MkHttpServer (Addr cfg) handler (ReadTimeout cfg) (WriteTimeout cfg) (IdleTimeout cfg)) (Addr cfg).

(** ** The life of the server *)

Definition ErrServerClosed : error := errorf "http: Server closed".

(** A connection that has sent nothing yet, with the time it was accepted;
    one whose request is being handled; one between requests. *)
Inductive ConnState := ConnNew (since : Time) | ConnActive (i : Incoming) | ConnIdle.

(** Where [Start] is: not called, between [net.Listen] and the loop that
    accepts, in that loop, returned. *)
Inductive start_phase := Unstarted | Listened | Serving | StartReturned (err : error).

(** Where [Shutdown] is: not called; in its loop, with the error of closing
    the listener, before or after the first look at the connections; returned
    with that error; returned since its context ended. *)
Inductive stop_phase :=
| Running
| Draining (lnerr : option error) (polled : bool)
| Drained (lnerr : option error)
| Expired (err : error).

Definition shuttingDown (p : stop_phase) : bool := match p with Running => false | _ => true end.

(** What the server did: [lf_read] and [lf_served] are the requests it read
    and answered, oldest first. *)
Record life := MkLife {
  lf_start : start_phase;
  lf_stop : stop_phase;
  lf_conns : gmap nat ConnState;
  lf_stdout : string;
  lf_read : list (nat * Incoming);
  lf_served : list (nat * Incoming * reply)
}.
Definition new_life : life := MkLife Unstarted Running ∅ EmptyString [] [].

Definition set_start (p : start_phase) (l : life) : life :=
  MkLife p (lf_stop l) (lf_conns l) (lf_stdout l) (lf_read l) (lf_served l).
Definition set_stop (p : stop_phase) (l : life) : life :=
  MkLife (lf_start l) p (lf_conns l) (lf_stdout l) (lf_read l) (lf_served l).
Definition set_conns (c : gmap nat ConnState) (l : life) : life :=
  MkLife (lf_start l) (lf_stop l) c (lf_stdout l) (lf_read l) (lf_served l).
Definition print (s : string) (l : life) : life :=
  MkLife (lf_start l) (lf_stop l) (lf_conns l) (lf_stdout l +:+ s) (lf_read l) (lf_served l).

Definition is_idle (now : Time) (st : ConnState) : bool :=
  match st with
  | ConnIdle => true
  | ConnNew since => time_Unix_sec since <? time_Unix_sec now - 5
  | ConnActive _ => false
  end.

(** [srv.closeIdleConns()]: whether no connection is left, and those left. *)
Definition closeIdleConns (now : Time) (conns : gmap nat ConnState) : bool * gmap nat ConnState :=
  let rest := filter (fun kv => is_idle now kv.2 = false) conns in (bool_decide (rest = ∅), rest).

Definition awaits_request (st : ConnState) : Prop := match st with ConnActive _ => False | _ => True end.
#[export] Instance awaits_request_dec st : Decision (awaits_request st).
Proof. destruct st; apply _. Defined.

Section Life.
Context {H : Type}.
(** [net.Listen("tcp", addr)] *)
Context (listen : string -> option error).
(** What a call of a handler may answer, whatever runs beside it. *)
Context (may_answer : H -> Incoming -> reply -> Prop).
Variable s : Server H.

(** The beginning of [Start]: it prints, then [ListenAndServe] listens. *)
Definition Start (l : life) : life :=
  let l := print ("IAM service listening on " +:+ addr s +:+ String "010" EmptyString) l in
  if shuttingDown (lf_stop l) then set_start (StartReturned ErrServerClosed) l else
  let a := hs_Addr (httpSrv s) in
  match listen (if String.eqb a EmptyString then ":http" else a) with
  | Some e => set_start (StartReturned e) l
  | None => set_start Listened l
  end.

(** The beginning of [Shutdown]: the listener is closed, with [lnerr]. *)
Definition Shutdown (lnerr : option error) (l : life) : life :=
  set_stop (Draining lnerr false) l.

(** One turn of the loop of [Shutdown]. *)
Definition poll (now : Time) (lnerr : option error) (l : life) : life :=
  let '(quiescent, rest) := closeIdleConns now (lf_conns l) in
  set_conns rest (set_stop (if quiescent then Drained lnerr else Draining lnerr true) l).

(** A connection whose request is answered is kept open unless the server is
    shutting down. *)
Definition answered (c : nat) (i : Incoming) (rep : reply) (l : life) : life :=
  MkLife (lf_start l) (lf_stop l)
    (if shuttingDown (lf_stop l) then delete c (lf_conns l) else <[c := ConnIdle]> (lf_conns l))
    (lf_stdout l) (lf_read l) (lf_served l ++ [(c, i, rep)])%list.

Definition request_read (c : nat) (i : Incoming) (l : life) : life :=
  MkLife (lf_start l) (lf_stop l) (<[c := ConnActive i]> (lf_conns l)) (lf_stdout l)
    (lf_read l ++ [(c, i)])%list (lf_served l).

Inductive label :=
| LStart | LServe | LAccept (c : nat) (t : Time) | LAcceptError (err : error) | LShutdown (lnerr : option error)
| LPoll (t : Time) | LExpire (err : error) | LRead (c : nat) (i : Incoming) | LAnswer (c : nat) (rep : reply) | LClose (c : nat).

Inductive step : life -> label -> life -> Prop :=
| step_start l : lf_start l = Unstarted -> step l LStart (Start l)
| step_serve l :
    lf_start l = Listened ->
    step l LServe (set_start (if shuttingDown (lf_stop l) then StartReturned ErrServerClosed else Serving) l)
| step_accept l c t :
    lf_start l = Serving -> lf_stop l = Running -> lf_conns l !! c = None ->
    step l (LAccept c t) (set_conns (<[c := ConnNew t]> (lf_conns l)) l)
| step_accept_error l err :
    lf_start l = Serving ->
    step l (LAcceptError err)
      (set_start (StartReturned (if shuttingDown (lf_stop l) then ErrServerClosed else err)) l)
| step_shutdown l lnerr : lf_stop l = Running -> step l (LShutdown lnerr) (Shutdown lnerr l)
| step_poll l t lnerr polled : lf_stop l = Draining lnerr polled -> step l (LPoll t) (poll t lnerr l)
| step_expire l lnerr err : lf_stop l = Draining lnerr true -> step l (LExpire err) (set_stop (Expired err) l)
| step_read l c i st :
    lf_conns l !! c = Some st -> awaits_request st -> step l (LRead c i) (request_read c i l)
| step_answer l c i rep :
    lf_conns l !! c = Some (ConnActive i) -> may_answer (hs_Handler (httpSrv s)) i rep ->
    step l (LAnswer c rep) (answered c i rep l)
| step_close l c st :
    lf_conns l !! c = Some st -> awaits_request st -> step l (LClose c) (set_conns (delete c (lf_conns l)) l).

Inductive run : life -> list label -> life -> Prop :=
| run_nil l : run l [] l
| run_snoc l tr l1 a l2 : run l tr l1 -> step l1 a l2 -> run l (tr ++ [a])%list l2.

Lemma run_app l tr l1 tr' l2 : run l tr l1 -> run l1 tr' l2 -> run l (tr ++ tr')%list l2.
Proof.
  intros H1 H2. induction H2; [by rewrite app_nil_r|]. rewrite app_assoc. eapply run_snoc; eauto.
Qed.

Lemma run_step l a l1 tr l2 : step l a l1 -> run l1 tr l2 -> run l (a :: tr) l2.
Proof. intros Hs Hr. apply (run_app l [a] l1 tr l2); [|done]. apply (run_snoc l [] l a l1); [constructor|done]. Qed.

(** ** What a run of the server keeps *)

(** The requests of one connection. *)
Definition on_conn {A} (c : nat) (l : list (nat * A)) : list A :=
  omap (fun p => if decide (p.1 = c) then Some p.2 else None) l.
Definition in_progress (c : nat) (conns : gmap nat ConnState) : list Incoming :=
  match conns !! c with Some (ConnActive i) => [i] | _ => [] end.

Lemma on_conn_snoc {A} c (l : list (nat * A)) p :
  on_conn c (l ++ [p])%list = (on_conn c l ++ if decide (p.1 = c) then [p.2] else [])%list.
Proof. unfold on_conn. rewrite omap_app. cbn. by destruct (decide _). Qed.

(** Each connection's requests are answered in the order they were read, by
    the handler of the server. *)
Record consistent (l : life) : Prop := Consistent {
  by_handler : Forall (fun x => may_answer (hs_Handler (httpSrv s)) x.1.2 x.2) (lf_served l);
  matched c : on_conn c (lf_read l) = (on_conn c (map fst (lf_served l)) ++ in_progress c (lf_conns l))%list;
  drained_closed lnerr : lf_stop l = Drained lnerr -> lf_conns l = ∅
}.

Lemma poll_conns t lnerr l c :
  in_progress c (lf_conns (poll t lnerr l)) = in_progress c (lf_conns l).
Proof.
  unfold poll, closeIdleConns, in_progress. cbn [lf_conns set_conns].
  destruct (lf_conns l !! c) as [st|] eqn:E.
  - destruct (is_idle t st) eqn:Hi.
    + rewrite map_lookup_filter_None_2; [by destruct st|]. right. intros st' E' Hf. cbn in Hf. congruence.
    + by rewrite (map_lookup_filter_Some_2 _ _ c st).
  - rewrite map_lookup_filter_None_2; [done|]. by left.
Qed.

Lemma in_progress_insert c c' st conns :
  in_progress c (<[c' := st]> conns) =
  if decide (c' = c) then (match st with ConnActive i => [i] | _ => [] end) else in_progress c conns.
Proof. unfold in_progress. case_decide; [subst; by rewrite lookup_insert_eq|by rewrite lookup_insert_ne]. Qed.

Lemma in_progress_delete c c' conns :
  in_progress c (delete c' conns) = if decide (c' = c) then [] else in_progress c conns.
Proof. unfold in_progress. case_decide; [subst; by rewrite lookup_delete_eq|by rewrite lookup_delete_ne]. Qed.

Lemma awaits_in_progress c st (conns : gmap nat ConnState) :
  conns !! c = Some st -> awaits_request st -> in_progress c conns = [].
Proof. unfold in_progress. intros ->. by destruct st. Qed.

Lemma Start_life l :
  lf_read (Start l) = lf_read l /\ lf_served (Start l) = lf_served l /\
  lf_conns (Start l) = lf_conns l /\ lf_stop (Start l) = lf_stop l.
Proof. unfold Start. destruct (shuttingDown _); [done|]. by destruct (listen _). Qed.

Lemma step_consistent l a l' : step l a l' -> consistent l -> consistent l'.
Proof.
  intros Hs [Ho Hm Hd]. destruct Hs; try (by split).
  - destruct (Start_life l) as (E1 & E2 & E3 & E4). split; [by rewrite E2|intros c; by rewrite E1, E2, E3|by rewrite E3, E4].
  - split; [done| |by intros ln Hl; cbn in Hl; congruence].
    intros c'. cbn [lf_read lf_served lf_conns set_conns]. rewrite Hm, in_progress_insert.
    case_decide; [|done]. subst. unfold in_progress.
    by match goal with H : lf_conns l !! _ = None |- _ => rewrite H end.
  - split; [by unfold poll; destruct (closeIdleConns _ _)| |].
    + intros c. rewrite poll_conns, <- Hm. unfold poll. by destruct (closeIdleConns _ _).
    + intros ln. unfold poll, closeIdleConns. cbn. by destruct (bool_decide_reflect (filter
        (fun kv : nat * ConnState => is_idle t kv.2 = false) (lf_conns l) = ∅)).
  - split; [done| |intros ln Hl; specialize (Hd _ Hl); by rewrite Hd in *].
    intros c'. cbn [lf_read lf_served lf_conns request_read]. rewrite on_conn_snoc, Hm, in_progress_insert.
    cbn [fst snd]. case_decide; [|by rewrite app_nil_r]. subst. by erewrite awaits_in_progress, app_nil_r by eassumption.
  - split; [cbn; apply Forall_app; by repeat constructor| |intros ln Hl; specialize (Hd _ Hl); by rewrite Hd in *].
    intros c'. cbn [lf_read lf_served lf_conns answered]. rewrite map_app. cbn [map fst snd].
    rewrite on_conn_snoc, Hm, <- app_assoc. cbn [fst snd]. f_equal.
    transitivity (if decide (c = c') then [i] else in_progress c' (lf_conns l)).
    { case_decide; [subst c'|done]. unfold in_progress.
      by match goal with H : lf_conns l !! _ = _ |- _ => rewrite H end. }
    destruct (shuttingDown _); rewrite ?in_progress_delete, ?in_progress_insert; by case_decide.
  - split; [done| |intros ln Hl; cbn in Hl; specialize (Hd _ Hl); by rewrite Hd in *].
    intros c'. cbn [lf_read lf_served lf_conns set_conns]. rewrite Hm, in_progress_delete.
    case_decide; [|done]. subst. by erewrite awaits_in_progress by eassumption.
Qed.

Lemma run_consistent tr l : run new_life tr l -> consistent l.
Proof.
  intros Hr. remember new_life as l0 eqn:E. induction Hr; subst; [by split|]. eapply step_consistent; eauto.
Qed.

(** ** Graceful shutdown *)

(** What a server whose shutdown completed can still do: its [Start] returns
    [ErrServerClosed] if it had not returned. *)
Definition at_rest (l l' : life) : Prop :=
  lf_conns l' = ∅ /\ lf_read l' = lf_read l /\ lf_served l' = lf_served l /\ lf_stop l' = lf_stop l /\
  forall err, lf_start l' = StartReturned err -> err = ErrServerClosed \/ lf_start l = StartReturned err.

Lemma step_at_rest x y a z lnerr : at_rest x y -> lf_stop x = Drained lnerr -> step y a z -> at_rest x z.
Proof.
  intros (Hc & Hr & Hs & Hp & Hst) Hd Hstep. rewrite Hd in Hp.
  destruct Hstep; try congruence;
    try (match goal with H : lf_conns _ !! _ = _ |- _ => rewrite Hc in H; discriminate H end);
    unfold Start, at_rest; cbn [lf_stop print set_start]; rewrite ?Hp; cbn; rewrite ?Hp, Hd;
    repeat split; try done; intros err' [= <-]; by left.
Qed.

(** Graceful shutdown: when [Shutdown] returns without its context having
    ended, every request that was read has been answered by the handler, those
    of each connection in their order, no connection is left, and from then on
    nothing is read or answered and [Start] can only return
    [http.ErrServerClosed]. *)
Lemma shutdown_drains tr l lnerr tr' l' :
  run new_life tr l -> lf_stop l = Drained lnerr -> run l tr' l' ->
  Forall (fun x => may_answer (hs_Handler (httpSrv s)) x.1.2 x.2) (lf_served l) /\
  (forall c, on_conn c (map fst (lf_served l)) = on_conn c (lf_read l)) /\ at_rest l l'.
Proof.
  intros Hr Hd Hr'. destruct (run_consistent _ _ Hr) as [Ho Hm Hc]. specialize (Hc _ Hd).
  split; [done|]. split; [intros c; rewrite Hm, Hc; unfold in_progress; by rewrite lookup_empty, app_nil_r|].
  induction Hr'; [by repeat split; auto|]. eapply step_at_rest; eauto.
Qed.

End Life.

(** ** Example *)

Section Demo.
(** Two calls of the handler overlap; the second request is answered first,
    and [Shutdown], called meanwhile, returns after both. *)
Definition demo_incoming (path : string) : Incoming :=
  MkIncoming (MkRequest "GET" path EmptyString path path "h" false EmptyString ∅ [] None) EmptyString true.
Definition demo_reply : reply := Wrote (WriteHeader StatusOK empty_response).
Definition demo_trace : list label :=
  [LStart; LServe; LAccept 0 0; LAccept 1 0; LRead 0 (demo_incoming "/a"); LRead 1 (demo_incoming "/b");
   LShutdown None; LPoll 1; LAnswer 1 demo_reply; LAnswer 0 demo_reply; LPoll 2].

Ltac one_step :=
  eapply run_step; [first [eapply step_start; reflexivity|eapply step_serve; reflexivity|eapply step_accept; reflexivity
    |eapply step_read; [reflexivity|exact I]|eapply step_shutdown; reflexivity|eapply step_poll; reflexivity
    |eapply step_answer; [reflexivity|exact I]]|].

Example demo_drains :
  exists l, run (fun _ => None) (fun _ _ _ => True) (New tt DefaultConfig) new_life demo_trace l /\
    lf_stop l = Drained None /\ lf_start l = Serving /\
    map (fun x => x.1.1) (lf_served l) = [1; 0]%nat /\ lf_conns l = ∅.
Proof.
  eexists. split.
  - unfold demo_trace. repeat one_step. apply run_nil.
  - repeat split.
Qed.
End Demo.
