(* ===== verification/Metrics.v ===== *)
(** * The metrics: [pkg/telemetry/metrics.go]

    The metrics [NewMetrics] registers with Prometheus, and what the guard
    records in them: a call of [WithLabelValues] panics unless it gives one
    value for each label the metric was registered with. *)

From S2P Require Import Prelude GoString GoTime Encoding Crypto Json TextLemmas TimeText Http Rar Matcher Policy StepUp Claims Effects AuditLog Cache Revocation Dpop Fapi Providers Tenant RateLimit Guard.
Open Scope Z_scope.

Inductive metric_kind := CounterVec | HistogramVec | Gauge.

(** What a metric is registered as: its kind, name and label names. *)
Record metric := MkMetric { mt_kind : metric_kind; mt_name : string; mt_labels : list string }.

Definition StepUpTotal := MkMetric CounterVec "iam_stepup_challenges_total" ["tenant"; "required_acr"; "method"].
Definition StepUpSuccessTotal := MkMetric CounterVec "iam_stepup_success_total" ["tenant"].
Definition TokenValidationDuration :=
  MkMetric HistogramVec "iam_token_validation_duration_seconds" ["tenant"; "provider"; "cache_hit"].
Definition TokenCacheHitTotal := MkMetric CounterVec "iam_token_cache_total" ["tenant"; "result"].
Definition PolicyEvalDuration := MkMetric HistogramVec "iam_policy_eval_duration_seconds" ["tenant"; "matched_policy"].
Definition PolicyDeniedTotal := MkMetric CounterVec "iam_policy_denied_total" ["tenant"; "policy_name"; "reason"].
Definition ActiveTenants := MkMetric Gauge "iam_active_tenants" [].

Definition NewMetrics : list metric :=
  [StepUpTotal; StepUpSuccessTotal; TokenValidationDuration; TokenCacheHitTotal; PolicyEvalDuration; PolicyDeniedTotal;
   ActiveTenants].

(** [vec.WithLabelValues(values...)] on a counter of that name. *)
Definition well_labelled (sample : string * list string) : bool :=
  existsb (fun m => String.eqb (mt_name m) sample.1 && Nat.eqb (List.length (mt_labels m)) (List.length sample.2) &&
                    match mt_kind m with CounterVec => true | _ => false end) NewMetrics.

Section GuardMetrics.
Context {U : Unicode} {L : LocalTime} {Sig : Signatures}.
Context {S P K F : Type} `{!Cache S} `{!Provider P} `{!AuditSink K} `{!GoFloat F}.
Context (trace_of : Request -> string) (rand : nat -> string).
Context (url_text : Request -> string -> string -> string).
Implicit Types (w : world (GState S K F)) (g : Guard P).

Definition samples w : Metrics := default [] (gs_metrics (w_st w)).

(** A computation that only adds samples of the guard's two counters. *)
Definition sample_ok (x : string * list string) : Prop :=
  (x.1 = mt_name PolicyDeniedTotal \/ x.1 = mt_name StepUpTotal) /\ well_labelled x = true.
Definition counts {A} (m : M (GState S K F) A) : Prop :=
  forall w, exists new, samples (m w).2 = (samples w ++ new)%list /\ Forall sample_ok new.

Lemma counts_same {A} (m : M (GState S K F) A) : (forall w, gs_metrics (w_st (m w).2) = gs_metrics (w_st w)) -> counts m.
Proof. intros H w. exists []. unfold samples. by rewrite H, app_nil_r. Qed.

Lemma counts_ret {A} (a : A) : counts (mret a).
Proof. by apply counts_same. Qed.

Lemma counts_bind {A B} (m : M _ A) (f : A -> M _ B) : counts m -> (forall a, counts (f a)) -> counts (m ≫= f).
Proof.
  intros Hm Hf w. unfold mbind, M_bind. destruct (Hm w) as (n1 & E1 & F1). destruct (m w) as [a w1]. cbn [snd] in *.
  destruct (Hf a w1) as (n2 & E2 & F2). exists (n1 ++ n2)%list. split; [by rewrite E2, E1, app_assoc|by apply Forall_app].
Qed.

Lemma counts_ctl {A B} (m : M _ (ctl Response A)) (f : A -> M _ (ctl Response B)) :
  counts m -> (forall a, counts (f a)) -> counts (ctl_bind m f).
Proof. intros Hm Hf. apply counts_bind; [done|]. intros [r|a]; [apply counts_ret|apply Hf]. Qed.

Lemma counts_zoom_opt {T A} (get : GState S K F -> option T) set (d : A) (m : M T A) :
  (forall t st, gs_metrics (set t st) = gs_metrics st) -> counts (zoom_opt get set d m).
Proof.
  intros Hs. apply counts_same. intros w. unfold zoom_opt. destruct (get (w_st w)); [|done].
  destruct (m _). apply Hs.
Qed.

Lemma counts_now : counts Now.
Proof. by apply counts_same. Qed.

Lemma counts_audit (m : M (AuditLogger K) unit) : counts (on_audit m).
Proof. by apply counts_zoom_opt. Qed.

Lemma counts_count name labels : sample_ok (name, labels) -> counts (count name labels).
Proof.
  intros Hok w. unfold count, samples. cbn. destruct (gs_metrics (w_st w)) as [l|]; cbn.
  - exists [(name, labels)]. split; [done|by constructor].
  - by exists [].
Qed.
#[local] Hint Resolve counts_ret counts_now counts_audit : core.

Ltac counting :=
  repeat first
    [ done
    | apply counts_bind; [|intros ?]
    | apply counts_ctl; [|intros ?]
    | apply counts_zoom_opt; intros; reflexivity
    | match goal with |- counts (match ?x with _ => _ end) => destruct x end
    | auto ].

Lemma counts_challenge g rw r code desc acr age : counts (issueChallenge trace_of g rw r code desc acr age).
Proof. unfold issueChallenge. counting. Qed.
Lemma counts_reject {A} g rw r code desc : counts (reject trace_of g rw r code desc : M _ (ctl Response A)).
Proof. unfold reject. counting; apply counts_challenge. Qed.
#[local] Hint Resolve counts_challenge counts_reject : core.

Lemma counts_denial g rw r sub tenant res : counts (handleDenial trace_of rand g rw r sub tenant res).
Proof.
  unfold handleDenial. counting.
  - apply counts_count. split; [by left|reflexivity].
  - apply counts_count. split; [by right|reflexivity].
Qed.
#[local] Hint Resolve counts_denial : core.

Lemma counts_age c : counts (AuthAge_now c).
Proof. unfold AuthAge_now. counting. Qed.
#[local] Hint Resolve counts_age : core.

Lemma counts_Validate cfg r tok : counts (dpop_Validate cfg r tok).
Proof.
  apply counts_same. intros w. unfold dpop_Validate. destruct (gs_cache (w_st w)) eqn:E.
  - unfold zoom_opt. rewrite E. by destruct (Validate _ _ _ _).
  - unfold zoom. by destruct (Validate _ _ _ _).
Qed.
Lemma counts_profile c cfg : counts (ValidateRequest (C := CommonClaims) c cfg).
Proof. apply counts_same. intros w. by rewrite (proj2 (ValidateRequest_state c cfg w)). Qed.
#[local] Hint Resolve counts_Validate counts_profile : core.

Lemma counts_handle g rw r : counts (handle trace_of rand url_text g rw r).
Proof.
  unfold handle, authorize, limit_rate, resolve_tenant, extract_token, check_proof, get_claims, bind_issuer, bind_key,
    check_fapi, check_policy, introspect, replay, completeStepUp. counting.
Qed.

(** The guard's metrics cannot panic.  Whatever the request and the state,
    handling it appends samples of two registered counters only, each with
    exactly as many values as the counter has labels; the others that
    [NewMetrics] registers are never recorded. *)
Theorem guard_metrics_labelled g rw r w :
  exists new, samples (decide_request trace_of rand url_text g rw r w).2 = (samples w ++ new)%list /\
    Forall (fun x => (x.1 = mt_name PolicyDeniedTotal \/ x.1 = mt_name StepUpTotal) /\ well_labelled x = true) new.
Proof.
  enough (H : counts (decide_request trace_of rand url_text g rw r)) by exact (H w).
  unfold decide_request. apply counts_bind; [apply counts_handle|]. intros c. by destruct c as [|[[? ?] ?]].
Qed.
End GuardMetrics.
