(* ===== verification/Monitors.v ===== *)
(** * The locked objects: token cache, rate limiter, registry, providers, keys

    The methods of the objects that goroutines share, as code of [Locks]: the
    accesses the Go methods make, in their order, with the locks they take.
    Each object is a monitor whose calls are the operations of its component.
    Two objects are not: the policy engine, and the entries of the local
    authorization server. *)

From S2P Require Import Prelude GoString GoTime Locks Encoding Json Crypto Http Rar Matcher Policy PolicyReload Claims Effects Cache Dpop Providers Tenant RateLimit JwtValidator TokenFactory LocalAS.
Open Scope Z_scope.

(** [for k, v := range m { if gone(v) { delete(m, k) } }], in the order [l] of
    the iteration. *)
Fixpoint delete_loop {S A V} (gone : V -> bool) (del : string -> S -> S) (l : list (string * V)) (k : code S A) : code S A :=
  match l with
  | [] => k
  | (key, v) :: l' => if gone v then CWrite (del key) (delete_loop gone del l' k) else delete_loop gone del l' k
  end.

Definition deleted {S V} (gone : V -> bool) (del : string -> S -> S) (l : list (string * V)) (s : S) : S :=
  foldl (fun s kv => if gone kv.2 then del kv.1 s else s) s l.

Lemma section_delete_loop {S A V} (gone : V -> bool) del l (k : code S A) t : forall s,
  section t (delete_loop gone del l k) s = section t k (deleted gone del l s).
Proof. induction l as [|[key v] l IH]; intros s; cbn; [done|]. destruct (gone v); apply IH. Qed.

Lemma locked_delete_loop {S A V} (gone : V -> bool) del l (k : code S A) b :
  locked (Some (Writing, b)) k -> locked (Some (Writing, b)) (delete_loop gone del l k).
Proof. intros Hk. induction l as [|[key v] l IH]; cbn; [done|]. by destruct (gone v). Qed.

(** Checks that code keeps to the discipline. *)
Ltac disciplined :=
  cbn;
  repeat match goal with
  | |- _ /\ _ => split
  | |- _ = _ => reflexivity
  | |- is_Some _ => by eexists
  | |- forall _, _ => intros ?
  | |- locked _ (delete_loop _ _ _ _) => apply locked_delete_loop
  | |- context [match ?x with _ => _ end] => destruct x; cbn
  | |- locked _ _ => progress cbn
  end.

Lemma deleted_lookup {V} (gone : V -> bool) l (m : gmap string V) key :
  deleted gone delete l m !! key = if existsb (fun kv => String.eqb kv.1 key && gone kv.2) l then None else m !! key.
Proof.
  revert m. induction l as [|[k v] l IH]; intros m; cbn; [done|]. unfold deleted in IH. rewrite IH.
  destruct (String.eqb_spec k key) as [->|Hne], (gone v); cbn [andb orb]; destruct (existsb _ l); try done.
  - by rewrite lookup_delete_eq.
  - by rewrite lookup_delete_ne.
Qed.

(** Go may iterate over a map in any order. *)
Lemma deleted_filter {V} (gone : V -> bool) l (m : gmap string V) :
  l ≡ₚ map_to_list m -> deleted gone delete l m = filter (fun kv => gone kv.2 = false) m.
Proof.
  intros Hl. apply map_eq. intros key. rewrite deleted_lookup, map_lookup_filter.
  assert (Hin : forall v, (key, v) ∈ l <-> m !! key = Some v) by (intros v; by rewrite Hl, elem_of_map_to_list).
  destruct (existsb _ l) eqn:He.
  - apply existsb_exists in He as ([k v] & Hk & Hg). cbn in Hg. b2p. subst k. apply list_elem_of_In, Hin in Hk.
    rewrite Hk. cbn. destruct (gone v) eqn:Hgv; [done|congruence].
  - destruct (m !! key) as [v|] eqn:Hv; [|done]. cbn. destruct (gone v) eqn:Hg; [|by rewrite option_guard_True].
    exfalso. assert (H : existsb (fun kv => String.eqb kv.1 key && gone kv.2) l = true); [|congruence].
    apply existsb_exists. exists (key, v). split; [by apply list_elem_of_In, Hin|]. cbn. by rewrite String.eqb_refl, Hg.
Qed.

(** ** [MemoryCache] *)

Module CacheMonitor.
Inductive call :=
| GetCall (key : string)
| SetCall (key : string) (claims : CommonClaims) (ttl : Duration)
| DeleteCall (key : string)
| FlushCall
| CleanupCall.
Inductive answer := Got (c : option CommonClaims) | Stored (err : option error) | Cleaned.

Section Cache.
(** The order in which the entries are iterated. *)
Context (range_entries : gmap string memoryCacheEntry -> list (string * memoryCacheEntry)).
Hypothesis range_entries_all : forall m, range_entries m ≡ₚ map_to_list m.
Abbreviation prog := (code MemoryCache answer) (only parsing).

Definition Get_code (key : string) : prog :=
  CLock Reading (CRead (fun m => mc_entries m !! key) (fun entry =>
    match entry with
    | None => CUnlock Reading (CRet (Got None))
    | Some entry => CNow (fun now => CUnlock Reading (CRet (Got
        (if time_After now (me_expiresAt entry) then None else Some (me_claims entry)))))
    end)).

Definition Set_code (key : string) (claims : CommonClaims) (ttl : Duration) : prog :=
  CLock Writing (CNow (fun now =>
    CWrite (fun m => MkMemoryCache (<[key := MkEntry claims (time_Add now ttl)]> (mc_entries m)))
      (CUnlock Writing (CRet (Stored None))))).

Definition remove (key : string) (m : MemoryCache) : MemoryCache := MkMemoryCache (delete key (mc_entries m)).
Definition Delete_code (key : string) : prog :=
  CLock Writing (CWrite (remove key) (CUnlock Writing (CRet (Stored None)))).

Definition Flush_code : prog :=
  CLock Writing (CWrite (fun _ => MkMemoryCache ∅) (CUnlock Writing (CRet (Stored None)))).

(** One round of [cleanupLoop]. *)
Definition cleanup_code : prog :=
  CLock Writing (CNow (fun now => CRead (fun m => range_entries (mc_entries m)) (fun l =>
    delete_loop (fun e => time_After now (me_expiresAt e)) remove l (CUnlock Writing (CRet Cleaned))))).

#[local] Instance cache_monitor : Monitor call MemoryCache answer := {|
  method o := match o with
              | GetCall key => Get_code key
              | SetCall key claims ttl => Set_code key claims ttl
              | DeleteCall key => Delete_code key
              | FlushCall => Flush_code
              | CleanupCall => cleanup_code
              end;
  model o t m := match o with
                 | GetCall key => (Got (Memory.Get t key m), m)
                 | SetCall key claims ttl => let '(e, m') := Memory.Set_ t key claims ttl m in (Stored e, m')
                 | DeleteCall key => let '(e, m') := Memory.Delete t key m in (Stored e, m')
                 | FlushCall => let '(e, m') := Memory.Flush t m in (Stored e, m')
                 | CleanupCall => (Cleaned, Memory.cleanup t m)
                 end
|}.

Lemma deleted_entries (gone : memoryCacheEntry -> bool) l : forall m,
  deleted gone remove l m = MkMemoryCache (deleted gone delete l (mc_entries m)).
Proof.
  unfold deleted. induction l as [|[k e] l IH]; intros m; cbn; [by destruct m|]. rewrite IH. by destruct (gone e).
Qed.

#[local] Instance cache_monitor_laws : MonitorLaws call MemoryCache answer.
Proof using All.
  split.
  - intros [key|key c ttl|key| |]; disciplined.
  - intros [key|key c ttl|key| |]; (eexists _, _; split; [reflexivity|]); intros t m; cbn; try done.
    + unfold Memory.Get. by destruct (mc_entries m !! key).
    + rewrite section_delete_loop, deleted_entries, deleted_filter by apply range_entries_all. done.
Qed.

(** C19: The memory cache is linearizable.  However many goroutines call its
    methods, with the cleanup, and however their reads, writes and readings of
    the clock interleave: no two race for the map, no call blocks for ever, and
    the calls answer and leave the map as [Memory.Get], [Memory.Set_],
    [Memory.Delete], [Memory.Flush] and [Memory.cleanup] do one after the
    other, at readings that do not go back, each between its beginning and its
    end. *)
Theorem MemoryCache_linearizable (calls : list call) (now : Time) (m : MemoryCache) :
  linearizable calls now m.
Proof using All. apply monitor_linearizable. Qed.
End Cache.

(** A call that sets a key and one that gets it, access by access: the second
    waits for the lock, and answers the claims. *)
Definition demo_claims : CommonClaims := claims_extra None.
Definition demo_calls : list call := [SetCall "k" demo_claims Hour; GetCall "k"].
Definition demo_start : shared MemoryCache * list (code MemoryCache answer) :=
  start 0 Memory.NewMemoryCache
    (map (method (Monitor := cache_monitor map_to_list)) demo_calls).
Definition demo_schedule : list (nat * Time) :=
  [(0%nat, 0); (0%nat, 5); (0%nat, 0); (0%nat, 0); (1%nat, 0); (1%nat, 0); (1%nat, 7); (1%nat, 0)].
Definition demo_answers : option (list (option answer)) :=
  p ← run_schedule demo_schedule demo_start; Some (map (fun c => match c with CRet a => Some a | _ => None end) p.2).

Example MemoryCache_linearizable_witness :
  demo_answers = Some [Some (Stored None); Some (Got (Some demo_claims))] /\
  linearizable (Monitor0 := cache_monitor map_to_list) demo_calls 0 Memory.NewMemoryCache.
Proof.
  split; [vm_compute; reflexivity|]. apply MemoryCache_linearizable. intros m. reflexivity.
Defined.
End CacheMonitor.

(** ** [rateLimiter] *)

Module LimiterMonitor.
(** [allow] and the cleanup read the clock before they lock. *)
Inductive call := AllowCall (now : Time) (key : string) | CleanupCall (now : Time).

Section Limiter.
Context {F : Type} `{!GoFloat F}.
Context (range_buckets : gmap string (bucket F) -> list (string * bucket F)).
Hypothesis range_buckets_all : forall m, range_buckets m ≡ₚ map_to_list m.
Abbreviation prog := (code (rateLimiter F) bool) (only parsing).

Definition set_buckets (f : gmap string (bucket F) -> gmap string (bucket F)) (rl : rateLimiter F) : rateLimiter F :=
  MkLimiter (rl_rps rl) (rl_burst rl) (f (rl_buckets rl)).
(** [b.tokens = f(b.tokens)] through the pointer [b] found for [key]. *)
Definition upd_tokens (key : string) (f : F -> F) : rateLimiter F -> rateLimiter F :=
  set_buckets (alter (fun b => MkBucket (f (bk_tokens b)) (bk_lastSeen b)) key).
Definition upd_lastSeen (key : string) (now : Time) : rateLimiter F -> rateLimiter F :=
  set_buckets (alter (fun b => MkBucket (bk_tokens b) now) key).
Definition tokens_of (key : string) (rl : rateLimiter F) : F :=
  match rl_buckets rl !! key with Some b => bk_tokens b | None => f_of_int 0 end.

(** [allow] under the lock. *)
Definition allow_body (now : Time) (key : string) : prog :=
  CRead (fun rl => (rl_buckets rl !! key, rl_rps rl, rl_burst rl)) (fun '(b, rps, burst) =>
    match b with
    | None => CWrite (set_bucket key (MkBucket (f_sub burst (f_of_int 1)) now)) (CUnlock Writing (CRet true))
    | Some b =>
        let elapsed := Duration_Seconds (time_Sub now (bk_lastSeen b)) in
        CWrite (upd_tokens key (fun tokens => f_add tokens (f_mul elapsed rps)))
          (CRead (tokens_of key) (fun tokens =>
             let rest : prog :=
               CWrite (upd_lastSeen key now) (CRead (tokens_of key) (fun tokens =>
                 if f_lt tokens (f_of_int 1) then CUnlock Writing (CRet false)
                 else CWrite (upd_tokens key (fun tokens => f_sub tokens (f_of_int 1))) (CUnlock Writing (CRet true)))) in
             if f_lt burst tokens then CWrite (upd_tokens key (fun _ => burst)) rest else rest))
    end).
Definition allow_code (now : Time) (key : string) : prog := CLock Writing (allow_body now key).

Definition remove (key : string) : rateLimiter F -> rateLimiter F := set_buckets (delete key).
Definition cleanup_code (now : Time) : prog :=
  let cutoff := time_Add now (- 5 * Minute) in
  CLock Writing (CRead (fun rl => range_buckets (rl_buckets rl)) (fun l =>
    delete_loop (fun b => time_Before (bk_lastSeen b) cutoff) remove l (CUnlock Writing (CRet true)))).

#[local] Instance limiter_monitor : Monitor call (rateLimiter F) bool := {|
  method o := match o with AllowCall now key => allow_code now key | CleanupCall now => cleanup_code now end;
  model o _ rl := match o with AllowCall now key => allow now key rl | CleanupCall now => (true, cleanup now rl) end
|}.

Lemma upd_tokens_set key f b (rl : rateLimiter F) :
  upd_tokens key f (set_bucket key b rl) = set_bucket key (MkBucket (f (bk_tokens b)) (bk_lastSeen b)) rl.
Proof. unfold upd_tokens, set_buckets, set_bucket. cbn. by rewrite alter_insert_eq. Qed.
Lemma upd_lastSeen_set key now b (rl : rateLimiter F) :
  upd_lastSeen key now (set_bucket key b rl) = set_bucket key (MkBucket (bk_tokens b) now) rl.
Proof. unfold upd_lastSeen, set_buckets, set_bucket. cbn. by rewrite alter_insert_eq. Qed.
Lemma tokens_of_set key b (rl : rateLimiter F) : tokens_of key (set_bucket key b rl) = bk_tokens b.
Proof. unfold tokens_of, set_bucket. cbn. by rewrite lookup_insert_eq. Qed.
Lemma upd_tokens_found key f b (rl : rateLimiter F) :
  rl_buckets rl !! key = Some b -> upd_tokens key f rl = set_bucket key (MkBucket (f (bk_tokens b)) (bk_lastSeen b)) rl.
Proof.
  intros H. unfold upd_tokens, set_buckets, set_bucket. f_equal. apply map_eq. intros k.
  destruct (decide (k = key)) as [->|Hne]; [by rewrite lookup_alter_eq, lookup_insert_eq, H|].
  by rewrite lookup_alter_ne, lookup_insert_ne.
Qed.

Lemma deleted_buckets (gone : bucket F -> bool) l : forall rl,
  deleted gone remove l rl = set_buckets (deleted gone delete l) rl.
Proof.
  unfold deleted. induction l as [|[k b] l IH]; intros rl; cbn; [by destruct rl|]. rewrite IH. by destruct (gone b).
Qed.

Lemma section_allow now key t (rl : rateLimiter F) :
  section t (allow_body now key) rl = (CRet (allow now key rl).1, (allow now key rl).2).
Proof.
  unfold allow_body, allow. cbn [section]. destruct (rl_buckets rl !! key) as [b|] eqn:Hb; [|done].
  cbv zeta. cbn [section]. rewrite (upd_tokens_found key _ b) by done. rewrite tokens_of_set. cbn [bk_tokens bk_lastSeen].
  destruct (f_lt (rl_burst rl) _); cbn [section]; rewrite ?upd_tokens_set, upd_lastSeen_set, tokens_of_set;
    cbn [bk_tokens bk_lastSeen]; destruct (f_lt _ (f_of_int 1)); cbn [section]; by rewrite ?upd_tokens_set.
Qed.

#[local] Instance limiter_monitor_laws : MonitorLaws call (rateLimiter F) bool.
Proof using All.
  split.
  - intros [now key|now]; disciplined.
  - intros [now key|now]; (eexists _, _; split; [reflexivity|]); intros t rl; cbn [model limiter_monitor fst snd].
    + apply section_allow.
    + cbn [section]. rewrite section_delete_loop, deleted_buckets. unfold set_buckets.
      rewrite deleted_filter by apply range_buckets_all. done.
Qed.

Lemma limiter_linearizable (calls : list call) (now : Time) (rl : rateLimiter F) : linearizable calls now rl.
Proof using All. apply monitor_linearizable. Qed.
End Limiter.
End LimiterMonitor.

(** ** [Registry] *)

Module RegistryMonitor.
Inductive call (P : Type) :=
| RegisterCall (tenantID : string) (provider : P) | UnregisterCall (tenantID : string)
| GetCall (tenantID : string) | ListCall.
Arguments RegisterCall {P} _ _.
Arguments UnregisterCall {P} _.
Arguments GetCall {P} _.
Arguments ListCall {P}.
Inductive answer (P : Type) := Done | Found (p : res P) | Listed (ids : list string).
Arguments Done {P}.
Arguments Found {P} _.
Arguments Listed {P} _.

Section Registry.
Context {U : Unicode} {P : Type}.
Abbreviation prog := (code (Registry P) (answer P)) (only parsing).

Definition Register_code (tenantID : string) (provider : P) : prog :=
  CLock Writing (CWrite (fun r => MkRegistry (<[tenantID := provider]> (rg_tenants r))) (CUnlock Writing (CRet Done))).
Definition Unregister_code (tenantID : string) : prog :=
  CLock Writing (CWrite (fun r => MkRegistry (delete tenantID (rg_tenants r))) (CUnlock Writing (CRet Done))).
Definition Get_code (tenantID : string) : prog :=
  CLock Reading (CRead (fun r => rg_tenants r !! tenantID) (fun cfg =>
    CUnlock Reading (CRet (Found
      match cfg with
      | None => Err (errorf ("tenant " +:+ Quote tenantID +:+ " not found in registry"))
      | Some provider => Ok provider
      end)))).
Definition List_code : prog :=
  CLock Reading (CRead (fun r => map_to_list (rg_tenants r)) (fun l => CUnlock Reading (CRet (Listed (map fst l))))).

#[local] Instance registry_monitor : Monitor (call P) (Registry P) (answer P) := {|
  method o := match o with
              | RegisterCall tenantID provider => Register_code tenantID provider
              | UnregisterCall tenantID => Unregister_code tenantID
              | GetCall tenantID => Get_code tenantID
              | ListCall => List_code
              end;
  model o _ r := match o with
                 | RegisterCall tenantID provider => (Done, Register tenantID provider r)
                 | UnregisterCall tenantID => (Done, Unregister tenantID r)
                 | GetCall tenantID => (Found (Registry_Get tenantID r), r)
                 | ListCall => (Listed (Registry_List r), r)
                 end
|}.

#[local] Instance registry_monitor_laws : MonitorLaws (call P) (Registry P) (answer P).
Proof.
  split.
  - intros [tenantID provider|tenantID|tenantID|]; disciplined.
  - intros [tenantID provider|tenantID|tenantID|]; (eexists _, _; split; [reflexivity|]); by intros t r.
Qed.

Lemma registry_linearizable (calls : list (call P)) (now : Time) (r : Registry P) : linearizable calls now r.
Proof. apply monitor_linearizable. Qed.
End Registry.
End RegistryMonitor.

(** ** The adapter of the providers *)

Module AdapterMonitor.
(** The accesses of [Issuer], [Introspect] and [JWKS], and the last one of
    [RefreshConfig]: the requests are made without the lock. *)
Inductive call := IssuerCall | IntrospectorCall | DiscoveryCall | RefreshCall (doc : OIDCDiscovery).
Inductive answer := Issued (iss : string) | Introspects (i : option IntrospectorConfig)
  | Discovered (d : option OIDCDiscovery) | Refreshed.
Abbreviation prog := (code Adapter answer) (only parsing).

Definition Issuer_code : prog :=
  CLock Reading (CRead ga_discovery (fun disc =>
    match disc with
    | Some _ => CRead ga_discovery (fun disc => CUnlock Reading (CRet (Issued
                  match disc with Some d => od_Issuer d | None => EmptyString end)))
    | None => CUnlock Reading (CRet (Issued EmptyString))
    end)).
Definition introspector_code : prog :=
  CLock Reading (CRead ga_introspector (fun intro => CUnlock Reading (CRet (Introspects intro)))).
Definition discovery_code : prog :=
  CLock Reading (CRead ga_discovery (fun disc => CUnlock Reading (CRet (Discovered disc)))).
Definition introspector_of (cfg : GenericConfig) (doc : OIDCDiscovery) : IntrospectorConfig :=
  NewIntrospector (MkIntrospectorConfig (od_IntrospectionEndpoint doc) (gc_ClientID cfg) (gc_ClientSecret cfg) 0).
Definition refresh_code (doc : OIDCDiscovery) : prog :=
  CLock Writing
    (CWrite (fun a => MkAdapter (ga_cfg a) (Some doc) (ga_introspector a))
      (CWrite (fun a => MkAdapter (ga_cfg a) (ga_discovery a) (Some (introspector_of (ga_cfg a) doc)))
        (CUnlock Writing (CRet Refreshed)))).

#[local] Instance adapter_monitor : Monitor call Adapter answer := {|
  method o := match o with
              | IssuerCall => Issuer_code
              | IntrospectorCall => introspector_code
              | DiscoveryCall => discovery_code
              | RefreshCall doc => refresh_code doc
              end;
  model o _ a := match o with
                 | IssuerCall => (Issued (Generic.Issuer a), a)
                 | IntrospectorCall => (Introspects (ga_introspector a), a)
                 | DiscoveryCall => (Discovered (ga_discovery a), a)
                 | RefreshCall doc => (Refreshed, MkAdapter (ga_cfg a) (Some doc) (Some (introspector_of (ga_cfg a) doc)))
                 end
|}.

#[local] Instance adapter_monitor_laws : MonitorLaws call Adapter answer.
Proof.
  split.
  - intros [| | |doc]; disciplined.
  - intros [| | |doc]; (eexists _, _; split; [reflexivity|]); intros t a; cbn; try done.
    unfold Generic.Issuer. destruct (ga_discovery a) as [d|] eqn:E; cbn; by rewrite ?E.
Qed.

(** The document and the introspector change together. *)
Lemma adapter_linearizable (calls : list call) (now : Time) (a : Adapter) : linearizable calls now a.
Proof. apply monitor_linearizable. Qed.
End AdapterMonitor.

(** ** The keys of the JWT validator *)

Module KeysMonitor.
(** [lookupKey], and the last accesses of [fetchJWKS]. *)
Inductive call := LookupCall (kid : string) | StoreCall (keys : gmap string PublicKey).
Inductive answer := Key (r : res PublicKey) | Kept.

Section Keys.
Context {U : Unicode} (v : JWTValidator).
Abbreviation prog := (code JWTState answer) (only parsing).

Definition lookup_code (kid : string) : prog :=
  let missing := Err (errorf ("key " +:+ Quote kid +:+ " not found in JWKS cache")) in
  CLock Reading (CRead (fun st => js_keySet st !! kid) (fun key =>
    CRead js_fetchedAt (fun fetchedAt => CNow (fun now => CUnlock Reading (
      let expired := jv_cacheTTL v <? time_Since now fetchedAt in
      CRet (Key match key with Some key => if negb expired then Ok key else missing | None => missing end)))))).
Definition store_code (keys : gmap string PublicKey) : prog :=
  CLock Writing
    (CWrite (fun st => MkJWTState keys (js_fetchedAt st) (js_requests st))
      (CNow (fun now => CWrite (fun st => MkJWTState (js_keySet st) now (js_requests st))
        (CUnlock Writing (CRet Kept))))).

#[local] Instance keys_monitor : Monitor call JWTState answer := {|
  method o := match o with LookupCall kid => lookup_code kid | StoreCall keys => store_code keys end;
  model o t st := match o with
                  | LookupCall kid => (Key (lookupKey v kid (World (fun _ => t) 0 st)).1, st)
                  | StoreCall keys => (Kept, MkJWTState keys t (js_requests st))
                  end
|}.

#[local] Instance keys_monitor_laws : MonitorLaws call JWTState answer.
Proof.
  split.
  - intros [kid|keys]; disciplined.
  - intros [kid|keys]; (eexists _, _; split; [reflexivity|]); intros t st; cbn; done.
Qed.

Lemma keys_linearizable (calls : list call) (now : Time) (st : JWTState) : linearizable calls now st.
Proof. apply monitor_linearizable. Qed.
End Keys.
End KeysMonitor.

(** ** Objects without the discipline *)

Module Races.
(** [Evaluate] begins by reading the pointer [Reload] writes. *)
Definition read_config_code : code Engine Engine := CRead (fun e => e) CRet.
Definition reload_code (cfg : Engine) : code Engine Engine := CWrite (fun e => Reload e cfg) (CRet cfg).

(** An evaluation and a reload race for the configuration. *)
Lemma reload_races (e cfg : Engine) : racing (start 0 e [read_config_code; reload_code cfg]).2.
Proof. by exists 1%nat, 0%nat, (reload_code cfg), read_config_code, false. Qed.

(** The tokens of the local authorization server: pointers to entries. *)
Record heap := MkHeap { hp_tokens : gmap string nat; hp_entries : gmap nat tokenEntry }.
Definition revoke_at (p : nat) (h : heap) : heap := MkHeap (hp_tokens h) (alter revoke_entry p (hp_entries h)).

(** [handleIntrospect] looks the pointer up under the lock, and reads the entry
    behind it after releasing it; [handleRevoke] writes the entry under the
    lock. *)
Definition introspect_code (raw : string) : code heap bool :=
  CLock Reading (CRead (fun h => hp_tokens h !! raw) (fun p => CUnlock Reading
    match p with
    | None => CRet false
    | Some p => CRead (fun h => hp_entries h !! p) (fun e =>
        match e with
        | Some e => if te_revoked e then CRet false else CNow (fun now => CRet (negb (time_After now (te_expiresAt e))))
        | None => CRet false
        end)
    end)).
Definition revoke_code (raw : string) : code heap bool :=
  CLock Writing (CRead (fun h => hp_tokens h !! raw) (fun p =>
    match p with
    | Some p => CWrite (revoke_at p) (CUnlock Writing (CRet true))
    | None => CUnlock Writing (CRet true)
    end)).

Definition one_token : heap :=
  MkHeap {["tok" := 0%nat]} {[0%nat := MkTokenEntry "tok" "alice" [] EmptyString Hour false]}.

(** An introspection and a revocation of a token race for its entry. *)
Lemma introspect_revoke_race :
  exists p, rtc cstep (start 0 one_token [introspect_code "tok"; revoke_code "tok"]) p /\ racing p.2.
Proof.
  eexists. split.
  - apply (schedule_steps (map (fun i => (i, 0)) [0; 0; 0; 1; 1]%nat)). vm_compute. reflexivity.
  - eexists 1%nat, 0%nat, _, _, false. split; [lia|]. repeat (split; [reflexivity|]). reflexivity.
Qed.
End Races.
